(* ===== verification/_CoqProject ===== *)
-Q . S2P
Prelude.v
CLib.v
Outcome.v
Mem.v
Strbuf.v
ConnIf.v
ConnIO.v
ConnIOFacts.v
CopyEnds.v
Sim.v
ConnIOProps.v
Uthash.v
UthashMore.v
Regex.v
NetData.v
HttpGrammar.v
NetDataFacts.v
NetDone.v
Headers.v
NetProps.v
Fetch.v
NetHttp.v
BodyProps.v
Relay.v
RelayProps.v
AlwaysIO.v
Table.v
Event.v
EventProps.v
Async.v
NetPull.v
NetPullProps.v
Registry.v
World.v
Conn.v
ConnLink.v
ConnPool.v
DemoKernel.v
ConnLoop.v
ConnProps.v
Server.v
NetUtils.v
NetHandle.v
AlwaysWorld.v
NetHandleProps.v
QueueProps.v
Arg.v
Log.v
Proxy.v
Text.v
Wrappers.v
Rio.v
RioProps.v
OpenFd.v
Utstring.v
Kmp.v
UtstringProps.v
UtstringLife.v
Utlist.v
ListRep.v
UtlistSort.v
UtlistProps.v
CdlProps.v
UtlistLoops.v
UthashLinks.v
UthashFsck.v
UthashSelect.v
Utarray.v
UtarrayProps.v
UtarrayMore.v
Accept.v
Coroutine.v
AcceptProps.v
Main.v
AlwaysRun.v
Waiting.v
ReplayFacts.v
ServerProps.v
RunProps.v
