(* ===== verification/Prelude.v ===== *)
(** * http-proxy: a verification library

    The program (src/core/) is a forwarding HTTP/1.x proxy: one thread, an epoll
    loop, and two coroutines for each client connection, one that reads requests
    and forwards them to servers and one that returns the responses in order.

    ** Parts, and how they interact

    - Main loop (main.c): alternates [event_work] (event.c: a queue of posted
      events) and [net_pull_work] (net_pull.c: epoll).  Both call handlers; the
      handlers of conn.c resume the coroutine that waits (async.c) and park it
      again for what it yields next.
    - Connections (conn.c, mem.c): reference counted sockets with a read buffer
      and a pool of idle server connections; conn_io.c gives them blocking
      reads and writes by yielding on [EAGAIN].
    - Messages (strbuf.c, net_data.c over uthash.h): the start line and headers
      of a message in one growable buffer, with a hash table of offsets; the
      patterns that cut them up; the header written back.
    - Protocol (net_handle.c, net_http.c, net_utils.c): reading messages,
      dispatch on the method, connecting to servers with name resolution, the
      two coroutines, forwarding of bodies.
    - Surroundings: command line (arg.c), log (log.c), [main] and [parse_uri]
      (proxy.c).
    - Libraries in the repository: uthash (of which the proxy uses uthash.h) and
      csapp.c, of which nothing in the proxy calls anything.

    ** Files

    Foundations.  Prelude: tactics and list lemmas.  CLib: C integers, arrays of
    possibly unwritten cells, C strings, [atoi], [sscanf("%x")], [sprintf("%d")],
    [strncpy].  Outcome: the state monad [M] whose runs end in a value, in
    undefined behaviour ([Undef]) or out of fuel, with weakest preconditions ([wp])
    and invariants ([always]).
    Mem (mem.c on the blocks of [malloc]; elsewhere objects are values with their
    count beside them).
    Table: tables with distinct keys as ordered association lists.

    Messages.  Strbuf (strbuf.c).  Uthash (the macros of uthash.h the proxy
    expands: Jenkins hash, buckets, expansion), UthashMore (its other hash
    functions, [HASH_CLEAR]).  (UthashLinks, UthashFsck and UthashSelect are with
    the libraries.)  Regex (POSIX [regcomp] and
    [regexec] for the five patterns: leftmost-longest matching with captures).
    NetData (net_data.c), HttpGrammar (what the patterns accept), NetDataFacts,
    NetDone ([net_data_done]), Headers (a message as a list of headers), NetProps
    (requests and responses).

    Input and output.  ConnIf: [struct conn], and the interface ([ConnEnv],
    [ConnObs], [ConnLaws]) of sockets, suspension and connections that clients
    are proved against.  ConnIO (conn_io.c), ConnIOFacts, CopyEnds (why a copy ends),
    Sim (a scripted world that satisfies the interface), ConnIOProps.  Fetch ([net_fetch_headers],
    [net_fetch_http], error replies, forwarding of headers), NetHttp
    ([net_transfer_body_HTTP_1_1]), BodyProps.  Relay (one response from a server
    to the client, up to its body; tunnels), RelayProps.  AlwaysIO: these routines
    keep whatever the operations of the interface keep.

    Event loop.  Event (event.c), EventProps.  Async (async.c, with its
    specification).  NetPull (net_pull.c and [proxy_epoll_err]), NetPullProps.
    Registry (what holds of the registry although descriptors are also closed
    behind its back).
    World: the variables of all modules over the state of the kernel, whose calls
    are the class [Kernel].  Conn (conn.c and the reference counts of mem.c),
    ConnLink (conn.c implements the interface ConnIf: [world_env], [world_laws]),
    ConnPool (the doubly linked pool lists), DemoKernel (a concrete kernel),
    ConnLoop ([conn_async_final] and the handlers that resume coroutines),
    ConnProps.  Server ([conn_module_init], [conn_module_done]), ServerProps.

    Protocol.  NetUtils ([net_dns_lookup_a] and the signal descriptor).  NetHandle
    (net_handle.c and the handlers of net_http.c), NetHandleProps, QueueProps (the
    order of the responses).  AlwaysWorld: every function of the modules keeps what
    the kernel, the registry and the other coroutines keep.

    The whole.  Accept ([conn_accept_handler]: clients and their two coroutines).
    Coroutine (machine contexts: the coroutines of net_handle.c run from one yield
    to the next), AcceptProps (what becomes of accepted clients).  Main (main.c:
    initialisation, the functions behind the handlers, the main loop, shutdown,
    signals; [main]).  AlwaysRun, Waiting, ReplayFacts (what the main loop
    keeps when coroutines run in pieces), RunProps (what holds in every state the
    main loop reaches, and whole runs on the kernel of DemoKernel).

    Surroundings.  Arg (arg.c), Log (log.c), Proxy ([parse_uri]), Text (the
    functions that format text: addresses, the line of a request,
    [format_log_entry]).

    Libraries.  Wrappers (the functions of csapp.c that wrap one call of the C
    library, and its error functions), Rio and RioProps (the Rio package), OpenFd
    ([open_clientfd], [open_listenfd]).  Utstring (utstring.h), Kmp (its search),
    UtstringProps, UtstringLife (strings from [utstring_new] to [utstring_free]).
    Utlist (utlist.h), ListRep (lists of nodes in the heap), UtlistSort (merge sort),
    UtlistProps, CdlProps (circular lists), UtlistLoops (loops safe for deletion, the
    variants for old compilers).  UthashLinks (the links of the elements of a hash table
    and of its buckets, [HASH_SORT]), UthashFsck (the whole table linked in memory, its
    expansion included, and [HASH_FSCK]), UthashSelect ([HASH_SELECT], [HASH_REPLACE], the
    bloom filter).  Utarray (utarray.h), UtarrayProps, UtarrayMore (making, sorting,
    searching; arrays of strings).

    ** Conventions

    Definitions carry the names of the code.  Pointers are positives ([None] is
    null) into finite maps of allocated objects; a freed object is absent, and
    reading it is [Undef].  [malloc] returns an address that is not in use, so
    freed addresses come back.  An [int] is a [Z] wrapped by [wrap32], or its
    overflow is [Undef] where the code relies on it not to happen.  [option]
    results of the message routines are [None] for undefined behaviour.  Log
    output is left out, except that log.c is modelled by itself.

    Loops take fuel.  Every theorem about a loop gives an amount that is enough:
    reading loops need the bytes and stalls still to come from the peer
    ([budget], [stalls]: peers send finitely much and stall finitely often)
    plus the length limit of a line; [event_work] needs the queue plus what
    handlers may still post ([mu]).  The results hold for all larger fuels.

    Code outside src/ is a parameter: system calls, epoll, [getaddrinfo_a], saved
    machine contexts and the code run from them, the handlers of the event loop.
    What the proofs use of them is in [ConnLaws], [KernelLaws], [KernelPull],
    [KernelOpen], [PullLaws] and [SuspendLaw]; Sim and DemoKernel satisfy them.

    Coroutines occur in two ways.  In NetHandle their code runs to its end, and a
    suspension is a call of the parameter [suspend], which stands for all that
    happens meanwhile; theorems about one call of a handler are proved of that.
    The main loop in Main runs them from one yield to the next, as async.c does,
    by the class [Coroutines].  Its instance [thread_code] is the code of NetHandle
    again: a saved context is the function with the states it was entered in, and
    entering it runs the function again up to the yield where it stopped and from
    there on the present state.  So the theorems of RunProps on the states the
    main loop reaches are about the coroutines of net_handle.c and not about an
    arbitrary program.

    ** What the theorems show

    - Messages: a request with an absolute URI, with a relative one or for
      CONNECT is accepted, routed to its host and port, and forwarded with its
      headers in order; responses likewise; malformed start lines are refused;
      parsing a request is free of undefined behaviour; a header name of 32
      characters is not ([long_header_name_undefined]).
    - Input and output: [conn_gets] reads exactly one line, [conn_write] sends
      everything or the connection is closed, [conn_copy] passes on exactly what
      it was asked for, [conn_ungetc] undoes [conn_getc], [net_fetch_http] reads
      exactly one header section, bodies are passed on by length or in chunks; and
      when a body fails, what the output has accepted of it is the beginning of it.
    - Event loop: the event queue is first-in first-out and leaks nothing;
      async.c implements a specification of coroutines; the registry of
      descriptors is in step with the kernel's epoll set; a coroutine that was
      resumed has finished or is registered for what it waits for.
    - Responses: one call of the response handler relays one response, or the
      beginning of it when its body fails ([response_relayed]); requests are served in their order
      ([responses_in_order]); a tunnel ends for a cause only, one of its sides or the end of
      the program ([tunnel_relays]); and the test for HEAD plays no part
      ([response_ignores_method]).
    - Connections: the pool is a stack for each endpoint, with its references;
      it is released at the end; the servers are opened on every usable
      address.  Three theorems exhibit lifetime errors of the code
      ([decref_closes_again], [closed_server_released],
      [connect_failure_leaks]).  By itself mem.c counts as it should and frees each
      object once ([mem_counts]).  [exit_flag_never_set] tells why the
      request coroutine may wait for an event nobody posts.
    - Clients: [conn_accept_handler] serves every client that waits, each with its
      two coroutines suspended for queued events, up to the first error
      ([accept_serves_backlog]).
    - Whole runs: in every state the main loop reaches the kernel watches
      registered descriptors only, no coroutine runs and each waits for something
      ([registry_throughout], [contexts_wait]).  Examples on the kernel of
      DemoKernel run the whole program on scripts: one session that frees all it
      allocated ([session_completes]), one with a response of HTTP/1.0 that leaves the
      request coroutine behind ([http10_strands_request]), one where the two
      coroutines wait for each other in the end ([exit_notice_lost]).
    - Protocol and surroundings: dispatch on the method, the option parser, the
      bounds of a log line, [parse_uri].
    - Libraries: the buckets of uthash implement an association list in insertion
      order ([ut_refines_alist]), the links of a whole table in memory implement these buckets
      through every expansion, and [HASH_FSCK] finds all counts and links right
      whatever is added and deleted ([fsck_passes]), the links of its lists implement the lists of that model ([links_refine]),
      [HASH_SORT] is a stable sort that loses no key ([hash_srt_sorts]),
      [HASH_SELECT] selects but leaves a table that cannot be added to
      ([hash_select_selects], [select_then_add_loses]), the bloom filter never
      changes the result of a search unless [HASH_SELECT] was used ([bloom_exact],
      [bloom_misses_selected]), and the hash functions stay within an [unsigned].
      The linked lists, circular ones included, implement lists and their sort is a
      stable sort; a loop may delete the node it is at ([foreach_safe_deletes]).
      The arrays implement sequences, except that they cannot be resized with an
      initialiser ([utarray_resize_null]); strings append what they are given, the
      search in them finds the first occurrence.  Every wrapper of csapp.c performs
      its call once and ends the process when it fails, except [Close], [Pause] and
      [Pthread_once], which ignore a failure ([wrappers_exit]); Rio
      delivers every byte once and in order.

    ** Not modelled, and why

    - Signals that arrive in the middle of a step.  [sig_handler] calls [proxy_done]
      from wherever the program is, with the queue, the registry or a list half
      changed; Main has what happens between two steps ([deliver]).
    - What only frees or writes at the end or for measurements:
      [net_data_module_done], [HASH_EMIT_KEY], the text of the log messages.
    - The macros of uthash that only fill in arguments of others ([HASH_ADD_STR] and
      the like) are their expansions; [net_connect] returns -1 and nothing calls it.
    - The list of pending requests in [net_handle_cxt] is kept as a list; the linked
      representation is that of Event, and of Utlist in general.
    - Two invariants one would like do not hold of this code, and the theorems above
      say where they break: the reference counts do not balance over every session
      ([closed_server_released], [http10_strands_request], [exit_notice_lost]); and handlers of events are not one-shot,
      so that a coroutine can be resumed by an event it no longer waits for
      ([contexts_wait] is what holds of the contexts). *)

From stdpp Require Export base tactics list list_numbers numbers strings gmap.
From Stdlib Require Export ZArith Lia Ascii.

#[export] Set Default Proof Using "Type".

Declare Scope proxy_scope.
Delimit Scope proxy_scope with proxy.

(** ** Tactics of the development *)

(** Split every [if]/[match] on a boolean or decidable test of the goal or of
    the hypotheses, and close the arithmetic branches. *)
Ltac case_tests :=
  repeat (case_decide || case_match; simplify_eq/=; try (exfalso; lia)).

(** Turn the boolean integer comparisons of the context into propositions. *)
Ltac bool_prop :=
  repeat match goal with
  | H : (_ && _)%bool = true |- _ => apply andb_true_iff in H as [??]
  | H : (_ && _)%bool = false |- _ => apply andb_false_iff in H
  | H : (_ || _)%bool = true |- _ => apply orb_true_iff in H
  | H : (_ || _)%bool = false |- _ => apply orb_false_iff in H as [??]
  | H : negb _ = true |- _ => apply negb_true_iff in H
  | H : negb _ = false |- _ => apply negb_false_iff in H
  | H : (_ <=? _)%Z = true |- _ => apply Z.leb_le in H
  | H : (_ <=? _)%Z = false |- _ => apply Z.leb_gt in H
  | H : (_ <? _)%Z = true |- _ => apply Z.ltb_lt in H
  | H : (_ <? _)%Z = false |- _ => apply Z.ltb_ge in H
  | H : (_ =? _)%Z = true |- _ => apply Z.eqb_eq in H
  | H : (_ =? _)%Z = false |- _ => apply Z.eqb_neq in H
  | H : bool_decide _ = true |- _ => apply bool_decide_eq_true in H
  | H : bool_decide _ = false |- _ => apply bool_decide_eq_false in H
  end.

(** Inversion of a successful computation in the option monad: every bound
    value gets its equation. *)
Ltac opt_inv :=
  repeat match goal with
  | H : mbind _ _ = Some _ |- _ => apply bind_Some in H as (?&?&H)
  | H : _ <$> _ = Some _ |- _ => apply fmap_Some in H as (?&?&H)
  | H : (if decide ?P then _ else None) = Some _ |- _ =>
      destruct (decide P); [|discriminate H]
  | H : (if ?b then _ else None) = Some _ |- _ =>
      destruct b eqn:?; [|discriminate H]
  end; simplify_eq/=.

(** ** Lists *)

Section lists.
Context {A : Type}.
Implicit Types (l s t : list A) (x : A).

Lemma drop_nil_length l n : drop n l = [] -> length l <= n.
Proof. intros H. pose proof (length_drop l n) as E. rewrite H in E. simpl in E. lia. Qed.

(** The part of a list before the first occurrence of a separator is
    determined by the list. *)
Lemma first_sep_inj x s1 s2 t1 t2 :
  x ∉ s1 -> x ∉ s2 -> s1 ++ x :: t1 = s2 ++ x :: t2 -> s1 = s2 /\ t1 = t2.
Proof.
  revert s2. induction s1 as [|a s1 IH]; intros [|b s2] H1 H2 E; simplify_eq/=.
  - done.
  - by rewrite list_elem_of_In in H2; destruct H2; left.
  - by rewrite list_elem_of_In in H1; destruct H1; left.
  - destruct (IH s2) as [-> ->]; [| |done|done].
    + intros ?; apply H1; by right.
    + intros ?; apply H2; by right.
Qed.

(** The same for the last occurrence. *)
Lemma last_sep_inj x s1 s2 t1 t2 :
  x ∉ t1 -> x ∉ t2 -> s1 ++ x :: t1 = s2 ++ x :: t2 -> s1 = s2 /\ t1 = t2.
Proof.
  intros H1 H2 E. apply (f_equal reverse) in E.
  rewrite !reverse_app, !reverse_cons, <-!app_assoc in E. simpl in E.
  apply first_sep_inj in E as [E1 E2].
  - split; by apply (inj reverse).
  - by rewrite elem_of_reverse.
  - by rewrite elem_of_reverse.
Qed.

(** A list whose elements satisfy [P], followed by one that does not, is
    determined as the longest such prefix. *)
Lemma span_inj (P : A -> Prop) x y s1 s2 t1 t2 :
  Forall P s1 -> Forall P s2 -> ~ P x -> ~ P y ->
  s1 ++ x :: t1 = s2 ++ y :: t2 -> s1 = s2 /\ x = y /\ t1 = t2.
Proof.
  intros H1. revert s2.
  induction H1 as [|a s1 Ha H1 IH]; intros [|b s2] H2 Hx Hy E;
    simplify_eq/=; try done; inv H2; try done.
  destruct (IH s2) as (->&->&->); auto.
Qed.

Lemma filter_all (P : A -> Prop) `{!forall x, Decision (P x)} l :
  Forall P l -> filter P l = l.
Proof. induction 1; [done|]. by rewrite filter_cons_True, IHForall. Qed.

Lemma Forall_filter (P Q : A -> Prop) `{!forall x, Decision (Q x)} l :
  Forall P l -> Forall P (filter Q l).
Proof. rewrite !Forall_forall. intros HP x [_ ?]%list_elem_of_filter. auto. Qed.

Lemma NoDup_fmap_inj {B} (f : A -> B) l x y :
  NoDup (f <$> l) -> x ∈ l -> y ∈ l -> f x = f y -> x = y.
Proof.
  intros Hnd [i Hi]%list_elem_of_lookup [j Hj]%list_elem_of_lookup E.
  assert (i = j) as <-; [|congruence].
  eapply NoDup_lookup; [exact Hnd| |]; rewrite list_lookup_fmap.
  - by rewrite Hi.
  - rewrite Hj. simpl. by rewrite E.
Qed.

Lemma NoDup_fmap_sub {B} (f : A -> B) l l' :
  NoDup (f <$> l) -> NoDup l' -> (forall x, x ∈ l' -> x ∈ l) -> NoDup (f <$> l').
Proof.
  intros Hnd Hnd' Hsub. apply NoDup_fmap_2_strong; [|done].
  intros x y Hx Hy. eapply NoDup_fmap_inj; eauto.
Qed.

(** Removing one element, identified by a key, from a list. *)
Lemma length_filter_key {B} `{!EqDecision B} (f : A -> B) l x :
  NoDup (f <$> l) -> x ∈ l ->
  Z.of_nat (length (filter (fun y => f y <> f x) l)) = (Z.of_nat (length l) - 1)%Z.
Proof.
  induction l as [|y l IH]; [by intros _ ?%elem_of_nil|]. intros Hnd Hin.
  rewrite fmap_cons in Hnd. apply NoDup_cons in Hnd as [Hy Hnd]. rewrite filter_cons.
  apply elem_of_cons in Hin as [->|Hin].
  - case_decide; [done|]. rewrite filter_all; [simpl; lia|].
    apply Forall_forall. intros z Hz E. apply Hy. apply list_elem_of_fmap. eauto.
  - case_decide as Hd.
    + simpl. rewrite !Nat2Z.inj_succ, IH by done. lia.
    + destruct Hy. apply list_elem_of_fmap. by exists x.
Qed.

Lemma filter_fmap_ext {B} (f : A -> B) (P : B -> Prop) (Q : A -> Prop)
    `{!forall b, Decision (P b)} `{!forall a, Decision (Q a)} l :
  (forall x, x ∈ l -> P (f x) <-> Q x) -> filter P (f <$> l) = f <$> filter Q l.
Proof.
  induction l as [|x l IH]; intros HPQ; [done|]. rewrite fmap_cons, !filter_cons.
  pose proof (HPQ x (list_elem_of_here _ _)).
  rewrite IH by (intros; apply HPQ; by right). repeat case_decide; tauto.
Qed.

Lemma lookup_alter_Some (f : A -> A) l i j y :
  alter f i l !! j = Some y ->
  (i = j /\ exists x, l !! i = Some x /\ y = f x) \/ (i <> j /\ l !! j = Some y).
Proof.
  destruct (decide (i = j)) as [->|Hne].
  - rewrite list_lookup_alter_eq. intros (x&?&->)%fmap_Some. eauto.
  - rewrite list_lookup_alter_ne by done. auto.
Qed.

Lemma span_nil_inj (P : A -> Prop) y s1 s2 t2 :
  Forall P s1 -> Forall P s2 -> ~ P y -> s1 <> s2 ++ y :: t2.
Proof.
  intros H1 _ Hy ->. apply Forall_app in H1 as [_ H1]. by inv H1.
Qed.
End lists.

Create Rewrite HintDb len.
#[export] Hint Rewrite @length_app @length_cons @length_nil @length_take
  @length_drop @length_replicate @length_insert @length_fmap @length_reverse : len.

(** Decide the first boolean test of the goal by arithmetic. *)
Ltac bool_arith :=
  rewrite ?andb_true_iff, ?andb_false_iff, ?orb_true_iff, ?orb_false_iff,
    ?negb_true_iff, ?negb_false_iff, ?Z.leb_le, ?Z.leb_gt, ?Z.ltb_lt, ?Z.ltb_ge,
    ?Z.eqb_eq, ?Z.eqb_neq, ?Nat.leb_le, ?Nat.ltb_lt, ?Nat.ltb_ge, ?Nat.eqb_eq;
  autorewrite with len; lia.
Ltac if_true :=
  match goal with
  | |- context [@decide ?P ?dec] =>
      let H := fresh in
      destruct (@decide P dec) as [_|H]; [|exfalso; apply H; autorewrite with len; lia]
  | |- context [if ?b then _ else _] => replace b with true by (symmetry; bool_arith)
  end.
Ltac if_false :=
  match goal with
  | |- context [@decide ?P ?dec] =>
      let H := fresh in
      destruct (@decide P dec) as [H|_]; [exfalso; autorewrite with len in H; lia|]
  | |- context [if ?b then _ else _] => replace b with false by (symmetry; bool_arith)
  end.

(** Normalise the lengths of lists in the goal and the context, then [lia]. *)
Ltac len_lia := autorewrite with len in *; lia.
