(* ===== verification/CLib.v ===== *)
(** The fragment of C and of its standard library the proxy is written in:
    32-bit [int] arithmetic, [char] arrays with uninitialised cells, C strings
    inside them, and [atoi], [sscanf "%x"], [sprintf "%d"], [strncpy].

    A result [None] of a memory operation is undefined behaviour: an access out
    of bounds or a read of a cell that was never written. *)

From S2P Require Import Prelude.

#[local] Open Scope Z_scope.

(** ** Machine integers *)

Definition INT_MAX : Z := 2147483647.
Definition INT_MIN : Z := -2147483648.

(** Conversion to a 32-bit two's-complement [int]. *)
Definition wrap32 (z : Z) : Z := (z + 2147483648) mod 4294967296 - 2147483648.

(** Conversions to [uint32_t] and to [uint16_t] ([in_port_t]). *)
Definition u32 (z : Z) : Z := z mod 4294967296.
Definition u16 (z : Z) : Z := z mod 65536.

Definition in_int (z : Z) : bool := (INT_MIN <=? z) && (z <=? INT_MAX).

Lemma wrap32_small z : INT_MIN <= z <= INT_MAX -> wrap32 z = z.
Proof. unfold wrap32, INT_MIN, INT_MAX. intros. rewrite Z.mod_small; lia. Qed.

Lemma wrap32_range z : INT_MIN <= wrap32 z <= INT_MAX.
Proof.
  unfold wrap32, INT_MIN, INT_MAX.
  pose proof (Z.mod_pos_bound (z + 2147483648) 4294967296). lia.
Qed.

(** ** Characters *)

Definition NUL : ascii := "000"%char.
Definition CR : ascii := "013"%char.
Definition LF : ascii := "010"%char.
Definition SP : ascii := " "%char.

(** A string literal as the list of its characters. *)
Definition lit (s : string) : list ascii := String.list_ascii_of_string s.

Definition CRLF : list ascii := [CR; LF].

(** [(unsigned char) c], and [c] promoted to [int] where [char] is signed. *)
Definition uchar (c : ascii) : Z := Z.of_N (N_of_ascii c).
Definition schar (c : ascii) : Z := if uchar c <? 128 then uchar c else uchar c - 256.
(** Conversion of an [int] to [char]. *)
Definition to_char (z : Z) : ascii := ascii_of_N (Z.to_N (z mod 256)).

Definition in_range (lo hi : ascii) (c : ascii) : bool :=
  (uchar lo <=? uchar c) && (uchar c <=? uchar hi).
Definition isdigit (c : ascii) : bool := in_range "0" "9" c.
Definition isspace (c : ascii) : bool := bool_decide (c = SP) || in_range "009" "013" c.
Definition xdigit (c : ascii) : option Z :=
  if isdigit c then Some (uchar c - 48)
  else if in_range "a" "f" c then Some (uchar c - 87)
  else if in_range "A" "F" c then Some (uchar c - 55)
  else None.

Lemma uchar_range c : 0 <= uchar c < 256.
Proof. unfold uchar. pose proof (N_ascii_bounded c). lia. Qed.

Lemma to_char_schar c : to_char (schar c) = c.
Proof.
  pose proof (uchar_range c) as Hr. unfold to_char.
  assert (schar c mod 256 = uchar c) as ->.
  { unfold schar. case_match; bool_prop; [by apply Z.mod_small|].
    replace (uchar c - 256) with (uchar c + (-1) * 256) by lia.
    rewrite Z.mod_add by lia. by apply Z.mod_small. }
  unfold uchar. rewrite N2Z.id. apply ascii_N_embedding.
Qed.

(** ** Character arrays *)

(** [None] is a cell that was never written. *)
Abbreviation cell := (option ascii).
Abbreviation cells := (list (option ascii)).

Definition of_chars (s : list ascii) : cells := Some <$> s.

Definition load (a : cells) (i : Z) : option ascii :=
  if 0 <=? i then mjoin (a !! Z.to_nat i) else None.

Definition store (a : cells) (i : Z) (c : ascii) : option cells :=
  if (0 <=? i) && (i <? Z.of_nat (length a))
  then Some (<[Z.to_nat i := Some c]> a) else None.

(** [memcpy(dst + i, src, length src)]. *)
Definition blit (dst : cells) (i : nat) (src : cells) : option cells :=
  if decide (i + length src <= length dst)%nat
  then Some (take i dst ++ src ++ drop (i + length src) dst) else None.

(** The characters of the array from the front up to the first [NUL]. *)
Fixpoint cstr (a : cells) : option (list ascii) :=
  match a with
  | Some c :: a' => if decide (c = NUL) then Some [] else cons c <$> cstr a'
  | _ => None
  end.

(** The C string that starts at [a + i]. *)
Definition cstr_at (a : cells) (i : Z) : option (list ascii) :=
  if 0 <=? i then cstr (drop (Z.to_nat i) a) else None.

Lemma length_of_chars s : length (of_chars s) = length s.
Proof. apply length_fmap. Qed.
#[export] Hint Rewrite length_of_chars : len.

Lemma of_chars_app s t : of_chars (s ++ t) = of_chars s ++ of_chars t.
Proof. apply fmap_app. Qed.

Lemma cstr_Some a s :
  cstr a = Some s <-> (NUL ∉ s) /\ exists r, a = of_chars s ++ Some NUL :: r.
Proof.
  revert s. induction a as [|[c|] a IH]; intros s; simpl.
  - split; [done|]. intros (_&r&E). by destruct s.
  - case_decide as Hc.
    + subst. split.
      * intros [= <-]. split; [apply not_elem_of_nil|by exists a].
      * intros (Hn&r&E). destruct s as [|b s]; [done|].
        simplify_eq/=. destruct Hn. left.
    + rewrite fmap_Some. split.
      * intros (s'&Hs&->). apply IH in Hs as (Hn&r&->). split; [|by exists r].
        rewrite not_elem_of_cons. split; [congruence|done].
      * intros (Hn&r&E). destruct s as [|b s]; simplify_eq/=.
        apply not_elem_of_cons in Hn as [_ Hn]. exists s. split; [|done].
        apply IH. eauto.
  - split; [done|]. intros (_&r&E). by destruct s.
Qed.

Lemma cstr_of_chars s r : NUL ∉ s -> cstr (of_chars s ++ Some NUL :: r) = Some s.
Proof. intros H. apply cstr_Some. eauto. Qed.

Lemma cstr_at_Some a i s :
  cstr_at a i = Some s <->
  0 <= i /\ (NUL ∉ s) /\ exists r, drop (Z.to_nat i) a = of_chars s ++ Some NUL :: r.
Proof.
  unfold cstr_at. destruct (Z.leb_spec 0 i); [|split; [done|lia]].
  rewrite cstr_Some. intuition.
Qed.

(** The string at the end of a known prefix. *)
Lemma cstr_at_app l s r i :
  i = Z.of_nat (length l) -> NUL ∉ s ->
  cstr_at (l ++ of_chars s ++ Some NUL :: r) i = Some s.
Proof.
  intros -> Hs. apply cstr_at_Some. split; [lia|]. split; [done|].
  exists r. rewrite Nat2Z.id. by rewrite drop_app_length.
Qed.

(** A string lies inside its array, its terminator included. *)
Lemma cstr_at_bound a i s :
  cstr_at a i = Some s -> 0 <= i /\ i + Z.of_nat (length s) < Z.of_nat (length a).
Proof.
  intros (Hi&_&r&E)%cstr_at_Some. split; [done|].
  apply (f_equal length) in E. len_lia.
Qed.

(** A shorter offset into the same string. *)
Lemma cstr_at_drop a i s (k : nat) :
  cstr_at a i = Some s -> (k <= length s)%nat ->
  cstr_at a (i + Z.of_nat k) = Some (drop k s).
Proof.
  intros (Hi&Hn&r&E)%cstr_at_Some Hk. apply cstr_at_Some.
  split; [lia|]. split.
  { intros Hd. apply Hn. rewrite <-(take_drop k s). apply elem_of_app. by right. }
  exists r. rewrite Z2Nat.inj_add, Nat2Z.id by lia.
  rewrite <-drop_drop, E, drop_app_le by len_lia.
  unfold of_chars. by rewrite fmap_drop.
Qed.

Lemma store_Some a i c a' :
  store a i c = Some a' <->
  0 <= i < Z.of_nat (length a) /\ a' = <[Z.to_nat i := Some c]> a.
Proof.
  unfold store. destruct (_ && _) eqn:E; bool_prop; split; intros; simplify_eq;
    intuition (try congruence); destruct_or?; bool_prop; lia.
Qed.

Lemma store_in a i c :
  0 <= i < Z.of_nat (length a) -> store a i c = Some (<[Z.to_nat i := Some c]> a).
Proof. intros. by apply store_Some. Qed.

Lemma store_length a i c a' : store a i c = Some a' -> length a' = length a.
Proof. intros (_&->)%store_Some. by autorewrite with len. Qed.

(** Storing outside a string and its terminator keeps it. *)
Lemma cstr_at_store_ne a a' i j c s :
  store a j c = Some a' -> cstr_at a i = Some s ->
  j < i \/ i + Z.of_nat (length s) < j ->
  cstr_at a' i = Some s.
Proof.
  intros (Hj&->)%store_Some (Hi&Hn&r&E)%cstr_at_Some Hd. apply cstr_at_Some.
  split; [done|]. split; [done|]. destruct Hd as [Hd|Hd].
  - exists r. by rewrite drop_insert_lt by lia.
  - exists (<[(Z.to_nat j - Z.to_nat i - length s - 1)%nat := Some c]> r).
    rewrite drop_insert_ge, E by lia.
    rewrite insert_app_r_alt by len_lia. f_equal.
    rewrite length_of_chars.
    destruct (Z.to_nat j - Z.to_nat i - length s)%nat eqn:En; [lia|].
    simpl. by rewrite Nat.sub_0_r.
Qed.

(** Storing [NUL] inside a string cuts it. *)
Lemma cstr_at_store_nul a a' i j s :
  store a j NUL = Some a' -> cstr_at a i = Some s ->
  i <= j <= i + Z.of_nat (length s) ->
  cstr_at a' i = Some (take (Z.to_nat (j - i)) s).
Proof.
  intros (Hj&->)%store_Some (Hi&Hn&r&E)%cstr_at_Some Hd. apply cstr_at_Some.
  split; [done|]. split.
  { intros Hd'. apply Hn. rewrite <-(take_drop (Z.to_nat (j-i)) s).
    apply elem_of_app. by left. }
  rewrite drop_insert_ge, E by lia.
  replace (Z.to_nat j - Z.to_nat i)%nat with (Z.to_nat (j - i)) by lia.
  set (k := Z.to_nat (j - i)).
  assert (k <= length s)%nat by lia.
  destruct (decide (k = length s)) as [->|Hk].
  - exists r. rewrite insert_app_r_alt by len_lia.
    rewrite length_of_chars, Nat.sub_diag, firstn_all. done.
  - exists (of_chars (drop (S k) s) ++ Some NUL :: r).
    rewrite insert_app_l, insert_take_drop by len_lia.
    unfold of_chars. by rewrite fmap_take, fmap_drop, <-app_assoc.
Qed.

(** Reads of a string through [load]. *)
Lemma load_cstr a i s (k : nat) c :
  cstr_at a i = Some s -> s !! k = Some c -> load a (i + Z.of_nat k) = Some c.
Proof.
  intros (Hi&Hn&r&E)%cstr_at_Some Hk. unfold load.
  destruct (Z.leb_spec 0 (i + Z.of_nat k)); [|lia].
  rewrite Z2Nat.inj_add, Nat2Z.id by lia. rewrite <-lookup_drop, E.
  rewrite lookup_app_l by (autorewrite with len; by eapply lookup_lt_Some).
  unfold of_chars. by rewrite list_lookup_fmap, Hk.
Qed.

(** ** Numbers and text *)

Definition take_while (f : ascii -> bool) : list ascii -> list ascii :=
  fix go s := match s with
  | c :: s' => if f c then c :: go s' else []
  | [] => []
  end.
Definition drop_while (f : ascii -> bool) : list ascii -> list ascii :=
  fix go s := match s with
  | c :: s' => if f c then go s' else s
  | [] => []
  end.

(** An optional sign: whether it is a minus, and what follows. *)
Definition strip_sign (s : list ascii) : bool * list ascii :=
  match s with
  | "-"%char :: s' => (true, s')
  | "+"%char :: s' => (false, s')
  | _ => (false, s)
  end.

Definition dec_val (ds : list ascii) : Z :=
  foldl (fun v c => v * 10 + (uchar c - 48)) 0 ds.

Definition LONG_MAX : Z := 9223372036854775807.
Definition ULONG_MAX : Z := 18446744073709551615.

(** [strtol(s, NULL, 10)] with its clamping to [long]. *)
Definition strtol10 (s : list ascii) : Z :=
  let '(neg, s) := strip_sign (drop_while isspace s) in
  let v := dec_val (take_while isdigit s) in
  if neg then Z.max (- LONG_MAX - 1) (- v) else Z.min LONG_MAX v.

(** The C library's [atoi(s)] is [(int) strtol(s, NULL, 10)]. *)
Definition atoi (s : list ascii) : Z := wrap32 (strtol10 s).

Definition hex_val (ds : list ascii) : Z :=
  foldl (fun v c => v * 16 + default 0 (xdigit c)) 0 ds.

Definition isxdigit (c : ascii) : bool := bool_decide (is_Some (xdigit c)).

Definition strip_0x (s : list ascii) : list ascii :=
  match s with
  | "0"%char :: x :: s' =>
      if bool_decide (x = "x"%char) || bool_decide (x = "X"%char)
      then match s' with
           | c :: _ => if isxdigit c then s' else ["0"%char]
           | [] => ["0"%char]
           end
      else s
  | _ => s
  end.

(** [sscanf(s, "%x", &n)]: [None] when nothing is converted and [n] keeps its
    value; otherwise the [unsigned long] value [strtoul] gives, stored in an
    [int]. *)
Definition sscanf_x (s : list ascii) : option Z :=
  let '(neg, s) := strip_sign (drop_while isspace s) in
  match take_while isxdigit (strip_0x s) with
  | [] => None
  | ds => let v := hex_val ds in
          let v := if ULONG_MAX <? v then ULONG_MAX
                   else if neg then (- v) mod (ULONG_MAX + 1) else v in
          Some (wrap32 v)
  end.

Definition digit_char (d : Z) : ascii := to_char (48 + d).

Fixpoint digits_aux (fuel : nat) (n : Z) (acc : list ascii) : list ascii :=
  match fuel with
  | O => acc
  | S fuel =>
      let acc := digit_char (n mod 10) :: acc in
      if n <? 10 then acc else digits_aux fuel (n / 10) acc
  end.

(** [sprintf(_, "%d", x)]; ten digits are enough for an [int]. *)
Definition sprintf_d (x : Z) : list ascii :=
  if x <? 0 then "-"%char :: digits_aux 10 (- x) [] else digits_aux 10 x [].

(** The contents of an [n]-byte array after [strncpy(dst, s, n)]: the first [n]
    characters of [s], then [NUL]s up to [n] bytes. *)
Definition strncpy (s : list ascii) (n : nat) : cells :=
  of_chars (take n s) ++ replicate (n - length s) (Some NUL).

Lemma take_while_app f s t :
  Forall (fun c => f c = true) s ->
  take_while f (s ++ t) = s ++ take_while f t.
Proof. induction 1 as [|c s Hc _ IH]; [done|]. simpl. by rewrite Hc, IH. Qed.

Lemma take_while_all f s : Forall (fun c => f c = true) s -> take_while f s = s.
Proof. intros H. rewrite <-(app_nil_r s) at 1. by rewrite take_while_app, app_nil_r. Qed.

Lemma drop_while_id f s :
  match s with c :: _ => f c = false | [] => True end -> drop_while f s = s.
Proof. destruct s; simpl; [done|]. by intros ->. Qed.

Lemma dec_val_acc ds v :
  foldl (fun v c => v * 10 + (uchar c - 48)) v ds = v * 10 ^ Z.of_nat (length ds) + dec_val ds.
Proof.
  unfold dec_val. revert v. induction ds as [|c ds IH]; intros v.
  - simpl. lia.
  - cbn [foldl length]. rewrite IH, (IH (0 * 10 + _)).
    rewrite Nat2Z.inj_succ, Z.pow_succ_r by lia. ring.
Qed.

Lemma dec_val_cons c ds :
  dec_val (c :: ds) = (uchar c - 48) * 10 ^ Z.of_nat (length ds) + dec_val ds.
Proof. change (dec_val (c :: ds)) with (foldl (fun v c => v * 10 + (uchar c - 48)) (uchar c - 48) ds). apply dec_val_acc. Qed.

Lemma uchar_to_char z : 0 <= z < 256 -> uchar (to_char z) = z.
Proof.
  intros. unfold uchar, to_char. rewrite Z.mod_small by lia.
  rewrite N_ascii_embedding by lia. lia.
Qed.

Lemma digit_char_spec d : 0 <= d < 10 ->
  uchar (digit_char d) = 48 + d /\ isdigit (digit_char d) = true.
Proof.
  intros H. unfold digit_char, isdigit, in_range. rewrite uchar_to_char by lia.
  change (uchar "0") with 48. change (uchar "9") with 57.
  split; [done|]. apply andb_true_iff. split; apply Z.leb_le; lia.
Qed.

Lemma digits_aux_spec fuel n acc :
  0 <= n < 10 ^ Z.of_nat fuel -> (0 < fuel)%nat ->
  exists ds, digits_aux fuel n acc = ds ++ acc /\
    Forall (fun c => isdigit c = true) ds /\ (0 < length ds <= fuel)%nat /\ dec_val ds = n.
Proof.
  revert n acc. induction fuel as [|fuel IH]; intros n acc Hn Hf; [lia|].
  assert (0 <= n mod 10 < 10) as Hm by (apply Z.mod_pos_bound; lia).
  pose proof (Z.div_mod n 10). simpl.
  destruct (digit_char_spec (n mod 10)) as [Hu Hd]; [lia|].
  destruct (Z.ltb_spec n 10).
  - exists [digit_char (n mod 10)]. split_and!.
    + done.
    + by repeat constructor.
    + simpl. lia.
    + simpl. lia.
    + rewrite dec_val_cons, Hu, Z.mod_small by lia. unfold dec_val. simpl. lia.
  - rewrite Nat2Z.inj_succ, Z.pow_succ_r in Hn by lia.
    destruct fuel as [|fuel]; [simpl in Hn; lia|].
    destruct (IH (n / 10) (digit_char (n mod 10) :: acc)) as (ds&->&Hds&Hlen&Hv).
    { split; [apply Z.div_pos; lia|]. apply Z.div_lt_upper_bound; lia. }
    { lia. }
    exists (ds ++ [digit_char (n mod 10)]). split_and!.
    + by rewrite <-app_assoc.
    + apply Forall_app. auto.
    + len_lia.
    + len_lia.
    + unfold dec_val. rewrite foldl_app. fold (dec_val ds). rewrite Hv. simpl. lia.
Qed.

Lemma isdigit_not_space c : isdigit c = true -> isspace c = false.
Proof. by destruct c as [[] [] [] [] [] [] [] []]. Qed.

Lemma strip_sign_digit c s : isdigit c = true -> strip_sign (c :: s) = (false, c :: s).
Proof. by destruct c as [[] [] [] [] [] [] [] []]. Qed.

(** A non-empty string of digits reads back as its value. *)
Lemma strtol10_digits ds s :
  Forall (fun c => isdigit c = true) ds ->
  match s with c :: _ => isdigit c = false | [] => True end ->
  ds <> [] -> strtol10 (ds ++ s) = Z.min LONG_MAX (dec_val ds).
Proof.
  intros Hds Hs Hne. destruct ds as [|d ds]; [done|].
  assert (isdigit d = true) as Hd by (by inv Hds).
  unfold strtol10. rewrite drop_while_id by (by apply isdigit_not_space).
  simpl app. rewrite strip_sign_digit by done.
  rewrite app_comm_cons, take_while_app by done.
  assert (take_while isdigit s = []) as ->; [|by rewrite app_nil_r].
  destruct s as [|c s]; simpl; [done|]. by rewrite Hs.
Qed.

Lemma atoi_sprintf_d x : INT_MIN <= x <= INT_MAX -> atoi (sprintf_d x) = x.
Proof.
  intros Hx. unfold INT_MIN, INT_MAX in Hx. unfold sprintf_d, atoi.
  destruct (Z.ltb_spec x 0).
  - destruct (digits_aux_spec 10 (- x) []) as (ds&->&Hds&Hlen&Hv); [simpl; lia|lia|].
    rewrite app_nil_r. unfold strtol10. simpl.
    rewrite take_while_all, Hv by done. unfold LONG_MAX.
    rewrite wrap32_small; unfold INT_MIN, INT_MAX; lia.
  - destruct (digits_aux_spec 10 x []) as (ds&->&Hds&Hlen&Hv); [simpl; lia|lia|].
    rewrite strtol10_digits; [|done|done|by destruct ds; simpl in *; try lia].
    rewrite Hv. unfold LONG_MAX. rewrite wrap32_small; unfold INT_MIN, INT_MAX; lia.
Qed.

(** The text of an [int] takes at most 11 bytes and has no [NUL]. *)
Lemma sprintf_d_length x :
  INT_MIN <= x <= INT_MAX -> (0 < length (sprintf_d x) <= 11)%nat.
Proof.
  intros Hx. unfold INT_MIN, INT_MAX in Hx. unfold sprintf_d.
  destruct (Z.ltb_spec x 0).
  - destruct (digits_aux_spec 10 (- x) []) as (ds&->&_&Hlen&_); [simpl; lia|lia|].
    len_lia.
  - destruct (digits_aux_spec 10 x []) as (ds&->&_&Hlen&_); [simpl; lia|lia|].
    len_lia.
Qed.

Lemma sprintf_d_chars x :
  INT_MIN <= x <= INT_MAX ->
  Forall (fun c => isdigit c = true \/ c = "-"%char) (sprintf_d x).
Proof.
  intros Hx. unfold INT_MIN, INT_MAX in Hx. unfold sprintf_d.
  destruct (Z.ltb_spec x 0).
  - destruct (digits_aux_spec 10 (- x) []) as (ds&->&Hds&_&_); [simpl; lia|lia|].
    rewrite app_nil_r. constructor; [by right|].
    eapply Forall_impl; [exact Hds|]. auto.
  - destruct (digits_aux_spec 10 x []) as (ds&->&Hds&_&_); [simpl; lia|lia|].
    rewrite app_nil_r. eapply Forall_impl; [exact Hds|]. auto.
Qed.

Lemma NUL_not_in (P : ascii -> Prop) s : Forall P s -> ~ P NUL -> NUL ∉ s.
Proof. intros H Hn Hin. rewrite Forall_forall in H. by apply Hn, H. Qed.

Lemma sprintf_d_no_NUL x : INT_MIN <= x <= INT_MAX -> NUL ∉ sprintf_d x.
Proof.
  intros H. eapply NUL_not_in; [by apply sprintf_d_chars|]. by intros [|].
Qed.
