(* ===== verification/Outcome.v ===== *)
(** Effectful code: a state monad whose computations end with a value, in
    undefined behaviour, or out of fuel, and its weakest preconditions. *)

From S2P Require Import Prelude.

(** [Undef w] is undefined behaviour met in state [w]; [NoFuel] marks a loop
    that was cut off. *)
Inductive outcome (W A : Type) :=
| Ok (a : A) (w : W)
| Undef (w : W)
| NoFuel.
Arguments Ok {W A} a w.
Arguments Undef {W A} w.
Arguments NoFuel {W A}.

Definition M (W A : Type) := W -> outcome W A.

#[export] Instance M_ret W : MRet (M W) := fun A a w => Ok a w.
#[export] Instance M_bind W : MBind (M W) := fun A B f m w =>
  match m w with
  | Ok a w => f a w
  | Undef w => Undef w
  | NoFuel => NoFuel
  end.

Section operations.
Context {W : Type}.

Definition undef {A} : M W A := fun w => Undef w.
Definition no_fuel {A} : M W A := fun _ => NoFuel.
Definition get {A} (f : W -> A) : M W A := fun w => Ok (f w) w.
Definition modify (f : W -> W) : M W () := fun w => Ok () (f w).

(** An optional value whose absence is undefined behaviour. *)
Definition demand {A} (x : option A) : M W A :=
  match x with Some a => mret a | None => undef end.
End operations.

(** ** Weakest preconditions *)

(** [m] run in [w] ends with a value and a state in [Q], or, where [U] allows
    it, in undefined behaviour; it never runs out of fuel. *)
Definition wp {W A} (U : W -> Prop) (m : M W A) (Q : A -> W -> Prop) (w : W) : Prop :=
  match m w with
  | Ok a w' => Q a w'
  | Undef w' => U w'
  | NoFuel => False
  end.

(** No undefined behaviour. *)
Abbreviation safe := (fun _ => False).

Section wp.
Context {W : Type} (U : W -> Prop).

Lemma wp_ret {A} (a : A) Q w : Q a w -> wp U (mret a) Q w.
Proof. done. Qed.

Lemma wp_bind {A B} (m : M W A) (f : A -> M W B) Q w :
  wp U m (fun a => wp U (f a) Q) w -> wp U (m ≫= f) Q w.
Proof. unfold wp, mbind, M_bind. by destruct (m w). Qed.

Lemma wp_mono {A} (m : M W A) (Q Q' : A -> W -> Prop) w :
  wp U m Q w -> (forall a w', Q a w' -> Q' a w') -> wp U m Q' w.
Proof. unfold wp. destruct (m w); auto. Qed.

Lemma wp_undef_mono {A} (U' : W -> Prop) (m : M W A) Q w :
  wp U' m Q w -> (forall w', U' w' -> U w') -> wp U m Q w.
Proof. unfold wp. destruct (m w); auto. Qed.

(** Sequencing with an intermediate condition. *)
Lemma wp_seq {A B} (m : M W A) (f : A -> M W B) R Q w :
  wp U m R w -> (forall a w', R a w' -> wp U (f a) Q w') -> wp U (m ≫= f) Q w.
Proof. intros Hm Hf. apply wp_bind. eapply wp_mono; eauto. Qed.

Lemma wp_get {A} (f : W -> A) Q w : Q (f w) w -> wp U (get f) Q w.
Proof. done. Qed.

Lemma wp_modify f Q w : Q () (f w) -> wp U (modify f) Q w.
Proof. done. Qed.

Lemma wp_demand {A} (x : option A) a Q w : x = Some a -> Q a w -> wp U (demand x) Q w.
Proof. by intros ->. Qed.
End wp.

(** A computation without undefined behaviour ends with a value. *)
Lemma wp_Ok {W A} (m : M W A) Q w : wp safe m Q w -> exists a w', m w = Ok a w' /\ Q a w'.
Proof. unfold wp. destruct (m w); [eauto|done..]. Qed.

(** ** Invariants *)

(** [m] keeps [P], also where it meets undefined behaviour, and whether or not
    its loops have fuel enough. *)
Definition always {W A} (P : W -> Prop) (m : M W A) : Prop := forall w, P w ->
  match m w with
  | Ok _ w' | Undef w' => P w'
  | NoFuel => True
  end.

Section always.
Context {W : Type} (P : W -> Prop).

Lemma always_ret {A} (a : A) : always P (mret a).
Proof. by intros w Hw. Qed.

Lemma always_bind {A B} (m : M W A) (f : A -> M W B) :
  always P m -> (forall a, always P (f a)) -> always P (m ≫= f).
Proof.
  intros Hm Hf w Hw. specialize (Hm w Hw). unfold mbind, M_bind. destruct (m w) as [a w'|w'|]; [|done..].
  by apply Hf.
Qed.

Lemma always_get {A} (f : W -> A) : always P (get f).
Proof. by intros w Hw. Qed.

(** The value read is one of a state with the invariant. *)
Lemma always_get_bind {A B} (f : W -> A) (g : A -> M W B) :
  (forall w, P w -> match g (f w) w with Ok _ w' | Undef w' => P w' | NoFuel => True end) ->
  always P (get f ≫= g).
Proof. intros Hg w Hw. by apply Hg. Qed.

Lemma always_modify f : (forall w, P w -> P (f w)) -> always P (modify f).
Proof. intros Hf w Hw. by apply Hf. Qed.

Lemma always_demand {A} (x : option A) : always P (demand x).
Proof. by destruct x; intros w Hw. Qed.

Lemma always_undef {A} : always P (@undef W A).
Proof. by intros w Hw. Qed.

Lemma always_no_fuel {A} : always P (@no_fuel W A).
Proof. by intros w Hw. Qed.
End always.

Create HintDb always.
#[export] Hint Resolve always_ret always_get always_demand always_undef always_no_fuel : always.

(** Follow the structure of a computation; what remains are the calls that are
    not in the hint database. *)
Ltac always_step :=
  lazymatch goal with
  | |- always _ (_ ≫= _) => apply always_bind; [|intros ?]
  | |- always _ (match ?x with _ => _ end) => destruct x
  | |- always _ (let _ := _ in _) => cbv zeta
  | |- always _ _ => solve [eauto with always]
  end.
Ltac always_tac := repeat always_step.

(** ** Partial correctness *)

(** If [m] returns a value, it is with [R]. *)
Definition returns {W A} (m : M W A) (R : A -> W -> Prop) (w : W) : Prop :=
  match m w with Ok a w' => R a w' | _ => True end.

Lemma returns_always {W A B} (P : W -> Prop) (m : M W A) (f : A -> M W B) R w :
  always P m -> P w -> (forall a w', P w' -> returns (f a) R w') -> returns (m ≫= f) R w.
Proof.
  intros Hm Hw Hf. specialize (Hm w Hw). unfold returns, mbind, M_bind in *.
  destruct (m w) as [a w'| |]; [by apply Hf|done..].
Qed.

Lemma returns_mono {W A} (m : M W A) (R R' : A -> W -> Prop) w :
  returns m R w -> (forall a w', R a w' -> R' a w') -> returns m R' w.
Proof. unfold returns. destruct (m w); auto. Qed.

Lemma returns_bind {W A B} (m : M W A) (f : A -> M W B) R w :
  returns m (fun a => returns (f a) R) w -> returns (m ≫= f) R w.
Proof. unfold returns, mbind, M_bind. by destruct (m w). Qed.

Lemma returns_ret {W A} (a : A) (R : A -> W -> Prop) w : R a w -> returns (mret a) R w.
Proof. done. Qed.

Lemma returns_seq {W A B} (m : M W A) (f : A -> M W B) (R' : A -> W -> Prop) R w :
  returns m R' w -> (forall a w', R' a w' -> returns (f a) R w') -> returns (m ≫= f) R w.
Proof. intros Hm Hf. apply returns_bind. by eapply returns_mono. Qed.

Lemma returns_demand {W A B} (x : option A) (f : A -> M W B) R w :
  (forall a, x = Some a -> returns (f a) R w) -> returns (demand x ≫= f) R w.
Proof. intros H. destruct x as [a|]; [by apply (H a)|done]. Qed.

Lemma wp_returns {W A} (U : W -> Prop) (m : M W A) R w : wp U m R w -> returns m R w.
Proof. unfold wp, returns. by destruct (m w). Qed.

(** A total result and a partial one. *)
Lemma wp_and {W A} (U : W -> Prop) (m : M W A) Q R w :
  wp U m Q w -> returns m R w -> wp U m (fun a w' => Q a w' /\ R a w') w.
Proof. unfold wp, returns. by destruct (m w). Qed.

(** ** Equivalence of computations *)

(** Computations that agree on every state; rewriting under binds. *)
#[export] Instance M_equiv W A : Equiv (M W A) := fun m m' => forall w, m w = m' w.

#[export] Instance M_equivalence W A : Equivalence (≡@{M W A}).
Proof.
  split.
  - intros m w. done.
  - intros m m' H w. by rewrite H.
  - intros m1 m2 m3 H1 H2 w. by rewrite H1, H2.
Qed.

#[export] Instance M_bind_proper W A B (f : A -> M W B) : Proper ((≡) ==> (≡)) (mbind (M:=M W) f).
Proof. intros m m' H w. unfold mbind, M_bind. by rewrite H. Qed.

Lemma M_bind_ret_l {W A B} (a : A) (f : A -> M W B) : mret a ≫= f ≡ f a.
Proof. by intros w. Qed.

Lemma M_bind_bind {W A B C} (m : M W A) (f : A -> M W B) (g : B -> M W C) :
  (m ≫= f) ≫= g ≡ m ≫= (fun a => f a ≫= g).
Proof. intros w. unfold mbind, M_bind. by destruct (m w). Qed.

#[export] Instance wp_proper W A (U : W -> Prop) : Proper ((≡) ==> (=) ==> (=) ==> iff) (@wp W A U).
Proof. intros m m' H Q _ <- w _ <-. unfold wp. by rewrite H. Qed.

(** Step through the operations of a computation. *)
Ltac wp_step :=
  lazymatch goal with
  | |- wp _ (mret _) _ _ => apply wp_ret
  | |- wp _ (get _ ≫= _) _ _ => apply wp_bind, wp_get
  | |- wp _ (modify _ ≫= _) _ _ => apply wp_bind, wp_modify
  | |- wp _ (mret _ ≫= _) _ _ => apply wp_bind, wp_ret
  | |- wp _ ((_ ≫= _) ≫= _) _ _ => apply wp_bind
  | |- wp _ (modify _) _ _ => apply wp_modify
  | |- wp _ (get _) _ _ => apply wp_get
  end; cbv beta.
