(* ===== verification/Mem.v ===== *)
(** src/core/mem.c by itself: blocks of the C library with a reference count in
    front of what the user gets.  (Conn and NetHandle have their objects as values of
    their own types, with the count beside them.)

    [malloc] is a parameter: the address it gives for a size, or none. *)

From S2P Require Import Prelude CLib Outcome.

#[local] Open Scope Z_scope.

(** A block: its size, and the [ssize_t] at its start, once it is stored. *)
Record block := Block { blk_size : Z; blk_word : option Z }.
Abbreviation mem := (gmap Z block).

Definition NULL : Z := 0.
Definition SSIZE_MAX : Z := 2 ^ 63 - 1.
Definition MEM_CNT_SIZE : Z := 8.

Class Malloc := { malloc : Z -> mem -> option Z }.
(** It gives no address in use, and not the null pointer. *)
Class MallocLaws `{!Malloc} := {
  malloc_fresh size h p : malloc size h = Some p -> h !! p = None /\ p <> NULL
}.

Section mem.
Context `{!Malloc}.

(** Out of memory is logged, and the null pointer returned. *)
Definition mem_alloc (size : Z) : M mem Z :=
  h ← get id;
  match malloc size h with
  | Some p => _ ← modify (<[p := Block size None]>); mret p
  | None => mret NULL
  end.

Definition mem_free (ptr : Z) : M mem () :=
  if ptr =? NULL then mret () else h ← get id; _ ← demand (h !! ptr); modify (delete ptr).

(** Reading and storing [MEM_CNT(ptr)], the word in front of [ptr]. *)
Definition MEM_CNT (ptr : Z) : M mem Z :=
  h ← get id; b ← demand (h !! (ptr - MEM_CNT_SIZE)); demand (blk_word b).
Definition set_cnt (ptr n : Z) : M mem () :=
  h ← get id; b ← demand (h !! (ptr - MEM_CNT_SIZE));
  modify (<[ptr - MEM_CNT_SIZE := Block (blk_size b) (Some n)]>).

(** The result of [mem_alloc] is written to without a test. *)
Definition mem_alloc_auto (size : Z) : M mem Z :=
  ret ← mem_alloc (size + MEM_CNT_SIZE);
  _ ← set_cnt (ret + MEM_CNT_SIZE) 1;
  mret (ret + MEM_CNT_SIZE).

Definition mem_incref (ptr : Z) : M mem () :=
  n ← MEM_CNT ptr; n ← demand (if n <? SSIZE_MAX then Some (n + 1) else None); set_cnt ptr n.

(** [done] may be null. *)
Definition mem_decref (ptr : Z) (done : option (Z -> M mem ())) : M mem Z :=
  n ← MEM_CNT ptr;
  n ← demand (if - SSIZE_MAX <=? n then Some (n - 1) else None);
  _ ← set_cnt ptr n;
  if n =? 0 then
    _ ← match done with Some done => done ptr | None => mret () end;
    _ ← mem_free (ptr - MEM_CNT_SIZE);
    mret 0
  else mret 1.

(** ** Counting *)

(** The block behind [ptr] is allocated with the count [n]. *)
Definition counted (h : mem) (ptr n : Z) : Prop :=
  ptr - MEM_CNT_SIZE <> NULL /\ exists size, h !! (ptr - MEM_CNT_SIZE) = Some (Block size (Some n)).

Definition with_cnt (ptr n : Z) : mem -> mem := alter (fun b => Block (blk_size b) (Some n)) (ptr - MEM_CNT_SIZE).

Lemma with_cnt_counted h ptr n m : counted h ptr n -> counted (with_cnt ptr m h) ptr m.
Proof. intros [Hp [size E]]. split; [done|]. exists size. unfold with_cnt. by rewrite lookup_alter_eq, E. Qed.

Lemma with_cnt_twice ptr n m h : with_cnt ptr m (with_cnt ptr n h) = with_cnt ptr m h.
Proof.
  unfold with_cnt. apply map_eq. intros a. destruct (decide (a = ptr - MEM_CNT_SIZE)) as [->|].
  - rewrite !lookup_alter_eq. by destruct (h !! _).
  - by rewrite !lookup_alter_ne.
Qed.
Lemma with_cnt_same h ptr n : counted h ptr n -> with_cnt ptr n h = h.
Proof. intros [_ [size E]]. unfold with_cnt. apply map_eq. intros a. destruct (decide (a = ptr - MEM_CNT_SIZE)) as [->|]; [by rewrite lookup_alter_eq, E|by rewrite lookup_alter_ne]. Qed.

Lemma MEM_CNT_counted h ptr n : counted h ptr n -> MEM_CNT ptr h = Ok n h.
Proof. intros [_ [size E]]. unfold MEM_CNT, mbind, M_bind, get. cbn -[lookup MEM_CNT_SIZE]. by rewrite E. Qed.
Lemma set_cnt_counted h ptr n m : counted h ptr n -> set_cnt ptr m h = Ok () (with_cnt ptr m h).
Proof.
  intros [_ [size E]]. unfold set_cnt, mbind, M_bind, get. cbn -[lookup insert MEM_CNT_SIZE]. rewrite E.
  cbn -[lookup insert MEM_CNT_SIZE]. unfold modify. f_equal. apply map_eq. intros a. unfold with_cnt. destruct (decide (a = ptr - MEM_CNT_SIZE)) as [->|].
  - by rewrite lookup_alter_eq, lookup_insert_eq, E.
  - by rewrite lookup_alter_ne, lookup_insert_ne.
Qed.
Lemma wp_MEM_CNT h ptr n (Q : Z -> mem -> Prop) : counted h ptr n -> Q n h -> wp safe (MEM_CNT ptr) Q h.
Proof. intros Hc HQ. unfold wp. by rewrite (MEM_CNT_counted h ptr n). Qed.
Lemma wp_set_cnt h ptr n m (Q : () -> mem -> Prop) : counted h ptr n -> Q () (with_cnt ptr m h) -> wp safe (set_cnt ptr m) Q h.
Proof. intros Hc HQ. unfold wp. by rewrite (set_cnt_counted h ptr n). Qed.

(** ** Using an object *)

Inductive ref_op := Inc | Dec.
Definition delta (op : ref_op) : Z := match op with Inc => 1 | Dec => -1 end.

Definition run_ref (done : option (Z -> M mem ())) (ptr : Z) (op : ref_op) : M mem () :=
  match op with Inc => mem_incref ptr | Dec => _ ← mem_decref ptr done; mret () end.
Fixpoint run_refs (done : option (Z -> M mem ())) (ptr : Z) (ops : list ref_op) : M mem () :=
  match ops with [] => mret () | op :: ops => _ ← run_ref done ptr op; run_refs done ptr ops end.

(** Some reference is left behind every one of [ops], and they can be counted. *)
Fixpoint held (n : Z) (ops : list ref_op) : Prop :=
  match ops with [] => True | op :: ops => 0 < n + delta op <= SSIZE_MAX /\ held (n + delta op) ops end.
Definition total (ops : list ref_op) : Z := foldr (fun op n => delta op + n) 0 ops.

Lemma run_refs_spec done ptr ops : forall n h, counted h ptr n -> 0 < n <= SSIZE_MAX -> held n ops ->
  wp safe (run_refs done ptr ops) (fun _ h' => h' = with_cnt ptr (n + total ops) h) h.
Proof.
  induction ops as [|op ops IH]; intros n h Hc Hn Hheld; cbn [run_refs].
  - apply wp_ret. cbn. by rewrite Z.add_0_r, (with_cnt_same h ptr n).
  - destruct Hheld as [Hn' Hheld]. apply wp_bind.
    assert (wp safe (run_ref done ptr op) (fun _ h' => h' = with_cnt ptr (n + delta op) h) h) as Hop.
    { destruct op; cbn [run_ref delta] in *.
      - unfold mem_incref. apply wp_bind. eapply wp_MEM_CNT; [exact Hc|]. rewrite (proj2 (Z.ltb_lt n SSIZE_MAX)) by lia.
        apply wp_bind, (wp_demand _ _ (n + 1)); [done|]. by eapply wp_set_cnt.
      - apply wp_bind. unfold mem_decref. apply wp_bind. eapply wp_MEM_CNT; [exact Hc|].
        rewrite (proj2 (Z.leb_le (- SSIZE_MAX) n)) by (unfold SSIZE_MAX in *; lia).
        apply wp_bind, (wp_demand _ _ (n - 1)); [done|]. apply wp_bind. eapply wp_set_cnt; [exact Hc|].
        rewrite (proj2 (Z.eqb_neq (n - 1) 0)) by lia. by apply wp_ret, wp_ret. }
    eapply wp_mono; [exact Hop|]. intros [] h' ->. eapply wp_mono; [apply (IH (n + delta op)); [by eapply with_cnt_counted|done|done]|].
    intros [] h' ->. rewrite with_cnt_twice. change (total (op :: ops)) with (delta op + total ops). by rewrite Z.add_assoc.
Qed.
End mem.

(** C27: An object of [mem_alloc_auto] has one reference, in a new block with room for the count
    and its size.  While some reference is left, taking and releasing references does
    nothing but count them; the release of the last one calls [done] once, on the object
    with its block still there, and then frees the block: nothing else is freed and
    nothing is left behind. *)
Theorem mem_counts `{!Malloc, !MallocLaws} (done : option (Z -> M mem ())) size ops p (h : mem) :
  malloc (size + MEM_CNT_SIZE) h = Some p -> held 1 ops -> total ops = 0 ->
  let ptr := p + MEM_CNT_SIZE in
  let last := <[p := Block (size + MEM_CNT_SIZE) (Some 0)]> h in
  mem_alloc_auto size h = Ok ptr (<[p := Block (size + MEM_CNT_SIZE) (Some 1)]> h) /\
  run_refs done ptr ops (<[p := Block (size + MEM_CNT_SIZE) (Some 1)]> h) = Ok () (<[p := Block (size + MEM_CNT_SIZE) (Some 1)]> h) /\
  match (match done with Some done => done ptr | None => mret () end) last with
  | Ok _ h' => h' !! p = last !! p ->
      mem_decref ptr done (<[p := Block (size + MEM_CNT_SIZE) (Some 1)]> h) = Ok 0 (delete p h')
  | Undef h' => mem_decref ptr done (<[p := Block (size + MEM_CNT_SIZE) (Some 1)]> h) = Undef h'
  | NoFuel => mem_decref ptr done (<[p := Block (size + MEM_CNT_SIZE) (Some 1)]> h) = NoFuel
  end.
Proof.
  intros Hm Hheld Htot ptr last. set (B := fun n => Block (size + MEM_CNT_SIZE) (Some n)).
  change (Block (size + MEM_CNT_SIZE) (Some 1)) with (B 1). destruct (malloc_fresh _ _ _ Hm) as [Hp Hp0].
  assert (ptr - MEM_CNT_SIZE = p) as Ep by apply Z.add_simpl_r.
  assert (counted (<[p := B 1]> h) ptr 1) as Hc.
  { unfold counted. rewrite Ep. split; [done|]. eexists. apply lookup_insert_eq. }
  assert (forall n, with_cnt ptr n (<[p := B 1]> h) = <[p := B n]> h) as Hw.
  { intros n. unfold with_cnt. rewrite Ep. by rewrite alter_insert_eq. }
  split; [|split].
  - unfold mem_alloc_auto, mem_alloc, set_cnt, mbind, M_bind, get, modify, demand. cbn -[insert lookup MEM_CNT_SIZE]. rewrite Hm.
    cbn -[insert lookup MEM_CNT_SIZE]. fold ptr. rewrite Ep, lookup_insert_eq. cbn -[insert lookup MEM_CNT_SIZE]. by rewrite insert_insert_eq.
  - assert (0 < 1 <= SSIZE_MAX) as Hone by done.
    destruct (wp_Ok _ _ _ (run_refs_spec done ptr ops 1 _ Hc Hone Hheld)) as ([]&h'&E&->).
    rewrite E, Htot, Hw. done.
  - assert (forall m, mem_decref ptr done (<[p := B 1]> h) = m <->
      (_ ← match done with Some done => done ptr | None => mret () end; _ ← mem_free p; mret 0) last = m) as Hdec.
    { intros m. unfold mem_decref, mbind, M_bind. rewrite (MEM_CNT_counted _ ptr 1) by done.
      change (- SSIZE_MAX <=? 1) with true. unfold demand, mret, M_ret. change (1 - 1) with 0.
      rewrite (set_cnt_counted _ ptr 1), Hw, Ep by done. done. }
    unfold mbind, M_bind in Hdec. destruct (match done with Some done => done ptr | None => mret () end last) as [[] h'|h'|] eqn:Ed.
    + intros Hsame. apply Hdec. unfold last in Hsame. rewrite lookup_insert_eq in Hsame.
      unfold mem_free, mbind, M_bind, get, modify, demand. rewrite (proj2 (Z.eqb_neq p NULL)) by done.
      cbn -[lookup delete]. by rewrite Hsame.
    + by apply Hdec.
    + by apply Hdec.
Qed.

(** Behind the highest address in use, from 16 on; sizes below 0 fail. *)
#[export] Instance demo_malloc : Malloc := {
  malloc size h := if size <? 0 then None else Some (16 + foldr Z.max 0 (fst <$> map_to_list h))
}.
#[export] Instance demo_malloc_laws : MallocLaws.
Proof.
  split. intros size h p. cbn. destruct (size <? 0); [done|]. intros [= <-].
  assert (forall l x, x ∈ l -> 0 <= foldr Z.max 0 l /\ x <= foldr Z.max 0 l) as Hmax.
  { induction l as [|y l IH]; intros x; [by intros ?%elem_of_nil|]. cbn. intros [->|Hx]%elem_of_cons; [|specialize (IH x Hx); lia].
    destruct l as [|z l]; [cbn; lia|]. specialize (IH z (list_elem_of_here _ _)). lia. }
  set (L := fst <$> map_to_list h) in *. assert (0 <= foldr Z.max 0 L) as Hpos by (destruct L as [|y l]; [done|apply (Hmax _ y), list_elem_of_here]).
  split; [|unfold NULL; lia].
  destruct (h !! (16 + foldr Z.max 0 L)) as [b|] eqn:E; [|done]. exfalso. destruct (Hmax L (16 + foldr Z.max 0 L)) as [_ H]; [|lia].
  apply list_elem_of_fmap. exists (16 + foldr Z.max 0 L, b). split; [done|]. by apply elem_of_map_to_list.
Qed.

Lemma mem_counts_witness :
  mem_alloc_auto 32 ∅ = Ok 24 {[16 := Block 40 (Some 1)]} /\
  mem_decref 24 None {[16 := Block 40 (Some 1)]} = Ok 0 (delete 16 {[16 := Block 40 (Some 0)]}).
Proof.
  destruct (mem_counts None 32 [Inc; Inc; Dec; Dec] 16 ∅) as (H1&_&H2).
  - reflexivity.
  - cbn. unfold SSIZE_MAX. lia.
  - reflexivity.
  - exact (conj H1 (H2 eq_refl)).
Defined.
