(* ===== verification/Strbuf.v ===== *)
(** The growable character buffer of src/core/strbuf.c.

    A buffer is its cell array with the [len] and [cap] fields of [struct
    strbuf]. [None] is undefined behaviour: a store outside the array, or the
    signed overflow of [cap * 2]. *)

From S2P Require Import Prelude CLib.

#[local] Open Scope Z_scope.

Definition STRBUF_INIT_LEN : Z := 128.

(** ** State and operations *)

Record strbuf := Strbuf { p : cells; len : Z; cap : Z }.

Definition strbuf_init : option strbuf :=
  p ← store (replicate (Z.to_nat STRBUF_INIT_LEN) None) 0 NUL;
  Some {| p := p; len := 0; cap := STRBUF_INIT_LEN |}.

Definition strbuf_reset (buf : strbuf) : strbuf :=
  {| p := p buf; len := 0; cap := cap buf |}.

(** The reallocation at the head of [strbuf_append]: [mem_alloc(cap * 2)] and
    the [memcpy] of [cap] bytes. *)
Definition strbuf_grow (buf : strbuf) : option strbuf :=
  if len buf + 1 =? cap buf then
    if in_int (cap buf * 2) && (cap buf <=? Z.of_nat (length (p buf))) then
      new_p ← blit (replicate (Z.to_nat (cap buf * 2)) None) 0
                   (take (Z.to_nat (cap buf)) (p buf));
      Some {| p := new_p; len := len buf; cap := cap buf * 2 |}
    else None
  else Some buf.

Definition strbuf_append (buf : strbuf) (ch : ascii) : option strbuf :=
  buf ← strbuf_grow buf;
  p ← store (p buf) (len buf) ch;
  p ← store p (len buf + 1) NUL;
  Some {| p := p; len := len buf + 1; cap := cap buf |}.

(** [s] is the C string the argument points at. *)
Fixpoint strbuf_cat (buf : strbuf) (s : list ascii) : option strbuf :=
  match s with
  | [] => Some buf
  | ch :: s => buf ← strbuf_append buf ch; strbuf_cat buf s
  end.

(** [char res\[16\]; sprintf(res, "%d", x); strbuf_cat(buf, res)]: the text and
    its terminator must fit in [res]. *)
Definition strbuf_append_num (buf : strbuf) (x : Z) : option strbuf :=
  if (length (sprintf_d x) <? 16)%nat then strbuf_cat buf (sprintf_d x) else None.

(** ** Representation *)

(** [buf] holds the characters [bs]; its array has the advertised capacity and
    room for the terminator. *)
Definition strbuf_rep (buf : strbuf) (bs : list ascii) : Prop :=
  len buf = Z.of_nat (length bs) /\
  cap buf = Z.of_nat (length (p buf)) /\
  len buf < cap buf /\
  exists r, p buf = of_chars bs ++ r.

(** The byte after the contents is [NUL], so the contents end as a C string. *)
Definition strbuf_term (buf : strbuf) : Prop := p buf !! Z.to_nat (len buf) = Some (Some NUL).

(** The capacity is at most twice what the contents need. *)
Definition strbuf_tight (buf : strbuf) : Prop :=
  STRBUF_INIT_LEN <= cap buf <= Z.max STRBUF_INIT_LEN (2 * len buf).

Lemma strbuf_init_spec :
  exists buf, strbuf_init = Some buf /\ strbuf_rep buf [] /\ strbuf_term buf /\ strbuf_tight buf.
Proof.
  eexists. split; [reflexivity|]. split_and!; [|done|vm_compute; split; congruence].
  split_and!; [done|done|done|]. by eexists.
Qed.

Lemma strbuf_reset_spec buf bs : strbuf_rep buf bs -> strbuf_rep (strbuf_reset buf) [].
Proof. intros (Hl&Hc&Hlt&r&Hp). split_and!; simpl; [done|done|lia|eauto]. Qed.

Lemma strbuf_grow_spec buf bs :
  strbuf_rep buf bs -> len buf + 1 < 1073741824 ->
  exists buf', strbuf_grow buf = Some buf' /\ strbuf_rep buf' bs /\
    len buf' + 1 < cap buf' /\ (strbuf_tight buf -> STRBUF_INIT_LEN <= cap buf' <= Z.max STRBUF_INIT_LEN (2 * (len buf' + 1))).
Proof.
  intros (Hl&Hc&Hlt&r&Hp) Hb. unfold strbuf_grow.
  destruct (Z.eqb_spec (len buf + 1) (cap buf)) as [He|He].
  - unfold in_int, INT_MAX, INT_MIN.
    if_true. unfold blit. if_true.
    eexists. split; [reflexivity|]. split.
    + split_and!; simpl; [done| |lia|].
      * len_lia.
      * rewrite Hp. rewrite take_app_ge by len_lia.
        rewrite <-app_assoc. eauto.
    + unfold strbuf_tight. simpl. split; lia.
  - exists buf. split; [done|]. split_and!; [by split_and!; eauto|lia|].
    unfold strbuf_tight. lia.
Qed.

(** Appending keeps the representation, terminates the contents and never
    leaves the array while the contents are shorter than 2^30. *)
Lemma strbuf_append_rep buf bs ch :
  strbuf_rep buf bs -> len buf + 1 < 1073741824 ->
  exists buf', strbuf_append buf ch = Some buf' /\ strbuf_rep buf' (bs ++ [ch]) /\
    strbuf_term buf' /\ len buf' = len buf + 1 /\ (strbuf_tight buf -> strbuf_tight buf').
Proof.
  intros Hrep Hb. unfold strbuf_append.
  destruct (strbuf_grow_spec buf bs Hrep Hb) as (b&->&(Hl&Hc&Hlt&r&Hp)&Hroom&Ht). simpl.
  destruct Hrep as (Hl0&_).
  rewrite store_in by lia. simpl. rewrite store_in by len_lia. simpl. eexists. split; [done|]. rewrite Hl, Z2Nat.inj_add, Nat2Z.id by lia.
  assert (exists x1 x2 r', r = x1 :: x2 :: r') as (x1&x2&r'&->).
  { assert (2 <= length r)%nat by (rewrite Hp in Hc; len_lia).
    destruct r as [|? [|? ?]]; simpl in *; eauto; lia. }
  rewrite Hp. rewrite !insert_app_r_alt by len_lia.
  rewrite length_of_chars, Nat.sub_diag.
  replace (length bs + Z.to_nat 1 - length bs)%nat with 1%nat by lia. simpl.
  rewrite Hp in Hc. split_and!.
  - split_and!; simpl; [len_lia|len_lia|len_lia|]. exists (Some NUL :: r').
    rewrite of_chars_app, <-app_assoc. done.
  - unfold strbuf_term. simpl. rewrite lookup_app_r by len_lia.
    rewrite length_of_chars. by replace (_ - _)%nat with 1%nat by lia.
  - simpl. lia.
  - unfold strbuf_tight in *. simpl. intros Hti. specialize (Ht Hti). lia.
Qed.

Lemma strbuf_cat_rep s : forall buf bs,
  strbuf_rep buf bs -> len buf + Z.of_nat (length s) < 1073741824 ->
  exists buf', strbuf_cat buf s = Some buf' /\ strbuf_rep buf' (bs ++ s) /\
    (s <> [] \/ strbuf_term buf -> strbuf_term buf') /\ (strbuf_tight buf -> strbuf_tight buf').
Proof.
  induction s as [|c s IH]; intros buf bs Hr Hb.
  - exists buf. rewrite app_nil_r. split_and!; auto. by intros [|].
  - cbn [strbuf_cat]. cbn [length] in Hb.
    destruct (strbuf_append_rep buf bs c Hr) as (b1&->&Hr1&Ht1&Hl1&Hti1); [lia|]. simpl.
    destruct (IH b1 (bs ++ [c]) Hr1) as (b2&->&Hr2&Ht2&Hti2); [lia|].
    exists b2. rewrite <-app_assoc in Hr2. split_and!; auto.
Qed.

Lemma strbuf_append_num_rep buf bs x :
  strbuf_rep buf bs -> len buf + 16 < 1073741824 -> INT_MIN <= x <= INT_MAX ->
  exists buf', strbuf_append_num buf x = Some buf' /\ strbuf_rep buf' (bs ++ sprintf_d x) /\
    strbuf_term buf' /\ (strbuf_tight buf -> strbuf_tight buf').
Proof.
  intros Hr Hb Hx. pose proof (sprintf_d_length x Hx). unfold strbuf_append_num.
  if_true.
  destruct (strbuf_cat_rep (sprintf_d x) buf bs Hr) as (b&->&?&Ht&?); [lia|].
  exists b. split_and!; auto. apply Ht. left. intros E. rewrite E in *. simpl in *. lia.
Qed.

(** ** Contents as C strings *)

Lemma strbuf_rep_len buf bs : strbuf_rep buf bs -> len buf = Z.of_nat (length bs).
Proof. by intros (?&_). Qed.

(** The contents of a terminated buffer from any offset, when no [NUL] is
    embedded after it. *)
Lemma strbuf_cstr_at buf l s :
  strbuf_rep buf (l ++ s) -> strbuf_term buf -> NUL ∉ s ->
  cstr_at (p buf) (Z.of_nat (length l)) = Some s.
Proof.
  intros (Hl&_&_&r&Hp) Ht Hs. unfold strbuf_term in Ht.
  rewrite Hl, Nat2Z.id, Hp, lookup_app_r, length_of_chars, Nat.sub_diag in Ht by len_lia.
  destruct r as [|x r]; simplify_eq/=.
  rewrite Hp, of_chars_app, <-app_assoc. apply cstr_at_app; [len_lia|done].
Qed.

(** A string followed by an embedded [NUL]. *)
Lemma strbuf_cstr_at_sep buf l s t :
  strbuf_rep buf (l ++ s ++ NUL :: t) -> NUL ∉ s ->
  cstr_at (p buf) (Z.of_nat (length l)) = Some s.
Proof.
  intros (Hl&_&_&r&Hp) Hs.
  rewrite Hp, of_chars_app, <-app_assoc, of_chars_app, <-app_assoc. simpl.
  apply cstr_at_app; [len_lia|done].
Qed.

(** Storing inside the contents. *)
Definition set_p (buf : strbuf) (a : cells) : strbuf :=
  {| p := a; len := len buf; cap := cap buf |}.

Lemma strbuf_store_rep buf bs (i : nat) c :
  strbuf_rep buf bs -> (i < length bs)%nat ->
  exists a, store (p buf) (Z.of_nat i) c = Some a /\ strbuf_rep (set_p buf a) (<[i := c]> bs) /\
    (strbuf_term buf -> strbuf_term (set_p buf a)).
Proof.
  intros (Hl&Hc&Hlt&r&Hp) Hi. eexists. split.
  { apply store_Some. split; [|done]. lia. }
  rewrite Nat2Z.id. split.
  - split_and!; simpl; [by autorewrite with len|by autorewrite with len|done|].
    exists r. rewrite Hp, insert_app_l by len_lia. f_equal.
    unfold of_chars. by rewrite list_fmap_insert.
  - unfold strbuf_term. simpl. intros Ht. rewrite list_lookup_insert_ne by lia. done.
Qed.

(** ** Strings inside the contents *)

(** The string [s] followed by an embedded [NUL] stands at offset [i] of the
    contents. *)
Definition str_in (bs : list ascii) (i : Z) (s : list ascii) : Prop :=
  cstr_at (of_chars bs) i = Some s.

Lemma cstr_at_app_l l r i s : cstr_at l i = Some s -> cstr_at (l ++ r) i = Some s.
Proof.
  intros H. pose proof (cstr_at_bound _ _ _ H). apply cstr_at_Some in H as (Hi&Hn&t&E).
  apply cstr_at_Some. split; [done|]. split; [done|]. exists (t ++ r).
  rewrite drop_app_le by lia. by rewrite E, <-app_assoc.
Qed.

Lemma str_in_rep buf bs i s :
  strbuf_rep buf bs -> str_in bs i s -> cstr_at (p buf) i = Some s.
Proof. intros (_&_&_&r&->) H. by apply cstr_at_app_l. Qed.

Lemma str_in_app bs bs' i s : str_in bs i s -> str_in (bs ++ bs') i s.
Proof. unfold str_in. rewrite of_chars_app. apply cstr_at_app_l. Qed.

Lemma str_in_here l s r i : i = Z.of_nat (length l) -> NUL ∉ s -> str_in (l ++ s ++ NUL :: r) i s.
Proof.
  intros Hi Hs. unfold str_in. rewrite !of_chars_app. apply cstr_at_app; [len_lia|done].
Qed.

Lemma str_in_bound bs i s : str_in bs i s -> 0 <= i /\ i + Z.of_nat (length s) < Z.of_nat (length bs).
Proof. intros H%cstr_at_bound. by rewrite length_of_chars in H. Qed.

Lemma str_in_store_ne bs (j : nat) c i s :
  str_in bs i s -> (j < length bs)%nat ->
  Z.of_nat j < i \/ i + Z.of_nat (length s) < Z.of_nat j -> str_in (<[j := c]> bs) i s.
Proof.
  intros H Hj Hd. eapply cstr_at_store_ne; [|exact H|exact Hd].
  rewrite store_in by len_lia. rewrite Nat2Z.id. unfold of_chars. by rewrite list_fmap_insert.
Qed.

Lemma str_in_store_nul bs (j : nat) i s :
  str_in bs i s -> (j < length bs)%nat ->
  i <= Z.of_nat j <= i + Z.of_nat (length s) ->
  str_in (<[j := NUL]> bs) i (take (Z.to_nat (Z.of_nat j - i)) s).
Proof.
  intros H Hj Hd. eapply cstr_at_store_nul; [|exact H|exact Hd].
  rewrite store_in by len_lia. rewrite Nat2Z.id. unfold of_chars. by rewrite list_fmap_insert.
Qed.

Lemma str_in_drop bs i s (k : nat) :
  str_in bs i s -> (k <= length s)%nat -> str_in bs (i + Z.of_nat k) (drop k s).
Proof. apply cstr_at_drop. Qed.

Lemma str_in_lookup bs i s (k : nat) c :
  str_in bs i s -> s !! k = Some c -> bs !! (Z.to_nat i + k)%nat = Some c.
Proof.
  intros H Hk. pose proof (str_in_bound _ _ _ H).
  eapply load_cstr in H; [|exact Hk]. unfold load in H.
  destruct (Z.leb_spec 0 (i + Z.of_nat k)); [|done].
  rewrite Z2Nat.inj_add, Nat2Z.id in H by lia. unfold of_chars in H.
  rewrite list_lookup_fmap in H. by destruct (bs !! _).
Qed.

Lemma strbuf_load_rep buf bs (i : nat) c :
  strbuf_rep buf bs -> bs !! i = Some c -> load (p buf) (Z.of_nat i) = Some c.
Proof.
  intros (_&_&_&r&->) Hi. unfold load. if_true. rewrite Nat2Z.id.
  rewrite lookup_app_l by (autorewrite with len; by eapply lookup_lt_Some).
  unfold of_chars. by rewrite list_lookup_fmap, Hi.
Qed.
