(* ===== verification/ConnIf.v ===== *)
(** src/core/conn.h: the data of a connection, and the interface the I/O
    routines of conn_io.c and the protocol handlers are written against: system
    calls on a socket, suspension of the running coroutine, and the store of
    connections.

    The laws of the interface are stated with three observations of the world:
    the bytes a socket has delivered so far, the bytes it has accepted so far,
    and a bound on the bytes still to be delivered together with the [EAGAIN]s
    still to be reported: peers send finitely much and stall finitely often. *)

From S2P Require Import Prelude CLib Outcome.

#[local] Open Scope Z_scope.

(** ** Data *)

Inductive conn_stat := CONN_USED | CONN_FREE | CONN_CLOSED.
#[export] Instance conn_stat_eq_dec : EqDecision conn_stat.
Proof. solve_decision. Defined.

(** [struct conn_endpoint]: address family, port in network order, and the bytes
    of the address. *)
Record conn_endpoint := Endpoint { family : Z; ep_port : Z; addr : list Z }.
#[export] Instance conn_endpoint_eq_dec : EqDecision conn_endpoint.
Proof. solve_decision. Defined.

(** [struct conn]; [apool] is the pool element of an idle connection. *)
Record conn := Conn {
  fd : Z;
  c_buf : cells; buf_cap : Z; buf_s : Z; buf_e : Z;
  rx : Z; tx : Z;
  stat : conn_stat;
  c_ep : conn_endpoint;
  apool : option positive
}.

Definition with_buf (c : conn) (b : cells) (s e : Z) : conn :=
  Conn (fd c) b (buf_cap c) s e (rx c) (tx c) (stat c) (c_ep c) (apool c).
Definition with_s (c : conn) (s : Z) : conn := with_buf c (c_buf c) s (buf_e c).
Definition with_rx (c : conn) (x : Z) : conn :=
  Conn (fd c) (c_buf c) (buf_cap c) (buf_s c) (buf_e c) x (tx c) (stat c) (c_ep c) (apool c).
Definition with_tx (c : conn) (x : Z) : conn :=
  Conn (fd c) (c_buf c) (buf_cap c) (buf_s c) (buf_e c) (rx c) x (stat c) (c_ep c) (apool c).
Definition with_stat (c : conn) (s : conn_stat) : conn :=
  Conn (fd c) (c_buf c) (buf_cap c) (buf_s c) (buf_e c) (rx c) (tx c) s (c_ep c) (apool c).
Definition with_apool (c : conn) (a : option positive) : conn :=
  Conn (fd c) (c_buf c) (buf_cap c) (buf_s c) (buf_e c) (rx c) (tx c) (stat c) (c_ep c) a.

(** [event_id] is a [uint32_t]. *)
Abbreviation event_id := Z.

(** The flags of [struct epoll_event]. *)
Definition EPOLLIN : Z := 1.
Definition EPOLLOUT : Z := 4.
Definition EPOLLERR : Z := 8.
Definition EPOLLHUP : Z := 16.
Definition EPOLLRDHUP : Z := 8192.

(** [conn_notice] with the [async_yield_type] that says which part is used. *)
Inductive conn_notice :=
| CONN_IO_WILL_BLOCK (nfd flag : Z)
| CONN_WAIT_FOR_EVENT (eid : event_id).

(** ** The interface *)

Definition EAGAIN : Z := 11.
Definition EINPROGRESS : Z := 115.

(** The result of [recv] and of [send]: bytes, or -1 with [errno]. *)
Inductive recv_res := RecvData (s : list ascii) | RecvErr (errno : Z).
Inductive send_res := SendN (n : nat) | SendErr (errno : Z).

Class ConnEnv (W : Type) := {
  recv : Z -> nat -> W -> recv_res * W;
  send : Z -> list ascii -> W -> send_res * W;
  async_yield : conn_notice -> M W Z;
  exiting : W -> bool;
  get_conn : positive -> W -> option conn;
  put_conn : positive -> conn -> W -> W;
  conn_close : positive -> M W ();
}.

(** The observations. *)
Class ConnObs (W : Type) := {
  rcvd : W -> Z -> list ascii;
  sent : W -> Z -> list ascii;
  stalls : W -> nat;
  (** The stream of a descriptor has been found at its end or broken. *)
  ended : W -> Z -> Prop;
}.

(** [w'] differs from [w] in nothing the owner of the reading side of [rd] and
    of the writing side of [wr] relies on. The status, the counters and
    everything else may have changed. *)
Definition same_reader (c c' : conn) : Prop :=
  fd c' = fd c /\ c_buf c' = c_buf c /\ buf_cap c' = buf_cap c /\
  buf_s c' = buf_s c /\ buf_e c' = buf_e c.

Section rely.
Context {W : Type} `{!ConnEnv W, !ConnObs W}.

Definition keeps_rd (rd : positive) (w w' : W) : Prop :=
  forall c, get_conn rd w = Some c ->
  exists c', get_conn rd w' = Some c' /\ same_reader c c' /\ rcvd w' (fd c) = rcvd w (fd c).
Definition keeps_wr (wr : positive) (w w' : W) : Prop :=
  forall c, get_conn wr w = Some c ->
  exists c', get_conn wr w' = Some c' /\ fd c' = fd c /\ sent w' (fd c) = sent w (fd c) /\
    (stat c = CONN_CLOSED -> stat c' = CONN_CLOSED).

#[export] Instance keeps_rd_preorder i : PreOrder (keeps_rd i).
Proof.
  split.
  - intros w c Hc. exists c. by split_and!.
  - intros w1 w2 w3 H1 H2 c Hc. destruct (H1 c Hc) as (c2&Hc2&(E1&E2&E3&E4&E5)&Er).
    destruct (H2 c2 Hc2) as (c3&Hc3&(F1&F2&F3&F4&F5)&Fr). exists c3.
    rewrite E1 in Fr. unfold same_reader. split_and!; congruence.
Qed.

#[export] Instance keeps_wr_preorder i : PreOrder (keeps_wr i).
Proof.
  split.
  - intros w c Hc. exists c. by split_and!.
  - intros w1 w2 w3 H1 H2 c Hc. destruct (H1 c Hc) as (c2&Hc2&E1&Es&Et).
    destruct (H2 c2 Hc2) as (c3&Hc3&F1&Fs&Ft). exists c3.
    rewrite E1 in Fs. split_and!; [done|congruence|congruence|auto].
Qed.
End rely.

(** What the I/O routines rely on, for a coroutine that reads the connections
    of [rd] and writes those of [wr]. *)
Class ConnLaws (W : Type) `{!ConnEnv W, !ConnObs W} (rd wr : positive -> Prop) := {
  put_conn_get i c w : get_conn i w <> None -> get_conn i (put_conn i c w) = Some c;
  put_conn_get_ne i j c w : i <> j -> get_conn j (put_conn i c w) = get_conn j w;
  put_conn_obs i c w : rcvd (put_conn i c w) = rcvd w /\ sent (put_conn i c w) = sent w /\
    stalls (put_conn i c w) = stalls w;
  (** [recv] delivers the next bytes, at most [n]; each byte and each [EAGAIN]
      is one of the finitely many to come. *)
  recv_law f n w r w' : recv f n w = (r, w') ->
    (forall i, get_conn i w' = get_conn i w) /\ sent w' = sent w /\
    (forall f', f' <> f -> rcvd w' f' = rcvd w f') /\ (stalls w' <= stalls w)%nat /\
    match r with
    | RecvData s => (length s <= n)%nat /\ rcvd w' f = rcvd w f ++ s /\
        (stalls w' + length s <= stalls w)%nat
    | RecvErr e => rcvd w' f = rcvd w f /\ (e = EAGAIN -> (stalls w' < stalls w)%nat)
    end;
  (** [send] accepts a prefix of the bytes. *)
  send_law f s w r w' : send f s w = (r, w') ->
    (forall i, get_conn i w' = get_conn i w) /\ rcvd w' = rcvd w /\
    (forall f', f' <> f -> sent w' f' = sent w f') /\ (stalls w' <= stalls w)%nat /\
    match r with
    | SendN n => (n <= length s)%nat /\ sent w' f = sent w f ++ take n s
    | SendErr e => sent w' f = sent w f /\ (e = EAGAIN -> (stalls w' < stalls w)%nat)
    end;
  (** While the coroutine is suspended the others leave its sides alone. *)
  yield_law nt w : wp safe (async_yield nt) (fun _ w' =>
    (forall i, rd i -> keeps_rd i w w') /\ (forall i, wr i -> keeps_wr i w w') /\
    (stalls w' <= stalls w)%nat) w;
  (** [conn_close] marks the connection. *)
  close_law i c w : get_conn i w = Some c -> wp safe (conn_close i) (fun _ w' =>
    get_conn i w' = Some (with_stat c CONN_CLOSED) /\
    (forall j, j <> i -> get_conn j w' = get_conn j w) /\
    rcvd w' = rcvd w /\ sent w' = sent w /\ stalls w' = stalls w) w;
  (** [recv] gives no bytes, or an error that is no [EAGAIN], only at the end of a stream. *)
  recv_ended f n w r w' : recv f n w = (r, w') ->
    match r with
    | RecvData [] => (0 < n)%nat -> ended w' f
    | RecvData _ => True
    | RecvErr e => e <> EAGAIN -> ended w' f
    end;
  close_ended i w : match conn_close i w with
    | Ok _ w' => exiting w' = exiting w /\ forall f, ended w f -> ended w' f
    | _ => True
    end
}.
