(* ===== verification/ConnIO.v ===== *)
(** src/core/conn_io.c: buffered blocking I/O on the non-blocking sockets of the
    event loop, over the interface of ConnIf.v.  Loops take [fuel]. *)

From S2P Require Import Prelude CLib Outcome Strbuf ConnIf.

#[local] Open Scope Z_scope.

(** The buffer argument of [conn_try_io]: room for [len] bytes, or bytes. *)
Inductive io_buf := IoRecv (n : nat) | IoSend (s : list ascii).

Section conn_io.
Context {W : Type} `{!ConnEnv W}.

(** One [recv] or [send]: its result, what it stored, and [errno]. *)
Definition sys_io (f : Z) (b : io_buf) : M W (Z * list ascii * Z) := fun w =>
  match b with
  | IoRecv n =>
      match recv f n w with
      | (RecvData s, w) => Ok (Z.of_nat (length s), s, 0) w
      | (RecvErr e, w) => Ok (-1, [], e) w
      end
  | IoSend s =>
      match send f s w with
      | (SendN n, w) => Ok (Z.of_nat n, [], 0) w
      | (SendErr e, w) => Ok (-1, [], e) w
      end
  end.

Fixpoint conn_try_io (fuel : nat) (f : Z) (b : io_buf) (can_block : bool) : M W (Z * list ascii) :=
  match fuel with
  | O => no_fuel
  | S fuel =>
      ex ← get exiting;
      if ex : bool then mret (-1, []) else
      '(ret, s, errno) ← sys_io f b;
      if ret =? 0 then mret (-1, [])
      else if (ret =? -1) && (errno =? EAGAIN) then
        if negb can_block then mret (-1, []) else
        _ ← async_yield (CONN_IO_WILL_BLOCK f
              (match b with IoRecv _ => EPOLLIN | IoSend _ => EPOLLOUT end));
        conn_try_io fuel f b can_block
      else mret (ret, s)
  end.

(** Dereferences of a [struct conn] pointer. *)
Definition load_conn (i : positive) : M W conn := c ← get (get_conn i); demand c.
Definition save_conn (i : positive) (c : conn) : M W () := modify (put_conn i c).

(** [conn->stat != CONN_CLOSED]. *)
Definition open (c : conn) : bool := bool_decide (stat c <> CONN_CLOSED).

(** The [len] bytes at offset [i] of an array, as [memcpy] and [send] read
    them: outside the array or unwritten is undefined. *)
Definition bytes_at (a : cells) (i len : Z) : option (list ascii) :=
  if (0 <=? i) && (0 <=? len)
  then (if decide (Z.to_nat i + Z.to_nat len <= length a)%nat
        then mapM id (take (Z.to_nat len) (drop (Z.to_nat i) a)) else None)
  else None.

(** [recv] into the front of the connection's buffer. *)
Definition fill_buf (c : conn) (s : list ascii) : option cells := blit (c_buf c) 0 (of_chars s).

(** [conn_read]: the bytes stored in the caller's buffer, and the result. *)
Fixpoint read_loop (fuel : nat) (i : positive) (len : Z) (acc : list ascii) : M W (Z * list ascii) :=
  match fuel with
  | O => no_fuel
  | S fuel' =>
      if len =? 0 then mret (0, acc) else
      if len <? 0 then undef else
      c ← load_conn i;
      '(rlen, s) ← conn_try_io fuel (fd c) (IoRecv (Z.to_nat len)) (open c);
      if (rlen =? -1) || (rlen =? 0) then _ ← conn_close i; mret (-1, acc)
      else read_loop fuel' i (len - rlen) (acc ++ s)
  end.

Definition conn_read (fuel : nat) (i : positive) (len : Z) : M W (Z * list ascii) :=
  c ← load_conn i;
  if negb (open c) then _ ← conn_close i; mret (-1, [])
  else if buf_s c <? buf_e c then
    let copy_len := Z.min (buf_e c - buf_s c) len in
    s ← demand (bytes_at (c_buf c) (buf_s c) copy_len);
    _ ← save_conn i (with_s c (buf_s c + copy_len));
    read_loop fuel i (len - copy_len) s
  else read_loop fuel i len [].

(** [return conn->buf\[conn->buf_s++\]]: a [char] promoted to [int]. *)
Definition take_char (i : positive) (c : conn) : M W Z :=
  ch ← demand (load (c_buf c) (buf_s c));
  _ ← save_conn i (with_s c (buf_s c + 1));
  mret (schar ch).

Definition conn_getc (fuel : nat) (i : positive) : M W Z :=
  c ← load_conn i;
  if buf_s c <? buf_e c then take_char i c else
  _ ← save_conn i (with_buf c (c_buf c) 0 0);
  '(rlen, s) ← conn_try_io fuel (fd c) (IoRecv (Z.to_nat (buf_cap c))) (open c);
  c ← load_conn i;
  if rlen =? -1 then _ ← conn_close i; mret (-1) else
  b ← demand (fill_buf c s);
  let c := with_rx (with_buf c b (buf_s c) rlen) (wrap32 (rx c + 1)) in
  take_char i c.

Definition conn_ungetc (i : positive) : M W () :=
  c ← load_conn i;
  if negb (buf_s c =? 0)
  then save_conn i (with_rx (with_s c (buf_s c - 1)) (wrap32 (rx c - 1)))
  else mret ().

(** The first loop of [conn_gets]: the number of characters and the character
    that ended the line, or [None] for [return -1]. *)
Fixpoint gets_loop (fuel : nat) (i : positive) (len_limit : Z) (ret : Z) (b : strbuf)
    : M W (option (Z * Z) * strbuf) :=
  match fuel with
  | O => no_fuel
  | S fuel' =>
      if len b + 1 =? len_limit then mret (None, b) else
      ch ← conn_getc fuel i;
      if ch =? -1 then mret (None, b)
      else if (ch =? schar CR) || (ch =? schar LF) then mret (Some (ret, ch), b)
      else
        b ← demand (strbuf_append b (to_char ch));
        gets_loop fuel' i len_limit (ret + 1) b
  end.

Definition conn_gets (fuel : nat) (i : positive) (len_limit : Z) (b : strbuf) : M W (Z * strbuf) :=
  '(r, b) ← gets_loop fuel i len_limit 0 b;
  match r with
  | None => mret (-1, b)
  | Some (ret, ch) =>
      if negb (ch =? schar CR) then mret (ret, b) else
      ch ← conn_getc fuel i;
      if ch =? -1 then mret (-1, b)
      else if negb (ch =? schar LF) then _ ← conn_ungetc i; mret (ret, b)
      else mret (ret, b)
  end.

(** [conn_write(conn, buf, len)] with [s] the bytes from [buf] on: a negative
    [len] or one beyond them reads outside. *)
Fixpoint write_loop (fuel : nat) (i : positive) (s : list ascii) (len : Z) : M W Z :=
  match fuel with
  | O => no_fuel
  | S fuel' =>
      if len =? 0 then mret 0 else
      if (len <? 0) || (Z.of_nat (length s) <? len) then undef else
      c ← load_conn i;
      '(rlen, _) ← conn_try_io fuel (fd c) (IoSend (take (Z.to_nat len) s)) (open c);
      if rlen =? -1 then _ ← conn_close i; mret (-1)
      else
        c ← load_conn i;
        _ ← save_conn i (with_tx c (wrap32 (tx c + rlen)));
        write_loop fuel' i (drop (Z.to_nat rlen) s) (len - rlen)
  end.

Definition conn_write (fuel : nat) (i : positive) (s : list ascii) (len : Z) : M W Z :=
  c ← load_conn i;
  if negb (open c) then _ ← conn_close i; mret (-1) else write_loop fuel i s len.

Fixpoint copy_loop (fuel : nat) (out inp : positive) (len : Z) : M W Z :=
  match fuel with
  | O => no_fuel
  | S fuel' =>
      if len =? 0 then mret 0 else
      c ← load_conn inp;
      _ ← save_conn inp (with_buf c (c_buf c) 0 0);
      '(rlen, s) ← conn_try_io fuel (fd c) (IoRecv (Z.to_nat (buf_cap c))) (open c);
      if (rlen =? -1) || (rlen =? 0) then _ ← conn_close inp; mret (-1)
      else
        c ← load_conn inp;
        b ← demand (fill_buf c s);
        _ ← save_conn inp (with_buf c b (buf_s c) rlen);
        let copy_len := if rlen <? len then rlen else len in
        ret ← conn_write fuel out s copy_len;
        if ret =? -1 then mret (-1)
        else
          c ← load_conn inp;
          _ ← save_conn inp (with_rx (with_s c (buf_s c + copy_len)) (wrap32 (rx c + copy_len)));
          copy_loop fuel' out inp (len - copy_len)
  end.

Definition conn_copy (fuel : nat) (out inp : positive) (len : Z) : M W Z :=
  c ← load_conn inp;
  if buf_s c <? buf_e c then
    let buf_len := buf_e c - buf_s c in
    let copy_len := if len <? buf_len then len else buf_len in
    s ← demand (bytes_at (c_buf c) (buf_s c) buf_len);
    _ ← conn_write fuel out s copy_len;
    c ← load_conn inp;
    _ ← save_conn inp (with_rx (with_s c (buf_s c + copy_len)) (wrap32 (rx c + copy_len)));
    copy_loop fuel out inp (len - copy_len)
  else copy_loop fuel out inp len.
End conn_io.
