(* ===== verification/ConnIOFacts.v ===== *)
(** The I/O routines of src/core/conn_io.c meet their contract: no byte is lost,
    duplicated or reordered, every access is inside the buffer, and every call
    returns once the sockets stall only finitely often. *)

From S2P Require Import Prelude CLib Outcome Strbuf ConnIf ConnIO.

#[local] Open Scope Z_scope.
#[local] Set Default Proof Using "All".

Section facts.
Context {W : Type} `{!ConnEnv W, !ConnObs W} (rd wr : positive -> Prop).
Context `{!ConnLaws W rd wr}.

(** A bound on all the bytes a connection delivers, from the start on, and on
    all the stalls. *)
Context (budget : nat).

(** ** Frames *)

(** What a read changes at most: the writing sides stay as they are. *)
Definition rd_frame (w w' : W) : Prop :=
  (forall j, wr j -> keeps_wr j w w') /\ (stalls w' <= stalls w)%nat.
Definition wr_frame (w w' : W) : Prop :=
  (forall i, rd i -> keeps_rd i w w') /\ (stalls w' <= stalls w)%nat.

#[export] Instance rd_frame_preorder : PreOrder rd_frame.
Proof using Type.
  split; [by split|]. intros w1 w2 w3 [H1 S1] [H2 S2]. split; [|lia].
  intros j Hj. etrans; eauto.
Qed.
#[export] Instance wr_frame_preorder : PreOrder wr_frame.
Proof using Type.
  split; [by split|]. intros w1 w2 w3 [H1 S1] [H2 S2]. split; [|lia].
  intros j Hj. etrans; eauto.
Qed.

(** Storing a connection with the same socket, closed if it was closed. *)
Lemma put_conn_rd_frame i c c' w :
  get_conn i w = Some c -> fd c' = fd c -> stat c' = stat c -> rd_frame w (put_conn i c' w).
Proof.
  intros Hc Hfd Hst. destruct (put_conn_obs (rd:=rd) (wr:=wr) i c' w) as (_&Hs&Hst').
  split; [|lia]. intros j _ cj Hcj. destruct (decide (i = j)) as [<-|Hne].
  - exists c'. rewrite (put_conn_get (rd:=rd) (wr:=wr)) by congruence. simplify_eq.
    rewrite Hs. split_and!; [done|done|done|congruence].
  - exists cj. rewrite (put_conn_get_ne (rd:=rd) (wr:=wr)) by done. by rewrite Hs.
Qed.

Lemma put_conn_wr_frame i c c' w :
  get_conn i w = Some c -> same_reader c c' -> wr_frame w (put_conn i c' w).
Proof.
  intros Hc Hsame. destruct (put_conn_obs (rd:=rd) (wr:=wr) i c' w) as (Hr&_&Hst').
  split; [|lia]. intros j _ cj Hcj. destruct (decide (i = j)) as [<-|Hne].
  - exists c'. rewrite (put_conn_get (rd:=rd) (wr:=wr)) by congruence. simplify_eq.
    by rewrite Hr.
  - exists cj. rewrite (put_conn_get_ne (rd:=rd) (wr:=wr)) by done. by rewrite Hr.
Qed.

(** ** One system call that may block *)

Lemma recv_step i c n w r w' :
  rd i -> get_conn i w = Some c -> recv (fd c) n w = (r, w') ->
  rd_frame w w' /\ get_conn i w' = Some c.
Proof.
  intros Hi Hc H. destruct (recv_law (rd:=rd) (wr:=wr) _ _ _ _ _ H) as (Hg&Hs&_&Hst&_).
  split; [|by rewrite Hg]. split; [|done]. intros j _ cj Hj. exists cj. rewrite Hg, Hs. done.
Qed.

Lemma same_reader_trans c1 c2 c3 : same_reader c1 c2 -> same_reader c2 c3 -> same_reader c1 c3.
Proof using Type. unfold same_reader. intuition congruence. Qed.
Lemma same_reader_refl c : same_reader c c.
Proof using Type. by split_and!. Qed.

(** [conn_try_io] on the reading side: one non-empty chunk, or -1. *)
Lemma try_recv_spec i n cb : forall fuel c w,
  rd i -> get_conn i w = Some c -> (stalls w < fuel)%nat ->
  wp safe (conn_try_io fuel (fd c) (IoRecv n) cb) (fun rs w' =>
    rd_frame w w' /\ (exists c', get_conn i w' = Some c' /\ same_reader c c') /\
    (length (rcvd w' (fd c)) + stalls w' <= length (rcvd w (fd c)) + stalls w)%nat /\
    ((rs.1 = -1 /\ rcvd w' (fd c) = rcvd w (fd c)) \/
     (rs.1 = Z.of_nat (length rs.2) /\ rs.2 <> [] /\ (length rs.2 <= n)%nat /\
      rcvd w' (fd c) = rcvd w (fd c) ++ rs.2))) w.
Proof.
  induction fuel as [|fuel IH]; intros c w Hi Hc Hf; [lia|]. cbn [conn_try_io].
  wp_step. destruct (exiting w).
  { wp_step. split; [done|]. split; [by eauto using same_reader_refl|]. split; [lia|]. by left. }
  unfold sys_io. apply wp_bind. unfold wp at 1.
  destruct (recv (fd c) n w) as [[s|e] w1] eqn:E;
    destruct (recv_step i c n w _ _ Hi Hc E) as [Hfr Hc1];
    destruct (recv_law (rd:=rd) (wr:=wr) _ _ _ _ _ E) as (_&_&_&Hle&Hr).
  - destruct Hr as (Hlen&Hr&Hbud). destruct (Z.eqb_spec (Z.of_nat (length s)) 0) as [H0|H0].
    + wp_step. split; [done|]. split; [by eauto using same_reader_refl|].
      split; [rewrite Hr; len_lia|]. left. split; [done|]. rewrite Hr. destruct s; [by rewrite app_nil_r|done].
    + rewrite (proj2 (Z.eqb_neq (Z.of_nat (length s)) (-1))) by lia. cbn [andb].
      wp_step. split; [done|]. split; [by eauto using same_reader_refl|].
      split; [rewrite Hr; len_lia|]. right.
      split_and!; [done| |done|done]. cbn. intros ->. done.
  - destruct Hr as [Hr Hst]. cbn [Z.eqb Pos.eqb andb].
    destruct (Z.eqb_spec e EAGAIN) as [->|He]; cbn [andb].
    + destruct cb; cbn [negb].
      * eapply wp_seq; [apply (yield_law (rd:=rd) (wr:=wr))|]. intros z w2 (Hrd&Hwr&Hst2).
        destruct (Hrd i Hi c Hc1) as (c2&Hc2&Hsame&Hr2).
        specialize (Hst eq_refl). pose proof (proj1 Hsame) as Hfd. rewrite <-Hfd.
        eapply wp_mono; [apply IH; [done|done|lia]|].
        intros rs w' (Hfr'&(c'&Hc'&Hsame')&Hbud&Hcase). rewrite Hfd in Hcase, Hbud. rewrite Hfd. split.
        { etrans; [exact Hfr|]. etrans; [|exact Hfr']. by split. }
        split; [exists c'; split; [done|by eapply same_reader_trans]|].
        rewrite Hr2, Hr in Hcase, Hbud. split; [lia|done].
      * wp_step. split; [done|]. split; [by eauto using same_reader_refl|].
        split; [rewrite Hr; lia|]. by left.
    + wp_step. split; [done|]. split; [by eauto using same_reader_refl|].
      split; [rewrite Hr; lia|]. by left.
Qed.

(** ** The reading side *)

(** The buffered bytes not yet handed out. *)
Definition unread (c : conn) : option (list ascii) :=
  bytes_at (c_buf c) (buf_s c) (buf_e c - buf_s c).

Record buf_ok (c : conn) (un : list ascii) : Prop := BufOk {
  bo_cap : buf_cap c = Z.of_nat (length (c_buf c));
  bo_pos : 0 < buf_cap c;
  bo_range : 0 <= buf_s c <= buf_e c /\ buf_e c <= buf_cap c;
  bo_unread : unread c = Some un
}.

(** What is delivered and what is still to come stays within the budget. *)
Definition within (w : W) (f : Z) : Prop := (length (rcvd w f) + stalls w <= budget)%nat.

(** The coroutine has consumed exactly [taken] of what connection [i]
    delivered; the rest is in its buffer. *)
Definition reading (w : W) (i : positive) (taken : list ascii) : Prop :=
  rd i /\ exists c un, get_conn i w = Some c /\ buf_ok c un /\ rcvd w (fd c) = taken ++ un /\ within w (fd c).

Lemma reading_frame w w' i taken : reading w i taken -> wr_frame w w' -> reading w' i taken.
Proof.
  intros (Hi&c&un&Hc&[H1 H2 H3 H4]&Hr&Hb) [Hf Hst].
  destruct (Hf i Hi c Hc) as (c'&Hc'&(E1&E2&E3&E4&E5)&Er).
  split; [done|]. exists c', un. unfold within in *. rewrite E1, Er. split_and!; [done| |done|lia].
  split; unfold unread; rewrite ?E2, ?E3, ?E4, ?E5; done.
Qed.

Lemma bytes_at_Some a i n s :
  bytes_at a i n = Some s <->
  0 <= i /\ n = Z.of_nat (length s) /\ (Z.to_nat i + length s <= length a)%nat /\
  take (length s) (drop (Z.to_nat i) a) = of_chars s.
Proof using Type.
  unfold bytes_at. split.
  - intros H. opt_inv. bool_prop. apply mapM_Some in H.
    pose proof (Forall2_length _ _ _ H) as Hl. autorewrite with len in Hl.
    assert (n = Z.of_nat (length s)) as -> by lia. split_and!; [lia|done|lia|].
    rewrite Nat2Z.id in H. clear -H. induction H as [|x y ? ? E ? IH]; [done|].
    cbn. unfold id in E. subst. by f_equal.
  - intros (Hi&->&Hle&H). replace ((0 <=? i) && _) with true by (symmetry; bool_arith).
    rewrite Nat2Z.id.
    rewrite decide_True by lia. rewrite H. unfold of_chars.
    clear. induction s as [|c s IH]; [done|]. cbn. unfold of_chars in IH. by rewrite IH.
Qed.

Lemma unread_cons c un :
  buf_ok c un -> buf_s c < buf_e c ->
  exists b un', un = b :: un' /\ load (c_buf c) (buf_s c) = Some b /\
    buf_ok (with_s c (buf_s c + 1)) un'.
Proof using Type.
  intros [H1 H2 H3 H4] Hlt. unfold unread in H4. apply bytes_at_Some in H4 as (Hi&Hn&Hle&Ht).
  destruct un as [|b un]; [simpl in Hn; lia|]. exists b, un. split; [done|].
  destruct (drop (Z.to_nat (buf_s c)) (c_buf c)) as [|x l] eqn:Ed; [done|].
  cbn in Ht. injection Ht as -> Ht. split.
  { unfold load. if_true. rewrite <-(Nat.add_0_r (Z.to_nat (buf_s c))), <-lookup_drop, Ed. done. }
  split; cbn; [done|done|lia|]. unfold unread. cbn. apply bytes_at_Some.
  cbn [length] in Hn. split_and!; [lia|lia|lia|].
  replace (Z.to_nat (buf_s c + 1)) with (Z.to_nat (buf_s c) + 1)%nat by lia.
  rewrite <-drop_drop, Ed. done.
Qed.

Lemma unread_nil c un : buf_ok c un -> buf_e c <= buf_s c -> un = [].
Proof using Type.
  intros [_ _ H3 H4] Hle. unfold unread in H4. apply bytes_at_Some in H4 as (_&Hn&_&_).
  destruct un; [done|]. cbn [length] in Hn. lia.
Qed.

Lemma buf_ok_empty c un : buf_ok c un -> buf_ok (with_buf c (c_buf c) 0 0) [].
Proof using Type. intros [H1 H2 H3 H4]. split; cbn; [done|done|lia|done]. Qed.

(** The buffer after [recv] stored [s] at its front. *)
Lemma fill_buf_spec c s un :
  buf_ok c un -> buf_s c = 0 -> (length s <= Z.to_nat (buf_cap c))%nat ->
  exists b, fill_buf c s = Some b /\ buf_ok (with_buf c b (buf_s c) (Z.of_nat (length s))) s.
Proof using Type.
  intros [H1 H2 H3 _] H0 Hlen. unfold fill_buf, blit. if_true.
  eexists. split; [done|]. rewrite H0. split; cbn; [len_lia|done|lia|].
  unfold unread. cbn. apply bytes_at_Some. split_and!; [lia|lia|len_lia|].
  cbn. rewrite drop_0, take_0. cbn [app]. by rewrite take_app_length' by len_lia.
Qed.

(** The byte last handed out still stands before the read position. *)
Definition can_unget (w : W) (i : positive) (b : ascii) : Prop :=
  exists c, get_conn i w = Some c /\ 0 < buf_s c /\ load (c_buf c) (buf_s c - 1) = Some b.

Lemma load_conn_wp U i c Q w : get_conn i w = Some c -> Q c w -> wp U (load_conn i) Q w.
Proof using Type. intros Hc HQ. unfold load_conn. wp_step. rewrite Hc. exact HQ. Qed.

Lemma save_conn_wp U i c (Q : () -> W -> Prop) w : Q () (put_conn i c w) -> wp U (save_conn i c) Q w.
Proof using Type. done. Qed.

Lemma take_char_spec i c un taken w :
  rd i -> get_conn i w = Some c -> buf_ok c un -> buf_s c < buf_e c ->
  rcvd w (fd c) = taken ++ un -> within w (fd c) ->
  wp safe (take_char i c) (fun ch w' => rd_frame w w' /\
    exists b, ch = schar b /\ reading w' i (taken ++ [b]) /\ can_unget w' i b) w.
Proof.
  intros Hi Hc Hok Hlt Hr Hb.
  destruct (unread_cons _ _ Hok Hlt) as (b'&un'&->&Hl&Hok'). pose proof (bo_range _ _ Hok).
  unfold take_char, save_conn. apply wp_bind, (wp_demand _ _ b'); [done|]. wp_step. wp_step.
  destruct (put_conn_obs (rd:=rd) (wr:=wr) i (with_s c (buf_s c + 1)) w) as (Hr'&_&Hst').
  assert (get_conn i (put_conn i (with_s c (buf_s c + 1)) w) = Some (with_s c (buf_s c + 1))) as Hg
    by (apply (put_conn_get (rd:=rd) (wr:=wr)); congruence).
  split; [by eapply put_conn_rd_frame|]. exists b'. split; [done|]. split.
  - split; [done|]. eexists _, un'. split; [exact Hg|]. split; [done|].
    unfold within. rewrite Hr', Hst'. cbn. by rewrite Hr, <-app_assoc, <-Hr.
  - eexists. split; [exact Hg|]. cbn. split; [lia|]. by replace (_ + 1 - 1) with (buf_s c) by lia.
Qed.

Lemma reading_some w i taken : reading w i taken -> exists c, get_conn i w = Some c.
Proof. intros (_&c&un&?&_). eauto. Qed.

(** Closing keeps what was consumed. *)
Lemma close_reading i taken w :
  reading w i taken ->
  wp safe (conn_close i) (fun _ w' => rd_frame w w' /\ reading w' i taken) w.
Proof.
  intros (Hi&c&un&Hc&Hok&Hr&Hb).
  eapply wp_mono; [by apply (close_law (rd:=rd) (wr:=wr))|].
  intros _ w' (Hc'&Hne&Hr'&Hs'&Hst'). split.
  - split; [|lia]. intros j _ cj Hj. destruct (decide (j = i)) as [->|Hji].
    + exists (with_stat c CONN_CLOSED). simplify_eq. by rewrite Hs'.
    + exists cj. by rewrite Hne, Hs'.
  - split; [done|]. eexists _, un. split; [exact Hc'|]. unfold within. rewrite Hr', Hst'.
    split; [|done]. destruct Hok. by split.
Qed.

(** An empty buffer restarted at the front. *)
Lemma rewind_reading i c un taken w :
  rd i -> get_conn i w = Some c -> buf_ok c un -> buf_e c <= buf_s c -> rcvd w (fd c) = taken ++ un ->
  let c' := with_buf c (c_buf c) 0 0 in let w' := put_conn i c' w in
  get_conn i w' = Some c' /\ buf_ok c' [] /\ rcvd w' (fd c') = taken /\ rd_frame w w' /\
  (within w (fd c) -> within w' (fd c)) /\ stalls w' = stalls w.
Proof.
  intros Hi Hc Hok Hle Hr c' w'.
  destruct (put_conn_obs (rd:=rd) (wr:=wr) i c' w) as (Hr'&_&Hst).
  split_and!; [apply (put_conn_get (rd:=rd) (wr:=wr)); congruence|by eapply buf_ok_empty| | | |done].
  - unfold w'. rewrite Hr'. cbn. by rewrite Hr, (unread_nil _ _ Hok Hle), app_nil_r.
  - by eapply put_conn_rd_frame.
  - unfold within, w'. by rewrite Hr', Hst.
Qed.

Lemma buf_ok_same c c' un : same_reader c c' -> buf_ok c un -> buf_ok c' un.
Proof using Type.
  intros (E1&E2&E3&E4&E5) [H1 H2 H3 H4]. split; unfold unread; rewrite ?E2, ?E3, ?E4, ?E5; done.
Qed.

Lemma conn_getc_spec fuel i taken w :
  reading w i taken -> (stalls w < fuel)%nat ->
  wp safe (conn_getc fuel i) (fun ch w' => rd_frame w w' /\
    ((ch = -1 /\ reading w' i taken) \/
     exists b, ch = schar b /\ reading w' i (taken ++ [b]) /\ can_unget w' i b)) w.
Proof.
  intros (Hi&c&un&Hc&Hok&Hr&Hb) Hf. unfold conn_getc.
  apply wp_bind, (load_conn_wp _ _ c); [done|].
  destruct (Z.ltb_spec (buf_s c) (buf_e c)) as [Hlt|Hle].
  { eapply wp_mono; [by eapply take_char_spec|]. intros ch w' [? ?]. auto. }
  destruct (rewind_reading i c un taken w Hi Hc Hok Hle Hr) as (Hc1&Hok1&Hr1&Hfr1&Hb1&Hst1).
  set (c1 := with_buf c (c_buf c) 0 0) in *. unfold save_conn at 1. wp_step.
  change (fd c) with (fd c1). eapply wp_seq; [apply (try_recv_spec i); [done|done|lia]|].
  intros [rlen s] w2 (Hfr2&(c2&Hc2&Hsame)&Hbud&Hcase). cbn [fst snd] in Hcase.
  apply wp_bind, (load_conn_wp _ _ c2); [done|].
  pose proof (buf_ok_same _ _ _ Hsame Hok1) as Hok2.
  pose proof (proj1 Hsame) as Hfd. rewrite Hr1 in Hcase.
  assert (within w2 (fd c2)) as Hb2 by (specialize (Hb1 Hb); unfold within in *; rewrite Hfd; cbn in *; lia).
  assert (rd_frame w w2) as Hfr by (by etrans).
  destruct Hcase as [[-> Hr2]|(->&Hs&Hlen&Hr2)].
  - cbn [Z.eqb Pos.eqb]. eapply wp_seq; [apply (close_reading i taken)|].
    { split; [done|]. exists c2, []. by rewrite app_nil_r, Hfd in *. }
    intros _ w3 [Hfr3 Hrd3]. wp_step. split; [by etrans|by left].
  - rewrite (proj2 (Z.eqb_neq (Z.of_nat (length s)) (-1))) by lia.
    destruct (fill_buf_spec c2 s [] Hok2) as (b&Hbf&Hokb).
    { by destruct Hsame as (_&_&_&->&_). } { destruct Hsame as (_&_&->&_). done. }
    apply wp_bind, (wp_demand _ _ b); [done|].
    set (c3 := with_rx _ _).
    assert (buf_ok c3 s) as Hok3 by (by destruct Hokb).
    assert (0 < length s)%nat by (destruct s; [done|cbn; lia]).
    destruct (unread_cons c3 s Hok3) as (b'&un'&->&Hl&Hok').
    { cbn. destruct Hsame as (_&_&_&->&_). cbn. lia. }
    unfold take_char, save_conn. apply wp_bind, (wp_demand _ _ b'); [done|]. wp_step. wp_step.
    destruct (put_conn_obs (rd:=rd) (wr:=wr) i (with_s c3 (buf_s c3 + 1)) w2) as (Hr'&_&Hst').
    assert (get_conn i (put_conn i (with_s c3 (buf_s c3 + 1)) w2) = Some (with_s c3 (buf_s c3 + 1)))
      as Hg by (apply (put_conn_get (rd:=rd) (wr:=wr)); congruence).
    split; [etrans; [exact Hfr|by eapply put_conn_rd_frame]|]. right. exists b'. split; [done|]. split.
    + split; [done|]. eexists _, un'. split; [exact Hg|]. split; [done|].
      unfold within. rewrite Hr', Hst'. split; [|exact Hb2].
      cbn [fd with_s with_buf c3 with_rx]. by rewrite Hfd, Hr2, <-app_assoc.
    + pose proof (bo_range _ _ Hok3). eexists. split; [exact Hg|]. cbn [buf_s c_buf with_s with_buf].
      split; [lia|]. by replace (_ + 1 - 1) with (buf_s c3) by lia.
Qed.

(** Giving back the byte just handed out. *)
Lemma conn_ungetc_spec i taken b w :
  reading w i (taken ++ [b]) -> can_unget w i b ->
  wp safe (conn_ungetc i) (fun _ w' => rd_frame w w' /\ reading w' i taken) w.
Proof.
  intros (Hi&c&un&Hc&[H1 H2 H3 H4]&Hr&Hb) (c'&Hc'&Hpos&Hl). simplify_eq.
  unfold conn_ungetc. apply wp_bind, (load_conn_wp _ _ c); [done|].
  rewrite (proj2 (Z.eqb_neq _ _)) by lia. cbn [negb]. unfold save_conn. wp_step.
  set (c1 := with_rx _ _).
  destruct (put_conn_obs (rd:=rd) (wr:=wr) i c1 w) as (Hr'&_&Hst').
  split; [by eapply put_conn_rd_frame|]. split; [done|]. exists c1, (b :: un).
  split; [apply (put_conn_get (rd:=rd) (wr:=wr)); congruence|]. split.
  - split; cbn; [done|done|lia|]. unfold unread in *. cbn.
    apply bytes_at_Some in H4 as (Hi0&Hn&Hle&Ht). apply bytes_at_Some.
    cbn [length]. split_and!; [lia|lia|lia|].
    unfold load in Hl. destruct (Z.leb_spec 0 (buf_s c - 1)); [|lia].
    destruct (c_buf c !! Z.to_nat (buf_s c - 1)) as [x|] eqn:Ex; [|done].
    cbn in Hl. subst x. rewrite (drop_S _ _ _ Ex).
    replace (S (Z.to_nat (buf_s c - 1))) with (Z.to_nat (buf_s c)) by lia.
    cbn. by rewrite Ht.
  - unfold within. rewrite Hr', Hst'. split; [|done]. cbn. by rewrite Hr, <-app_assoc.
Qed.

(** ** Lines *)

(** A byte of a line: no line end, and not the byte 255, which [conn_getc]
    returns as -1. *)
Definition plain (c : ascii) : Prop := c <> CR /\ c <> LF /\ schar c <> -1.

Lemma schar_eqb b c : (schar b =? schar c) = bool_decide (b = c).
Proof using Type.
  case_bool_decide as H; [subst; apply Z.eqb_refl|]. apply Z.eqb_neq. intros E. apply H.
  by rewrite <-(to_char_schar b), E, to_char_schar.
Qed.

(** The result of reading characters up to a line end into a buffer. *)
Definition line_read (w w' : W) (b b' : strbuf) (bs : list ascii) (limit : Z) (line : list ascii)
    : Prop :=
  rd_frame w w' /\ strbuf_rep b' (bs ++ line) /\
  (line <> [] \/ strbuf_term b -> strbuf_term b') /\
  Z.of_nat (length (bs ++ line)) + 1 <= limit /\ Forall plain line.

Lemma gets_loop_spec i limit : forall fuel taken ret b bs w,
  reading w i taken -> strbuf_rep b bs -> Z.of_nat (length bs) + 1 <= limit -> limit <= 268435456 ->
  (stalls w + Z.to_nat (limit - Z.of_nat (length bs)) < fuel)%nat ->
  wp safe (gets_loop fuel i limit ret b) (fun rb w' => exists line,
    line_read w w' b rb.2 bs limit line /\
    match rb.1 with
    | None => exists x, reading w' i (taken ++ x)
    | Some (n, ch) => n = ret + Z.of_nat (length line) /\
        Z.of_nat (length (bs ++ line)) + 1 < limit /\
        exists e, (e = CR \/ e = LF) /\ ch = schar e /\ reading w' i (taken ++ line ++ [e]) /\
          can_unget w' i e
    end) w.
Proof.
  induction fuel as [|fuel IH]; intros taken ret b bs w Hrd Hr Hlim Hmax Hf; [lia|].
  cbn [gets_loop]. rewrite (strbuf_rep_len _ _ Hr).
  assert (forall w', rd_frame w w' -> line_read w w' b b bs limit []) as Hnil.
  { intros w' Hfr. unfold line_read. rewrite app_nil_r. split_and!; [done|done| |done|constructor].
    by intros [|]. }
  destruct (Z.eqb_spec (Z.of_nat (length bs) + 1) limit) as [He|He].
  { wp_step. exists []. split; [by apply Hnil|]. exists []. by rewrite app_nil_r. }
  eapply wp_seq; [apply (conn_getc_spec (S fuel) i taken); [done|lia]|].
  intros ch w1 (Hfr1&[[-> Hrd1]|(c&->&Hrd1&Hun)]).
  { cbn [Z.eqb Pos.eqb]. wp_step. exists []. split; [by apply Hnil|]. exists []. by rewrite app_nil_r. }
  destruct (Z.eqb_spec (schar c) (-1)) as [Hff|Hff].
  { wp_step. exists []. split; [by apply Hnil|]. by exists [c]. }
  rewrite !schar_eqb. destruct (bool_decide (c = CR) || bool_decide (c = LF)) eqn:Eeol.
  - wp_step. exists []. split; [by apply Hnil|]. cbn [fst length]. rewrite app_nil_r.
    split_and!; [lia|lia|]. exists c. split_and!; [|done|done|done].
    apply orb_true_iff in Eeol as [H|H]; apply bool_decide_eq_true in H; auto.
  - apply orb_false_iff in Eeol as [Hcr Hlf]. apply bool_decide_eq_false in Hcr, Hlf.
    rewrite to_char_schar.
    destruct (strbuf_append_rep b bs c Hr) as (b1&Hb1&Hr1&Ht1&_).
    { rewrite (strbuf_rep_len _ _ Hr). lia. }
    apply wp_bind, (wp_demand _ _ b1); [done|].
    eapply wp_mono; [apply (IH (taken ++ [c]) _ b1 (bs ++ [c])); [done|done|len_lia|done|]|].
    { destruct Hfr1. autorewrite with len. cbn [length]. lia. }
    intros [r b2] w2 (line&(Hfr2&Hr2&Ht2&Hlen2&Hpl)&Hcase). cbn [fst snd] in *.
    exists (c :: line). rewrite <-app_assoc in Hr2, Hlen2. split.
    { split_and!; [by etrans|done|auto|done|by constructor]. }
    destruct r as [[n ch]|].
    + destruct Hcase as (->&Hlt&e&He'&->&Hrd2&Hun2). rewrite <-!app_assoc in *.
      split_and!; [cbn [length]; lia|done|]. by exists e.
    + destruct Hcase as (x&Hx). exists (c :: x). by rewrite <-app_assoc in Hx.
Qed.

(** A line end: [CR LF], or a lone one of them. *)
Definition line_end (e : list ascii) : Prop := e = CRLF \/ e = [LF] \/ e = [CR].

Lemma conn_gets_spec fuel i limit taken b bs w :
  reading w i taken -> strbuf_rep b bs -> Z.of_nat (length bs) + 1 <= limit -> limit <= 268435456 ->
  (stalls w + Z.to_nat (limit - Z.of_nat (length bs)) < fuel)%nat ->
  wp safe (conn_gets fuel i limit b) (fun rb w' => exists line,
    line_read w w' b rb.2 bs limit line /\
    ((rb.1 = -1 /\ exists x, reading w' i (taken ++ x)) \/
     (rb.1 = Z.of_nat (length line) /\ Z.of_nat (length (bs ++ line)) + 1 < limit /\
      exists e, line_end e /\ reading w' i (taken ++ line ++ e)))) w.
Proof.
  intros Hrd Hr Hlim Hmax Hf. unfold conn_gets.
  eapply wp_seq; [by apply gets_loop_spec|].
  intros [r b1] w1 (line&Hline&Hcase). cbn [fst snd] in *.
  pose proof Hline as (Hfr1&Hr1&Ht1&Hlen1&Hpl1).
  assert (forall w2, rd_frame w1 w2 -> line_read w w2 b b1 bs limit line) as Hline2.
  { intros w2 Hfr2. split; [by etrans|done]. }
  destruct r as [[n ch]|].
  2: { wp_step. exists line. auto. }
  destruct Hcase as (->&Hlt&e&He&->&Hrd1&Hun1). rewrite schar_eqb.
  destruct He as [->| ->]; cbn [negb]; rewrite ?bool_decide_true, ?bool_decide_false by done; cbn [negb].
  2: { wp_step. exists line. split; [done|]. right. split_and!; [done|done|].
       exists [LF]. split; [|done]. right; by left. }
  eapply wp_seq; [apply (conn_getc_spec fuel i (taken ++ line ++ [CR])); [done|destruct Hfr1; lia]|].
  intros ch w2 (Hfr2&[[-> Hrd2]|(c&->&Hrd2&Hun2)]).
  { cbn [Z.eqb Pos.eqb]. wp_step. exists line. split; [by apply Hline2|]. left. eauto. }
  destruct (Z.eqb_spec (schar c) (-1)) as [Hff|Hff].
  { wp_step. exists line. split; [by apply Hline2|]. left. split; [done|].
    exists ((line ++ [CR]) ++ [c]). by rewrite <-app_assoc in Hrd2. }
  rewrite schar_eqb. case_bool_decide as Hc; cbn [negb].
  - subst c. wp_step. exists line. split; [by apply Hline2|]. right. split_and!; [done|done|].
    exists CRLF. split; [by left|]. by rewrite <-!app_assoc in Hrd2.
  - eapply wp_seq; [by eapply conn_ungetc_spec|]. intros _ w3 [Hfr3 Hrd3]. wp_step.
    exists line. split; [apply Hline2; by etrans|]. right. split_and!; [done|done|].
    exists [CR]. split; [right; by right|done].
Qed.

(** ** The writing side *)

(** The socket of connection [j] is [f] and has accepted [o] so far. *)
Definition writing (w : W) (j : positive) (f : Z) (o : list ascii) : Prop :=
  wr j /\ exists c, get_conn j w = Some c /\ fd c = f /\ sent w f = o.

Definition closed (w : W) (j : positive) : Prop :=
  exists c, get_conn j w = Some c /\ stat c = CONN_CLOSED.

Lemma writing_frame w w' j f o :
  writing w j f o -> rd_frame w w' -> writing w' j f o /\ (closed w j -> closed w' j).
Proof.
  intros (Hj&c&Hc&<-&Hs) [Hf _]. destruct (Hf j Hj c Hc) as (c'&Hc'&Hfd&Hs'&Hcl). split.
  - split; [done|]. exists c'. split_and!; [done|done|congruence].
  - intros (c0&Hc0&Hst). simplify_eq. exists c'. auto.
Qed.

(** A step of the writing side: its own connection may have been closed. *)
Definition wr_step (j : positive) (c : conn) (w w' : W) : Prop :=
  wr_frame w w' /\ exists c', get_conn j w' = Some c' /\ fd c' = fd c /\
    (stat c = CONN_CLOSED -> stat c' = CONN_CLOSED).

Lemma wr_step_trans j c1 w1 w2 w3 :
  wr_step j c1 w1 w2 ->
  (forall c2, get_conn j w2 = Some c2 -> wr_step j c2 w2 w3) -> wr_step j c1 w1 w3.
Proof.
  intros [Hf (c2&Hc2&E&Hst)] H. destruct (H c2 Hc2) as [Hf' (c3&Hc3&E'&Hst')].
  split; [by etrans|]. exists c3. split_and!; [done|congruence|auto].
Qed.

Lemma try_send_spec j s cb : forall fuel c w,
  wr j -> get_conn j w = Some c -> (stalls w < fuel)%nat ->
  wp safe (conn_try_io fuel (fd c) (IoSend s) cb) (fun rs w' =>
    wr_step j c w w' /\
    ((rs.1 = -1 /\ sent w' (fd c) = sent w (fd c)) \/
     exists n, rs.1 = Z.of_nat n /\ (0 < n <= length s)%nat /\
      sent w' (fd c) = sent w (fd c) ++ take n s)) w.
Proof.
  induction fuel as [|fuel IH]; intros c w Hj Hc Hf; [lia|]. cbn [conn_try_io].
  assert (forall w', get_conn j w' = get_conn j w -> wr_frame w w' -> wr_step j c w w') as Hsame.
  { intros w' Hg Hfr. split; [done|]. exists c. by rewrite Hg. }
  wp_step. destruct (exiting w).
  { wp_step. split; [by apply Hsame|]. by left. }
  unfold sys_io. apply wp_bind. unfold wp at 1.
  destruct (send (fd c) s w) as [r w1] eqn:E.
  destruct (send_law (rd:=rd) (wr:=wr) _ _ _ _ _ E) as (Hg&Hr&_&Hst&Hs).
  assert (wr_step j c w w1) as Hstep.
  { apply Hsame; [done|]. split; [|done]. intros i _ ci Hi. exists ci. rewrite Hg, Hr. done. }
  destruct r as [n|e].
  - destruct Hs as [Hlen Hs]. destruct (Z.eqb_spec (Z.of_nat n) 0) as [H0|H0].
    + wp_step. split; [done|]. left. split; [done|].
      assert (n = 0%nat) as -> by lia. by rewrite Hs, take_0, app_nil_r.
    + rewrite (proj2 (Z.eqb_neq (Z.of_nat n) (-1))) by lia. cbn [andb].
      wp_step. split; [done|]. right. exists n. split_and!; [done|lia|done|done].
  - destruct Hs as [Hs Hstl]. cbn [Z.eqb Pos.eqb andb].
    destruct (Z.eqb_spec e EAGAIN) as [->|He]; [destruct cb|]; cbn [negb].
    2,3: wp_step; split; [done|]; by left.
    eapply wp_seq; [apply (yield_law (rd:=rd) (wr:=wr))|]. intros z w2 (Hrd&Hwr&Hst2).
    assert (get_conn j w1 = Some c) as Hc1 by by rewrite Hg.
    destruct (Hwr j Hj c Hc1) as (c2&Hc2&Hfd&Hs2&Hcl). specialize (Hstl eq_refl). rewrite <-Hfd.
    eapply wp_mono; [apply (IH c2); [done|done|lia]|].
    intros rs w' (Hstep'&Hcase). rewrite Hfd in Hcase. rewrite Hfd. split.
    + eapply wr_step_trans; [exact Hstep|]. intros c1' Hc1'. simplify_eq.
      eapply (wr_step_trans _ _ _ w2).
      * split; [by split|]. eauto.
      * intros c2' Hc2'. by simplify_eq.
    + rewrite Hs2, Hs in Hcase. done.
Qed.

Lemma close_writing j c w :
  wr j -> get_conn j w = Some c ->
  wp safe (conn_close j) (fun _ w' => wr_frame w w' /\ closed w' j /\
    writing w' j (fd c) (sent w (fd c))) w.
Proof.
  intros Hj Hc. eapply wp_mono; [by apply (close_law (rd:=rd) (wr:=wr))|].
  intros _ w' (Hc'&Hne&Hr'&Hs'&Hst'). split_and!.
  - split; [|lia]. intros i _ ci Hi. destruct (decide (i = j)) as [->|Hji].
    + exists (with_stat c CONN_CLOSED). simplify_eq. by rewrite Hr'.
    + exists ci. by rewrite Hne, Hr'.
  - by eexists.
  - split; [done|]. eexists. split; [done|]. by rewrite Hs'.
Qed.

(** A write: all of it, or a prefix of it and the connection is closed. *)
Definition wrote (j : positive) (f : Z) (o s : list ascii) (len : Z) (ret : Z) (w' : W) : Prop :=
  (ret = 0 /\ writing w' j f (o ++ take (Z.to_nat len) s)) \/
  (ret = -1 /\ closed w' j /\ exists n, (n <= Z.to_nat len)%nat /\ writing w' j f (o ++ take n s)).

Lemma write_loop_spec j f : forall fuel s len o w,
  writing w j f o -> 0 <= len <= Z.of_nat (length s) -> (stalls w + Z.to_nat len < fuel)%nat ->
  wp safe (write_loop fuel j s len) (fun ret w' => wr_frame w w' /\ wrote j f o s len ret w') w.
Proof.
  induction fuel as [|fuel IH]; intros s len o w Hwr Hlen Hf; [lia|]. cbn [write_loop].
  destruct (Z.eqb_spec len 0) as [->|H0].
  { wp_step. split; [done|]. left. split; [done|]. cbn. by rewrite take_0, app_nil_r. }
  replace ((len <? 0) || (Z.of_nat (length s) <? len)) with false by (symmetry; bool_arith).
  pose proof Hwr as (Hj&c&Hc&<-&Ho). apply wp_bind, (load_conn_wp _ _ c); [done|].
  eapply wp_seq; [apply (try_send_spec j); [done|done|lia]|].
  intros [rlen x] w1 ([Hfr1 (c1&Hc1&Hfd1&_)]&Hcase). cbn [fst snd] in Hcase.
  rewrite Ho in Hcase. destruct Hcase as [[-> Hs1]|(n&->&Hn&Hs1)].
  - cbn [Z.eqb Pos.eqb]. eapply wp_seq; [by apply (close_writing j c1)|].
    intros _ w2 (Hfr2&Hcl&Hw2). wp_step. split; [by etrans|]. right. split_and!; [done|done|].
    exists 0%nat. split; [lia|]. by rewrite take_0, app_nil_r, <-Hs1, <-Hfd1.
  - rewrite (proj2 (Z.eqb_neq (Z.of_nat n) (-1))) by lia.
    apply wp_bind, (load_conn_wp _ _ c1); [done|]. unfold save_conn at 1. wp_step.
    set (c2 := with_tx _ _).
    destruct (put_conn_obs (rd:=rd) (wr:=wr) j c2 w1) as (Hr2&Hs2&Hst2).
    autorewrite with len in Hn. rewrite take_take, Nat2Z.id in *.
    replace (n `min` Z.to_nat len)%nat with n in Hs1 by lia.
    assert (wr_frame w (put_conn j c2 w1)) as Hfr2.
    { etrans; [exact Hfr1|]. eapply put_conn_wr_frame; [exact Hc1|by split_and!]. }
    eapply wp_mono.
    + apply (IH (drop n s) (len - Z.of_nat n) (o ++ take n s)).
      * split; [done|]. exists c2. split; [apply (put_conn_get (rd:=rd) (wr:=wr)); congruence|].
        split; [done|]. by rewrite Hs2.
      * len_lia.
      * destruct Hfr2. lia.
    + intros ret w' [Hfr' Hwr']. split; [by etrans|].
      assert (forall k, (o ++ take n s) ++ take k (drop n s) = o ++ take (n + k) s) as Hcat.
      { intros k. rewrite <-app_assoc. f_equal. by rewrite <-(take_take_drop s n k). }
      destruct Hwr' as [[-> Hw]|(->&Hcl&k&Hk&Hw)]; rewrite Hcat in Hw.
      * left. split; [done|]. by replace (n + Z.to_nat (len - Z.of_nat n))%nat with (Z.to_nat len) in Hw by lia.
      * right. split_and!; [done|done|]. exists (n + k)%nat. split; [lia|done].
Qed.

Lemma conn_write_spec fuel j f s len o w :
  writing w j f o -> 0 <= len <= Z.of_nat (length s) -> (stalls w + Z.to_nat len < fuel)%nat ->
  wp safe (conn_write fuel j s len) (fun ret w' =>
    wr_frame w w' /\ wrote j f o s len ret w' /\
    (closed w j -> ret = -1 /\ closed w' j /\ writing w' j f o)) w.
Proof.
  intros Hwr Hlen Hf. pose proof Hwr as (Hj&c&Hc&<-&Ho). unfold conn_write.
  apply wp_bind, (load_conn_wp _ _ c); [done|]. unfold open. case_bool_decide as Hst; cbn [negb].
  - eapply wp_mono; [by apply write_loop_spec|]. intros ret w' [? ?]. split_and!; [done|done|].
    intros (c0&Hc0&Hst0). congruence.
  - eapply wp_seq; [by apply (close_writing j c)|]. intros _ w' (Hfr&Hcl&Hw). wp_step.
    rewrite Ho in Hw. split_and!; [done| |by intros _].
    right. split_and!; [done|done|]. exists 0%nat. split; [lia|]. by rewrite take_0, app_nil_r.
Qed.

(** ** Copying *)

(** What connection [i] has delivered altogether. *)
Definition delivered (w : W) (i : positive) (x : list ascii) : Prop :=
  exists c, get_conn i w = Some c /\ rcvd w (fd c) = x.

Lemma close_delivered i taken c y w :
  reading w i taken -> get_conn i w = Some c -> rcvd w (fd c) = y ->
  wp safe (conn_close i) (fun _ w' => rd_frame w w' /\ reading w' i taken /\ delivered w' i y) w.
Proof.
  intros Hrd Hc Hy. pose proof (close_reading i taken w Hrd) as H1.
  pose proof (close_law (rd:=rd) (wr:=wr) i c w Hc) as H2. unfold wp in *.
  destruct (conn_close i w) as [[] w'| |]; [|done..]. destruct H1 as [? ?], H2 as (Hc'&_&Hr'&_).
  split_and!; [done|done|]. exists (with_stat c CONN_CLOSED). by rewrite Hr'.
Qed.

(** Of the bytes [x] behind [o], connection [j] has accepted all, or a prefix
    before it was closed. *)
Definition accepted (w : W) (j : positive) (f : Z) (o x : list ascii) : Prop :=
  exists d, writing w j f (o ++ d) /\ (d = x \/ (d `prefix_of` x /\ closed w j)).

Lemma accepted_frame w w' j f o x : accepted w j f o x -> rd_frame w w' -> accepted w' j f o x.
Proof.
  intros (d&Hwr&Hd) Hfr. destruct (writing_frame _ _ _ _ _ Hwr Hfr) as [Hwr' Hcl].
  exists d. split; [done|]. destruct Hd as [?|[? ?]]; auto.
Qed.

Lemma accepted_start w j f o : writing w j f o -> accepted w j f o [].
Proof using Type. intros Hw. exists []. rewrite app_nil_r. auto. Qed.

(** A write behind what was accepted so far. *)
Lemma conn_write_accepted fuel j f o x s len w :
  accepted w j f o x -> 0 <= len <= Z.of_nat (length s) -> (stalls w + Z.to_nat len < fuel)%nat ->
  wp safe (conn_write fuel j s len) (fun ret w' =>
    wr_frame w w' /\ accepted w' j f o (x ++ take (Z.to_nat len) s) /\
    (ret = 0 \/ (ret = -1 /\ closed w' j)) /\ (closed w j -> ret = -1)) w.
Proof.
  intros (d&Hwr&Hd) Hlen Hf. eapply wp_mono; [by apply (conn_write_spec _ _ f)|].
  intros ret w' (Hfr&Hwrote&Hclosed). split; [done|].
  split; [|split; [|intros Hc; by destruct (Hclosed Hc)]].
  2: { destruct Hwrote as [[-> _]|(->&Hc&_)]; auto. }
  destruct Hd as [->|[Hd Hcl]].
  - destruct Hwrote as [[_ Hw]|(_&Hcl&k&Hk'&Hw)]; rewrite <-app_assoc in Hw.
    + exists (x ++ take (Z.to_nat len) s). auto.
    + exists (x ++ take k s). split; [done|]. right. split; [|done].
      apply prefix_app. rewrite <-(Nat.min_l k (Z.to_nat len)), <-take_take by lia.
      eexists. symmetry. apply take_drop.
  - destruct (Hclosed Hcl) as (_&Hcl'&Hw). exists d. split; [done|]. right.
    split; [by apply prefix_app_r|done].
Qed.

(** [data] was consumed from [inp] and passed on to [out] behind [h]. *)
Definition passed (w : W) (out inp : positive) (f : Z) (taken o h data : list ascii) : Prop :=
  reading w inp (taken ++ data) /\ accepted w out f o (h ++ data).

(** An unsuccessful copy of [n] bytes: [z] was passed on, at most so many; that is all
    that was delivered and fewer bytes, or a prefix of it and the output is closed. *)
Definition cut_short (w : W) (out inp : positive) (f : Z) (taken o h : list ascii) (n : Z) : Prop :=
  exists data y z, reading w inp (taken ++ data) /\ delivered w inp (taken ++ y) /\
    accepted w out f o (h ++ z) /\ z `prefix_of` y /\ Z.of_nat (length z) <= n /\ ((z = y /\ Z.of_nat (length z) < n) \/ closed w out).

Lemma cut_short_mono w out inp f taken o h n n' : n <= n' ->
  cut_short w out inp f taken o h n -> cut_short w out inp f taken o h n'.
Proof using Type.
  intros Hn (data&y&z&?&?&?&?&?&Hall). exists data, y, z. split_and!; try done; [lia|].
  destruct Hall as [[? ?]|?]; [left; split; [done|lia]|by right].
Qed.

Lemma reading_delivered w i x : reading w i x -> exists y, delivered w i (x ++ y).
Proof. intros (_&c&un&Hc&_&Hr&_). by exists un, c. Qed.

Lemma accepted_closed w j f o x y :
  accepted w j f o x -> closed w j -> x `prefix_of` y -> accepted w j f o y.
Proof using Type.
  intros (d&Hwr&Hd) Hcl Hxy. exists d. split; [done|]. right. split; [|done].
  destruct Hd as [->|[Hd _]]; [done|by etrans].
Qed.

(** Consuming the first [n] bytes of the buffer. *)
Lemma advance_reading inp taken c s1 s2 rx' w :
  rd inp -> get_conn inp w = Some c -> buf_ok c (s1 ++ s2) ->
  rcvd w (fd c) = taken ++ s1 ++ s2 -> within w (fd c) ->
  let w' := put_conn inp (with_rx (with_s c (buf_s c + Z.of_nat (length s1))) rx') w in
  rd_frame w w' /\ reading w' inp (taken ++ s1).
Proof.
  intros Hi Hc [H1 H2 H3 H4] Hr Hb w'.
  destruct (put_conn_obs (rd:=rd) (wr:=wr) inp (with_rx (with_s c (buf_s c + Z.of_nat (length s1))) rx') w)
    as (Hr'&_&Hst').
  split; [by eapply put_conn_rd_frame|]. split; [done|]. eexists _, s2.
  split; [apply (put_conn_get (rd:=rd) (wr:=wr)); congruence|]. split.
  2: { unfold w', within. rewrite Hr', Hst'. split; [|done]. cbn. by rewrite Hr, <-app_assoc. }
  unfold unread in H4. apply bytes_at_Some in H4 as (Hi0&Hn&Hle&Ht). rewrite length_app in *.
  split; cbn; [done|done|lia|]. unfold unread. cbn. apply bytes_at_Some. split_and!; [lia|lia|lia|].
  rewrite Z2Nat.inj_add, Nat2Z.id, <-drop_drop by lia.
  apply (f_equal (drop (length s1))) in Ht. rewrite <-take_drop_commute in Ht.
  rewrite of_chars_app, drop_app_length' in Ht by len_lia. done.
Qed.

(** A chunk in the buffer is written out and consumed. *)
Lemma pass_chunk fuel out inp f taken o h data c s (n : Z) w (Q : Z -> W -> Prop) :
  passed w out inp f taken o h data -> get_conn inp w = Some c ->
  buf_ok c s -> rcvd w (fd c) = taken ++ data ++ s -> within w (fd c) ->
  0 <= n <= Z.of_nat (length s) -> (stalls w + Z.to_nat n < fuel)%nat ->
  (forall ret w1, ret = 0 \/ ret = -1 -> (stalls w1 <= stalls w)%nat ->
    (exists c1, get_conn inp w1 = Some c1 /\ same_reader c c1 /\
      rcvd w1 (fd c1) = taken ++ data ++ s /\
      forall rx', passed (put_conn inp (with_rx (with_s c1 (buf_s c1 + n)) rx') w1)
         out inp f taken o h (data ++ take (Z.to_nat n) s)) ->
    (ret = -1 -> cut_short w1 out inp f taken o h (Z.of_nat (length data) + n)) -> Q ret w1) ->
  wp safe (conn_write fuel out s n) Q w.
Proof.
  intros [Hrd Hacc] Hc Hok Hr Hb Hn Hf HQ. pose proof Hrd as (Hi&_).
  eapply wp_mono; [by apply (conn_write_accepted _ _ f o (h ++ data))|].
  intros ret w1 (Hfr&Hacc1&Hret&_). pose proof Hfr as [Hk Hst]. rewrite <-app_assoc in Hacc1.
  destruct (Hk inp Hi c Hc) as (c1&Hc1&Hsame&Hr1). pose proof (proj1 Hsame) as Hfd.
  assert (within w1 (fd c1)) as Hb1 by (unfold within in *; rewrite Hfd, Hr1; lia).
  apply HQ; [by destruct Hret as [?|[? _]]; auto|done| |].
  - exists c1. rewrite Hfd, Hr1. split_and!; [done|done|done|]. intros rx'.
    replace (buf_s c1 + n) with (buf_s c1 + Z.of_nat (length (take (Z.to_nat n) s))) by len_lia.
    destruct (advance_reading inp (taken ++ data) c1 (take (Z.to_nat n) s) (drop (Z.to_nat n) s) rx' w1)
      as [Hfr2 Hrd2]; [done|done| | |done|].
    { rewrite take_drop. by eapply buf_ok_same. }
    { by rewrite take_drop, Hfd, Hr1, <-app_assoc. }
    rewrite <-app_assoc in Hrd2. split; [done|]. by eapply accepted_frame.
  - intros E. destruct Hret as [->|[_ Hcl]]; [done|].
    exists data, (data ++ s), (data ++ take (Z.to_nat n) s). split; [|split; [|split; [exact Hacc1|split; [|split; [len_lia|by right]]]]].
    + split; [done|]. exists c1, s. split_and!; [done|by eapply buf_ok_same| |done].
      by rewrite Hfd, Hr1, <-app_assoc.
    + exists c1. by rewrite Hfd, Hr1.
    + apply prefix_app. eexists. symmetry. apply take_drop.
Qed.

(** The outcome of copying [len] bytes on top of [data]. *)
Definition copied (out inp : positive) (f : Z) (taken o h data : list ascii) (len ret : Z) (w' : W)
    : Prop :=
  (ret = 0 /\ exists more, Z.of_nat (length more) = len /\
     passed w' out inp f taken o h (data ++ more)) \/
  (ret = -1 /\ cut_short w' out inp f taken o h (Z.of_nat (length data) + len)).

(** What the loop promises with so much fuel. *)
Definition copies out inp f taken o h fuel : Prop := forall data len w,
  passed w out inp f taken o h data -> 0 <= len ->
  (exists c, get_conn inp w = Some c /\ buf_e c <= buf_s c) \/ len = 0 ->
  (stalls w + Nat.min (Z.to_nat len) (budget - length (taken ++ data)) < fuel)%nat ->
  wp safe (copy_loop fuel out inp len) (fun ret w' =>
    copied out inp f taken o h data len ret w' /\ (stalls w' <= stalls w)%nat) w.

(** A round of the loop from where the bytes [s] have been received into the buffer. *)
Definition copy_buffered fuel out inp len rlen s : M W Z :=
  let copy_len := if rlen <? len then rlen else len in
  ret ← conn_write (S fuel) out s copy_len;
  if ret =? -1 then mret (-1)
  else
    c ← load_conn inp;
    _ ← save_conn inp (with_rx (with_s c (buf_s c + copy_len)) (wrap32 (rx c + copy_len)));
    copy_loop fuel out inp (len - copy_len).

Lemma copy_buffered_spec out inp f taken o h fuel data len c s w : copies out inp f taken o h fuel ->
  passed w out inp f taken o h data -> get_conn inp w = Some c -> buf_ok c s -> buf_s c = 0 -> buf_e c = Z.of_nat (length s) ->
  rcvd w (fd c) = taken ++ data ++ s -> within w (fd c) -> (0 < length s)%nat -> 0 < len ->
  (stalls w + Nat.min (Z.to_nat len) (budget - length (taken ++ data)) < S fuel)%nat ->
  wp safe (copy_buffered fuel out inp len (Z.of_nat (length s)) s) (fun ret w' =>
    copied out inp f taken o h data len ret w' /\ (stalls w' <= stalls w)%nat) w.
Proof.
  intros IH Hp Hc Hok Es Ee Hr Hb Hs Hlen Hf. pose proof (proj1 (proj1 Hp)) as Hi.
  assert (length taken + length data + length s + stalls w <= budget)%nat as Hbb.
  { unfold within in Hb. rewrite Hr in Hb. len_lia. }
  rewrite length_app in Hf. unfold copy_buffered.
  set (n := if Z.of_nat (length s) <? len then Z.of_nat (length s) else len).
  assert (0 < n <= Z.of_nat (length s) /\ n <= len) as [Hn Hnl]
    by (unfold n; destruct (Z.ltb_spec (Z.of_nat (length s)) len); lia).
  apply wp_bind. eapply (pass_chunk _ _ _ _ taken o h data c s n); [done..|lia|lia|].
  intros ret w4 Hret Hst4 (c4&Hc4&Hsame4&Hr4&Hpassed) Hcut.
  destruct Hret as [->| ->]; cbn [Z.eqb Pos.eqb].
  2: { wp_step. split; [|done]. right. split; [done|]. eapply cut_short_mono; [|by apply Hcut]. lia. }
  apply wp_bind, (load_conn_wp _ _ c4); [done|]. apply wp_bind, save_conn_wp.
  specialize (Hpassed (wrap32 (rx c4 + n))). set (c5 := with_rx _ _) in *.
  destruct (put_conn_obs (rd:=rd) (wr:=wr) inp c5 w4) as (_&_&Hst5).
  eapply wp_mono; [apply (IH (data ++ take (Z.to_nat n) s)); [done|lia| |]|].
  - destruct (decide (n = Z.of_nat (length s))) as [Hall|Hpart].
    + left. exists c5. split; [apply (put_conn_get (rd:=rd) (wr:=wr)); congruence|].
      destruct Hsame4 as (_&_&_&E4&E5). cbn [buf_e buf_s c5 with_rx with_s with_buf]. rewrite E4, E5. lia.
    + right. revert Hpart. unfold n. destruct (Z.ltb_spec (Z.of_nat (length s)) len); lia.
  - autorewrite with len. lia.
  - intros ret w5 [Hcopied Hst']. split; [|lia].
    destruct Hcopied as [(->&more&Hmore&Hp5)|[-> Hcs]]; [left|right].
    2: { split; [done|]. eapply cut_short_mono; [|exact Hcs]. len_lia. }
    split; [done|]. exists (take (Z.to_nat n) s ++ more). rewrite app_assoc. split; [len_lia|done].
Qed.

Lemma copy_loop_spec out inp f taken o h : out <> inp -> forall fuel, copies out inp f taken o h fuel.
Proof.
  intros Hne fuel. induction fuel as [|fuel IH]; intros data len w Hp Hlen Hempty Hf; [lia|]. cbn [copy_loop].
  destruct (Z.eqb_spec len 0) as [->|H0].
  { wp_step. split; [|done]. left. split; [done|]. exists []. by rewrite app_nil_r. }
  destruct Hempty as [(c&Hc&Hle)|?]; [|done]. pose proof Hp as [(Hi&c0&un&Hc0&Hok&Hr&Hb) Hacc]. simplify_eq.
  apply wp_bind, (load_conn_wp _ _ c); [done|].
  destruct (rewind_reading inp c un (taken ++ data) w Hi Hc Hok Hle Hr) as (Hc1&Hok1&Hr1&Hfr1&Hb1&Hst1).
  set (c1 := with_buf c (c_buf c) 0 0) in *. apply wp_bind, save_conn_wp.
  change (fd c) with (fd c1). eapply wp_seq; [apply (try_recv_spec inp); [done|done|lia]|].
  intros [rlen s] w2 (Hfr2&(c2&Hc2&Hsame)&Hbud&Hcase). cbn [fst snd] in Hcase.
  pose proof (buf_ok_same _ _ _ Hsame Hok1) as Hok2. pose proof (proj1 Hsame) as Hfd.
  assert (within w2 (fd c2)) as Hb2 by (specialize (Hb1 Hb); unfold within in *; rewrite Hfd; cbn in *; lia).
  rewrite Hr1 in Hcase. assert (rd_frame w w2) as Hfr by by etrans.
  destruct Hcase as [[-> Hr2]|(->&Hs&Hlen2&Hr2)].
  - cbn [Z.eqb Pos.eqb orb].
    assert (reading w2 inp (taken ++ data)) as Hrd2.
    { split; [done|]. exists c2, []. by rewrite app_nil_r, Hfd in *. }
    eapply wp_seq; [by apply (close_delivered inp (taken ++ data) c2 (taken ++ data)); rewrite ?Hfd|].
    intros _ w3 (Hfr3&Hrd3&Hdl). wp_step. split; [|destruct Hfr, Hfr3; lia]. right. split; [done|].
    exists data, data, data. split_and!; [done|done| |done|lia|left; split; [done|lia]]. eapply accepted_frame; [exact Hacc|by etrans].
  - assert (0 < length s)%nat by (destruct s; [done|cbn; lia]).
    replace ((Z.of_nat (length s) =? -1) || _) with false by (symmetry; bool_arith).
    apply wp_bind, (load_conn_wp _ _ c2); [done|].
    destruct (fill_buf_spec c2 s [] Hok2) as (b&Hbf&Hokb).
    { by destruct Hsame as (_&_&_&->&_). } { destruct Hsame as (_&_&->&_). done. }
    apply wp_bind, (wp_demand _ _ b); [done|]. apply wp_bind, save_conn_wp.
    set (c3 := with_buf c2 b _ _) in *. set (w3 := put_conn inp c3 w2) in *.
    assert (get_conn inp w3 = Some c3) as Hc3
      by (apply (put_conn_get (rd:=rd) (wr:=wr)); congruence).
    destruct (put_conn_obs (rd:=rd) (wr:=wr) inp c3 w2) as (Hr3&_&Hst3).
    assert (rd_frame w w3) as Hfr3 by (etrans; [exact Hfr|by eapply put_conn_rd_frame]).
    assert (rcvd w3 (fd c3) = taken ++ data ++ s) as Hrc3.
    { unfold w3. rewrite Hr3. cbn [fd c3 with_buf]. by rewrite Hfd, Hr2, <-app_assoc. }
    assert (within w3 (fd c3)) as Hb3 by (unfold within, w3; by rewrite Hr3, Hst3).
    assert (passed w3 out inp f taken o h data) as Hp3.
    { split; [|by eapply accepted_frame]. split; [done|]. exists c3, s.
      split_and!; [done|done|by rewrite Hrc3, <-app_assoc|done]. }
    assert (stalls w3 <= stalls w)%nat as Hst by (destruct Hfr3; lia).
    eapply wp_mono; [apply (copy_buffered_spec out inp f taken o h fuel data len c3 s w3); try done|].
    + cbn. by destruct Hsame as (_&_&_&->&_).
    + lia.
    + lia.
    + intros ret w4 [Hcp Hle4]. split; [done|lia].
Qed.

(** [conn_copy]: [len] bytes are consumed and passed on, or the copy is cut
    short; every call returns. *)
Lemma conn_copy_spec fuel out inp f taken o h len w :
  out <> inp -> reading w inp taken -> accepted w out f o h -> 0 <= len ->
  (stalls w + Nat.min (Z.to_nat len) (budget - length taken) < fuel)%nat ->
  wp safe (conn_copy fuel out inp len) (fun ret w' =>
    copied out inp f taken o h [] len ret w' /\ (stalls w' <= stalls w)%nat) w.
Proof.
  intros Hne Hrd Hwr Hlen Hf.
  assert (passed w out inp f taken o h []) as Hp by (split; by rewrite app_nil_r).
  pose proof Hrd as (Hi&c&un&Hc&Hok&Hr&Hb). unfold conn_copy.
  apply wp_bind, (load_conn_wp _ _ c); [done|].
  destruct (Z.ltb_spec (buf_s c) (buf_e c)) as [Hlt|Hge].
  2: { apply copy_loop_spec; [done|done|done|left; eauto|by rewrite app_nil_r]. }
  pose proof (bo_unread _ _ Hok) as Hun. apply wp_bind, (wp_demand _ _ un); [done|].
  assert (buf_e c - buf_s c = Z.of_nat (length un)) as Hblen.
  { apply bytes_at_Some in Hun as (_&?&_). done. }
  rewrite Hblen.
  assert (length taken + length un + stalls w <= budget)%nat as Hbb.
  { unfold within in Hb. rewrite Hr in Hb. len_lia. }
  set (n := if len <? Z.of_nat (length un) then len else Z.of_nat (length un)).
  assert (0 <= n <= Z.of_nat (length un) /\ n <= len) as [Hn Hnl]
    by (unfold n; destruct (Z.ltb_spec len (Z.of_nat (length un))); lia).
  apply wp_bind. eapply (pass_chunk _ _ _ _ taken o h [] c un n); [done..|lia|].
  intros ret w4 _ Hst4 (c4&Hc4&Hsame4&Hr4&Hpassed) _.
  apply wp_bind, (load_conn_wp _ _ c4); [done|]. apply wp_bind, save_conn_wp.
  specialize (Hpassed (wrap32 (rx c4 + n))). set (c5 := with_rx _ _) in *.
  destruct (put_conn_obs (rd:=rd) (wr:=wr) inp c5 w4) as (_&_&Hst5).
  eapply wp_mono; [apply (copy_loop_spec out inp f taken o h Hne fuel (take (Z.to_nat n) un)); [exact Hpassed|lia| |autorewrite with len; lia]|].
  - destruct (decide (n = Z.of_nat (length un))) as [Hall|Hpart].
    + left. exists c5. split; [apply (put_conn_get (rd:=rd) (wr:=wr)); congruence|].
      destruct Hsame4 as (_&_&_&E4&E5). cbn [buf_e buf_s c5 with_rx with_s with_buf].
      rewrite E4, E5. lia.
    + right. revert Hpart. unfold n. destruct (Z.ltb_spec len (Z.of_nat (length un))); lia.
  - intros ret' w5 [Hcopied Hst']. split; [|lia].
    destruct Hcopied as [(->&more&Hmore&Hp5)|[-> Hcs]]; [left|right].
    2: { split; [done|]. eapply cut_short_mono; [|exact Hcs]. cbn [length]. len_lia. }
    split; [done|]. exists (take (Z.to_nat n) un ++ more). split; [len_lia|done].
Qed.
End facts.
