(* ===== verification/CopyEnds.v ===== *)
(** Why [conn_copy] of src/core/conn_io.c fails, for every world that satisfies the
    interface laws. *)

From S2P Require Import Prelude CLib Outcome ConnIf ConnIO ConnIOFacts.

#[local] Open Scope Z_scope.

Section causes.
Context {W : Type} `{!ConnEnv W, !ConnObs W} (rd wr : positive -> Prop).
Context `{!ConnLaws W rd wr}.
Context (dst src : positive) (Hne : dst <> src) (Hi : rd src) (Hj : wr dst).

(** [shut]: another part of the program has closed the input, before the call or while it was
    suspended. *)
Context (shut : Prop).
Context (Hyield : forall nt w, returns (async_yield nt) (fun _ w' => closed w' src -> closed w src \/ shut) w).

#[local] Set Default Proof Using "All".

(** The input is on [f], and was not closed by anyone else. *)
Definition intact (f : Z) (w : W) : Prop :=
  (exists c, get_conn src w = Some c /\ fd c = f /\ 0 < buf_cap c /\ (stat c = CONN_CLOSED -> shut)) /\
  is_Some (get_conn dst w).

(** What makes a copy fail. *)
Definition cause (w : W) : Prop :=
  closed w dst \/ exiting w = true \/ (exists c, get_conn src w = Some c /\ ended w (fd c)) \/ shut.

Lemma intact_same f w w' : intact f w -> (forall i, get_conn i w' = get_conn i w) -> intact f w'.
Proof. intros H E. unfold intact. by rewrite !E. Qed.

Lemma intact_put f i c c' w : intact f w -> get_conn i w = Some c -> fd c' = fd c -> buf_cap c' = buf_cap c ->
  stat c' = stat c -> intact f (put_conn i c' w).
Proof.
  intros [(c0&Hc0&Hf&Hcap&Hs) Hd] Hc E1 E2 E3. assert (get_conn i (put_conn i c' w) = Some c') as Hg
    by (apply (put_conn_get (rd:=rd) (wr:=wr)); congruence). split.
  - destruct (decide (i = src)) as [->|Hn].
    + exists c'. split; [done|]. split; [congruence|]. split; [congruence|]. intros Hst. apply Hs. congruence.
    + exists c0. by rewrite (put_conn_get_ne (rd:=rd) (wr:=wr)).
  - destruct (decide (i = dst)) as [->|Hn]; [by eexists|]. by rewrite (put_conn_get_ne (rd:=rd) (wr:=wr)).
Qed.

Lemma intact_yield f nt w : intact f w -> returns (async_yield nt) (fun _ w' => intact f w') w.
Proof.
  intros [(c&Hc&Hf&Hcap&Hs) [d Hd]]. pose proof (wp_and _ _ _ _ _ (yield_law (rd:=rd) (wr:=wr) nt w) (Hyield nt w)) as H%wp_returns.
  eapply returns_mono; [exact H|]. intros ? w' [(Hrd&Hwr&_) Hcl]. destruct (Hrd src Hi c Hc) as (c'&Hc'&(E1&_&E2&_)&_). split.
  - exists c'. split; [done|]. split; [congruence|]. split; [congruence|]. intros Hst.
    destruct (Hcl ltac:(by exists c')) as [(c1&Hc1&Hst1)|?]; [|done]. apply Hs. congruence.
  - destruct (Hwr dst Hj d Hd) as (d'&Hd'&_). by exists d'.
Qed.

(** A receive fails at the end of the program or of the stream, or on a connection that may not
    block. *)
Lemma try_recv_cause f n cb : (0 < n)%nat -> forall fuel w, intact f w ->
  returns (conn_try_io fuel f (IoRecv n) cb) (fun rs w' => intact f w' /\
    (rs.1 = -1 -> exiting w' = true \/ ended w' f \/ cb = false) /\ rs.1 <> 0) w.
Proof.
  intros Hn. induction fuel as [|fuel IH]; intros w Hw; [done|]. cbn [conn_try_io]. apply returns_bind. unfold returns at 1, get.
  destruct (exiting w) eqn:Ex; [apply returns_ret; split; [done|by split; [auto|]]|].
  apply (returns_seq _ _ (fun rs w' => intact f w' /\
      ((rs.1.1 = 0 /\ ended w' f) \/ (rs.1.1 = -1 /\ (rs.2 <> EAGAIN -> ended w' f)) \/ 0 < rs.1.1))).
  { unfold returns, sys_io. destruct (recv f n w) as [[s|e] w1] eqn:E; pose proof (recv_law (rd:=rd) (wr:=wr) _ _ _ _ _ E) as (Hg&_);
      pose proof (recv_ended (rd:=rd) (wr:=wr) _ _ _ _ _ E) as He; (split; [by eapply intact_same|]); cbn [fst snd].
    - destruct s as [|c s]; [left; auto|]. right. right. cbn. lia.
    - right. left. auto. }
  intros [[r s] e] w1 [Hw1 Hr]. cbn [fst snd] in Hr. destruct (Z.eqb_spec r 0) as [->|H0].
  { apply returns_ret. split; [done|]. split; [|done]. intros _. destruct Hr as [[_ ?]|[[? _]|?]]; [auto|lia..]. }
  destruct (Z.eqb_spec r (-1)) as [->|H1]; cbn [andb].
  2:{ apply returns_ret. split; [done|]. by split. }
  assert (e <> EAGAIN -> ended w1 f) as He by (destruct Hr as [[? _]|[[_ ?]|?]]; [lia|done|lia]).
  destruct (Z.eqb_spec e EAGAIN) as [->|Hne']; [|apply returns_ret; split; [done|by split; [auto|]]].
  destruct cb; cbn [negb]; [|apply returns_ret; split; [done|by split; [auto|]]].
  eapply returns_seq; [by apply intact_yield|]. intros y w2 Hw2. by apply IH.
Qed.

Lemma try_send_intact f g s cb : forall fuel w, intact f w ->
  returns (conn_try_io fuel g (IoSend s) cb) (fun _ w' => intact f w') w.
Proof.
  induction fuel as [|fuel IH]; intros w Hw; [done|]. cbn [conn_try_io]. apply returns_bind. unfold returns at 1, get.
  destruct (exiting w); [by apply returns_ret|]. apply (returns_seq _ _ (fun _ w' => intact f w')).
  { unfold returns, sys_io. destruct (send g s w) as [[k|e] w1] eqn:E; pose proof (send_law (rd:=rd) (wr:=wr) _ _ _ _ _ E) as (Hg&_); by eapply intact_same. }
  intros [[r t] e] w1 Hw1. destruct (r =? 0); [by apply returns_ret|]. destruct ((r =? -1) && (e =? EAGAIN)); [|by apply returns_ret].
  destruct cb; cbn [negb]; [|by apply returns_ret]. eapply returns_seq; [by apply intact_yield|]. intros ? w2 Hw2. by apply IH.
Qed.

Lemma returns_load {B} i (g : conn -> M W B) R w : (forall c, get_conn i w = Some c -> returns (g c) R w) ->
  returns (load_conn i ≫= g) R w.
Proof.
  intros H. unfold load_conn, returns, mbind, M_bind, get, demand. destruct (get_conn i w) as [c|]; [by apply (H c)|done].
Qed.

Lemma close_dst f w : intact f w -> returns (conn_close dst) (fun _ w' => intact f w' /\ closed w' dst) w.
Proof.
  intros [Hs [c Hc]]. eapply returns_mono; [by apply (wp_returns safe), (close_law (rd:=rd) (wr:=wr))|].
  intros ? w' (H1&H2&_). split; [|by eexists]. split; [|by eexists]. by rewrite H2.
Qed.

(** ** Writing *)

Definition written (f : Z) (ret : Z) (w : W) : Prop := intact f w /\ (ret = -1 -> closed w dst).

Lemma write_loop_written f : forall fuel s len w, intact f w -> returns (write_loop fuel dst s len) (written f) w.
Proof.
  induction fuel as [|fuel IH]; intros s len w Hw; [done|]. cbn [write_loop].
  destruct (len =? 0); [by apply returns_ret|]. destruct (_ || _); [done|]. apply returns_load. intros c Hc.
  eapply returns_seq; [by apply try_send_intact|]. intros [r t] w1 Hw1. destruct (r =? -1).
  - eapply returns_seq; [by apply close_dst|]. intros ? w2 [Hw2 Hcl]. by apply returns_ret.
  - apply returns_load. intros c1 Hc1. apply returns_bind. unfold returns at 1, save_conn, modify. apply IH. by eapply intact_put.
Qed.

Lemma conn_write_written f fuel s len w : intact f w -> returns (conn_write fuel dst s len) (written f) w.
Proof.
  intros Hw. unfold conn_write. apply returns_load. intros c Hc. destruct (negb _); [|by apply write_loop_written].
  eapply returns_seq; [by apply close_dst|]. intros ? w2 [Hw2 Hcl]. by apply returns_ret.
Qed.

(** ** Copying *)

Definition copy_ended (f : Z) (ret : Z) (w : W) : Prop := (ret = 0 /\ intact f w) \/ (ret = -1 /\ cause w).

Lemma close_src f w c : get_conn src w = Some c -> fd c = f -> exiting w = true \/ ended w f \/ shut ->
  returns (conn_close src) (fun _ w' => cause w') w.
Proof.
  intros Hc Hf Hwhy. pose proof (close_ended (rd:=rd) (wr:=wr) src w) as H.
  eapply returns_mono; [eapply (wp_returns safe), wp_and; [by apply (close_law (rd:=rd) (wr:=wr))|exact H]|].
  intros ? w' [(H1&_) [H2 H3]]. destruct Hwhy as [E|[E|E]].
  - right. left. congruence.
  - right. right. left. eexists. split; [exact H1|]. cbn. rewrite Hf. by apply H3.
  - by right; right; right.
Qed.

Lemma copy_loop_ended f : forall fuel len w, intact f w -> returns (copy_loop fuel dst src len) (copy_ended f) w.
Proof.
  induction fuel as [|fuel IH]; intros len w Hw; [done|]. cbn [copy_loop].
  destruct (len =? 0); [apply returns_ret; by left|]. apply returns_load. intros c Hc.
  pose proof Hw as [(c0&Hc0&Hf&Hcap&Hs) _]. assert (c0 = c) as -> by congruence.
  apply returns_bind. unfold returns at 1, save_conn, modify. rewrite Hf.
  eapply returns_seq; [apply (try_recv_cause f (Z.to_nat (buf_cap c)) (open c)); [lia|by eapply intact_put]|].
  intros [r s] w1 (Hw1&Hwhy&Hr). cbn [fst] in *. rewrite (proj2 (Z.eqb_neq r 0)), orb_false_r by done.
  destruct (Z.eqb_spec r (-1)) as [->|Hr1].
  - destruct Hw1 as [(c1&Hc1&Hf1&_) _]. eapply returns_seq.
    + eapply close_src; [exact Hc1|exact Hf1|]. destruct (Hwhy eq_refl) as [?|[?|Ho]]; [by left|right; by left|right; right].
      apply Hs. unfold open in Ho. apply bool_decide_eq_false in Ho. destruct (decide (stat c = CONN_CLOSED)); [done|]. by destruct Ho.
    + intros ? w2 Hca. apply returns_ret. by right.
  - apply returns_load. intros c1 Hc1. apply returns_demand. intros b Hb. apply returns_bind. unfold returns at 1, save_conn, modify.
    eapply returns_seq; [apply (conn_write_written f); by eapply intact_put|]. intros ret w2 [Hw2 Hcl].
    destruct (Z.eqb_spec ret (-1)) as [->|_]; [apply returns_ret; right; split; [done|left; by apply Hcl]|].
    apply returns_load. intros c2 Hc2. apply returns_bind. unfold returns at 1, save_conn, modify. apply IH. by eapply intact_put.
Qed.

(** [conn_copy] copies all or has a cause to fail. *)
Lemma conn_copy_ended f fuel len w : intact f w -> returns (conn_copy fuel dst src len) (copy_ended f) w.
Proof.
  intros Hw. unfold conn_copy. apply returns_load. intros c Hc. destruct (buf_s c <? buf_e c); [|by apply copy_loop_ended].
  apply returns_demand. intros s Hs. eapply returns_seq; [by apply (conn_write_written f)|]. intros ret w1 [Hw1 _].
  apply returns_load. intros c1 Hc1. apply returns_bind. unfold returns at 1, save_conn, modify. apply copy_loop_ended. by eapply intact_put.
Qed.
End causes.
