(* ===== verification/Sim.v ===== *)
(** A concrete world for the interface of ConnIf.v: sockets that deliver scripted
    chunks and stall where the script says so, and accept at most 16 bytes at a
    time.  It shows that the laws can hold, and it runs the routines. *)

From S2P Require Import Prelude CLib Outcome ConnIf.

#[local] Open Scope Z_scope.

(** An empty chunk is a stall; an exhausted script is the end of the stream.
    [s_left] is how much may still happen. *)
Record sim := Sim {
  s_in : gmap Z (list (list ascii));
  s_rcvd : gmap Z (list ascii);
  s_sent : gmap Z (list ascii);
  s_conns : gmap positive conn;
  s_exiting : bool;
  s_left : nat
}.

Definition sim_rcvd (w : sim) (f : Z) : list ascii := default [] (s_rcvd w !! f).
Definition sim_sent (w : sim) (f : Z) : list ascii := default [] (s_sent w !! f).

Definition sim_recv (f : Z) (n : nat) (w : sim) : recv_res * sim :=
  match s_left w, default [] (s_in w !! f) with
  | O, _ => (RecvErr 104, w)
  | S m0, [] :: rest =>
      (RecvErr EAGAIN, Sim (<[f := rest]> (s_in w)) (s_rcvd w) (s_sent w) (s_conns w) (s_exiting w) m0)
  | S m0, chunk :: rest =>
      let m := Nat.min n (S m0) in
      let s := take m chunk in
      (RecvData s,
       Sim (<[f := match drop m chunk with [] => rest | x => x :: rest end]> (s_in w))
         (<[f := sim_rcvd w f ++ s]> (s_rcvd w)) (s_sent w) (s_conns w) (s_exiting w)
         (S m0 - length s))
  | S _, [] => (RecvData [], w)
  end.

Definition sim_send (f : Z) (s : list ascii) (w : sim) : send_res * sim :=
  let n := Nat.min 16 (length s) in
  (SendN n, Sim (s_in w) (s_rcvd w) (<[f := sim_sent w f ++ take n s]> (s_sent w)) (s_conns w)
              (s_exiting w) (s_left w)).

Definition sim_put (i : positive) (c : conn) (w : sim) : sim :=
  Sim (s_in w) (s_rcvd w) (s_sent w) (<[i := c]> (s_conns w)) (s_exiting w) (s_left w).

#[export] Instance sim_env : ConnEnv sim := {
  recv := sim_recv;
  send := sim_send;
  async_yield nt := mret 0;
  exiting := s_exiting;
  get_conn i w := s_conns w !! i;
  put_conn := sim_put;
  conn_close i := fun w =>
    match s_conns w !! i with
    | Some c => Ok () (sim_put i (with_stat c CONN_CLOSED) w)
    | None => Undef w
    end
}.

#[export] Instance sim_obs : ConnObs sim := {
  rcvd := sim_rcvd; sent := sim_sent; stalls := s_left;
  ended w f := s_left w = 0%nat \/ default [] (s_in w !! f) = []
}.

#[export] Instance sim_laws rd wr : ConnLaws sim rd wr.
Proof.
  split.
  - intros i c w _. apply lookup_insert_eq.
  - intros i j c w Hne. by apply lookup_insert_ne.
  - done.
  - intros f n w r w'. cbn. unfold sim_recv.
    destruct (s_left w) as [|m0] eqn:El; [intros [= <- <-]; by rewrite El|].
    destruct (default [] (s_in w !! f)) as [|[|c chunk] rest]; intros [= <- <-]; cbn [stalls sim_obs s_left].
    + rewrite El. cbn. rewrite app_nil_r. split_and!; try done; lia.
    + split_and!; try done; [lia|]. intros _. lia.
    + set (s := take _ (_ :: _)).
      assert (length s <= n /\ length s <= S m0)%nat as [??].
      { unfold s. rewrite length_take. lia. }
      cbn [s_left stalls sim_obs] in *. split_and!; [done|done| |lia|lia| |lia].
      * intros f' Hf. cbn. unfold sim_rcvd. cbn [s_rcvd]. by rewrite lookup_insert_ne.
      * cbn. unfold sim_rcvd. cbn [s_rcvd]. by rewrite lookup_insert_eq.
  - intros f s w r w'. cbv [send sim_env sim_send]. generalize 16%nat. intros k [= <- <-]. split_and!; [done|done| |done|cbn; lia|].
    + intros f' Hf. cbn. unfold sim_sent. cbn [s_sent]. by rewrite lookup_insert_ne.
    + cbn. unfold sim_sent. cbn [s_sent]. by rewrite lookup_insert_eq.
  - intros nt w. cbn. split_and!; [|by intros; reflexivity|done]. by intros; reflexivity.
  - intros i c w Hc. cbn in *. unfold wp. rewrite Hc. split_and!; try done.
    + apply lookup_insert_eq.
    + intros j Hj. by apply lookup_insert_ne.
  - intros f n w r w'. cbn. unfold sim_recv. destruct (s_left w) as [|m0] eqn:El; [intros [= <- <-]; by left|].
    destruct (default [] (s_in w !! f)) as [|[|c chunk] rest] eqn:Ei; intros [= <- <-]; [by right|done|].
    destruct n; cbn; [lia|done].
  - intros i w. cbn. by destruct (s_conns w !! i).
Qed.

(** A fresh connection on socket [f]. *)
Definition sim_conn (f : Z) (capacity : Z) : conn :=
  Conn f (replicate (Z.to_nat capacity) None) capacity 0 0 0 0 CONN_USED (Endpoint 2 0 []) None.

(** Connections 1 and 2 on the sockets 5 and 6; socket 5 delivers the script. *)
Definition sim_world (script : list (list ascii)) (m0 : nat) : sim :=
  Sim {[5 := script]} ∅ ∅ {[1%positive := sim_conn 5 64; 2%positive := sim_conn 6 64]} false m0.
