(* ===== verification/ConnIOProps.v ===== *)
(** Properties of the connection I/O of src/core/conn_io.c, for every world that
    satisfies the interface laws, with instances in the scripted world. *)

From S2P Require Import Prelude CLib Outcome Strbuf ConnIf ConnIO ConnIOFacts Sim.

#[local] Open Scope Z_scope.


(** C15: [conn_write] sends all of the bytes or fails: it always returns, 0
    when the socket has accepted exactly the [len] bytes in order, and -1 when
    it accepted a prefix of them, the connection being closed then; a closed
    connection accepts nothing. *)
Theorem conn_write_all_or_closed {W} `{!ConnEnv W, !ConnObs W} (rd wr : positive -> Prop)
    `{!ConnLaws W rd wr} (fuel : nat) j f s len o w
    (Hwr : writing wr w j f o) (Hlen : 0 <= len <= Z.of_nat (length s))
    (Hf : (stalls w + Z.to_nat len < fuel)%nat) :
  exists ret w', conn_write fuel j s len w = Ok ret w' /\ wr_frame rd w w' /\
    ((ret = 0 /\ writing wr w' j f (o ++ take (Z.to_nat len) s)) \/
     (ret = -1 /\ closed w' j /\
      exists n, (n <= Z.to_nat len)%nat /\ writing wr w' j f (o ++ take n s))) /\
    (closed w j -> ret = -1 /\ writing wr w' j f o).
Proof.
  destruct (wp_Ok _ _ _ (conn_write_spec rd wr 0%nat fuel j f s len o w Hwr Hlen Hf))
    as (ret&w'&Hrun&Hfr&Hw&Hcl).
  exists ret, w'. split_and!; [done..|]. intros H. by destruct (Hcl H) as (?&_&?).
Qed.

(** C3: [conn_copy] of [len] bytes passes on what it consumes.  It always
    returns.  With 0, exactly [len] bytes were consumed from the input; otherwise the
    result is -1, and the input has delivered fewer than [len] bytes or the output is
    closed.  In both cases the
    output has accepted the bytes in order and never more than [len]: all of the [len] bytes, or with -1
    all that the input delivered, unless the output was closed on the way, when
    it is a prefix.  (When the write of the already buffered bytes fails the
    copy goes on, so 0 is possible with a closed output.) *)
Theorem conn_copy_passes_on {W} `{!ConnEnv W, !ConnObs W} (rd wr : positive -> Prop)
    `{!ConnLaws W rd wr} (budget fuel : nat) out inp f taken o len w
    (Hne : out <> inp) (Hrd : reading rd budget w inp taken) (Hwr : writing wr w out f o)
    (Hlen : 0 <= len) (Hf : (stalls w + Z.to_nat len < fuel)%nat) :
  exists ret w' data d, conn_copy fuel out inp len w = Ok ret w' /\
    ((ret = 0 /\ Z.of_nat (length data) = len /\ reading rd budget w' inp (taken ++ data)) \/
     (ret = -1 /\ delivered w' inp (taken ++ data) /\ (Z.of_nat (length data) < len \/ closed w' out))) /\
    writing wr w' out f (o ++ d) /\ (d = data \/ (d `prefix_of` data /\ closed w' out)) /\
    Z.of_nat (length d) <= len.
Proof.
  destruct (wp_Ok _ _ _ (conn_copy_spec rd wr budget fuel out inp f taken o [] len w Hne Hrd
      (accepted_start _ _ _ _ _ Hwr) Hlen ltac:(lia)))
    as (ret&w'&Hrun&Hcopied&_).
  destruct Hcopied as [(->&data&Hl&Hr&d&Hw&Hd)|(->&x&y&z&_&Hy&(d&Hw&Hd)&Hz&Hlz&Hall)].
  - exists 0, w', data, d. split; [done|]. split; [by left|]. split; [done|]. split; [done|].
    destruct Hd as [->|[Hp%prefix_length _]]; cbn [app] in *; lia.
  - exists (-1), w', y, d. split; [done|]. split.
    { right. split; [done|]. split; [done|]. destruct Hall as [[-> ?]|?]; [left|by right]. cbn [length] in *. lia. }
    split; [done|]. cbn [app length] in *.
    assert (d `prefix_of` z) as Hdz by (by destruct Hd as [->|[? _]]). split; [|apply prefix_length in Hdz; lia].
    destruct Hd as [->|[_ Hcl]]; [destruct Hall as [[-> _]|Hcl]; [by left|right]|right]; (split; [by etrans|done]).
Qed.

(** [conn_getc] followed by [conn_ungetc] gives the byte back: the next
    read starts at it again. *)
Theorem conn_ungetc_restores {W} `{!ConnEnv W, !ConnObs W} (rd wr : positive -> Prop)
    `{!ConnLaws W rd wr} (budget fuel : nat) i taken w
    (Hrd : reading rd budget w i taken) (Hf : (stalls w < fuel)%nat) :
  exists ch w', conn_getc fuel i w = Ok ch w' /\
    ((ch = -1 /\ reading rd budget w' i taken) \/
     exists b w2, ch = schar b /\ reading rd budget w' i (taken ++ [b]) /\
       conn_ungetc i w' = Ok () w2 /\ reading rd budget w2 i taken).
Proof.
  destruct (wp_Ok _ _ _ (conn_getc_spec rd wr budget fuel i taken w Hrd Hf)) as (ch&w'&Hrun&_&Hcase).
  exists ch, w'. split; [done|]. destruct Hcase as [|(b&->&Hr&Hu)]; [by left|right].
  destruct (wp_Ok _ _ _ (conn_ungetc_spec rd wr budget i taken b w' Hr Hu)) as ([]&w2&Hrun2&_&Hr2).
  exists b, w2. done.
Qed.

(** ** Instances *)

Definition all_conns (_ : positive) : Prop := True.

(** A stall, the request line in two pieces, and more. *)
Definition script1 : list (list ascii) :=
  [[]; lit "GET / HT"; []; lit "TP/1.1" ++ CRLF ++ lit "Host: a"].

Lemma sim_reading script n m : (n <= m)%nat ->
  reading all_conns m (sim_world script n) 1 [].
Proof.
  intros Hm. split; [done|]. exists (sim_conn 5 64), []. split_and!; [done| |done|].
  - split; [by vm_compute|by vm_compute|vm_compute; split; [split|]; discriminate|done].
  - change (0 + n <= m)%nat. lia.
Qed.

Lemma sim_writing script n : writing all_conns (sim_world script n) 2 6 [].
Proof. split; [done|]. by exists (sim_conn 6 64). Qed.



Lemma conn_write_all_or_closed_witness :
  exists w', conn_write 100 2 (lit "HTTP/1.1 404 Not Found") 22 (sim_world [] 10) = Ok 0 w' /\
    writing all_conns w' 2 6 (lit "HTTP/1.1 404 Not Found").
Proof.
  destruct (conn_write_all_or_closed all_conns all_conns 100 2 6 (lit "HTTP/1.1 404 Not Found") 22 []
    (sim_world [] 10)) as (ret&w'&Hrun&_&Hw&_).
  - apply sim_writing.
  - vm_compute. split; discriminate.
  - vm_compute. lia.
  - exists w'. destruct Hw as [[-> Hw]|[-> _]]; [split; [exact Hrun|exact Hw]|].
    exfalso. revert Hrun. vm_compute. discriminate.
Defined.

Lemma conn_copy_passes_on_witness :
  exists w' data, conn_copy 200 2 1 20 (sim_world script1 100) = Ok 0 w' /\
    length data = 20%nat /\ reading all_conns 100 w' 1 data.
Proof.
  destruct (conn_copy_passes_on all_conns all_conns 100 200 2 1 6 [] [] 20 (sim_world script1 100))
    as (ret&w'&data&d&Hrun&Hcase&_).
  - discriminate.
  - by apply sim_reading.
  - apply sim_writing.
  - lia.
  - vm_compute. lia.
  - destruct Hcase as [(->&Hl&Hr)|[-> _]].
    + exists w', data. split; [exact Hrun|]. split; [lia|exact Hr].
    + exfalso. revert Hrun. vm_compute. discriminate.
Defined.

Lemma conn_ungetc_restores_witness :
  exists w' w2, conn_getc 200 1 (sim_world script1 100) = Ok 71 w' /\
    conn_ungetc 1 w' = Ok () w2 /\ reading all_conns 100 w2 1 [].
Proof.
  destruct (conn_ungetc_restores all_conns all_conns 100 200 1 [] (sim_world script1 100))
    as (ch&w'&Hrun&Hcase).
  - by apply sim_reading.
  - vm_compute. lia.
  - destruct Hcase as [[-> _]|(b&w2&->&_&Hu&Hr)].
    + exfalso. revert Hrun. vm_compute. discriminate.
    + exists w', w2. split; [|split; [exact Hu|exact Hr]].
      assert (match conn_getc 200 1 (sim_world script1 100) with Ok z _ => z =? 71 | _ => false end = true)
        as H by (vm_compute; reflexivity).
      rewrite Hrun in H |- *. apply Z.eqb_eq in H. rewrite H. reflexivity.
Defined.
