(* ===== verification/Uthash.v ===== *)
(** The hash table macros of src/uthash/uthash.h the proxy uses: [HASH_FIND],
    [HASH_ADD], [HASH_DEL], [HASH_ITER], [HASH_COUNT], bucket expansion and the
    default hash function [HASH_JEN].

    A table keeps its elements twice: in insertion order (the [prev]/[next]
    list, walked by [HASH_ITER]) and in chained buckets (walked by
    [HASH_FIND]).  Both are lists here; UthashLinks and UthashFsck have their links.  Elements
    are identified by the address of their struct ([hh_id]); two elements may
    carry the same key, as the proxy's header table does.  The counters are [unsigned] and
    wrap around; [num_buckets] is the length of the array. *)

From S2P Require Import Prelude CLib.

#[local] Open Scope Z_scope.

(** ** The hash function *)

Definition HASH_JEN_MIX (a b c : Z) : Z * Z * Z :=
  let a := Z.lxor (u32 (a - b - c)) (Z.shiftr c 13) in
  let b := Z.lxor (u32 (b - c - a)) (u32 (Z.shiftl a 8)) in
  let c := Z.lxor (u32 (c - a - b)) (Z.shiftr b 13) in
  let a := Z.lxor (u32 (a - b - c)) (Z.shiftr c 12) in
  let b := Z.lxor (u32 (b - c - a)) (u32 (Z.shiftl a 16)) in
  let c := Z.lxor (u32 (c - a - b)) (Z.shiftr b 5) in
  let a := Z.lxor (u32 (a - b - c)) (Z.shiftr c 3) in
  let b := Z.lxor (u32 (b - c - a)) (u32 (Z.shiftl a 10)) in
  let c := Z.lxor (u32 (c - a - b)) (Z.shiftr b 15) in
  (a, b, c).

Definition le32 (k0 k1 k2 k3 : Z) : Z :=
  k0 + Z.shiftl k1 8 + Z.shiftl k2 16 + Z.shiftl k3 24.

(** The loop over 12-byte blocks, then the [switch] on the 0 to 11 bytes left
    (a byte the [switch] does not reach counts as 0). *)
Fixpoint jen_loop (keylen : Z) (key : list Z) (i j hashv : Z) : Z :=
  match key with
  | k0::k1::k2::k3::k4::k5::k6::k7::k8::k9::k10::k11::key' =>
      let i := u32 (i + le32 k0 k1 k2 k3) in
      let j := u32 (j + le32 k4 k5 k6 k7) in
      let hashv := u32 (hashv + le32 k8 k9 k10 k11) in
      let '(i, j, hashv) := HASH_JEN_MIX i j hashv in
      jen_loop keylen key' i j hashv
  | _ =>
      let k n := nth n key 0 in
      let hashv := u32 (hashv + keylen) in
      let hashv := u32 (hashv + Z.shiftl (k 10%nat) 24 + Z.shiftl (k 9%nat) 16 + Z.shiftl (k 8%nat) 8) in
      let j := u32 (j + le32 (k 4%nat) (k 5%nat) (k 6%nat) (k 7%nat)) in
      let i := u32 (i + le32 (k 0%nat) (k 1%nat) (k 2%nat) (k 3%nat)) in
      let '(i, j, hashv) := HASH_JEN_MIX i j hashv in hashv
  end.

Definition HASH_JEN (key : list ascii) : Z :=
  jen_loop (Z.of_nat (length key)) (uchar <$> key) 0x9e3779b9 0x9e3779b9 0xfeedbeef.

(** ** Tables *)

Record UT_hash_handle := Handle { hh_id : positive; hh_key : list ascii; hh_hashv : Z }.

#[export] Instance UT_hash_handle_eq_dec : EqDecision UT_hash_handle.
Proof. solve_decision. Defined.

(** [chain] lists the bucket from [hh_head] along [hh_next]; the counters are [unsigned]. *)
Record UT_hash_bucket := Bucket { chain : list UT_hash_handle; count : Z; expand_mult : Z }.

(** [items] lists the table along [next] (insertion order); the counters are [unsigned]. *)
Record UT_hash_table := Table {
  items : list UT_hash_handle;
  buckets : list UT_hash_bucket;
  log2_num_buckets : Z;
  num_items : Z;
  ineff_expands : Z;
  noexpand : bool
}.

Definition HASH_INITIAL_NUM_BUCKETS_LOG2 : Z := 5.
Definition HASH_BKT_CAPACITY_THRESH : Z := 10.

(** [num_buckets] is the length of the bucket array. *)
Definition num_buckets (t : UT_hash_table) : Z := Z.of_nat (length (buckets t)).

(** [HASH_TO_BKT]. *)
Definition HASH_TO_BKT (hashv nb : Z) : nat := Z.to_nat (Z.land hashv (nb - 1)).

Definition empty_bucket : UT_hash_bucket := Bucket [] 0 0.

Definition HASH_MAKE_TABLE : UT_hash_table :=
  {| items := [];
     buckets := replicate (2 ^ Z.to_nat HASH_INITIAL_NUM_BUCKETS_LOG2) empty_bucket;
     log2_num_buckets := HASH_INITIAL_NUM_BUCKETS_LOG2;
     num_items := 0; ineff_expands := 0; noexpand := false |}.

(** One element moved by [HASH_EXPAND_BUCKETS]: pushed on the front of its new
    bucket, with the count of elements beyond the ideal chain length. *)
Definition expand_one (nb ideal : Z) (acc : list UT_hash_bucket * Z) (h : UT_hash_handle)
    : list UT_hash_bucket * Z :=
  let '(bs, nonideal) := acc in
  let i := HASH_TO_BKT (hh_hashv h) nb in
  match bs !! i with
  | None => acc
  | Some b =>
      let c := u32 (count b + 1) in
      let over := ideal <? c in
      (<[i := Bucket (h :: chain b) c (if over then c / ideal else expand_mult b)]> bs,
       if over then u32 (nonideal + 1) else nonideal)
  end.

Definition HASH_EXPAND_BUCKETS (t : UT_hash_table) : UT_hash_table :=
  let nb := num_buckets t * 2 in
  let ideal := Z.shiftr (num_items t) (log2_num_buckets t + 1) +
               (if Z.land (num_items t) (nb - 1) =? 0 then 0 else 1) in
  let '(bs, nonideal) :=
    foldl (expand_one nb ideal) (replicate (2 * length (buckets t)) empty_bucket, 0)
          (mjoin (chain <$> buckets t)) in
  let ineff := if Z.shiftr (num_items t) 1 <? nonideal then u32 (ineff_expands t + 1) else 0 in
  {| items := items t; buckets := bs; log2_num_buckets := log2_num_buckets t + 1;
     num_items := num_items t; ineff_expands := ineff;
     noexpand := noexpand t || (1 <? ineff) |}.

Definition HASH_ADD_TO_BKT (t : UT_hash_table) (i : nat) (h : UT_hash_handle) : UT_hash_table :=
  match buckets t !! i with
  | None => t
  | Some b =>
      let b' := Bucket (h :: chain b) (u32 (count b + 1)) (expand_mult b) in
      let t' := {| items := items t; buckets := <[i := b']> (buckets t);
                   log2_num_buckets := log2_num_buckets t; num_items := num_items t;
                   ineff_expands := ineff_expands t; noexpand := noexpand t |} in
      if (u32 ((expand_mult b + 1) * HASH_BKT_CAPACITY_THRESH) <=? count b') && negb (noexpand t)
      then HASH_EXPAND_BUCKETS t' else t'
  end.

(** A table variable: [None] is the [NULL] head. *)
Abbreviation ut_head := (option UT_hash_table).

Section ops.
(** The macro [HASH_FCN]; the proxy keeps the default, [HASH_JEN]. *)
Variable HASH_FCN : list ascii -> Z.

(** [HASH_ADD_KEYPTR] of the struct at address [id]. *)
Definition HASH_ADD (head : ut_head) (id : positive) (key : list ascii) : ut_head :=
  let t := default HASH_MAKE_TABLE head in
  let h := Handle id key (HASH_FCN key) in
  let t := {| items := items t ++ [h]; buckets := buckets t;
              log2_num_buckets := log2_num_buckets t; num_items := u32 (num_items t + 1);
              ineff_expands := ineff_expands t; noexpand := noexpand t |} in
  Some (HASH_ADD_TO_BKT t (HASH_TO_BKT (hh_hashv h) (num_buckets t)) h).

Definition HASH_FIND (head : ut_head) (key : list ascii) : option UT_hash_handle :=
  t ← head;
  b ← buckets t !! HASH_TO_BKT (HASH_FCN key) (num_buckets t);
  list_find (fun h => hh_key h = key) (chain b) ≫= fun ih => Some ih.2.
End ops.

Definition HASH_DEL_IN_BKT (b : UT_hash_bucket) (h : UT_hash_handle) : UT_hash_bucket :=
  Bucket (filter (fun h' => hh_id h' <> hh_id h) (chain b)) (u32 (count b - 1)) (expand_mult b).

(** The test for the only element ([prev] and [next] both [NULL]) frees the
    table. *)
Definition HASH_DEL (head : ut_head) (h : UT_hash_handle) : ut_head :=
  t ← head;
  if decide (length (items t) = 1%nat) then None
  else Some {| items := filter (fun h' => hh_id h' <> hh_id h) (items t);
               buckets := alter (fun b => HASH_DEL_IN_BKT b h)
                            (HASH_TO_BKT (hh_hashv h) (num_buckets t)) (buckets t);
               log2_num_buckets := log2_num_buckets t; num_items := u32 (num_items t - 1);
               ineff_expands := ineff_expands t; noexpand := noexpand t |}.

(** The elements in the order [HASH_ITER] visits them, and [HASH_COUNT]. *)
Definition HASH_ITER (head : ut_head) : list UT_hash_handle :=
  match head with None => [] | Some t => items t end.
Definition HASH_COUNT (head : ut_head) : Z :=
  match head with None => 0 | Some t => num_items t end.

(** ** Well-formed tables *)

Definition bucket_wf (nb : Z) (l : list UT_hash_handle) (i : nat) (b : UT_hash_bucket) : Prop :=
  NoDup (chain b) /\ count b = u32 (Z.of_nat (length (chain b))) /\
  forall h, h ∈ chain b <-> h ∈ l /\ HASH_TO_BKT (hh_hashv h) nb = i.

(** The buckets partition the elements [l] by hash value; the array length is a
    power of two. *)
Definition buckets_wf (bs : list UT_hash_bucket) (k : Z) (l : list UT_hash_handle) : Prop :=
  0 <= k /\ Z.of_nat (length bs) = 2 ^ k /\
  forall i b, bs !! i = Some b -> bucket_wf (2 ^ k) l i b.

Section wf.
Variable HASH_FCN : list ascii -> Z.

Definition ut_wf (head : ut_head) : Prop :=
  match head with
  | None => True
  | Some t =>
      items t <> [] /\ NoDup (hh_id <$> items t) /\
      num_items t = u32 (Z.of_nat (length (items t))) /\
      Forall (fun h => hh_hashv h = HASH_FCN (hh_key h)) (items t) /\
      buckets_wf (buckets t) (log2_num_buckets t) (items t)
  end.
End wf.

(** The [unsigned] counters. *)
Lemma u32_succ a b : a = u32 b -> u32 (a + 1) = u32 (b + 1).
Proof. intros ->. apply Z.add_mod_idemp_l. lia. Qed.
Lemma u32_pred a b : a = u32 b -> u32 (a - 1) = u32 (b - 1).
Proof. intros ->. unfold u32. rewrite <-!Z.add_opp_r. apply Z.add_mod_idemp_l. lia. Qed.

Lemma HASH_TO_BKT_lt hashv k : 0 <= k -> (HASH_TO_BKT hashv (2 ^ k) < Z.to_nat (2 ^ k))%nat.
Proof.
  intros Hk. unfold HASH_TO_BKT. rewrite Z.sub_1_r, <-Z.ones_equiv, Z.land_ones by done.
  pose proof (Z.mod_pos_bound hashv (2 ^ k)). lia.
Qed.

Lemma buckets_wf_lookup bs k l hashv :
  buckets_wf bs k l -> exists b, bs !! HASH_TO_BKT hashv (2 ^ k) = Some b.
Proof.
  intros (Hk&Hlen&_). apply lookup_lt_is_Some. pose proof (HASH_TO_BKT_lt hashv k Hk). lia.
Qed.

Lemma buckets_wf_empty k : 0 <= k -> buckets_wf (replicate (Z.to_nat (2 ^ k)) empty_bucket) k [].
Proof.
  intros Hk. split_and!; [done|len_lia|].
  intros i b [-> _]%lookup_replicate. split_and!; [constructor|done|].
  intros h. simpl. rewrite !elem_of_nil. tauto.
Qed.

(** Pushing one new element on its bucket. *)
Lemma buckets_wf_push bs k l h b m :
  buckets_wf bs k l -> h ∉ l -> bs !! HASH_TO_BKT (hh_hashv h) (2 ^ k) = Some b ->
  buckets_wf (<[HASH_TO_BKT (hh_hashv h) (2 ^ k) := Bucket (h :: chain b) (u32 (count b + 1)) m]> bs)
             k (l ++ [h]).
Proof.
  intros (Hk&Hlen&Hb) Hn E. split_and!; [done|len_lia|]. intros i b' Hi.
  apply list_lookup_insert_Some in Hi as [(<-&<-&_)|[Hne Hi]].
  - destruct (Hb _ _ E) as (Hnd&Hc&Hin). split_and!; simpl.
    + constructor; [|done]. rewrite Hin. tauto.
    + rewrite (u32_succ _ _ Hc). f_equal. lia.
    + intros h'. rewrite elem_of_cons, Hin, elem_of_app, list_elem_of_singleton.
      split; [intros [->|[??]]; auto|intros [[?| ->] ?]; auto].
  - destruct (Hb _ _ Hi) as (Hnd&Hc&Hin). split_and!; [done|done|].
    intros h'. rewrite Hin, elem_of_app, list_elem_of_singleton.
    split; [tauto|]. intros [[?| ->] ?]; [tauto|congruence].
Qed.

Lemma buckets_wf_perm bs k l l' :
  (forall h, h ∈ l <-> h ∈ l') -> buckets_wf bs k l -> buckets_wf bs k l'.
Proof.
  intros Hl (Hk&Hlen&Hb). split_and!; [done|done|]. intros i b Hi.
  destruct (Hb i b Hi) as (?&?&Hin). split_and!; [done|done|].
  intros h. by rewrite Hin, Hl.
Qed.

Lemma expand_fold_wf k ideal l : forall bs n l0,
  buckets_wf bs k l0 -> NoDup l -> (forall h, h ∈ l -> h ∉ l0) ->
  buckets_wf (foldl (expand_one (2 ^ k) ideal) (bs, n) l).1 k (l0 ++ l).
Proof.
  induction l as [|h l IH]; intros bs n l0 Hwf Hnd Hdis; simpl.
  - by rewrite app_nil_r.
  - inv Hnd. destruct (buckets_wf_lookup bs k l0 (hh_hashv h) Hwf) as [b Hb].
    rewrite Hb, cons_middle, app_assoc. apply IH; [|done|].
    + apply buckets_wf_push; [done| |done]. apply Hdis. by left.
    + intros h' Hin. rewrite not_elem_of_app, not_elem_of_cons.
      split_and!; [apply Hdis; by right|by intros ->|apply not_elem_of_nil].
Qed.

(** The chains together hold every element once. *)
Lemma buckets_wf_join bs k l :
  buckets_wf bs k l ->
  NoDup (mjoin (chain <$> bs)) /\ forall h, h ∈ mjoin (chain <$> bs) <-> h ∈ l.
Proof.
  intros (Hk&Hlen&Hb). split.
  - assert (forall n, (n <= length bs)%nat -> NoDup (mjoin (chain <$> drop n bs))) as H.
    2: { by apply (H O); lia. }
    intros n Hn. remember (length bs - n)%nat as m eqn:Hm. revert n Hn Hm.
    induction m as [|m IH]; intros n Hn Hm.
    { rewrite drop_ge by lia. constructor. }
    destruct (lookup_lt_is_Some_2 bs n) as [b E]; [lia|].
    rewrite (drop_S bs b n) by done. simpl. destruct (Hb _ _ E) as (Hnd&_&Hin).
    apply NoDup_app. split_and!; [done| |apply IH; lia].
    intros h Hh Hj. apply Hin in Hh as [_ Hh]. apply list_elem_of_join in Hj as (c&Hc&Hj).
    apply list_elem_of_fmap in Hj as (b'&->&Hb').
    apply list_elem_of_lookup in Hb' as [j Hj]. rewrite lookup_drop in Hj.
    destruct (Hb _ _ Hj) as (_&_&Hin'). pose proof (proj1 (Hin' _) Hc) as [_ Hh']. lia.
  - intros h. rewrite list_elem_of_join. split.
    + intros (c&Hc&Hj). apply list_elem_of_fmap in Hj as (b'&->&Hb').
      apply list_elem_of_lookup in Hb' as [j Hj]. destruct (Hb _ _ Hj) as (_&_&Hin).
      by destruct (proj1 (Hin _) Hc).
    + intros Hh. destruct (buckets_wf_lookup bs k l (hh_hashv h)) as [b E]; [done|].
      exists (chain b). split.
      * by apply (Hb _ _ E).
      * apply list_elem_of_fmap. exists b. split; [done|]. by eapply list_elem_of_lookup_2.
Qed.

(** ** The operations keep tables well formed *)

Section laws.
Context (HASH_FCN : list ascii -> Z).
Local Abbreviation wf := (ut_wf HASH_FCN).
Local Abbreviation ADD := (HASH_ADD HASH_FCN).
Local Abbreviation FIND := (HASH_FIND HASH_FCN).

Lemma num_buckets_wf t k l : buckets_wf (buckets t) k l -> num_buckets t = 2 ^ k.
Proof. by intros (_&?&_). Qed.

Lemma HASH_EXPAND_BUCKETS_buckets t l : buckets_wf (buckets t) (log2_num_buckets t) l ->
  buckets_wf (buckets (HASH_EXPAND_BUCKETS t)) (log2_num_buckets (HASH_EXPAND_BUCKETS t)) l.
Proof.
  intros Hb. pose proof (num_buckets_wf t _ _ Hb) as Hnb.
  destruct (buckets_wf_join _ _ _ Hb) as [Hj1 Hj2]. pose proof Hb as (Hk&Hlen&_).
  unfold HASH_EXPAND_BUCKETS. rewrite Hnb.
  replace (2 ^ log2_num_buckets t * 2) with (2 ^ (log2_num_buckets t + 1))
    by (rewrite Z.pow_add_r by lia; lia).
  set (ideal := Z.shiftr _ _ + _).
  pose proof (expand_fold_wf (log2_num_buckets t + 1) ideal (mjoin (chain <$> buckets t))
                (replicate (2 * length (buckets t)) empty_bucket) 0 []) as Hf.
  destruct (foldl _ _ _) as [bs n]. cbn [fst] in Hf. cbn [buckets log2_num_buckets].
  apply (buckets_wf_perm _ _ (mjoin (chain <$> buckets t))); [done|]. apply Hf; [|done|].
  - replace (2 * length (buckets t))%nat with (Z.to_nat (2 ^ (log2_num_buckets t + 1)))
      by (rewrite Z.pow_add_r by lia; lia).
    apply buckets_wf_empty. lia.
  - intros h _. apply not_elem_of_nil.
Qed.

Lemma HASH_EXPAND_BUCKETS_items t : items (HASH_EXPAND_BUCKETS t) = items t.
Proof. unfold HASH_EXPAND_BUCKETS. by destruct (foldl _ _ _). Qed.

Lemma HASH_EXPAND_BUCKETS_num t : num_items (HASH_EXPAND_BUCKETS t) = num_items t.
Proof. unfold HASH_EXPAND_BUCKETS. by destruct (foldl _ _ _). Qed.

Lemma HASH_EXPAND_BUCKETS_wf t : wf (Some t) -> wf (Some (HASH_EXPAND_BUCKETS t)).
Proof.
  intros (Hne&Hnd&Hn&Hh&Hb). unfold ut_wf. rewrite HASH_EXPAND_BUCKETS_items, HASH_EXPAND_BUCKETS_num.
  split_and!; try done. by apply HASH_EXPAND_BUCKETS_buckets.
Qed.

(** Pushing an element that is not yet in the buckets, with their expansion. *)
Lemma HASH_ADD_TO_BKT_buckets t l h : buckets_wf (buckets t) (log2_num_buckets t) l -> h ∉ l ->
  let t' := HASH_ADD_TO_BKT t (HASH_TO_BKT (hh_hashv h) (num_buckets t)) h in
  buckets_wf (buckets t') (log2_num_buckets t') (l ++ [h]) /\ num_items t' = num_items t.
Proof.
  intros Hb Hn. unfold HASH_ADD_TO_BKT. rewrite (num_buckets_wf t _ _ Hb).
  destruct (buckets_wf_lookup _ _ _ (hh_hashv h) Hb) as [b Eb]. rewrite Eb. cbv zeta.
  set (t' := Table _ (<[_:=_]> _) _ _ _ _).
  assert (buckets_wf (buckets t') (log2_num_buckets t') (l ++ [h])) as Hb' by (by apply buckets_wf_push).
  case_match; [|done]. split; [by apply HASH_EXPAND_BUCKETS_buckets|]. by rewrite HASH_EXPAND_BUCKETS_num.
Qed.

(** [NULL] behaves like an empty table with its initial buckets. *)
Definition head_wf (t : UT_hash_table) : Prop :=
  NoDup (hh_id <$> items t) /\ num_items t = u32 (Z.of_nat (length (items t))) /\
  Forall (fun h => hh_hashv h = HASH_FCN (hh_key h)) (items t) /\
  buckets_wf (buckets t) (log2_num_buckets t) (items t).

Lemma ut_wf_default head : wf head -> head_wf (default HASH_MAKE_TABLE head).
Proof.
  destruct head as [t|]; simpl; [by intros [_ ?]|]. intros _.
  split_and!; simpl; [constructor|done|constructor|].
  apply (buckets_wf_empty 5). done.
Qed.

Lemma HASH_ADD_spec head id key :
  wf head -> id ∉ hh_id <$> HASH_ITER head ->
  wf (ADD head id key) /\
  HASH_ITER (ADD head id key) = HASH_ITER head ++ [Handle id key (HASH_FCN key)].
Proof.
  intros Hwf Hid. pose proof (ut_wf_default head Hwf) as (Hnd&Hn&Hh&Hb).
  assert (HASH_ITER head = items (default HASH_MAKE_TABLE head)) as Hit by by destruct head.
  rewrite Hit in *. unfold HASH_ADD. set (t := default HASH_MAKE_TABLE head) in *.
  set (h := Handle id key (HASH_FCN key)).
  unfold HASH_ADD_TO_BKT, num_buckets. cbn [hh_hashv buckets].
  pose proof Hb as (_&Hlen&_). rewrite Hlen.
  destruct (buckets_wf_lookup _ _ _ (hh_hashv h) Hb) as [b Eb]. rewrite Eb.
  set (t' := Table _ (<[_:=_]> _) _ _ _ _).
  assert (wf (Some t')) as Hwf'.
  { split_and!; simpl.
    - by destruct (items t).
    - rewrite fmap_app. apply NoDup_app. split_and!; [done| |apply NoDup_singleton].
      intros x Hx Hx'. apply list_elem_of_singleton in Hx' as ->. done.
    - rewrite (u32_succ _ _ Hn), length_app. f_equal. simpl. lia.
    - apply Forall_app. split; [done|]. by repeat constructor.
    - apply (buckets_wf_push _ _ _ h); [done| |done].
      intros Hin. apply Hid. apply list_elem_of_fmap. by exists h. }
  case_match; [|done]. split; [by apply HASH_EXPAND_BUCKETS_wf|].
  simpl. by rewrite HASH_EXPAND_BUCKETS_items.
Qed.

Lemma HASH_FIND_Some head key h :
  wf head -> FIND head key = Some h -> h ∈ HASH_ITER head /\ hh_key h = key.
Proof.
  destruct head as [t|]; [|done]. intros (Hne&Hnd&Hn&Hh&Hb) Hf. unfold HASH_FIND in Hf.
  simpl in Hf. rewrite (num_buckets_wf t _ _ Hb) in Hf.
  apply bind_Some in Hf as (b&Eb&Hf). apply bind_Some in Hf as ([i h']&Hf&?). simplify_eq/=.
  apply list_find_Some in Hf as (Hl&Hk&_).
  destruct Hb as (_&_&Hb). destruct (Hb _ _ Eb) as (_&_&Hin). split; [|done].
  apply Hin. by eapply list_elem_of_lookup_2.
Qed.

Lemma HASH_FIND_None head key :
  wf head -> FIND head key = None <-> key ∉ hh_key <$> HASH_ITER head.
Proof.
  intros Hwf. split.
  - destruct head as [t|]; [|intros _; apply not_elem_of_nil].
    destruct Hwf as (Hne&Hnd&Hn&Hh&Hb). unfold HASH_FIND. simpl.
    rewrite (num_buckets_wf t _ _ Hb).
    destruct (buckets_wf_lookup _ _ _ (HASH_FCN key) Hb) as [b Eb]. rewrite Eb. simpl.
    destruct (list_find _ _) as [[]|] eqn:Hf; [done|]. intros _ Hin.
    apply list_elem_of_fmap in Hin as (h&->&Hin).
    apply list_find_None in Hf. rewrite Forall_forall in Hf. apply (Hf h); [|done].
    destruct Hb as (_&_&Hb). apply (Hb _ _ Eb). split; [done|].
    rewrite Forall_forall in Hh. by rewrite Hh.
  - intros Hn. destruct (FIND head key) as [h|] eqn:E; [|done].
    apply HASH_FIND_Some in E as [Hin <-]; [|done].
    destruct Hn. apply list_elem_of_fmap. eauto.
Qed.

(** With distinct keys a lookup gives the element of that key. *)
Lemma HASH_FIND_unique head h :
  wf head -> NoDup (hh_key <$> HASH_ITER head) -> h ∈ HASH_ITER head ->
  FIND head (hh_key h) = Some h.
Proof.
  intros Hwf Hnd Hin. destruct (FIND head (hh_key h)) as [h'|] eqn:E.
  - apply HASH_FIND_Some in E as [Hin' Hk]; [|done]. f_equal.
    apply list_elem_of_lookup in Hin as [i Hi]. apply list_elem_of_lookup in Hin' as [j Hj].
    assert (i = j) as <-; [|congruence].
    eapply NoDup_lookup; [exact Hnd| |]; rewrite list_lookup_fmap.
    + by rewrite Hi.
    + rewrite Hj. simpl. by rewrite Hk.
  - apply HASH_FIND_None in E; [|done]. destruct E. apply list_elem_of_fmap. eauto.
Qed.

Lemma HASH_DEL_spec head h :
  wf head -> h ∈ HASH_ITER head ->
  wf (HASH_DEL head h) /\
  HASH_ITER (HASH_DEL head h) = filter (fun h' => hh_id h' <> hh_id h) (HASH_ITER head).
Proof.
  destruct head as [t|]; [|by intros _ ?%elem_of_nil].
  intros (Hne&Hnd&Hn&Hh&Hb) Hin. simpl in Hin. unfold HASH_DEL. simpl.
  pose proof (length_filter_key hh_id _ _ Hnd Hin) as Hflen.
  case_decide as Hone.
  { split; [done|]. destruct (items t) as [|x [|y l]]; [done| |done].
    apply list_elem_of_singleton in Hin as ->. simpl.
    by rewrite filter_cons_False by (intros H; by apply H). }
  set (l' := filter _ (items t)) in *.
  assert (l' <> []) as Hne'.
  { intros E. rewrite E in Hflen. destruct (items t) as [|x [|y l]]; simpl in *; [done|done|lia]. }
  split; [|done]. split_and!; simpl; [done| | | |].
  - eapply sublist_NoDup; [exact Hnd|]. apply fmap_sublist, sublist_filter.
  - rewrite (u32_pred _ _ Hn). f_equal. lia.
  - by apply Forall_filter.
  - destruct Hb as (Hk&Hlen&Hb). split_and!; [done|by rewrite length_alter|].
    assert (num_buckets t = 2 ^ log2_num_buckets t) as -> by done.
    intros i b' Hi. apply lookup_alter_Some in Hi as [(<-&b&Eb&->)|[Hni Hi]].
    + destruct (Hb _ _ Eb) as (Hnd'&Hc&Hin'). split_and!; simpl.
      * by apply NoDup_filter.
      * rewrite (u32_pred _ _ Hc), <-(length_filter_key hh_id (chain b) h) at 1; [f_equal; lia| |by apply Hin'].
        apply (NoDup_fmap_sub hh_id (items t)); [done|done|]. intros x Hx. by apply Hin' in Hx as [? _].
      * intros h'. unfold l'. rewrite !list_elem_of_filter, Hin'. tauto.
    + destruct (Hb _ _ Hi) as (Hnd'&Hc&Hin'). split_and!; [done|done|].
      intros h'. unfold l'. rewrite list_elem_of_filter, Hin'. split; [|tauto].
      intros [Hh1 Hh2]. split; [|done]. split; [|done].
      intros Hid. destruct Hni.
      assert (h' = h) as ->; [|done].
      by apply (NoDup_fmap_inj hh_id (items t)).
Qed.
End laws.

(** ** Refinement of association lists

    The proxy keeps its tables with distinct keys by looking a key up before
    adding it (for instance [event_set_handler] and [net_pull_add]), and deletes
    what it found.  Under this discipline the bucket table implements an
    association list in insertion order. *)

Inductive ut_op := OpAdd (key : list ascii) (id : positive) | OpDel (key : list ascii).

(** The find-then-add and find-then-delete sequences of the callers. *)
Definition ut_step (HASH_FCN : list ascii -> Z) (head : ut_head) (op : ut_op) : ut_head :=
  match op with
  | OpAdd key id =>
      match HASH_FIND HASH_FCN head key with
      | None => HASH_ADD HASH_FCN head id key
      | Some _ => head
      end
  | OpDel key =>
      match HASH_FIND HASH_FCN head key with
      | None => head
      | Some h => HASH_DEL head h
      end
  end.

Abbreviation alist := (list (list ascii * positive)).

Definition alist_find (l : alist) (key : list ascii) : option positive :=
  snd ∘ snd <$> list_find (fun kv => kv.1 = key) l.

Definition alist_step (l : alist) (op : ut_op) : alist :=
  match op with
  | OpAdd key id => if decide (key ∈ l.*1) then l else l ++ [(key, id)]
  | OpDel key => filter (fun kv => kv.1 <> key) l
  end.

Definition ut_entry (h : UT_hash_handle) : list ascii * positive := (hh_key h, hh_id h).
Definition ut_alist (head : ut_head) : alist := ut_entry <$> HASH_ITER head.

Definition op_id (op : ut_op) : option positive :=
  match op with OpAdd _ id => Some id | OpDel _ => None end.

Section refinement.
Context (HASH_FCN : list ascii -> Z).

Lemma ut_alist_keys head : (ut_alist head).*1 = hh_key <$> HASH_ITER head.
Proof. unfold ut_alist. by rewrite <-list_fmap_compose. Qed.
Lemma ut_alist_ids head : (ut_alist head).*2 = hh_id <$> HASH_ITER head.
Proof. unfold ut_alist. by rewrite <-list_fmap_compose. Qed.

Lemma HASH_COUNT_wf head :
  ut_wf HASH_FCN head -> HASH_COUNT head = u32 (Z.of_nat (length (HASH_ITER head))).
Proof. destruct head; [|done]. by intros (_&_&?&_). Qed.

Lemma alist_find_Some l key id :
  NoDup l.*1 -> alist_find l key = Some id <-> (key, id) ∈ l.
Proof.
  unfold alist_find. intros Hnd. split.
  - intros ([i [k v]]&(Hl&Hk&_)%list_find_Some&?)%fmap_Some. simplify_eq/=.
    by eapply list_elem_of_lookup_2.
  - intros Hin. destruct (list_find _ l) as [[i kv]|] eqn:E.
    + apply list_find_Some in E as (Hl&Hk&_). apply list_elem_of_lookup_2 in Hl.
      by rewrite (NoDup_fmap_inj fst l kv (key, id) Hnd Hl Hin Hk).
    + apply list_find_None in E. rewrite Forall_forall in E. by destruct (E _ Hin).
Qed.

(** A lookup in the table is a lookup in its association list. *)
Lemma HASH_FIND_alist head key :
  ut_wf HASH_FCN head -> NoDup (ut_alist head).*1 ->
  hh_id <$> HASH_FIND HASH_FCN head key = alist_find (ut_alist head) key.
Proof.
  intros Hwf Hnd. destruct (HASH_FIND HASH_FCN head key) as [h|] eqn:E; simpl.
  - apply HASH_FIND_Some in E as [Hin <-]; [|done]. symmetry.
    apply alist_find_Some; [done|]. apply list_elem_of_fmap. by exists h.
  - apply HASH_FIND_None in E; [|done]. symmetry.
    destruct (alist_find _ _) as [id|] eqn:E'; [|done].
    apply alist_find_Some in E'; [|done]. destruct E.
    rewrite <-ut_alist_keys. apply list_elem_of_fmap. by exists (key, id).
Qed.

Lemma ut_step_refines head op :
  ut_wf HASH_FCN head -> NoDup (ut_alist head).*1 ->
  (forall id, op_id op = Some id -> id ∉ (ut_alist head).*2) ->
  ut_wf HASH_FCN (ut_step HASH_FCN head op) /\
  ut_alist (ut_step HASH_FCN head op) = alist_step (ut_alist head) op.
Proof.
  intros Hwf Hnd Hid. pose proof (HASH_FIND_None HASH_FCN head) as Hnone.
  destruct op as [key id|key]; simpl; specialize (Hnone key Hwf);
    rewrite <-ut_alist_keys in Hnone;
    destruct (HASH_FIND HASH_FCN head key) as [h|] eqn:E.
  - rewrite decide_True; [done|].
    destruct (decide (key ∈ (ut_alist head).*1)) as [|Hn]; [done|]. by apply Hnone in Hn.
  - rewrite decide_False by by apply Hnone.
    rewrite ut_alist_ids in Hid.
    destruct (HASH_ADD_spec HASH_FCN head id key Hwf) as [? Hit]; [by apply Hid|].
    split; [done|]. unfold ut_alist. rewrite Hit. by rewrite fmap_app.
  - apply HASH_FIND_Some in E as [Hin <-]; [|done].
    destruct (HASH_DEL_spec HASH_FCN head h Hwf Hin) as [? Hit]. split; [done|].
    unfold ut_alist. rewrite Hit. symmetry. apply filter_fmap_ext. intros h' Hin'.
    unfold ut_entry. simpl. rewrite ut_alist_keys in Hnd. split; intros Hne Heq; apply Hne.
    + destruct head as [t|]; [|by apply elem_of_nil in Hin].
      destruct Hwf as (_&Hndi&_). by rewrite (NoDup_fmap_inj hh_id _ h' h Hndi).
    + by rewrite (NoDup_fmap_inj hh_key _ h' h Hnd).
  - split; [done|]. rewrite filter_all; [done|].
    apply Forall_forall. intros [k v] Hin <-. apply Hnone; [done|].
    apply list_elem_of_fmap. by exists (k, v).
Qed.

Lemma alist_step_keys l op : NoDup l.*1 -> NoDup (alist_step l op).*1.
Proof.
  intros Hnd. destruct op as [key id|key]; simpl.
  - case_decide as Hk; [done|]. rewrite fmap_app. apply NoDup_app. split_and!; [done| |].
    + intros k Hk1 Hk2. apply list_elem_of_singleton in Hk2 as ->. done.
    + apply NoDup_singleton.
  - eapply sublist_NoDup; [exact Hnd|]. apply fmap_sublist, sublist_filter.
Qed.

Lemma alist_step_ids l op id :
  id ∈ (alist_step l op).*2 -> id ∈ l.*2 \/ op_id op = Some id.
Proof.
  destruct op as [key id'|key]; simpl.
  - case_decide; [auto|]. rewrite fmap_app, elem_of_app.
    intros [?|H2]; [auto|]. apply list_elem_of_singleton in H2 as ->. auto.
  - intros (kv&->&Hin)%list_elem_of_fmap. apply list_elem_of_filter in Hin as [_ Hin].
    left. apply list_elem_of_fmap. eauto.
Qed.
End refinement.

Lemma ut_run_refines HASH_FCN ops head :
  ut_wf HASH_FCN head -> NoDup (ut_alist head).*1 ->
  NoDup (omap op_id ops) -> (forall id, id ∈ omap op_id ops -> id ∉ (ut_alist head).*2) ->
  ut_wf HASH_FCN (foldl (ut_step HASH_FCN) head ops) /\
  ut_alist (foldl (ut_step HASH_FCN) head ops) = foldl alist_step (ut_alist head) ops /\
  NoDup (foldl alist_step (ut_alist head) ops).*1.
Proof.
  revert head. induction ops as [|op ops IH]; intros head Hwf Hnd Hids Hfresh; simpl; [done|].
  destruct (ut_step_refines HASH_FCN head op Hwf Hnd) as [Hwf' Hal].
  { intros id Hid. apply Hfresh. simpl. rewrite Hid. by left. }
  rewrite <-Hal. apply IH; [done| | |].
  - rewrite Hal. by apply alist_step_keys.
  - simpl in Hids. destruct (op_id op); [by inv Hids|done].
  - intros id Hin. rewrite Hal. intros [H|H]%alist_step_ids.
    + revert H. apply Hfresh. simpl. destruct (op_id op); [by right|done].
    + simpl in Hids. rewrite H in Hids. by inv Hids.
Qed.

(** ** Properties *)

(** C18: a table driven by any sequence of find-then-add and find-then-delete
    calls implements the association list in insertion order with the same
    calls: [HASH_ITER] visits the same entries in the same order, [HASH_FIND]
    finds the same element for every key, and [HASH_COUNT] is the length (as an
    [unsigned], so the length itself for fewer than 2^32 elements),
    through every bucket expansion and whatever the hash function. *)
Theorem ut_refines_alist (HASH_FCN : list ascii -> Z) (ops : list ut_op)
    (Hfresh : NoDup (omap op_id ops)) :
  let head := foldl (ut_step HASH_FCN) None ops in
  let l := foldl alist_step [] ops in
  ut_alist head = l /\
  (forall key, hh_id <$> HASH_FIND HASH_FCN head key = alist_find l key) /\
  HASH_COUNT head = u32 (Z.of_nat (length l)) /\
  (Z.of_nat (length l) < 4294967296 -> HASH_COUNT head = Z.of_nat (length l)).
Proof.
  destruct (ut_run_refines HASH_FCN ops None) as (Hwf&Hal&Hnd); [done|constructor|done| |].
  { intros id _. apply not_elem_of_nil. }
  change (ut_alist None) with ([] : alist) in *. split; [done|]. split.
  - intros key. rewrite HASH_FIND_alist by (rewrite ?Hal; done). by rewrite Hal.
  - rewrite (HASH_COUNT_wf HASH_FCN) by done. rewrite <-Hal. unfold ut_alist.
    rewrite length_fmap. split; [done|]. intros Hl. apply Z.mod_small. lia.
Qed.

Lemma ut_refines_alist_witness :
  let ops := [OpAdd (lit "Host") 1; OpAdd (lit "Accept") 2; OpAdd (lit "Host") 3;
              OpDel (lit "Host"); OpAdd (lit "Host") 4] in
  let head := foldl (ut_step HASH_JEN) None ops in
  ut_alist head = [(lit "Accept", 2%positive); (lit "Host", 4%positive)] /\
  hh_id <$> HASH_FIND HASH_JEN head (lit "Host") = Some 4%positive.
Proof.
  intros ops head.
  destruct (ut_refines_alist HASH_JEN ops) as (Hal&Hf&_).
  - vm_compute. repeat constructor; rewrite ?not_elem_of_cons; repeat split; try discriminate; apply not_elem_of_nil.
  - split; [exact Hal|]. unfold head. rewrite Hf. reflexivity.
Defined.
