(* ===== verification/UthashMore.v ===== *)
(** The rest of src/uthash/uthash.h that concerns a table by itself: the other hash
    functions that [HASH_FUNCTION] can name, and [HASH_CLEAR]. *)

From S2P Require Import Prelude CLib Uthash.

#[local] Open Scope Z_scope.

(** ** Hash functions *)

(** A [char] of the key is signed. *)
Definition HASH_BER (key : list ascii) : Z :=
  foldl (fun hashv c => u32 (u32 (Z.shiftl hashv 5) + hashv + schar c)) 0 key.

Definition HASH_SAX (key : list ascii) : Z :=
  foldl (fun hashv c => Z.lxor hashv (u32 (Z.shiftl hashv 5 + Z.shiftr hashv 2 + schar c))) 0 key.

(** The multiplication is behind the loop, not in it. *)
Definition HASH_FNV (key : list ascii) : Z :=
  let hashv := foldl (fun hashv c => Z.lxor hashv (u32 (schar c))) 2166136261 key in
  u32 (hashv * 16777619).

Definition HASH_OAT (key : list ascii) : Z :=
  let hashv := foldl (fun hashv c =>
    let hashv := u32 (hashv + schar c) in
    let hashv := u32 (hashv + Z.shiftl hashv 10) in
    Z.lxor hashv (Z.shiftr hashv 6)) 0 key in
  let hashv := u32 (hashv + Z.shiftl hashv 3) in
  let hashv := Z.lxor hashv (Z.shiftr hashv 11) in
  u32 (hashv + Z.shiftl hashv 15).

Definition get16bits (k0 k1 : Z) : Z := k0 + Z.shiftl k1 8.

(** The loop over blocks of four bytes, then the [switch] on the rest. *)
Fixpoint sfh_loop (key : list Z) (hashv : Z) : Z :=
  match key with
  | k0 :: k1 :: k2 :: k3 :: key' =>
      let hashv := u32 (hashv + get16bits k0 k1) in
      let tmp := Z.lxor (u32 (Z.shiftl (get16bits k2 k3) 11)) hashv in
      let hashv := Z.lxor (u32 (Z.shiftl hashv 16)) tmp in
      sfh_loop key' (u32 (hashv + Z.shiftr hashv 11))
  | [k0; k1; k2] =>
      let hashv := u32 (hashv + get16bits k0 k1) in
      let hashv := Z.lxor hashv (u32 (Z.shiftl hashv 16)) in
      let hashv := Z.lxor hashv (u32 (Z.shiftl k2 18)) in
      u32 (hashv + Z.shiftr hashv 11)
  | [k0; k1] =>
      let hashv := u32 (hashv + get16bits k0 k1) in
      let hashv := Z.lxor hashv (u32 (Z.shiftl hashv 11)) in
      u32 (hashv + Z.shiftr hashv 17)
  | [k0] =>
      let hashv := u32 (hashv + k0) in
      let hashv := Z.lxor hashv (u32 (Z.shiftl hashv 10)) in
      u32 (hashv + Z.shiftr hashv 1)
  | [] => hashv
  end.

Definition HASH_SFH (key : list ascii) : Z :=
  let hashv := sfh_loop (uchar <$> key) 0xcafebabe in
  let hashv := Z.lxor hashv (u32 (Z.shiftl hashv 3)) in
  let hashv := u32 (hashv + Z.shiftr hashv 5) in
  let hashv := Z.lxor hashv (u32 (Z.shiftl hashv 4)) in
  let hashv := u32 (hashv + Z.shiftr hashv 17) in
  let hashv := Z.lxor hashv (u32 (Z.shiftl hashv 25)) in
  u32 (hashv + Z.shiftr hashv 6).

Definition MUR_ROTL32 (x r : Z) : Z := Z.lor (u32 (Z.shiftl x r)) (Z.shiftr x (32 - r)).
Definition MUR_FMIX (h : Z) : Z :=
  let h := Z.lxor h (Z.shiftr h 16) in
  let h := u32 (h * 0x85ebca6b) in
  let h := Z.lxor h (Z.shiftr h 13) in
  let h := u32 (h * 0xc2b2ae35) in
  Z.lxor h (Z.shiftr h 16).

(** [k1], mixed before it goes into [h1]. *)
Definition mur_mix (k1 : Z) : Z := u32 (MUR_ROTL32 (u32 (k1 * 0xcc9e2d51)) 15 * 0x1b873593).

(** The blocks, little-endian, then the bytes behind them. *)
Fixpoint mur_loop (key : list Z) (h1 : Z) : Z :=
  match key with
  | k0 :: k1 :: k2 :: k3 :: key' =>
      let h1 := Z.lxor h1 (mur_mix (le32 k0 k1 k2 k3)) in
      let h1 := MUR_ROTL32 h1 13 in
      mur_loop key' (u32 (h1 * 5 + 0xe6546b64))
  | [] => h1
  | _ => let k n := nth n key 0 in Z.lxor h1 (mur_mix (le32 (k 0%nat) (k 1%nat) (k 2%nat) 0))
  end.

Definition HASH_MUR (key : list ascii) : Z :=
  MUR_FMIX (Z.lxor (mur_loop (uchar <$> key) 0xf88D5353) (u32 (Z.of_nat (length key)))).

(** ** [HASH_CLEAR] *)

(** The table goes, its elements stay. *)
Definition HASH_CLEAR (head : ut_head) : ut_head := None.

(** ** Ranges *)

Definition is_u32 (z : Z) : Prop := 0 <= z < 4294967296.

Lemma u32_is z : is_u32 (u32 z).
Proof. apply Z.mod_pos_bound. lia. Qed.

Lemma log2_is_u32 z : 0 <= z -> Z.log2 z < 32 -> is_u32 z.
Proof.
  intros Hz Hl. split; [done|]. destruct (Z.eq_dec z 0) as [->|]; [lia|].
  change 4294967296 with (2 ^ 32). apply Z.log2_lt_pow2; lia.
Qed.
Lemma is_u32_log2 z : is_u32 z -> Z.log2 z < 32.
Proof.
  intros [H1 H2]. destruct (Z.eq_dec z 0) as [->|]; [done|]. apply Z.log2_lt_pow2; [lia|exact H2].
Qed.

Lemma lxor_is a b : is_u32 a -> is_u32 b -> is_u32 (Z.lxor a b).
Proof.
  intros Ha Hb. apply log2_is_u32; [apply Z.lxor_nonneg; unfold is_u32 in *; lia|].
  pose proof (Z.log2_lxor a b ltac:(apply Ha) ltac:(apply Hb)). pose proof (is_u32_log2 a Ha). pose proof (is_u32_log2 b Hb). lia.
Qed.
Lemma lor_is a b : is_u32 a -> is_u32 b -> is_u32 (Z.lor a b).
Proof.
  intros Ha Hb. apply log2_is_u32; [apply Z.lor_nonneg; unfold is_u32 in *; lia|].
  rewrite Z.log2_lor by (unfold is_u32 in *; lia). pose proof (is_u32_log2 a Ha). pose proof (is_u32_log2 b Hb). lia.
Qed.
Lemma shiftr_is a n : 0 <= n -> is_u32 a -> is_u32 (Z.shiftr a n).
Proof.
  intros Hn [H1 H2]. rewrite Z.shiftr_div_pow2 by done. assert (0 < 2 ^ n) by (apply Z.pow_pos_nonneg; lia).
  split; [by apply Z.div_pos|]. apply Z.le_lt_trans with a; [|done]. apply Z.div_le_upper_bound; [done|]. nia.
Qed.

Create HintDb hashes.
#[export] Hint Resolve u32_is lxor_is lor_is shiftr_is : hashes.
Ltac hash_range := repeat first [apply u32_is | apply lxor_is | apply lor_is | apply shiftr_is; [lia|]]; try done; try (split; lia).

Lemma foldl_is (f : Z -> ascii -> Z) key : (forall h c, is_u32 h -> is_u32 (f h c)) -> forall h, is_u32 h -> is_u32 (foldl f h key).
Proof. intros Hf. induction key as [|c key IH]; intros h Hh; [done|]. apply IH, Hf, Hh. Qed.

Lemma le_is (a n : Z) : 0 <= a < n -> n <= 4294967296 -> is_u32 a.
Proof. unfold is_u32. lia. Qed.

(** Every hash function gives an [unsigned] value, and with it a bucket of the table. *)
Theorem hash_functions_range (f : list ascii -> Z) (key : list ascii) (k : Z) :
  f ∈ [HASH_BER; HASH_SAX; HASH_FNV; HASH_OAT; HASH_SFH; HASH_MUR] -> 0 <= k <= 31 ->
  is_u32 (f key) /\ (HASH_TO_BKT (f key) (2 ^ k) < Z.to_nat (2 ^ k))%nat.
Proof.
  intros Hf Hk. split; [|apply HASH_TO_BKT_lt; lia].
  assert (forall key h, is_u32 h -> is_u32 (sfh_loop key h)) as Hsfh.
  { intros l. induction l as [l IH] using (induction_ltof1 _ length). intros h Hh.
    destruct l as [|k0 [|k1 [|k2 [|k3 l]]]]; cbn [sfh_loop]; [done|apply u32_is..|]. apply IH; [unfold ltof; cbn; lia|apply u32_is]. }
  assert (forall k, is_u32 (mur_mix k)) as Hmix by (intros ?; apply u32_is).
  assert (forall h r, 0 <= r <= 32 -> is_u32 h -> is_u32 (MUR_ROTL32 h r)) as Hrotl.
  { intros h r Hr Hh. apply lor_is; [apply u32_is|apply shiftr_is; [lia|done]]. }
  assert (forall key h, is_u32 h -> is_u32 (mur_loop key h)) as Hmur.
  { intros l. induction l as [l IH] using (induction_ltof1 _ length). intros h Hh.
    destruct l as [|k0 [|k1 [|k2 [|k3 l]]]]; cbn [mur_loop]; [done|by apply lxor_is..|]. apply IH; [unfold ltof; cbn; lia|apply u32_is]. }
  rewrite !elem_of_cons, elem_of_nil in Hf. destruct Hf as [->|[->|[->|[->|[->|[->|[]]]]]]].
  - apply foldl_is; [intros; apply u32_is|split; lia].
  - apply foldl_is; [intros; hash_range|split; lia].
  - apply u32_is.
  - apply u32_is.
  - apply u32_is.
  - unfold HASH_MUR, MUR_FMIX. cbv zeta. hash_range.
Qed.

Lemma hash_functions_range_witness : is_u32 (HASH_MUR (lit "Host")) /\ (HASH_TO_BKT (HASH_MUR (lit "Host")) (2 ^ 5) < Z.to_nat (2 ^ 5))%nat.
Proof. apply (hash_functions_range HASH_MUR (lit "Host") 5); [do 5 right; left|lia]. Defined.

(** FNV: the order of the characters does not matter, since they are only combined by [^]. *)
Example fnv_anagram : HASH_FNV (lit "stop") = HASH_FNV (lit "pots").
Proof. vm_compute. reflexivity. Qed.
