(* ===== verification/Regex.v ===== *)
(** POSIX extended regular expressions, as far as the five patterns of
    src/core/net_data.c use them: [regcomp] parses a pattern, [regexec] finds
    the leftmost match, repetitions taking as much as they can.

    The matcher is proved sound and complete for the declarative relation
    [rmatch], and to return the leftmost match.  For the patterns of the proxy
    the captures are then determined by the text (NetData), so the choice among
    several matches never matters there, except for the longest-run rule of
    [*] and [+], which [rmt_star_greedy] states. *)

From S2P Require Import Prelude CLib.

(** ** Syntax *)

(** A character class: a list of ranges. *)
Abbreviation cls := (list (ascii * ascii)).

Definition in_cls (f : cls) (c : ascii) : bool :=
  existsb (fun r => in_range r.1 r.2 c) f.

Inductive re :=
| Eps
| Chr (f : cls)
| Star (f : cls)
| Plus (f : cls)
| Cat (r1 r2 : re)
| Opt (r : re)
| Grp (n : nat) (r : re)
| Bol
| Eol.

Definition any : cls := [("001"%char, "255"%char)].

(** The inside of a bracket expression: [-] is a range between two characters
    and itself at the end; a backslash is an ordinary character. *)
Fixpoint parse_bracket (fuel : nat) (s : list ascii) : option (cls * list ascii) :=
  match fuel with
  | O => None
  | S fuel =>
      match s with
      | "]"%char :: s' => Some ([], s')
      | a :: "-"%char :: b :: s' =>
          if bool_decide (b = "]"%char)
          then Some ([(a, a); ("-"%char, "-"%char)], s')
          else '(f, s'') ← parse_bracket fuel s'; Some ((a, b) :: f, s'')
      | a :: s' => '(f, s'') ← parse_bracket fuel s'; Some ((a, a) :: f, s'')
      | [] => None
      end
  end.

Definition postfix (r : re) (s : list ascii) : option (re * list ascii) :=
  match s with
  | "*"%char :: s' => match r with Chr f => Some (Star f, s') | _ => None end
  | "+"%char :: s' => match r with Chr f => Some (Plus f, s') | _ => None end
  | "?"%char :: s' => Some (Opt r, s')
  | _ => Some (r, s)
  end.

(** [n] is the number of the next group. *)
Fixpoint parse_re (fuel : nat) (s : list ascii) (n : nat) : option (re * list ascii * nat) :=
  match fuel with
  | O => None
  | S fuel =>
      match s with
      | [] => Some (Eps, [], n)
      | ")"%char :: _ => Some (Eps, s, n)
      | c :: s' =>
          '(atom, s1, n1) ←
            (if bool_decide (c = "("%char) then
               '(r, s2, n2) ← parse_re fuel s' (S n);
               match s2 with ")"%char :: s3 => Some (Grp n r, s3, n2) | _ => None end
             else if bool_decide (c = "["%char) then
               '(f, s2) ← parse_bracket fuel s'; Some (Chr f, s2, n)
             else if bool_decide (c = "^"%char) then Some (Bol, s', n)
             else if bool_decide (c = "$"%char) then Some (Eol, s', n)
             else if bool_decide (c = "."%char) then Some (Chr any, s', n)
             else if bool_decide (c = "\"%char) then
               match s' with d :: s2 => Some (Chr [(d, d)], s2, n) | [] => None end
             else Some (Chr [(c, c)], s', n));
          '(q, s2) ← postfix atom s1;
          '(r, s3, n3) ← parse_re fuel s2 n1;
          Some (Cat q r, s3, n3)
      end
  end.

Definition regcomp (s : list ascii) : option re :=
  match parse_re (S (length s)) s 1 with Some (r, [], _) => Some r | _ => None end.

(** ** Matching *)

(** Captures: group number to the offsets of its first character and of the
    character after its last. *)
Abbreviation caps := (gmap nat (nat * nat)).

Definition star_match (f : cls) (k : list ascii -> nat -> caps -> option caps)
    : list ascii -> nat -> caps -> option caps :=
  fix go s i c :=
    match s with
    | a :: s' =>
        if in_cls f a
        then match go s' (S i) c with Some x => Some x | None => k s i c end
        else k s i c
    | [] => k s i c
    end.

(** Match at offset [i], where the text left is [s]; [k] matches what follows. *)
Fixpoint rmt (r : re) (k : list ascii -> nat -> caps -> option caps)
    (s : list ascii) (i : nat) (c : caps) : option caps :=
  match r with
  | Eps => k s i c
  | Chr f => match s with a :: s' => if in_cls f a then k s' (S i) c else None | [] => None end
  | Star f => star_match f k s i c
  | Plus f =>
      match s with a :: s' => if in_cls f a then star_match f k s' (S i) c else None | [] => None end
  | Cat r1 r2 => rmt r1 (rmt r2 k) s i c
  | Opt r => match rmt r k s i c with Some x => Some x | None => k s i c end
  | Grp n r => rmt r (fun s' j c' => k s' j (<[n := (i, j)]> c')) s i c
  | Bol => if decide (i = 0) then k s i c else None
  | Eol => match s with [] => k s i c | _ => None end
  end.

(** Try the match at each offset from [i]. *)
Fixpoint regexec_from (r : re) (s : list ascii) (i : nat) : option caps :=
  match rmt r (fun _ j c => Some (<[0 := (i, j)]> c)) s i ∅ with
  | Some c => Some c
  | None => match s with [] => None | _ :: s' => regexec_from r s' (S i) end
  end.

(** [regexec(&re, s, n, res, 0)]: [None] is [REG_NOMATCH]. *)
Definition regexec (r : re) (s : list ascii) : option caps := regexec_from r s 0.

(** [res\[n\].rm_so] and [res\[n\].rm_eo], -1 for a group that took no part. *)
Definition rm_so (c : caps) (n : nat) : Z :=
  match c !! n with Some (a, _) => Z.of_nat a | None => (-1)%Z end.
Definition rm_eo (c : caps) (n : nat) : Z :=
  match c !! n with Some (_, b) => Z.of_nat b | None => (-1)%Z end.

(** ** Declarative semantics *)

(** [rmatch r i w t c c']: at offset [i] the expression matches [w] when [t]
    follows, and turns the captures [c] into [c']. *)
Inductive rmatch : re -> nat -> list ascii -> list ascii -> caps -> caps -> Prop :=
| m_eps i t c : rmatch Eps i [] t c c
| m_chr f i a t c : in_cls f a = true -> rmatch (Chr f) i [a] t c c
| m_star f i w t c : Forall (fun a => in_cls f a = true) w -> rmatch (Star f) i w t c c
| m_plus f i w t c :
    w <> [] -> Forall (fun a => in_cls f a = true) w -> rmatch (Plus f) i w t c c
| m_cat r1 r2 i w1 w2 t c c1 c2 :
    rmatch r1 i w1 (w2 ++ t) c c1 -> rmatch r2 (i + length w1) w2 t c1 c2 ->
    rmatch (Cat r1 r2) i (w1 ++ w2) t c c2
| m_opt_some r i w t c c' : rmatch r i w t c c' -> rmatch (Opt r) i w t c c'
| m_opt_none r i t c : rmatch (Opt r) i [] t c c
| m_grp n r i w t c c' :
    rmatch r i w t c c' -> rmatch (Grp n r) i w t c (<[n := (i, i + length w)]> c')
| m_bol t c : rmatch Bol 0 [] t c c
| m_eol i c : rmatch Eol i [] [] c c.

Create HintDb regex discriminated.
#[export] Hint Constructors rmatch : regex.

Lemma star_match_sound f k s i c x :
  star_match f k s i c = Some x ->
  exists w t, s = w ++ t /\ Forall (fun a => in_cls f a = true) w /\ k t (i + length w) c = Some x.
Proof.
  revert i. induction s as [|a s IH]; intros i; simpl.
  { intros Hk. exists [], []. by rewrite Nat.add_0_r. }
  destruct (in_cls f a) eqn:Ha.
  - destruct (star_match f k s (S i) c) eqn:E.
    + intros [= <-]. apply IH in E as (w&t&->&Hw&Hk). exists (a :: w), t.
      split_and!; [done|by constructor|]. simpl. by rewrite <-Nat.add_succ_comm.
    + intros Hk. exists [], (a :: s). by rewrite Nat.add_0_r.
  - intros Hk. exists [], (a :: s). by rewrite Nat.add_0_r.
Qed.

Lemma star_match_complete f k w t i c :
  Forall (fun a => in_cls f a = true) w -> is_Some (k t (i + length w) c) ->
  is_Some (star_match f k (w ++ t) i c).
Proof.
  intros Hw. revert i. induction Hw as [|a w Ha Hw IH]; intros i Hk; simpl.
  - rewrite Nat.add_0_r in Hk. destruct t as [|b t]; [done|]. simpl.
    destruct (in_cls f b); [|done]. by destruct (star_match f k t (S i) c).
  - rewrite Ha. destruct (IH (S i)) as [x ->]; [|by eexists].
    simpl in Hk. by rewrite Nat.add_succ_comm.
Qed.

Lemma rmt_sound r : forall k s i c x,
  rmt r k s i c = Some x ->
  exists w t c', s = w ++ t /\ rmatch r i w t c c' /\ k t (i + length w) c' = Some x.
Proof.
  induction r as [|f|f|f|r1 IH1 r2 IH2|r IH|n r IH| |]; intros k s i c x; simpl.
  - intros Hk. exists [], s, c. rewrite Nat.add_0_r. auto with regex.
  - destruct s as [|a s]; [done|]. destruct (in_cls f a) eqn:Ha; [|done].
    intros Hk. exists [a], s, c. rewrite Nat.add_1_r. auto with regex.
  - intros (w&t&->&Hw&Hk)%star_match_sound. exists w, t, c. auto with regex.
  - destruct s as [|a s]; [done|]. destruct (in_cls f a) eqn:Ha; [|done].
    intros (w&t&->&Hw&Hk)%star_match_sound. exists (a :: w), t, c.
    split_and!; [done| |]; [constructor; [done|by constructor]|]. simpl. by rewrite <-Nat.add_succ_comm.
  - intros (w1&t1&c1&->&H1&H)%IH1. apply IH2 in H as (w2&t2&c2&->&H2&Hk).
    exists (w1 ++ w2), t2, c2. rewrite app_assoc, length_app, Nat.add_assoc.
    split_and!; [done|by econstructor|done].
  - destruct (rmt r k s i c) eqn:E.
    + intros [= <-]. apply IH in E as (w&t&c'&->&Hm&Hk). exists w, t, c'. auto with regex.
    + intros Hk. exists [], s, c. rewrite Nat.add_0_r. auto with regex.
  - intros (w&t&c'&->&Hm&Hk)%IH. exists w, t, (<[n := (i, i + length w)]> c'). auto with regex.
  - case_decide as Hi; [|done]. intros Hk. subst. exists [], s, c. auto with regex.
  - destruct s; [|done]. intros Hk. exists [], [], c. rewrite Nat.add_0_r. auto with regex.
Qed.

Lemma rmt_complete r i w t c c' :
  rmatch r i w t c c' -> forall k, is_Some (k t (i + length w) c') -> is_Some (rmt r k (w ++ t) i c).
Proof.
  induction 1 as [| | | |r1 r2 i w1 w2 t c c1 c2 _ IH1 _ IH2| | | | |]; intros k Hk; simpl in *.
  - by rewrite Nat.add_0_r in Hk.
  - rewrite H. by rewrite Nat.add_1_r in Hk.
  - by apply star_match_complete.
  - destruct w as [|a w]; [done|]. simpl. apply Forall_cons in H0 as [-> H0].
    apply star_match_complete; [done|]. simpl in Hk. by rewrite Nat.add_succ_comm.
  - rewrite <-app_assoc. apply IH1, IH2. by rewrite length_app, Nat.add_assoc in Hk.
  - destruct (IHrmatch _ Hk) as [x ->]. by eexists.
  - rewrite Nat.add_0_r in Hk. by destruct (rmt r k t i c).
  - by apply IHrmatch.
  - done.
  - by rewrite Nat.add_0_r in Hk.
Qed.

(** A repetition takes the longest run its continuation accepts. *)
Lemma star_match_greedy f k s i c x :
  k (drop_while (in_cls f) s) (i + length (take_while (in_cls f) s)) c = Some x ->
  star_match f k s i c = Some x.
Proof.
  revert i. induction s as [|a s IH]; intros i; simpl.
  - by rewrite Nat.add_0_r.
  - destruct (in_cls f a); simpl; [|by rewrite Nat.add_0_r].
    intros Hk. rewrite IH; [done|]. by rewrite Nat.add_succ_comm.
Qed.

(** ** The search for a match *)

Lemma regexec_from_Some r s : forall i c,
  regexec_from r s i = Some c ->
  exists pre w t c', s = pre ++ w ++ t /\
    rmatch r (i + length pre) w t ∅ c' /\
    c = <[0 := (i + length pre, i + length pre + length w)]> c' /\
    forall pre' w' t' c'', s = pre' ++ w' ++ t' ->
      rmatch r (i + length pre') w' t' ∅ c'' -> length pre <= length pre'.
Proof.
  induction s as [|a s IH]; intros i c; simpl; destruct (rmt _ _ _ _ _) eqn:E.
  - intros [= <-]. apply rmt_sound in E as (w&t&c'&Es&Hm&[= <-]).
    exists [], w, t, c'. rewrite Nat.add_0_r. split_and!; [done..|]. simpl. lia.
  - done.
  - intros [= <-]. apply rmt_sound in E as (w&t&c'&Es&Hm&[= <-]).
    exists [], w, t, c'. rewrite Nat.add_0_r. split_and!; [done..|]. simpl. lia.
  - intros (pre&w&t&c'&->&Hm&->&Hmin)%IH. exists (a :: pre), w, t, c'. simpl.
    rewrite <-Nat.add_succ_comm. split_and!; [done..|].
    intros [|b pre'] w' t' c'' Es Hm'.
    + exfalso. apply eq_None_not_Some in E. apply E. rewrite Es. simpl in *.
      rewrite Nat.add_0_r in Hm'. eapply rmt_complete; [exact Hm'|]. by eexists.
    + simplify_eq/=. apply le_n_S. eapply Hmin; [done|]. simpl. by rewrite plus_n_Sm.
Qed.

Lemma regexec_from_is_Some r : forall pre i w t c',
  rmatch r (i + length pre) w t ∅ c' -> is_Some (regexec_from r (pre ++ w ++ t) i).
Proof.
  induction pre as [|a pre IH]; intros i w t c' Hm; simpl.
  - rewrite Nat.add_0_r in Hm.
    destruct (rmt_complete _ _ _ _ _ _ Hm (fun _ j c => Some (<[0 := (i, j)]> c))) as [x Hx];
      [by eexists|].
    destruct (w ++ t); simpl; rewrite Hx; by eexists.
  - destruct (rmt _ _ _ _ _); [by eexists|]. apply (IH (S i) w t c').
    simpl. by rewrite plus_n_Sm.
Qed.

(** [regexec] finds a match when there is one, and then the leftmost. *)
Lemma regexec_Some r s c :
  regexec r s = Some c ->
  exists pre w t c', s = pre ++ w ++ t /\ rmatch r (length pre) w t ∅ c' /\
    c = <[0 := (length pre, length pre + length w)]> c' /\
    forall pre' w' t' c'', s = pre' ++ w' ++ t' ->
      rmatch r (length pre') w' t' ∅ c'' -> length pre <= length pre'.
Proof. intros H. by apply (regexec_from_Some r s 0). Qed.

Lemma regexec_is_Some r pre w t c' :
  rmatch r (length pre) w t ∅ c' -> is_Some (regexec r (pre ++ w ++ t)).
Proof. intros H. by apply (regexec_from_is_Some r pre 0 w t c'). Qed.

(** Patterns anchored with [^]. *)
Lemma rmatch_cat_inv r1 r2 i w t c c' :
  rmatch (Cat r1 r2) i w t c c' ->
  exists w1 w2 c1, w = w1 ++ w2 /\ rmatch r1 i w1 (w2 ++ t) c c1 /\
    rmatch r2 (i + length w1) w2 t c1 c'.
Proof. inv 1. eauto 10. Qed.

Lemma regexec_bol_Some r s c :
  regexec (Cat Bol r) s = Some c ->
  exists w t c', s = w ++ t /\ rmatch r 0 w t ∅ c' /\ c = <[0 := (0, length w)]> c'.
Proof.
  intros (pre&w&t&c'&->&Hm&->&_)%regexec_Some.
  apply rmatch_cat_inv in Hm as (w1&w2&c1&->&H1&H2). inv H1.
  destruct pre; [|done]. simpl in *. eauto 10.
Qed.

Lemma regexec_bol_is_Some r w t c' :
  rmatch r 0 w t ∅ c' -> is_Some (regexec (Cat Bol r) (w ++ t)).
Proof.
  intros Hm. apply (regexec_is_Some (Cat Bol r) [] w t c').
  apply (m_cat Bol r 0 [] w t ∅ ∅ c'); [constructor|done].
Qed.

(** Inversion of a match along the structure of a known expression. *)
Ltac rm_inv :=
  repeat match goal with
  | H : rmatch (Cat _ _) _ _ _ _ _ |- _ =>
      apply rmatch_cat_inv in H as (?&?&?&?&?&?); subst
  | H : rmatch (Grp _ _) _ _ _ _ _ |- _ => inv H
  | H : rmatch (Chr _) _ _ _ _ _ |- _ => inv H
  | H : rmatch (Plus _) _ _ _ _ _ |- _ => inv H
  | H : rmatch (Star _) _ _ _ _ _ |- _ => inv H
  | H : rmatch Eps _ _ _ _ _ |- _ => inv H
  | H : rmatch Eol _ _ _ _ _ |- _ => inv H
  | H : rmatch Bol _ _ _ _ _ |- _ => inv H
  end.

(** A one-character class. *)
Lemma in_cls_single a b : in_cls [(a, a)] b = true <-> b = a.
Proof.
  unfold in_cls. simpl. rewrite orb_false_r. unfold in_range.
  rewrite andb_true_iff, !Z.leb_le. split.
  - intros [H1 H2]. assert (uchar a = uchar b) as E by lia. unfold uchar in E.
    apply N2Z.inj in E. rewrite <-(ascii_N_embedding a), <-(ascii_N_embedding b). by rewrite E.
  - intros ->. lia.
Qed.

Lemma in_cls_any a : in_cls any a = true <-> a <> NUL.
Proof. by destruct a as [[] [] [] [] [] [] [] []]. Qed.

Abbreviation all_in f := (Forall (fun a => in_cls f a = true)).

Lemma all_in_any s : NUL ∉ s -> all_in any s.
Proof.
  intros Hs. apply Forall_forall. intros a Ha. apply in_cls_any. by intros ->.
Qed.

Lemma take_while_ext f g s : (forall c, f c = g c) -> take_while f s = take_while g s.
Proof. intros H. induction s as [|c s IH]; simpl; [done|]. by rewrite H, IH. Qed.

Lemma take_drop_while f s : take_while f s ++ drop_while f s = s.
Proof. induction s as [|c s IH]; simpl; [done|]. destruct (f c); simpl; by rewrite ?IH. Qed.

Lemma take_while_Forall f s : Forall (fun c => f c = true) (take_while f s).
Proof. induction s as [|c s IH]; simpl; [done|]. destruct (f c) eqn:E; auto. Qed.

Lemma drop_while_app f s t :
  Forall (fun c => f c = true) s -> drop_while f (s ++ t) = drop_while f t.
Proof. induction 1 as [|c s Hc _ IH]; [done|]. simpl. by rewrite Hc. Qed.
