(* ===== verification/NetData.v ===== *)
(** HTTP messages: src/core/net_data.c and net_data.h.

    A [net_data] is a buffer holding the start line and the header lines as
    [NUL]-separated strings, and a hash table from header names to the offsets
    of their values in the buffer.  A result [None] is undefined behaviour. *)

From S2P Require Import Prelude CLib Strbuf Uthash Regex.

#[local] Open Scope Z_scope.

Definition HTTP_DEFAULT_PORT : Z := 80.
Definition HTTP_HEADER_KEY_MAXLEN : nat := 32.

(** ** Data *)

(** [struct net_header_ent]; its hash handle is kept by the table. *)
Record net_header_ent := HeaderEnt { ent_key : cells; val_offset : Z }.

(** [ents] holds the entries by address; [ent_next] is the next address
    [mem_alloc] gives. *)
Record net_data := NetData {
  buf : strbuf;
  table : ut_head;
  ents : gmap positive net_header_ent;
  ent_next : positive
}.

Definition set_buf (d : net_data) (b : strbuf) : net_data :=
  {| buf := b; table := table d; ents := ents d; ent_next := ent_next d |}.

Definition net_data_init : option net_data :=
  b ← strbuf_init; Some {| buf := b; table := None; ents := ∅; ent_next := 1 |}.

(** ** The header table *)

Definition HASH_FIND_STR (d : net_data) (key : list ascii) : option UT_hash_handle :=
  HASH_FIND HASH_JEN (table d) key.

(** The offset of the value in [buf.p], [Some None] for a [NULL] result. *)
Definition net_data_get_ent (d : net_data) (key : list ascii) : option (option Z) :=
  match HASH_FIND_STR d key with
  | None => Some None
  | Some h => e ← ents d !! hh_id h; Some (Some (val_offset e))
  end.

Definition net_data_get_ent_offset (d : net_data) (key : list ascii) : option Z :=
  match HASH_FIND_STR d key with
  | None => Some (-1)
  | Some h => e ← ents d !! hh_id h; Some (val_offset e)
  end.

Definition net_data_del_ent (d : net_data) (key : list ascii) : net_data :=
  match HASH_FIND_STR d key with
  | None => d
  | Some h => {| buf := buf d; table := HASH_DEL (table d) h;
                 ents := delete (hh_id h) (ents d); ent_next := ent_next d |}
  end.

(** [mem_alloc] of an entry, [strncpy] of its key and [HASH_ADD_STR], which
    takes [strlen] of the 32-byte key array. *)
Definition add_ent (d : net_data) (key : list ascii) (offset : Z) : option net_data :=
  let k := strncpy key HTTP_HEADER_KEY_MAXLEN in
  key ← cstr k;
  let id := ent_next d in
  Some {| buf := buf d; table := HASH_ADD HASH_JEN (table d) id key;
          ents := <[id := HeaderEnt k offset]> (ents d); ent_next := id + 1 |}.

Definition net_data_set_ent_offset (d : net_data) (key : list ascii) (offset : Z)
    : option net_data := add_ent d key offset.

(** [while ( *val) strbuf_append(&data->buf, *val);]: [Some None] when [fuel]
    iterations did not end the loop. *)
Fixpoint set_ent_loop (fuel : nat) (b : strbuf) (val : list ascii) : option (option strbuf) :=
  match val with
  | [] => Some (Some b)
  | c :: _ =>
      match fuel with
      | O => Some None
      | S fuel => b ← strbuf_append b c; set_ent_loop fuel b val
      end
  end.

Definition net_data_set_ent (fuel : nat) (d : net_data) (key val : list ascii)
    : option (option net_data) :=
  d ← add_ent d key (len (buf d));
  r ← set_ent_loop fuel (buf d) val;
  match r with
  | None => Some None
  | Some b => b ← strbuf_append b NUL; Some (Some (set_buf d b))
  end.

(** ** The patterns *)

Definition header_patt : string := "([a-zA-Z\-]+): *(.*)$".
Definition req_patt : string := "^([a-zA-Z]+) (.+) HTTP/([0-9]+)\.([0-9]+)$".
Definition uri_patt : string := "^([a-z]+)://([a-zA-Z0-9:\.\-]+)(/.*)?$".
Definition rsp_patt : string := "^HTTP/([0-9]+)\.([0-9]+) ([0-9]+) (.+)$".
Definition host_patt : string := "^([a-zA-Z0-9\.\-]+)(:[0-9]+)?".

(** The compiled patterns. *)
Definition header_re : re := Eval vm_compute in default Eps (regcomp (lit header_patt)).
Definition req_re : re := Eval vm_compute in default Eps (regcomp (lit req_patt)).
Definition uri_re : re := Eval vm_compute in default Eps (regcomp (lit uri_patt)).
Definition rsp_re : re := Eval vm_compute in default Eps (regcomp (lit rsp_patt)).
Definition host_re : re := Eval vm_compute in default Eps (regcomp (lit host_patt)).

(** The calls of [regcomp]; their results are logged and not looked at. *)
Definition net_data_module_init : list (option re) :=
  (fun patt => regcomp (lit patt)) <$> [header_patt; req_patt; uri_patt; rsp_patt; host_patt].

Lemma net_data_module_init_ok : net_data_module_init = Some <$> [header_re; req_re; uri_re; rsp_re; host_re].
Proof. by vm_compute. Qed.

(** ** Parsing *)

(** [buf->p\[i\] = '\0']. *)
Definition nul_at (b : strbuf) (i : Z) : option strbuf := set_p b <$> store (p b) i NUL.

Definition net_parse_header (d : net_data) (offset : Z) : option (Z * net_data) :=
  line ← cstr_at (p (buf d)) offset;
  match regexec header_re line with
  | None => Some (-1, d)
  | Some res =>
      b ← nul_at (buf d) (offset + rm_eo res 1);
      b ← nul_at b (offset + rm_eo res 2);
      key ← cstr_at (p b) (offset + rm_so res 1);
      d ← net_data_set_ent_offset (set_buf d b) key (offset + rm_so res 2);
      Some (0, d)
  end.

(** [struct net_req]. *)
Record net_req := Req {
  data : net_data;
  port : Z; ver_major : Z; ver_minor : Z;
  host : Z; protocol : Z; path : Z
}.

Definition set_data (r : net_req) (d : net_data) : net_req :=
  Req d (port r) (ver_major r) (ver_minor r) (host r) (protocol r) (path r).
Definition set_req_buf (r : net_req) (b : strbuf) : net_req := set_data r (set_buf (data r) b).
Definition set_host (r : net_req) (h : Z) : net_req :=
  Req (data r) (port r) (ver_major r) (ver_minor r) h (protocol r) (path r).
Definition set_port (r : net_req) (x : Z) : net_req :=
  Req (data r) x (ver_major r) (ver_minor r) (host r) (protocol r) (path r).
Definition set_protocol (r : net_req) (x : Z) : net_req :=
  Req (data r) (port r) (ver_major r) (ver_minor r) (host r) x (path r).
Definition set_path (r : net_req) (x : Z) : net_req :=
  Req (data r) (port r) (ver_major r) (ver_minor r) (host r) (protocol r) x.

(** [for (i = i0; i < i0 + n; ++i) strbuf_append(buf, buf->p\[offset + i\])]. *)
Fixpoint copy_host (n : nat) (b : strbuf) (i : Z) : option strbuf :=
  match n with
  | O => Some b
  | S n => c ← load (p b) i; b ← strbuf_append b c; copy_host n b (i + 1)
  end.

(** The code after the label [parse_host]. *)
Definition parse_host (req : net_req) : option (Z * net_req) :=
  let offset := host req in
  let b := buf (data req) in
  h ← cstr_at (p b) offset;
  match regexec host_re h with
  | None => Some (-1, req)
  | Some res =>
      req ← (if rm_eo res 1 + offset =? path req then
               let h := len b in
               b ← copy_host (Z.to_nat (rm_eo res 1 - rm_so res 1)) b (offset + rm_so res 1);
               b ← strbuf_append b NUL;
               Some (set_host (set_req_buf req b) h)
             else Some req);
      if rm_so res 2 =? -1 then
        Some (0, set_port req (if protocol req =? -1 then HTTP_DEFAULT_PORT else HTTP_DEFAULT_PORT))
      else
        b ← nul_at (buf (data req)) (offset + rm_so res 2);
        digits ← cstr_at (p b) (offset + rm_so res 2 + 1);
        Some (0, set_port (set_req_buf req b) (atoi digits))
  end.

(** The start line is cut into its parts, and its version and URI recorded. *)
Definition split_startline (req : net_req) (res : caps) : option net_req :=
  b ← nul_at (buf (data req)) (rm_eo res 1);
  b ← nul_at b (rm_eo res 2);
  b ← nul_at b (rm_eo res 3);
  b ← nul_at b (rm_eo res 4);
  major ← cstr_at (p b) (rm_so res 3);
  minor ← cstr_at (p b) (rm_so res 4);
  Some (Req (set_buf (data req) b) (port req) (atoi major) (atoi minor)
            (host req) (protocol req) (rm_so res 2)).

(** From the test for [CONNECT] on: absolute or relative URI. *)
Definition parse_target (req : net_req) : option (Z * net_req) :=
  let b := buf (data req) in
  method ← cstr_at (p b) 0;
  if decide (method = lit "CONNECT") then parse_host (set_host req (path req))
  else
    let offset := path req in
    uri ← cstr_at (p b) offset;
    match regexec uri_re uri with
    | None =>
        h ← net_data_get_ent_offset (data req) (lit "Host");
        let req := set_host req h in
        if h =? -1 then Some (-1, req) else parse_host (set_protocol req (-1))
    | Some res =>
        let req := set_protocol req (offset + rm_so res 1) in
        b ← nul_at b (offset + rm_eo res 1);
        let req := set_host (set_req_buf req b) (offset + rm_so res 2) in
        if rm_so res 3 =? -1 then
          let path := len b in
          b ← strbuf_cat b (lit "/");
          parse_host (set_path (set_req_buf req b) path)
        else parse_host (set_path req (offset + rm_so res 3))
    end.

Definition net_parse_req (req : net_req) : option (Z * net_req) :=
  line ← cstr_at (p (buf (data req))) 0;
  match regexec req_re line with
  | None => Some (-1, req)
  | Some res => req ← split_startline req res; parse_target req
  end.

(** [struct net_rsp]. *)
Record net_rsp := Rsp {
  rsp_data : net_data; code : Z; rsp_ver_major : Z; rsp_ver_minor : Z; http_msg : Z
}.

Definition net_parse_rsp (rsp : net_rsp) : option (Z * net_rsp) :=
  let b := buf (rsp_data rsp) in
  line ← cstr_at (p b) 0;
  match regexec rsp_re line with
  | None => Some (-1, rsp)
  | Some res =>
      b ← nul_at b (rm_eo res 1);
      b ← nul_at b (rm_eo res 2);
      b ← nul_at b (rm_eo res 3);
      major ← cstr_at (p b) (rm_so res 1);
      minor ← cstr_at (p b) (rm_so res 2);
      code ← cstr_at (p b) (rm_so res 3);
      Some (0, Rsp (set_buf (rsp_data rsp) b) (atoi code) (atoi major) (atoi minor) (rm_so res 4))
  end.

(** ** Writing headers back *)

Fixpoint append_headers (d : net_data) (hs : list UT_hash_handle) (b : strbuf) : option strbuf :=
  match hs with
  | [] => strbuf_cat b CRLF
  | h :: hs =>
      e ← ents d !! hh_id h;
      key ← cstr (ent_key e);
      b ← strbuf_cat b key;
      b ← strbuf_cat b (lit ": ");
      val ← cstr_at (p (buf d)) (val_offset e);
      b ← strbuf_cat b val;
      b ← strbuf_cat b CRLF;
      append_headers d hs b
  end.

Definition net_append_headers (d : net_data) (b : strbuf) : option strbuf :=
  append_headers d (HASH_ITER (table d)) b.

(** The buffer [net_forward_req_header] hands to [conn_write]. *)
Definition req_header (req : net_req) : option strbuf :=
  let origin := p (buf (data req)) in
  b ← strbuf_init;
  method ← cstr_at origin 0; b ← strbuf_cat b method;
  b ← strbuf_append b SP;
  uri ← cstr_at origin (path req); b ← strbuf_cat b uri;
  b ← strbuf_append b SP;
  b ← strbuf_cat b (lit "HTTP/");
  b ← strbuf_append_num b (ver_major req);
  b ← strbuf_append b "."%char;
  b ← strbuf_append_num b (ver_minor req);
  b ← strbuf_cat b CRLF;
  net_append_headers (data req) b.

(** The buffer [net_forward_rsp_header] hands to [conn_write]. *)
Definition rsp_header (rsp : net_rsp) : option strbuf :=
  let origin := p (buf (rsp_data rsp)) in
  b ← strbuf_init;
  b ← strbuf_cat b (lit "HTTP/");
  b ← strbuf_append_num b (rsp_ver_major rsp);
  b ← strbuf_append b "."%char;
  b ← strbuf_append_num b (rsp_ver_minor rsp);
  b ← strbuf_append b SP;
  b ← strbuf_append_num b (code rsp);
  b ← strbuf_append b SP;
  msg ← cstr_at origin (http_msg rsp); b ← strbuf_cat b msg;
  b ← strbuf_cat b CRLF;
  net_append_headers (rsp_data rsp) b.
