(* ===== verification/HttpGrammar.v ===== *)
(** The texts the five patterns of src/core/net_data.c accept, as grammars, and
    the captures [regexec] gives on them.

    Each grammar fixes the decomposition of the text, so what [regexec]
    captures is the decomposition. *)

From S2P Require Import Prelude CLib Strbuf Uthash Regex NetData.

#[local] Open Scope Z_scope.

(** ** Character classes of the patterns *)

Abbreviation lower := [("a"%char, "z"%char)].
Abbreviation alpha := [("a"%char, "z"%char); ("A"%char, "Z"%char)].
Abbreviation digit := [("0"%char, "9"%char)].
(** [\[a-zA-Z\-\]]: the backslash is in the class. *)
Abbreviation header_name :=
  [("a"%char, "z"%char); ("A"%char, "Z"%char); ("\"%char, "\"%char); ("-"%char, "-"%char)].
Abbreviation host_name :=
  [("a"%char, "z"%char); ("A"%char, "Z"%char); ("0"%char, "9"%char); ("\"%char, "\"%char);
   ("."%char, "."%char); ("\"%char, "\"%char); ("-"%char, "-"%char)].
Abbreviation authority :=
  [("a"%char, "z"%char); ("A"%char, "Z"%char); ("0"%char, "9"%char); (":"%char, ":"%char);
   ("\"%char, "\"%char); ("."%char, "."%char); ("\"%char, "\"%char); ("-"%char, "-"%char)].

(** ** Grammars *)

(** [METHOD URI HTTP/MAJOR.MINOR]. *)
Record request_line (line method uri major minor : list ascii) : Prop := RequestLine {
  rl_eq : line = method ++ SP :: uri ++ SP :: lit "HTTP/" ++ major ++ "."%char :: minor;
  rl_method : method <> [] /\ all_in alpha method;
  rl_uri : uri <> [] /\ NUL ∉ uri;
  rl_major : major <> [] /\ all_in digit major;
  rl_minor : minor <> [] /\ all_in digit minor
}.

(** [SCHEME://AUTHORITY PATH], the path empty or starting with a slash. *)
Record absolute_uri (uri scheme auth path : list ascii) : Prop := AbsoluteUri {
  au_eq : uri = scheme ++ lit "://" ++ auth ++ path;
  au_scheme : scheme <> [] /\ all_in lower scheme;
  au_auth : auth <> [] /\ all_in authority auth;
  au_path : path = [] \/ exists q, path = "/"%char :: q /\ NUL ∉ q
}.

(** [HTTP/MAJOR.MINOR CODE MESSAGE]. *)
Record status_line (line major minor code msg : list ascii) : Prop := StatusLine {
  sl_eq : line = lit "HTTP/" ++ major ++ "."%char :: minor ++ SP :: code ++ SP :: msg;
  sl_major : major <> [] /\ all_in digit major;
  sl_minor : minor <> [] /\ all_in digit minor;
  sl_code : code <> [] /\ all_in digit code;
  sl_msg : msg <> [] /\ NUL ∉ msg
}.

(** [NAME:VALUE], the value after any spaces; [NAME] starts the line. *)
Record header_line (line name sp val : list ascii) : Prop := HeaderLine {
  hl_eq : line = name ++ ":"%char :: sp ++ val;
  hl_name : name <> [] /\ all_in header_name name;
  hl_sp : all_in [(SP, SP)] sp;
  hl_val : (NUL ∉ val) /\ forall v, val <> SP :: v
}.

(** The text does not go on with characters of [f]. *)
Definition stops (f : cls) (s : list ascii) : Prop :=
  match s with [] => True | c :: _ => in_cls f c = false end.

(** A host name, then [:] and the digits of a port or nothing, then [rest]. *)
Record host_port (text name portpart rest : list ascii) : Prop := HostPort {
  hp_eq : text = name ++ portpart ++ rest;
  hp_name : name <> [] /\ all_in host_name name;
  hp_port : (portpart = [] /\ stops host_name rest /\
             forall r, rest = ":"%char :: r -> stops digit r) \/
            (exists ds, portpart = ":"%char :: ds /\ ds <> [] /\ all_in digit ds /\
             stops digit rest)
}.

Lemma not_in_all_in f s x : all_in f s -> in_cls f x = false -> x ∉ s.
Proof. intros Hs Hx Hin. rewrite Forall_forall in Hs. by rewrite Hs in Hx. Qed.

Lemma all_in_no_NUL f s : all_in f s -> in_cls f NUL = false -> NUL ∉ s.
Proof. apply not_in_all_in. Qed.

Lemma all_in_any_NUL s : all_in any s -> NUL ∉ s.
Proof. intros H. by eapply not_in_all_in. Qed.

(** Discharge [x ∉ s] for texts built from literals and class members. *)
Ltac notin :=
  rewrite ?not_elem_of_app, ?not_elem_of_cons, ?not_elem_of_app, ?not_elem_of_cons,
    ?not_elem_of_app, ?not_elem_of_cons;
  repeat match goal with
  | |- _ /\ _ => split
  | |- _ <> _ => discriminate
  | |- _ ∉ [] => apply not_elem_of_nil
  | |- _ ∉ lit _ => by rewrite list_elem_of_In; compute; intuition discriminate
  | H : all_in ?f ?s |- _ ∉ ?s => by apply (not_in_all_in f)
  end; auto.

(** Substitute the literal characters of a match. *)
Ltac lit_inv :=
  repeat match goal with
  | H : in_cls [(?a, ?a)] ?b = true |- _ => apply in_cls_single in H; subst b
  end.

Lemma request_line_inj line m u a b m' u' a' b' :
  request_line line m u a b -> request_line line m' u' a' b' ->
  m = m' /\ u = u' /\ a = a' /\ b = b'.
Proof.
  intros [-> [_ Hm] _ [_ Ha] [_ Hb]] [E [_ Hm'] _ [_ Ha'] [_ Hb']].
  apply first_sep_inj in E as [-> E]; [|by notin..].
  apply last_sep_inj in E as [-> E]; [|by notin..].
  apply app_inv_head in E. apply first_sep_inj in E as [-> ->]; [done|by notin..].
Qed.

Lemma status_line_inj line a b c t a' b' c' t' :
  status_line line a b c t -> status_line line a' b' c' t' ->
  a = a' /\ b = b' /\ c = c' /\ t = t'.
Proof.
  intros [-> [_ Ha] [_ Hb] [_ Hc] _] [E [_ Ha'] [_ Hb'] [_ Hc'] _].
  apply app_inv_head in E.
  apply first_sep_inj in E as [-> E]; [|by notin..].
  apply first_sep_inj in E as [-> E]; [|by notin..].
  apply first_sep_inj in E as [-> ->]; [done|by notin..].
Qed.

Lemma absolute_uri_inj uri s a q s' a' q' :
  absolute_uri uri s a q -> absolute_uri uri s' a' q' -> s = s' /\ a = a' /\ q = q'.
Proof.
  intros [-> [_ Hs] [_ Ha] Hq] [E [_ Hs'] [_ Ha'] Hq']. cbn in E.
  apply first_sep_inj in E as [-> E]; [|by notin..]. simplify_eq.
  split; [done|].
  destruct Hq as [->|(x&->&Hx)], Hq' as [->|(x'&->&Hx')]; rewrite ?app_nil_r in E.
  - done.
  - exfalso. subst. apply Forall_app in Ha as [_ Ha]. by inv Ha.
  - exfalso. subst. apply Forall_app in Ha' as [_ Ha']. by inv Ha'.
  - apply first_sep_inj in E as [-> ->]; [done|by notin..].
Qed.

(** ** What [regexec] returns *)

(** Group [n] was captured from offset [a] to [e]. *)
Definition cap_is (res : caps) (n : nat) (a e : Z) : Prop := rm_so res n = a /\ rm_eo res n = e.

Lemma cap_is_insert_eq res n a e z1 z2 :
  Z.of_nat a = z1 -> Z.of_nat e = z2 -> cap_is (<[n := (a, e)]> res) n z1 z2.
Proof. intros <- <-. unfold cap_is, rm_so, rm_eo. by rewrite lookup_insert_eq. Qed.
Lemma cap_is_insert_ne res n m ae z1 z2 :
  n <> m -> cap_is res m z1 z2 -> cap_is (<[n := ae]> res) m z1 z2.
Proof. intros Hn. unfold cap_is, rm_so, rm_eo. by rewrite lookup_insert_ne. Qed.
Lemma cap_is_empty n : cap_is ∅ n (-1) (-1).
Proof. done. Qed.

(** Compute a capture out of the chain of insertions of a match. *)
Ltac cap_solve :=
  repeat (apply cap_is_insert_ne; [discriminate|]);
  first [apply cap_is_empty | apply cap_is_insert_eq; autorewrite with len; cbn [length]; lia].

(** Bring an appended text to a right-nested normal form and compare. *)
Ltac app_norm := repeat (rewrite <-!app_assoc || rewrite !app_nil_r || cbn [app]).
Ltac app_eq := app_norm; reflexivity.

Definition req_caps (res : caps) (m u a b : list ascii) : Prop :=
  let i := Z.of_nat (length m) in
  let j := i + 1 + Z.of_nat (length u) in
  let k := j + 6 + Z.of_nat (length a) in
  cap_is res 1 0 i /\ cap_is res 2 (i + 1) j /\ cap_is res 3 (j + 6) k /\
  cap_is res 4 (k + 1) (k + 1 + Z.of_nat (length b)).

Lemma regexec_req_inv line res :
  regexec req_re line = Some res ->
  exists m u a b, request_line line m u a b /\ req_caps res m u a b.
Proof.
  intros (w&t&c&->&Hm&->)%regexec_bol_Some. rm_inv. lit_inv.
  repeat match goal with H : [] = _ ++ _ |- _ => symmetry in H; apply app_nil in H as [? ?]; subst end.
  app_norm. eexists _, _, _, _. split.
  - constructor; [reflexivity|..]; split; eauto using all_in_any_NUL.
  - unfold req_caps. split_and!; cap_solve.
Qed.

(** Build a match along the structure of a known expression. *)
Ltac rm_step :=
  repeat (first [ apply m_grp | eapply m_cat | apply m_eps | apply m_eol
                | apply m_chr; reflexivity
                | apply m_plus; [tauto|tauto] | apply m_star; tauto ]).
Ltac rm_build :=
  first [eapply regexec_bol_is_Some | eapply (regexec_is_Some _ [])]; rm_step.

Lemma regexec_req line m u a b :
  request_line line m u a b ->
  exists res, regexec req_re line = Some res /\ req_caps res m u a b.
Proof.
  intros Hl. assert (is_Some (regexec req_re line)) as [res Hres].
  { destruct Hl as [-> Hm [Hu Hu'%all_in_any] Ha Hb].
    replace (m ++ _) with
      (((m ++ []) ++ [SP] ++ (u ++ []) ++ [SP] ++ ["H"%char] ++ ["T"%char] ++ ["T"%char] ++
        ["P"%char] ++ ["/"%char] ++ (a ++ []) ++ ["."%char] ++ (b ++ []) ++ [] ++ []) ++ [])
      by app_eq.
    rm_build. }
  exists res. split; [done|].
  apply regexec_req_inv in Hres as (m'&u'&a'&b'&Hl'&Hc).
  by destruct (request_line_inj _ _ _ _ _ _ _ _ _ Hl Hl') as (->&->&->&->).
Qed.

Definition rsp_caps (res : caps) (a b c t : list ascii) : Prop :=
  let i := 5 + Z.of_nat (length a) in
  let j := i + 1 + Z.of_nat (length b) in
  let k := j + 1 + Z.of_nat (length c) in
  cap_is res 1 5 i /\ cap_is res 2 (i + 1) j /\ cap_is res 3 (j + 1) k /\
  cap_is res 4 (k + 1) (k + 1 + Z.of_nat (length t)).

Lemma regexec_rsp_inv line res :
  regexec rsp_re line = Some res ->
  exists a b c t, status_line line a b c t /\ rsp_caps res a b c t.
Proof.
  intros (w&t&c&->&Hm&->)%regexec_bol_Some. rm_inv. lit_inv.
  repeat match goal with H : [] = _ ++ _ |- _ => symmetry in H; apply app_nil in H as [? ?]; subst end.
  app_norm. eexists _, _, _, _. split.
  - constructor; [reflexivity|..]; split; eauto using all_in_any_NUL.
  - unfold rsp_caps. split_and!; cap_solve.
Qed.

Lemma regexec_rsp line a b c t :
  status_line line a b c t ->
  exists res, regexec rsp_re line = Some res /\ rsp_caps res a b c t.
Proof.
  intros Hl. assert (is_Some (regexec rsp_re line)) as [res Hres].
  { destruct Hl as [-> Ha Hb Hc [Ht Ht'%all_in_any]].
    replace (lit "HTTP/" ++ _) with
      ((["H"%char] ++ ["T"%char] ++ ["T"%char] ++ ["P"%char] ++ ["/"%char] ++ (a ++ []) ++
        ["."%char] ++ (b ++ []) ++ [SP] ++ (c ++ []) ++ [SP] ++ (t ++ []) ++ [] ++ []) ++ [])
      by app_eq.
    rm_build. }
  exists res. split; [done|].
  apply regexec_rsp_inv in Hres as (a'&b'&c'&t'&Hl'&Hc).
  by destruct (status_line_inj _ _ _ _ _ _ _ _ _ Hl Hl') as (->&->&->&->).
Qed.

Definition uri_caps (res : caps) (s a q : list ascii) : Prop :=
  let i := Z.of_nat (length s) in
  let j := i + 3 + Z.of_nat (length a) in
  cap_is res 1 0 i /\ cap_is res 2 (i + 3) j /\
  match q with
  | [] => cap_is res 3 (-1) (-1)
  | _ => cap_is res 3 j (j + Z.of_nat (length q))
  end.

Lemma regexec_uri_inv uri res :
  regexec uri_re uri = Some res ->
  exists s a q, absolute_uri uri s a q /\ uri_caps res s a q.
Proof.
  intros (w&t&c&->&Hm&->)%regexec_bol_Some. rm_inv.
  match goal with H : rmatch (Opt _) _ _ _ _ _ |- _ => inv H end; rm_inv; lit_inv;
    repeat match goal with H : [] = _ ++ _ |- _ => symmetry in H; apply app_nil in H as [? ?]; subst end;
    app_norm.
  - eexists _, _, (_ :: _). split.
    + constructor; [reflexivity|split; assumption|split; assumption|right; eauto using all_in_any_NUL].
    + unfold uri_caps. split_and!; cap_solve.
  - eexists _, _, []. split.
    + constructor; [by rewrite app_nil_r|split; assumption|split; assumption|by left].
    + unfold uri_caps. split_and!; cap_solve.
Qed.

Lemma regexec_uri uri s a q :
  absolute_uri uri s a q ->
  exists res, regexec uri_re uri = Some res /\ uri_caps res s a q.
Proof.
  intros Hl. assert (is_Some (regexec uri_re uri)) as [res Hres].
  { destruct Hl as [-> Hs Ha [->|(x&->&Hx%all_in_any)]].
    - replace (s ++ _) with (((s ++ []) ++ [":"%char] ++ ["/"%char] ++ ["/"%char] ++ (a ++ []) ++
        [] ++ [] ++ []) ++ []) by app_eq.
      rm_build. apply m_opt_none.
    - replace (s ++ _) with (((s ++ []) ++ [":"%char] ++ ["/"%char] ++ ["/"%char] ++ (a ++ []) ++
        (["/"%char] ++ (x ++ [])) ++ [] ++ []) ++ []) by app_eq.
      rm_build. apply m_opt_some. rm_step. }
  exists res. split; [done|].
  apply regexec_uri_inv in Hres as (s'&a'&q'&Hl'&Hc).
  by destruct (absolute_uri_inj _ _ _ _ _ _ _ Hl Hl') as (->&->&->).
Qed.

(** A text that is not an absolute URI is not matched. *)
Lemma regexec_uri_None uri :
  (forall s a q, ~ absolute_uri uri s a q) -> regexec uri_re uri = None.
Proof.
  intros Hn. destruct (regexec uri_re uri) eqn:E; [|done].
  apply regexec_uri_inv in E as (s&a&q&H&_). by destruct (Hn s a q).
Qed.

(** A run of a class up to where the text stops it. *)
Lemma take_while_run f s t :
  all_in f s -> stops f t -> take_while (in_cls f) (s ++ t) = s.
Proof.
  intros Hs Ht. rewrite take_while_app by done.
  destruct t as [|c t]; simpl in *; [by rewrite app_nil_r|by rewrite Ht, app_nil_r].
Qed.

Lemma drop_while_run f s t :
  all_in f s -> stops f t -> drop_while (in_cls f) (s ++ t) = t.
Proof.
  intros Hs Ht. rewrite drop_while_app by done. by apply drop_while_id.
Qed.

Lemma drop_while_stops f s : stops f (drop_while (in_cls f) s).
Proof. induction s as [|c s IH]; simpl; [done|]. by destruct (in_cls f c) eqn:E. Qed.

Lemma take_while_not_nil f s : ~ stops f s -> take_while (in_cls f) s <> [].
Proof. destruct s as [|c s]; simpl; [tauto|]. by destruct (in_cls f c). Qed.

Lemma star_match_run f k s t i c x :
  all_in f s -> stops f t -> k t (i + length s)%nat c = Some x ->
  star_match f k (s ++ t) i c = Some x.
Proof.
  intros Hs Ht Hk. apply star_match_greedy. by rewrite take_while_run, drop_while_run.
Qed.

Lemma plus_match_run f k s t i c x :
  s <> [] -> all_in f s -> stops f t -> k t (i + length s)%nat c = Some x ->
  rmt (Plus f) k (s ++ t) i c = Some x.
Proof.
  intros Hne Hs Ht Hk. destruct s as [|a s]; [done|]. apply Forall_cons in Hs as [Ha Hs].
  simpl. rewrite Ha. apply star_match_run; [done|done|]. simpl in Hk. by rewrite plus_Sn_m, plus_n_Sm.
Qed.

Lemma regexec_first r s x :
  rmt r (fun _ j c => Some (<[0%nat := (0%nat, j)]> c)) s 0%nat ∅ = Some x ->
  regexec r s = Some x.
Proof. unfold regexec. intros H. destruct s; simpl; by rewrite H. Qed.

Definition host_caps (res : caps) (name portpart : list ascii) : Prop :=
  let i := Z.of_nat (length name) in
  cap_is res 1 0 i /\
  match portpart with
  | [] => cap_is res 2 (-1) (-1)
  | _ => cap_is res 2 i (i + Z.of_nat (length portpart))
  end.

Lemma regexec_host text name portpart rest :
  host_port text name portpart rest ->
  exists res, regexec host_re text = Some res /\ host_caps res name portpart.
Proof.
  intros [-> [Hn Hname] Hport].
  assert (stops host_name (portpart ++ rest)) as Hstop
    by (by destruct Hport as [(->&?&_)|(ds&->&_)]).
  destruct Hport as [(->&Hs&Hc)|(ds&->&Hds&Hd&Hs)].
  - eexists. split.
    + apply regexec_first. cbn [rmt host_re]. apply plus_match_run; [done|done|done|].
      cbn [rmt]. destruct rest as [|c rest]; [done|]. simpl app.
      destruct (in_cls [(":"%char, ":"%char)] c) eqn:E; rewrite E; [|done].
      apply in_cls_single in E as ->. specialize (Hc rest eq_refl).
      destruct rest as [|d rest]; [done|]. cbn [stops] in Hc. by rewrite Hc.
    + unfold host_caps. split; cap_solve.
  - destruct ds as [|d ds]; [done|]. apply Forall_cons in Hd as [Hd Hds'].
    eexists. split.
    + apply regexec_first. cbn [rmt host_re]. apply plus_match_run; [done|done|done|].
      cbn [rmt app]. replace (in_cls [(":"%char, ":"%char)] ":") with true by done.
      cbn [app]. rewrite Hd. erewrite star_match_run; [reflexivity|done|done|reflexivity].
    + unfold host_caps. split; cap_solve.
Qed.

(** Only a text that starts with a host character is matched. *)
Lemma regexec_host_None text : stops host_name text -> regexec host_re text = None.
Proof.
  intros Hs. destruct (regexec host_re text) as [res|] eqn:E; [|done].
  apply regexec_bol_Some in E as (w&t&c&->&Hm&->). rm_inv.
  match goal with H : _ <> [] |- _ => rename H into Hne end.
  match goal with H : all_in host_name ?x |- _ => destruct x as [|a x]; [done|]; inv H end.
  cbn [app stops] in Hs. congruence.
Qed.

(** Every text that starts with a host character is a host, a port part and a rest. *)
Lemma host_port_total text :
  ~ stops host_name text -> exists name portpart rest, host_port text name portpart rest.
Proof.
  intros Hs. set (name := take_while (in_cls host_name) text).
  set (t := drop_while (in_cls host_name) text).
  assert (text = name ++ t) as Et by (symmetry; apply take_drop_while).
  assert (name <> []) as Hne by by apply take_while_not_nil.
  assert (all_in host_name name) as Hn by apply take_while_Forall.
  assert (stops host_name t) as Ht by apply drop_while_stops.
  assert ((exists ds r, t = ":"%char :: ds ++ r /\ ds <> [] /\ all_in digit ds /\ stops digit r) \/
          forall r, t = ":"%char :: r -> stops digit r) as [(ds&r&E&Hd)|Hno].
  { destruct t as [|c t']; [by right|]. destruct (decide (c = ":"%char)) as [->|Hc].
    - destruct t' as [|d t'].
      { right. by intros r [= <-]. }
      destruct (in_cls digit d) eqn:E.
      + left. exists (take_while (in_cls digit) (d :: t')), (drop_while (in_cls digit) (d :: t')).
        rewrite take_drop_while. split_and!; [done| |apply take_while_Forall|apply drop_while_stops].
        apply take_while_not_nil. cbn [stops]. congruence.
      + right. by intros r [= <-].
    - right. by intros r [= ? ?]. }
  - exists name, (":"%char :: ds), r. rewrite E in Et. split; [done|done|].
    right. exists ds. tauto.
  - exists name, [], t. split; [done|done|]. left. tauto.
Qed.

Definition header_caps (res : caps) (name sp val : list ascii) : Prop :=
  let i := Z.of_nat (length name) in
  let j := i + 1 + Z.of_nat (length sp) in
  cap_is res 1 0 i /\ cap_is res 2 j (j + Z.of_nat (length val)).

Lemma regexec_header line name sp val :
  header_line line name sp val ->
  exists res, regexec header_re line = Some res /\ header_caps res name sp val.
Proof.
  intros [-> [Hn Hname] Hsp [Hv Hv']].
  eexists. split.
  - apply regexec_first. cbn [rmt header_re]. apply plus_match_run; [done|done|done|].
    cbn [rmt app]. replace (in_cls [(":"%char, ":"%char)] ":") with true by done.
    apply star_match_run; [done| |].
    { destruct val as [|c val]; [done|]. unfold stops.
      destruct (in_cls _ c) eqn:E; [|done]. apply in_cls_single in E as ->. by destruct (Hv' val). }
    rewrite <-(app_nil_r val) at 1. apply star_match_run; [by apply all_in_any|done|]. done.
  - unfold header_caps. split; cap_solve.
Qed.

(** The header pattern is not anchored: what it matches may stand behind other
    text in the line. *)
Record loose_header (line pre name sp val : list ascii) : Prop := LooseHeader {
  lh_eq : line = pre ++ name ++ ":"%char :: sp ++ val;
  lh_name : name <> [] /\ all_in header_name name;
  lh_sp : all_in [(SP, SP)] sp;
  lh_val : NUL ∉ val
}.

Definition loose_caps (res : caps) (pre name sp val : list ascii) : Prop :=
  let h := Z.of_nat (length pre) in
  let i := h + Z.of_nat (length name) in
  let j := i + 1 + Z.of_nat (length sp) in
  cap_is res 1 h i /\ cap_is res 2 j (j + Z.of_nat (length val)).

Lemma regexec_header_inv line res :
  regexec header_re line = Some res ->
  exists pre name sp val, loose_header line pre name sp val /\ loose_caps res pre name sp val.
Proof.
  intros (pre&w&t&c&->&Hm&->&_)%regexec_Some. unfold header_re in Hm. rm_inv. lit_inv.
  repeat match goal with H : [] = _ ++ _ |- _ => symmetry in H; apply app_nil in H as [? ?]; subst end.
  app_norm. eexists pre, _, _, _. split.
  - constructor; [reflexivity|split; assumption|assumption|eauto using all_in_any_NUL].
  - unfold loose_caps. split; cap_solve.
Qed.
