(* ===== verification/NetDataFacts.v ===== *)
(** Correctness of the message parsers of src/core/net_data.c: the strings the
    recorded offsets point at are the parts of the message, and every access
    stays inside the buffer. *)

From S2P Require Import Prelude CLib Strbuf Uthash Regex NetData HttpGrammar.

#[local] Open Scope Z_scope.

(** Contents stay below this bound, so neither an offset nor the capacity of a
    growing buffer overflows [int]. *)
Definition small (bs : list ascii) : Prop := Z.of_nat (length bs) <= 268435456.

(** ** Stores into the contents *)

Lemma nul_at_rep b bs (j : nat) :
  strbuf_rep b bs -> (j < length bs)%nat ->
  exists b', nul_at b (Z.of_nat j) = Some b' /\ strbuf_rep b' (<[j := NUL]> bs) /\
    (strbuf_term b -> strbuf_term b').
Proof.
  intros Hr Hj. destruct (strbuf_store_rep b bs j NUL Hr Hj) as (a&Ha&Hr'&Ht').
  exists (set_p b a). unfold nul_at. by rewrite Ha.
Qed.

(** At the boundary between two parts. *)
Lemma nul_at_mid b l x r i :
  strbuf_rep b (l ++ x :: r) -> i = Z.of_nat (length l) ->
  exists b', nul_at b i = Some b' /\ strbuf_rep b' (l ++ NUL :: r) /\
    (strbuf_term b -> strbuf_term b').
Proof.
  intros Hr ->. destruct (nul_at_rep b _ (length l) Hr) as (b'&?&Hr'&?); [rewrite length_app; simpl; lia|].
  exists b'. rewrite insert_app_r_alt, Nat.sub_diag in Hr' by lia. done.
Qed.

Lemma cap_so res n a e : cap_is res n a e -> rm_so res n = a.
Proof. by intros []. Qed.
Lemma cap_eo res n a e : cap_is res n a e -> rm_eo res n = e.
Proof. by intros []. Qed.

(** Replace the captures in the goal by their offsets. *)
Ltac use_caps :=
  repeat match goal with
  | H : cap_is ?res ?n _ _ |- context [rm_so ?res ?n] => rewrite (cap_so _ _ _ _ H)
  | H : cap_is ?res ?n _ _ |- context [rm_eo ?res ?n] => rewrite (cap_eo _ _ _ _ H)
  end.

(** ** The host part *)

Lemma copy_host_rep n : forall b bs (i : nat),
  strbuf_rep b bs -> (i + n <= length bs)%nat ->
  Z.of_nat (length bs) + Z.of_nat n < 1073741823 ->
  exists b', copy_host n b (Z.of_nat i) = Some b' /\ strbuf_rep b' (bs ++ take n (drop i bs)).
Proof.
  induction n as [|n IH]; intros b bs i Hr Hi Hb; cbn [copy_host].
  - exists b. by rewrite take_0, app_nil_r.
  - destruct (lookup_lt_is_Some_2 bs i) as [c Hc]; [lia|].
    rewrite (strbuf_load_rep _ _ _ _ Hr Hc). cbn [mbind option_bind].
    destruct (strbuf_append_rep b bs c Hr) as (b1&->&Hr1&_).
    { rewrite (strbuf_rep_len _ _ Hr). lia. }
    cbn [mbind option_bind]. replace (Z.of_nat i + 1) with (Z.of_nat (S i)) by lia.
    destruct (IH b1 (bs ++ [c]) (S i) Hr1) as (b'&->&Hr'); [len_lia|len_lia|].
    exists b'. split; [done|]. rewrite drop_app_le in Hr' by lia.
    rewrite (drop_S _ _ _ Hc). cbn [take].
    rewrite take_app_le in Hr' by len_lia. by rewrite <-app_assoc in Hr'.
Qed.

(** The port [parse_host] stores for the port part of the authority. *)
Definition port_of (portpart : list ascii) : Z :=
  match portpart with [] => HTTP_DEFAULT_PORT | _ :: ds => atoi ds end.

Lemma host_port_no_NUL text name portpart rest :
  host_port text name portpart rest -> (NUL ∉ name) /\ NUL ∉ portpart.
Proof.
  intros [_ [_ Hn] Hp]. split; [by apply (not_in_all_in host_name)|].
  destruct Hp as [[-> _]|(ds&->&_&Hd&_)]; [apply not_elem_of_nil|].
  apply not_elem_of_cons. split; [done|by apply (not_in_all_in digit)].
Qed.

Lemma in_cls_digit c : in_cls digit c = isdigit c.
Proof. unfold in_cls. cbn [existsb fst snd]. by rewrite orb_false_r. Qed.

Lemma all_in_digit ds : all_in digit ds -> Forall (fun c => isdigit c = true) ds.
Proof. intros H. eapply Forall_impl; [exact H|]. intros c. cbv beta. by rewrite in_cls_digit. Qed.

Lemma atoi_digits_stop ds rest :
  ds <> [] -> all_in digit ds -> stops digit rest -> atoi (ds ++ rest) = atoi ds.
Proof.
  intros Hne Hd%all_in_digit Hs. unfold atoi. f_equal.
  rewrite strtol10_digits; [|done| |done].
  2: { destruct rest; [done|]. cbn [stops] in Hs. by rewrite <-in_cls_digit. }
  by rewrite <-(app_nil_r ds) at 2; rewrite strtol10_digits.
Qed.

(** What [parse_host] does to a request whose [host] points at [name ++
    portpart ++ rest]: the new contents of the buffer and the new host offset.
    The host is copied behind the contents when the path follows it directly. *)
Definition host_result (bs : list ascii) (h pth : Z) (name portpart : list ascii)
    : list ascii * Z :=
  let e := h + Z.of_nat (length name) in
  let '(bs, h) := if e =? pth then (bs ++ name ++ [NUL], Z.of_nat (length bs)) else (bs, h) in
  (if decide (portpart = []) then bs else <[Z.to_nat e := NUL]> bs, h).

(** The first characters of a string in the contents. *)
Lemma str_in_take bs i s (k : nat) :
  str_in bs i s -> (k <= length s)%nat -> take k (drop (Z.to_nat i) bs) = take k s.
Proof.
  intros (Hi&_&r&E)%cstr_at_Some Hk. unfold of_chars in E.
  rewrite <-fmap_drop in E. apply (f_equal (take k)) in E.
  rewrite <-fmap_take, take_app_le in E by len_lia. rewrite <-fmap_take in E.
  by apply (inj (fmap Some)) in E.
Qed.

Lemma parse_host_copy req bs text name :
  let b := buf (data req) in
  strbuf_rep b bs -> strbuf_term b -> Z.of_nat (length bs) <= 268435457 -> str_in bs (host req) text ->
  (length name <= length text)%nat -> take (length name) text = name ->
  exists b', strbuf_rep b' (bs ++ name ++ [NUL]) /\ strbuf_term b' /\
    (b' ← copy_host (length name) b (host req); strbuf_append b' NUL) = Some b'.
Proof.
  intros b Hr Ht Hsm Htext Hle Hname.
  pose proof (str_in_bound _ _ _ Htext) as [Hh1 Hh2].
  destruct (copy_host_rep (length name) b bs (Z.to_nat (host req)) Hr) as (b1&Hb1&Hr1); [lia|lia|].
  rewrite Z2Nat.id in Hb1 by done. rewrite (str_in_take _ _ text) in Hr1 by done.
  rewrite Hname in Hr1.
  destruct (strbuf_append_rep b1 _ NUL Hr1) as (b2&Hb2&Hr2&Ht2&_).
  { rewrite (strbuf_rep_len _ _ Hr1). len_lia. }
  exists b2. rewrite <-app_assoc in Hr2. split_and!; [done|done|]. by rewrite Hb1.
Qed.

Lemma set_host_same req : set_host (set_req_buf req (buf (data req))) (host req) = req.
Proof. by destruct req as [[]]. Qed.

Lemma parse_host_spec req bs text name portpart rest :
  strbuf_rep (buf (data req)) bs -> strbuf_term (buf (data req)) -> Z.of_nat (length bs) <= 268435457 ->
  str_in bs (host req) text -> host_port text name portpart rest ->
  let r := host_result bs (host req) (path req) name portpart in
  exists b, strbuf_rep b r.1 /\ strbuf_term b /\
    parse_host req = Some (0, set_port (set_host (set_req_buf req b) r.2) (port_of portpart)).
Proof.
  intros Hr Ht Hsm Htext Hhp. pose proof Hhp as [Et [Hne Hname] Hport].
  destruct (regexec_host _ _ _ _ Hhp) as (res&Hres&Hc1&Hc2).
  pose proof (str_in_bound _ _ _ Htext) as [Hh1 Hh2].
  assert (length text = length name + length portpart + length rest)%nat as Hlen by (subst text; len_lia).
  unfold parse_host. rewrite (str_in_rep _ _ _ _ Hr Htext). cbn [mbind option_bind].
  rewrite Hres. use_caps.
  set (e := host req + Z.of_nat (length name)).
  rewrite (Z.add_comm _ (host req)), Z.add_0_r, Z.sub_0_r, Nat2Z.id. fold e.
  set (bs1 := if e =? path req then bs ++ name ++ [NUL] else bs).
  set (h1 := if e =? path req then Z.of_nat (length bs) else host req).
  assert (exists b, (if e =? path req then
      b ← copy_host (length name) (buf (data req)) (host req);
      b ← strbuf_append b NUL; Some (set_host (set_req_buf req b) (len (buf (data req))))
    else Some req) = Some (set_host (set_req_buf req b) h1) /\
    strbuf_rep b bs1 /\ strbuf_term b) as (b1&->&Hr1&Ht1).
  { unfold bs1, h1. destruct (Z.eqb_spec e (path req)) as [He|He].
    - destruct (parse_host_copy req bs text name) as (b2&Hr2&Ht2&Hb2); [done..|lia| |].
      { by rewrite Et, take_app_length. }
      apply bind_Some in Hb2 as (b1&->&Hb2). cbn [mbind option_bind]. rewrite Hb2.
      exists b2. by rewrite (strbuf_rep_len _ _ Hr).
    - exists (buf (data req)). by rewrite set_host_same. }
  cbn [mbind option_bind].
  assert (str_in bs1 (host req) text) as Htext1.
  { unfold bs1. destruct (_ =? _); [by apply str_in_app|done]. }
  assert (length bs <= length bs1)%nat by (unfold bs1; destruct (_ =? _); len_lia).
  assert (host_result bs (host req) (path req) name portpart =
    (if decide (portpart = []) then bs1 else <[Z.to_nat e := NUL]> bs1, h1)) as ->.
  { unfold host_result. fold e. subst bs1 h1. by destruct (e =? path req). }
  destruct portpart as [|c ds]; use_caps.
  - exists b1. split_and!; [done|done|]. rewrite Z.eqb_refl. by destruct (protocol _ =? -1).
  - if_false. fold e.
    destruct Hport as [[? _]|(ds'&[= -> ->]&Hds&Hd&Hs)]; [done|].
    cbn [length] in Hlen.
    destruct (nul_at_rep b1 bs1 (Z.to_nat e) Hr1) as (b2&Hb2&Hr2&Ht2); [lia|].
    rewrite Z2Nat.id in Hb2 by lia.
    change (buf (data (set_host (set_req_buf req b1) h1))) with b1. rewrite Hb2.
    cbn [mbind option_bind].
    assert (str_in (<[Z.to_nat e := NUL]> bs1) (e + 1) (ds' ++ rest)) as Hdig.
    { apply str_in_store_ne; [|lia|lia].
      replace (e + 1) with (host req + Z.of_nat (S (length name))) by lia.
      replace (ds' ++ rest) with (drop (S (length name)) text); [apply str_in_drop; [done|lia]|].
      rewrite Et. cbn [app]. rewrite cons_middle, app_assoc.
      apply drop_app_length'. len_lia. }
    rewrite (str_in_rep _ _ _ _ Hr2 Hdig). cbn [mbind option_bind].
    exists b2. split_and!; [done|auto|]. by rewrite atoi_digits_stop.
Qed.

(** Strings away from the character before the port survive. *)
Lemma host_result_frame bs h pth name portpart i s :
  let e := h + Z.of_nat (length name) in
  str_in bs i s -> 0 <= e < Z.of_nat (length bs) ->
  portpart = [] \/ i + Z.of_nat (length s) < e \/ e < i ->
  str_in (host_result bs h pth name portpart).1 i s.
Proof.
  intros e Hs He Hd. unfold host_result. fold e.
  assert (forall bs', (length bs <= length bs')%nat -> str_in bs' i s ->
    str_in (if decide (portpart = []) then bs' else <[Z.to_nat e := NUL]> bs') i s) as H.
  { intros bs' Hle Hs'. case_decide; [done|]. destruct Hd as [->|Hd]; [done|].
    apply str_in_store_ne; [done|lia|lia]. }
  destruct (_ =? _); apply H; [len_lia|by apply str_in_app|done|done].
Qed.

(** The host string of the result. *)
Lemma host_result_host bs h pth text name portpart rest :
  str_in bs h text -> host_port text name portpart rest ->
  (portpart = [] -> rest <> [] -> h + Z.of_nat (length name) = pth) ->
  let r := host_result bs h pth name portpart in str_in r.1 r.2 name.
Proof.
  intros Hs Hhp Hrest. pose proof (host_port_no_NUL _ _ _ _ Hhp) as [Hn _].
  pose proof Hhp as [-> _ _]. pose proof (str_in_bound _ _ _ Hs) as [Hh1 Hh2].
  autorewrite with len in Hh2. unfold host_result.
  destruct (Z.eqb_spec (h + Z.of_nat (length name)) pth) as [He|He]; cbn [fst snd].
  - assert (str_in (bs ++ name ++ [NUL]) (Z.of_nat (length bs)) name) by by apply str_in_here.
    case_decide; [done|]. apply str_in_store_ne; [done|len_lia|lia].
  - case_decide as Hp.
    + destruct rest as [|c rest]; [|by destruct He; apply Hrest].
      subst. by rewrite !app_nil_r in Hs.
    + apply (str_in_store_nul _ (Z.to_nat (h + Z.of_nat (length name)))) in Hs;
        [|lia|autorewrite with len; lia].
      replace (Z.to_nat (Z.of_nat _ - h)) with (length name) in Hs by lia.
      by rewrite take_app_length in Hs.
Qed.

(** ** The start line *)

(** The contents after the start line was cut. *)
Definition cut_line (m u a b tl : list ascii) : list ascii :=
  m ++ NUL :: u ++ NUL :: lit "HTTP/" ++ a ++ NUL :: b ++ NUL :: tl.

Lemma all_in_stop_NUL f s : all_in f s -> in_cls f NUL = false -> NUL ∉ s.
Proof. apply all_in_no_NUL. Qed.

Lemma cut_line_strs m u a b tl line :
  request_line line m u a b ->
  let bs := cut_line m u a b tl in
  let i := Z.of_nat (length m) in
  str_in bs 0 m /\ str_in bs (i + 1) u /\
  str_in bs (i + 1 + Z.of_nat (length u) + 6) a /\
  str_in bs (i + 1 + Z.of_nat (length u) + 6 + Z.of_nat (length a) + 1) b.
Proof.
  intros [_ [_ Hm] [_ Hu] [_ Ha] [_ Hb]] bs i. unfold bs, cut_line. split_and!.
  - apply (str_in_here [] m); [done|by apply (all_in_no_NUL alpha)].
  - rewrite cons_middle, app_assoc. apply str_in_here; [len_lia|done].
  - replace (m ++ _) with
      ((m ++ [NUL] ++ u ++ [NUL] ++ lit "HTTP/") ++ a ++ NUL :: b ++ NUL :: tl) by app_eq.
    apply str_in_here; [|by apply (all_in_no_NUL digit)].
    autorewrite with len. change (length (lit "HTTP/")) with 5%nat. lia.
  - replace (m ++ _) with
      ((m ++ [NUL] ++ u ++ [NUL] ++ lit "HTTP/" ++ a ++ [NUL]) ++ b ++ NUL :: tl) by app_eq.
    apply str_in_here; [|by apply (all_in_no_NUL digit)].
    autorewrite with len. change (length (lit "HTTP/")) with 5%nat. lia.
Qed.

(** One [nul_at] of the goal at the boundary the contents in [Hr] show. *)
Ltac nul_step Hr b Ht :=
  match goal with
  | |- context [nul_at ?buf ?i] =>
      let Hr' := fresh in let E := fresh in
      edestruct (nul_at_mid buf _ _ _ i Hr) as (b&E&Hr'&Ht);
        [autorewrite with len; cbn [length lit String.list_ascii_of_string]; lia|];
      rewrite E; clear Hr E; rename Hr' into Hr; cbn [mbind option_bind]
  end.

Lemma split_startline_spec req line m u a b tl res :
  strbuf_rep (buf (data req)) (line ++ NUL :: tl) -> strbuf_term (buf (data req)) ->
  request_line line m u a b -> req_caps res m u a b ->
  exists buf', strbuf_rep buf' (cut_line m u a b tl) /\ strbuf_term buf' /\
    split_startline req res =
      Some (Req (set_buf (data req) buf') (port req) (atoi a) (atoi b)
              (host req) (protocol req) (Z.of_nat (length m) + 1)).
Proof.
  intros Hr Ht Hl (Hc1&Hc2&Hc3&Hc4).
  destruct (cut_line_strs m u a b tl _ Hl) as (_&_&Hsa&Hsb).
  destruct Hl as [-> _ _ _ _]. unfold split_startline. use_caps.
  rewrite <-app_assoc in Hr. cbn [app] in Hr.
  nul_step Hr b1 Ht1.
  replace (m ++ NUL :: _) with ((m ++ NUL :: u) ++ SP :: (lit "HTTP/" ++ a ++ "."%char :: b) ++ NUL :: tl)
    in Hr by app_eq.
  nul_step Hr b2 Ht2.
  replace ((m ++ NUL :: u) ++ _) with
    ((m ++ NUL :: u ++ NUL :: lit "HTTP/" ++ a) ++ "."%char :: b ++ NUL :: tl) in Hr by app_eq.
  nul_step Hr b3 Ht3.
  replace ((m ++ NUL :: _) ++ _) with
    ((m ++ NUL :: u ++ NUL :: lit "HTTP/" ++ a ++ NUL :: b) ++ NUL :: tl) in Hr by app_eq.
  nul_step Hr b4 Ht4.
  replace (_ ++ NUL :: tl) with (cut_line m u a b tl) in Hr by (unfold cut_line; app_eq).
  rewrite (str_in_rep _ _ _ _ Hr Hsa), (str_in_rep _ _ _ _ Hr Hsb). cbn [mbind option_bind].
  exists b4. auto 10.
Qed.

(** ** The target *)

(** Solve a [strbuf_rep] goal by one with equal contents. *)
Ltac contents_from H tac :=
  match type of H with
  | strbuf_rep _ ?l => match goal with |- strbuf_rep _ ?l' => replace l' with l by tac; exact H end
  end.

Lemma str_in_front s r : NUL ∉ s -> str_in (s ++ NUL :: r) 0 s.
Proof. intros H. by apply (str_in_here [] s r). Qed.


(** The contents after an absolute URI was cut; the default path stands behind
    the contents. *)
Definition cut_uri (m s auth q R : list ascii) : list ascii :=
  (m ++ NUL :: s ++ NUL :: lit "//" ++ auth ++ q ++ NUL :: R) ++
  match q with [] => lit "/" | _ => [] end.

Definition uri_path_offset (m s auth q R : list ascii) : Z :=
  let h := Z.of_nat (length m) + 1 + (Z.of_nat (length s) + 3) in
  match q with
  | [] => h + Z.of_nat (length auth) + 1 + Z.of_nat (length R)
  | _ => h + Z.of_nat (length auth)
  end.

Lemma parse_target_absolute req m uri s auth q R :
  strbuf_rep (buf (data req)) (m ++ NUL :: uri ++ NUL :: R) ->
  strbuf_term (buf (data req)) -> small (m ++ NUL :: uri ++ NUL :: R) ->
  NUL ∉ m -> m <> lit "CONNECT" -> NUL ∉ uri -> absolute_uri uri s auth q ->
  path req = Z.of_nat (length m) + 1 ->
  exists b, strbuf_rep b (cut_uri m s auth q R) /\ strbuf_term b /\
    parse_target req =
      parse_host (Req (set_buf (data req) b) (port req) (ver_major req) (ver_minor req)
        (path req + (Z.of_nat (length s) + 3)) (path req) (uri_path_offset m s auth q R)).
Proof.
  intros Hr Ht Hsm Hm Hc Hu Ha Hpath. unfold parse_target.
  rewrite (str_in_rep _ _ 0 m Hr) by (by apply str_in_front). cbn [mbind option_bind].
  rewrite decide_False by done.
  rewrite (str_in_rep _ _ (path req) uri Hr).
  2: { rewrite cons_middle, app_assoc. apply str_in_here; [len_lia|done]. }
  cbn [mbind option_bind].
  destruct (regexec_uri _ _ _ _ Ha) as (res&->&Hc1&Hc2&Hc3). use_caps. rewrite Hpath.
  pose proof Ha as [-> _ _ _].
  replace (m ++ _) with ((m ++ NUL :: s) ++ ":"%char :: lit "//" ++ auth ++ q ++ NUL :: R) in Hr by app_eq.
  nul_step Hr b1 Ht1.
  change (buf _) with b1.
  destruct q as [|c q]; use_caps.
  - rewrite Z.eqb_refl. unfold small in Hsm.
    pose proof (strbuf_rep_len _ _ Hr) as Hlen.
    destruct (strbuf_cat_rep (lit "/") b1 _ Hr) as (b2&Hb2&Hr2&Ht2&_).
    { rewrite Hlen. cbn [length lit String.list_ascii_of_string] in *.
      autorewrite with len in *. cbn [length lit String.list_ascii_of_string] in *. lia. }
    change (buf (data _)) with b1. rewrite Hb2. cbn [mbind option_bind].
    exists b2. split_and!.
    + contents_from Hr2 ltac:(unfold cut_uri; app_eq).
    + apply Ht2. by left.
    + unfold uri_path_offset. rewrite Hlen. unfold set_path, set_req_buf, set_data, set_host, set_protocol.
      cbn [data port ver_major ver_minor host protocol path set_buf]. do 2 f_equal; autorewrite with len; cbn [length lit String.list_ascii_of_string]; lia.
  - if_false. exists b1. split_and!.
    + contents_from Hr ltac:(unfold cut_uri; app_eq).
    + auto.
    + unfold uri_path_offset. unfold set_path, set_req_buf, set_data, set_host, set_protocol.
      cbn [data port ver_major ver_minor host protocol path set_buf]. do 2 f_equal; lia.
Qed.

Lemma str_in_tail l l' r i s :
  length l = length l' -> Z.of_nat (length l) <= i -> str_in (l ++ r) i s -> str_in (l' ++ r) i s.
Proof.
  intros El Hi. unfold str_in. rewrite !cstr_at_Some, !of_chars_app.
  intros (H0&Hn&t&E). split_and!; [done|done|]. exists t. rewrite <-E.
  rewrite !drop_app_ge by len_lia. f_equal. len_lia.
Qed.

(** The start line and what follows it. *)
Lemma cut_uri_text m uri s auth q R :
  absolute_uri uri s auth q -> NUL ∉ uri ->
  str_in (cut_uri m s auth q R) (Z.of_nat (length m) + 1 + (Z.of_nat (length s) + 3)) (auth ++ q).
Proof.
  intros [-> _ _ _] Hu. unfold cut_uri. apply str_in_app.
  replace (m ++ _) with ((m ++ [NUL] ++ s ++ [NUL] ++ lit "//") ++ (auth ++ q) ++ NUL :: R) by app_eq.
  apply str_in_here; [autorewrite with len; cbn [length lit String.list_ascii_of_string]; lia|].
  rewrite !not_elem_of_app in Hu. rewrite not_elem_of_app. tauto.
Qed.

Lemma absolute_uri_length uri s auth q :
  absolute_uri uri s auth q ->
  length uri = (length s + 3 + length auth + length q)%nat.
Proof. intros [-> _ _ _]. autorewrite with len. cbn [length lit String.list_ascii_of_string]. lia. Qed.

(** The tail of the contents is the same before and after the cut. *)
Lemma cut_uri_tail m uri s auth q R i x :
  absolute_uri uri s auth q -> str_in (m ++ NUL :: uri ++ NUL :: R) i x ->
  Z.of_nat (length m) + 1 + Z.of_nat (length uri) < i -> str_in (cut_uri m s auth q R) i x.
Proof.
  intros Hu%absolute_uri_length Hx Hi. unfold cut_uri. apply str_in_app.
  replace (m ++ NUL :: uri ++ NUL :: R) with ((m ++ [NUL] ++ uri ++ [NUL]) ++ R) in Hx by app_eq.
  replace (m ++ _) with ((m ++ [NUL] ++ s ++ [NUL] ++ lit "//" ++ auth ++ q ++ [NUL]) ++ R) by app_eq.
  eapply str_in_tail; [| |exact Hx];
    autorewrite with len; cbn [length lit String.list_ascii_of_string]; lia.
Qed.

(** Where the strings of the request are after a successful parse. *)
Lemma absolute_strings b m uri s name portpart q R :
  let auth := name ++ portpart in
  let bs := cut_uri m s auth q R in
  let h := Z.of_nat (length m) + 1 + (Z.of_nat (length s) + 3) in
  let pth := uri_path_offset m s auth q R in
  let r := host_result bs h pth name portpart in
  absolute_uri uri s auth q -> NUL ∉ uri -> NUL ∉ m -> host_port (auth ++ q) name portpart q ->
  strbuf_rep b r.1 -> strbuf_term b ->
  cstr_at (p b) 0 = Some m /\ cstr_at (p b) r.2 = Some name /\
  cstr_at (p b) pth = Some (match q with [] => lit "/" | _ => q end) /\
  forall i x, str_in (m ++ NUL :: uri ++ NUL :: R) i x ->
    Z.of_nat (length m) + 1 + Z.of_nat (length uri) < i -> cstr_at (p b) i = Some x.
Proof.
  intros auth bs h pth r Ha Hu Hm Hhp Hr Ht.
  pose proof (absolute_uri_length _ _ _ _ Ha) as Hlen.
  pose proof (cut_uri_text m _ _ _ _ R Ha Hu) as Htext. fold bs h in Htext.
  pose proof (str_in_bound _ _ _ Htext) as [_ Hb].
  unfold auth in Hlen, Hb. autorewrite with len in Hlen, Hb.
  pose proof (hp_name _ _ _ _ Hhp) as [Hne _].
  assert (forall i x, str_in bs i x ->
    portpart = [] \/ i + Z.of_nat (length x) < h + Z.of_nat (length name) \/ h + Z.of_nat (length name) < i ->
    cstr_at (p b) i = Some x) as Hframe.
  { intros i x Hx Hd. eapply str_in_rep; [exact Hr|]. apply host_result_frame; [done|lia|done]. }
  split_and!.
  - apply Hframe; [|right; left; lia]. unfold bs, cut_uri. apply str_in_app. by apply str_in_front.
  - eapply str_in_rep; [exact Hr|]. apply (host_result_host _ _ _ (auth ++ q) _ _ q); [done|done|].
    intros -> Hq. unfold pth, uri_path_offset, auth. destruct q; [done|]. rewrite app_nil_r. unfold h. lia.
  - unfold pth, uri_path_offset in *. destruct q as [|c q].
    + unfold r, host_result in *. rewrite (proj2 (Z.eqb_neq _ _)) in Hr.
      2: { unfold auth. autorewrite with len. lia. }
      cbn [fst] in Hr. unfold bs, cut_uri in Hr. cbn [app] in Hr.
      assert (exists l, length l = length (m ++ NUL :: s ++ NUL :: lit "//" ++ auth ++ NUL :: R) /\
        strbuf_rep b (l ++ lit "/")) as (l&Hl&Hr').
      { case_decide; [by eexists|].
        rewrite insert_app_l in Hr; [eexists; split; [|exact Hr]; by rewrite length_insert|].
        unfold h, auth. autorewrite with len. cbn [length lit String.list_ascii_of_string]. lia. }
      pose proof (strbuf_cstr_at _ _ _ Hr' Ht) as H.
      rewrite Hl in H. rewrite <-H by (by apply not_elem_of_cons; split; [|apply not_elem_of_nil]).
      f_equal. autorewrite with len. cbn [length lit String.list_ascii_of_string]. lia.
    + apply Hframe.
      * pose proof (str_in_drop _ _ _ (length auth) Htext) as H. rewrite drop_app_length in H.
        apply H. len_lia.
      * destruct portpart; [by left|]. right. right. fold h. unfold auth. autorewrite with len. simpl. lia.
  - intros i x Hx Hi. apply Hframe; [by eapply cut_uri_tail|]. right. right. unfold h. lia.
Qed.

(** The strings after a parse that takes the host from the target itself
    ([CONNECT], [h] is the target) or from a header behind the start line. *)
Lemma relative_strings b m u R h text name portpart rest :
  let pth := Z.of_nat (length m) + 1 in
  let bs := m ++ NUL :: u ++ NUL :: R in
  let r := host_result bs h pth name portpart in
  NUL ∉ m -> str_in bs h text -> host_port text name portpart rest ->
  (portpart = [] -> rest = []) -> pth <= h -> strbuf_rep b r.1 ->
  cstr_at (p b) 0 = Some m /\ cstr_at (p b) r.2 = Some name /\ r.2 = h /\
  (NUL ∉ u -> pth + Z.of_nat (length u) < h -> cstr_at (p b) pth = Some u) /\
  forall i x, str_in bs i x -> portpart = [] \/ h + Z.of_nat (length text) < i -> cstr_at (p b) i = Some x.
Proof.
  intros pth bs r Hm Htext Hhp Hrest Hh Hr.
  pose proof (str_in_bound _ _ _ Htext) as [_ Hb].
  pose proof Hhp as [Et [Hne _] _].
  assert (length text = length name + length portpart + length rest)%nat as Hlen
    by (subst text; len_lia).
  assert (length name <> 0)%nat by by destruct name.
  assert (r.2 = h) as Eh.
  { unfold r, host_result. rewrite (proj2 (Z.eqb_neq _ _)) by lia. done. }
  assert (forall i x, str_in bs i x ->
    portpart = [] \/ i + Z.of_nat (length x) < h + Z.of_nat (length name) \/ h + Z.of_nat (length name) < i ->
    cstr_at (p b) i = Some x) as Hframe.
  { intros i x Hx Hd. eapply str_in_rep; [exact Hr|]. apply host_result_frame; [done|lia|done]. }
  split_and!.
  - apply Hframe; [by apply str_in_front|]. right; left. lia.
  - eapply str_in_rep; [exact Hr|]. eapply host_result_host; [done|done|]. intros ? []. auto.
  - done.
  - intros Hu Hlt. apply Hframe; [|right; left; lia].
    unfold bs, pth. rewrite cons_middle, app_assoc. apply str_in_here; [len_lia|done].
  - intros i x Hx [->|Hi]; apply Hframe; auto; right; right; lia.
Qed.

(** ** The status line *)

Lemma net_parse_rsp_spec rsp line a b c t tl :
  strbuf_rep (buf (rsp_data rsp)) (line ++ NUL :: tl) -> strbuf_term (buf (rsp_data rsp)) ->
  status_line line a b c t ->
  exists buf', 
    strbuf_rep buf' (lit "HTTP/" ++ a ++ NUL :: b ++ NUL :: c ++ NUL :: t ++ NUL :: tl) /\
    strbuf_term buf' /\
    net_parse_rsp rsp =
      Some (0, Rsp (set_buf (rsp_data rsp) buf') (atoi c) (atoi a) (atoi b)
                   (Z.of_nat (length (lit "HTTP/" ++ a ++ NUL :: b ++ NUL :: c ++ [NUL])))).
Proof.
  intros Hr Ht Hl. destruct (regexec_rsp _ _ _ _ _ Hl) as (res&Hres&Hc1&Hc2&Hc3&Hc4).
  pose proof Hl as [El [_ Ha] [_ Hb] [_ Hc] [_ Htx]].
  unfold net_parse_rsp. rewrite (str_in_rep _ _ 0 line Hr).
  2: { apply str_in_front. subst line.
       rewrite !not_elem_of_app, !not_elem_of_cons, !not_elem_of_app, !not_elem_of_cons,
         !not_elem_of_app, !not_elem_of_cons.
       split_and!; try discriminate; try assumption;
         try (by apply (all_in_no_NUL digit)); try (by vm_compute). 
       by rewrite list_elem_of_In; compute; intuition discriminate. }
  cbn [mbind option_bind]. rewrite Hres. use_caps. subst line.
  replace ((lit "HTTP/" ++ _) ++ _) with
    ((lit "HTTP/" ++ a) ++ "."%char :: b ++ SP :: c ++ SP :: t ++ NUL :: tl) in Hr by app_eq.
  nul_step Hr b1 Ht1.
  replace ((lit "HTTP/" ++ a) ++ _) with
    ((lit "HTTP/" ++ a ++ NUL :: b) ++ SP :: c ++ SP :: t ++ NUL :: tl) in Hr by app_eq.
  nul_step Hr b2 Ht2.
  replace ((lit "HTTP/" ++ _) ++ _) with
    ((lit "HTTP/" ++ a ++ NUL :: b ++ NUL :: c) ++ SP :: t ++ NUL :: tl) in Hr by app_eq.
  nul_step Hr b3 Ht3.
  assert (forall l s r, NUL ∉ s -> strbuf_rep b3 (l ++ s ++ NUL :: r) ->
    cstr_at (p b3) (Z.of_nat (length l)) = Some s) as Hs.
  { intros l s r Hn Hr'. eapply str_in_rep; [exact Hr'|]. by apply str_in_here. }
  replace (lit "HTTP/" ++ a ++ NUL :: b ++ NUL :: c ++ NUL :: t ++ NUL :: tl) with
    ((lit "HTTP/" ++ a ++ NUL :: b ++ NUL :: c) ++ NUL :: t ++ NUL :: tl) by app_eq.
  assert (cstr_at (p b3) 5 = Some a) as ->.
  { apply (Hs (lit "HTTP/") a (b ++ NUL :: c ++ NUL :: t ++ NUL :: tl)).
    - by apply (all_in_no_NUL digit).
    - contents_from Hr ltac:(app_eq). }
  cbn [mbind option_bind].
  assert (cstr_at (p b3) (5 + Z.of_nat (length a) + 1) = Some b) as ->.
  { rewrite <-(Hs (lit "HTTP/" ++ a ++ [NUL]) b (c ++ NUL :: t ++ NUL :: tl)).
    - f_equal. autorewrite with len. cbn [length lit String.list_ascii_of_string]. lia.
    - by apply (all_in_no_NUL digit).
    - contents_from Hr ltac:(app_eq). }
  cbn [mbind option_bind].
  assert (cstr_at (p b3) (5 + Z.of_nat (length a) + 1 + Z.of_nat (length b) + 1) = Some c) as ->.
  { rewrite <-(Hs (lit "HTTP/" ++ a ++ NUL :: b ++ [NUL]) c (t ++ NUL :: tl)).
    - f_equal. autorewrite with len. cbn [length lit String.list_ascii_of_string]. lia.
    - by apply (all_in_no_NUL digit).
    - contents_from Hr ltac:(app_eq). }
  cbn [mbind option_bind].
  exists b3. split_and!; [done|auto|]. do 4 f_equal.
  autorewrite with len. cbn [length lit String.list_ascii_of_string]. lia.
Qed.
