(* ===== verification/NetDone.v ===== *)
(** The end of a message: [strbuf_done] (strbuf.c), [net_data_done] and the two
    functions over it (net_data.c).  A freed array has no cells left, so every
    access to it is undefined, as is freeing it again. *)

From S2P Require Import Prelude CLib Outcome Strbuf Uthash Regex NetData.

#[local] Open Scope Z_scope.

Definition strbuf_done (b : strbuf) : option strbuf :=
  match p b with [] => None | _ :: _ => Some (Strbuf [] (len b) (cap b)) end.

(** [h->hh.next], found in the order of the table. *)
Fixpoint next_in (l : list UT_hash_handle) (id : positive) : option UT_hash_handle :=
  match l with
  | [] => None
  | h :: l => if decide (hh_id h = id) then head l else next_in l id
  end.

(** [HASH_ITER]: [tmp] is the element behind [h], taken before [h] is deleted.
    Only an allocated entry can be read and freed. *)
Fixpoint done_loop (fuel : nat) (h tmp : option UT_hash_handle) : M net_data () :=
  match fuel with
  | O => no_fuel
  | S fuel =>
      match h with
      | None => mret ()
      | Some h =>
          d ← get id;
          _ ← demand (ents d !! hh_id h);
          _ ← modify (fun d => {| buf := buf d; table := HASH_DEL (table d) h;
                                  ents := delete (hh_id h) (ents d); ent_next := ent_next d |});
          d ← get id;
          done_loop fuel tmp (tmp ≫= fun t => next_in (HASH_ITER (table d)) (hh_id t))
      end
  end.

Definition net_data_done (fuel : nat) : M net_data () :=
  d ← get id;
  b ← demand (strbuf_done (buf d));
  _ ← modify (fun d => set_buf d b);
  let h := head (HASH_ITER (table d)) in
  done_loop fuel h (h ≫= fun h => next_in (HASH_ITER (table d)) (hh_id h)).

(** Behind it, [req->data] is freed too. *)
Definition net_req_done (fuel : nat) (req : net_req) : outcome net_data () := net_data_done fuel (data req).
Definition net_rsp_done (fuel : nat) (rsp : net_rsp) : outcome net_data () := net_data_done fuel (rsp_data rsp).

(** ** The entries of a message are those of its table *)

Record data_wf (d : net_data) : Prop := DataWf {
  dw_table : ut_wf HASH_JEN (table d);
  dw_ents : forall id, is_Some (ents d !! id) <-> id ∈ hh_id <$> HASH_ITER (table d);
  dw_fresh : forall id, is_Some (ents d !! id) -> (id < ent_next d)%positive;
  dw_buf : p (buf d) <> []
}.

Lemma next_in_head (h : UT_hash_handle) l : next_in (h :: l) (hh_id h) = head l.
Proof. cbn. by rewrite decide_True. Qed.

Lemma filter_tail (h : UT_hash_handle) l : NoDup (hh_id <$> h :: l) -> filter (fun h' => hh_id h' <> hh_id h) (h :: l) = l.
Proof.
  rewrite fmap_cons. intros [Hh _]%NoDup_cons. rewrite filter_cons_False by tauto. apply filter_all, Forall_forall.
  intros h' Hin E. apply Hh. rewrite <-E. by apply list_elem_of_fmap_2.
Qed.

Lemma HASH_ITER_nil t : ut_wf HASH_JEN t -> HASH_ITER t = [] -> t = None.
Proof. destruct t; [|done]. by intros [Hne _] E. Qed.

Lemma ut_wf_ids t : ut_wf HASH_JEN t -> NoDup (hh_id <$> HASH_ITER t).
Proof. destruct t as [t|]; [by intros (_&H&_)|constructor]. Qed.

Lemma done_loop_spec fuel : forall d l, ut_wf HASH_JEN (table d) -> HASH_ITER (table d) = l ->
  (forall id, is_Some (ents d !! id) <-> id ∈ hh_id <$> l) -> (length l < fuel)%nat ->
  wp safe (done_loop fuel (head l) (head l ≫= fun h => next_in l (hh_id h)))
    (fun _ d' => table d' = None /\ ents d' = ∅ /\ buf d' = buf d) d.
Proof.
  induction fuel as [|fuel IH]; intros d l Hwf Hl He Hf; [lia|]. cbn [done_loop].
  destruct l as [|h l]; cbn [head option_bind mbind].
  - apply wp_ret. split; [by apply HASH_ITER_nil|]. split; [|done]. apply map_empty. intros id.
    destruct (ents d !! id) eqn:E; [|done]. exfalso. by apply (not_elem_of_nil id), He.
  - rewrite next_in_head. assert (h ∈ HASH_ITER (table d)) as Hin by (rewrite Hl; by left).
    destruct (proj2 (He (hh_id h))) as [e Ee]; [by left|].
    pose proof (ut_wf_ids _ Hwf) as Hnd. rewrite Hl in Hnd.
    destruct (HASH_DEL_spec HASH_JEN (table d) h Hwf Hin) as [Hwf' Hit]. rewrite Hl, filter_tail in Hit by done.
    apply wp_bind, wp_get, wp_bind, (wp_demand _ _ e); [done|]. apply wp_bind, wp_modify, wp_bind, wp_get.
    change (table (id ?d')) with (table d'). cbn [table]. rewrite Hit.
    eapply wp_mono; [apply (IH _ l)|].
    + exact Hwf'.
    + exact Hit.
    + intros id. cbn [ents]. rewrite lookup_delete_is_Some, He, fmap_cons, elem_of_cons.
      rewrite fmap_cons in Hnd. apply NoDup_cons in Hnd as [Hh _]. split.
      * intros [Hne [E|Hid]]; [by destruct Hne|done].
      * intros Hid. split; [|by right]. intros E. apply Hh. by rewrite E.
    + cbn in Hf. lia.
    + done.
Qed.

Lemma net_data_done_spec fuel d : data_wf d -> (length (HASH_ITER (table d)) < fuel)%nat ->
  wp safe (net_data_done fuel) (fun _ d' => table d' = None /\ ents d' = ∅ /\ p (buf d') = []) d.
Proof.
  intros [Hwf He _ Hb] Hf. unfold net_data_done. apply wp_bind, wp_get. cbn [id].
  apply wp_bind, (wp_demand _ _ (Strbuf [] (len (buf d)) (cap (buf d)))); [unfold strbuf_done; by destruct (p (buf d))|].
  apply wp_bind, wp_modify. eapply wp_mono; [apply (done_loop_spec fuel _ (HASH_ITER (table d))); done|].
  intros [] d' (H1&H2&H3). by rewrite H3.
Qed.

(** ** The operations on a message *)

Inductive data_op :=
| ParseHeader (offset : Z)
| SetEntOffset (key : list ascii) (offset : Z)
| DelEnt (key : list ascii)
| Append (ch : ascii).

Definition data_step (d : net_data) (op : data_op) : option net_data :=
  match op with
  | ParseHeader offset => '(_, d) ← net_parse_header d offset; Some d
  | SetEntOffset key offset => net_data_set_ent_offset d key offset
  | DelEnt key => Some (net_data_del_ent d key)
  | Append ch => b ← strbuf_append (buf d) ch; Some (set_buf d b)
  end.

Definition data_run (ops : list data_op) : option net_data :=
  d ← net_data_init; foldl (fun d op => d ← d; data_step d op) (Some d) ops.

Lemma store_array a i c a' : store a i c = Some a' -> a' <> [].
Proof.
  intros H. pose proof (store_length _ _ _ _ H) as Hl. apply store_Some in H as [Hi _]. intros ->. cbn in Hl. lia.
Qed.

Lemma strbuf_append_array b ch b' : strbuf_append b ch = Some b' -> p b' <> [].
Proof.
  unfold strbuf_append. intros (b1&_&(p1&_&(p2&H&[= <-])%bind_Some)%bind_Some)%bind_Some. by eapply store_array.
Qed.

Lemma nul_at_array b i b' : nul_at b i = Some b' -> p b' <> [].
Proof. unfold nul_at. destruct (store (p b) i NUL) as [p1|] eqn:H; [|done]. intros [= <-]. by eapply store_array. Qed.

Lemma data_wf_buf d b : p b <> [] -> data_wf d -> data_wf (set_buf d b).
Proof. intros Hb [H1 H2 H3 _]. by split. Qed.

Lemma data_wf_init d : net_data_init = Some d -> data_wf d.
Proof.
  intros (b&Hb&[= <-])%bind_Some. split; cbn.
  - done.
  - intros id. rewrite lookup_empty, elem_of_nil. split; [by intros []|done].
  - by intros id [e He].
  - unfold strbuf_init in Hb. apply bind_Some in Hb as (a&Ha&[= <-]). by eapply store_array.
Qed.

Lemma data_wf_add d key off d' : add_ent d key off = Some d' -> data_wf d -> data_wf d'.
Proof.
  unfold add_ent. intros (k&_&[= <-])%bind_Some [Hwf He Hfr Hb].
  assert (ent_next d ∉ hh_id <$> HASH_ITER (table d)) as Hn.
  { intros Hin%He%Hfr. lia. }
  destruct (HASH_ADD_spec HASH_JEN (table d) (ent_next d) k Hwf Hn) as [Hwf' Hit].
  split; cbn [table ents ent_next buf]; [done| | |done].
  - intros id. rewrite Hit, fmap_app, elem_of_app, <-He, lookup_insert_is_Some'. cbn. rewrite list_elem_of_singleton.
    split; [intros [->|H]; [by right|by left]|intros [H| ->]; [by right|by left]].
  - intros id [->|H%Hfr]%lookup_insert_is_Some'; lia.
Qed.

Lemma data_wf_del d key : data_wf d -> data_wf (net_data_del_ent d key).
Proof.
  intros Hd. pose proof Hd as [Hwf He Hfr Hb]. unfold net_data_del_ent, HASH_FIND_STR.
  destruct (HASH_FIND HASH_JEN (table d) key) as [h|] eqn:E; [|done].
  apply HASH_FIND_Some in E as [Hin _]; [|done].
  destruct (HASH_DEL_spec HASH_JEN (table d) h Hwf Hin) as [Hwf' Hit].
  split; cbn [table ents ent_next buf]; [done| | |done].
  - intros id. rewrite Hit, lookup_delete_is_Some, He. split.
    + intros [Hne (h'&->&Hh')%list_elem_of_fmap]. apply list_elem_of_fmap_2, list_elem_of_filter. by split.
    + intros (h'&->&[Hne Hh']%list_elem_of_filter)%list_elem_of_fmap. split; [by intros E|by apply list_elem_of_fmap_2].
  - intros id [_ H]%lookup_delete_is_Some. by apply Hfr.
Qed.

Lemma data_step_wf d op d' : data_step d op = Some d' -> data_wf d -> data_wf d'.
Proof.
  destruct op as [off|key off|key|ch]; cbn [data_step]; intros H Hwf.
  - apply bind_Some in H as ([ret d1]&H&[= <-]). unfold net_parse_header in H. apply bind_Some in H as (line&_&H).
    destruct (regexec header_re line); [|by injection H as _ <-].
    apply bind_Some in H as (b1&_&(b2&Hb&(k&_&(d2&Hd&[= _ <-])%bind_Some)%bind_Some)%bind_Some).
    eapply data_wf_add; [exact Hd|]. apply data_wf_buf; [by eapply nul_at_array|done].
  - by eapply data_wf_add.
  - injection H as <-. by apply data_wf_del.
  - apply bind_Some in H as (b&Hb&[= <-]). apply data_wf_buf; [by eapply strbuf_append_array|done].
Qed.

Lemma data_run_wf ops d : data_run ops = Some d -> data_wf d.
Proof.
  unfold data_run. intros (d0&H0%data_wf_init&H)%bind_Some. revert d0 H0 H.
  induction ops as [|op ops IH]; intros d0 H0 H; [by injection H as <-|]. cbn [foldl mbind option_bind] in H.
  destruct (data_step d0 op) as [d1|] eqn:E; [by eapply IH; [eapply data_step_wf|]|].
  exfalso. clear -H. induction ops; [done|]. by apply IHops.
Qed.

(** C7: whatever is done to a message after [net_data_init] (header lines parsed,
    entries added or deleted, bytes appended), [net_data_done] returns with the
    table gone, every header entry freed exactly once and the buffer freed:
    [HASH_ITER] reaches each entry although it deletes them on its way. *)
Theorem net_data_done_frees (ops : list data_op) (d : net_data) (fuel : nat) :
  data_run ops = Some d -> (length (HASH_ITER (table d)) < fuel)%nat ->
  exists d', net_data_done fuel d = Ok () d' /\ table d' = None /\ ents d' = ∅ /\ p (buf d') = [].
Proof.
  intros Hd Hf. destruct (wp_Ok _ _ _ (net_data_done_spec fuel d (data_run_wf ops d Hd) Hf)) as ([]&d'&E&H). by exists d'.
Qed.

Lemma net_data_done_frees_witness :
  exists d d', data_run [Append "A"; SetEntOffset (lit "Host") 0; SetEntOffset (lit "Age") 0; DelEnt (lit "Host")] = Some d /\
    length (HASH_ITER (table d)) = 1%nat /\ net_data_done 2 d = Ok () d' /\ ents d' = ∅.
Proof.
  destruct (data_run [Append "A"; SetEntOffset (lit "Host") 0; SetEntOffset (lit "Age") 0; DelEnt (lit "Host")]) as [d|] eqn:E;
    [|vm_compute in E; discriminate].
  assert (length (HASH_ITER (table d)) = 1%nat) as Hl by (vm_compute in E; injection E as <-; reflexivity).
  destruct (net_data_done_frees _ d 2 E) as (d'&H1&_&H2&_); [rewrite Hl; lia|]. exists d, d'. exact (conj eq_refl (conj Hl (conj H1 H2))).
Defined.
