(* ===== verification/Headers.v ===== *)
(** The header table of a [net_data] as an abstract list of name/value pairs:
    [net_parse_header] appends a pair, [net_data_get_ent] looks a name up, and
    [net_append_headers] writes the pairs back in the order they arrived. *)

From S2P Require Import Prelude CLib Strbuf Uthash Regex NetData HttpGrammar NetDataFacts.

#[local] Open Scope Z_scope.

Abbreviation headers := (list (list ascii * list ascii)).

(** The pair an entry of the table stands for. *)
Definition header_of (d : net_data) (h : UT_hash_handle) : option (list ascii * list ascii) :=
  e ← ents d !! hh_id h;
  key ← cstr (ent_key e);
  val ← cstr_at (p (buf d)) (val_offset e);
  Some (key, val).

Definition headers_of (d : net_data) : option headers := mapM (header_of d) (HASH_ITER (table d)).

(** The bytes of the header section, with the empty line that ends it. *)
Definition header_bytes (hs : headers) : list ascii :=
  concat ((fun kv => kv.1 ++ lit ": " ++ kv.2 ++ CRLF) <$> hs) ++ CRLF.

(** The value of an entry is a string of the contents [l] behind offset [lo]. *)
Definition header_at (lo : Z) (l : list ascii) (es : gmap positive net_header_ent)
    (h : UT_hash_handle) (kv : list ascii * list ascii) : Prop :=
  hh_key h = kv.1 /\
  exists e, es !! hh_id h = Some e /\ cstr (ent_key e) = Some kv.1 /\
    str_in l (val_offset e) kv.2 /\ lo < val_offset e.

Record headers_rep (lo : Z) (l : list ascii) (d : net_data) (hs : headers) : Prop := HeadersRep {
  hr_wf : ut_wf HASH_JEN (table d);
  hr_fresh : Forall (fun h => hh_id h < ent_next d)%positive (HASH_ITER (table d));
  hr_entries : Forall2 (header_at lo l (ents d)) (HASH_ITER (table d)) hs
}.

Lemma headers_rep_init lo l d : table d = None -> headers_rep lo l d [].
Proof. intros E. split; rewrite E; [done|constructor|constructor]. Qed.

Lemma header_at_mono lo l l' es h kv :
  header_at lo l es h kv -> (forall i s, lo < i -> str_in l i s -> str_in l' i s) ->
  header_at lo l' es h kv.
Proof. intros (Hk&e&He&Hc&Hs&Hlo) Hmono. split; [done|]. exists e. auto. Qed.

Lemma headers_rep_mono lo l l' d b hs :
  headers_rep lo l d hs -> (forall i s, lo < i -> str_in l i s -> str_in l' i s) ->
  headers_rep lo l' (set_buf d b) hs.
Proof.
  intros [Hwf Hf He] Hm. split; [done|done|]. eapply Forall2_impl; [exact He|].
  intros h kv H. by eapply header_at_mono.
Qed.

(** Whatever buffer holds the strings, the table gives the pairs. *)
Lemma headers_rep_of lo l d hs :
  headers_rep lo l d hs ->
  (forall i s, lo < i -> str_in l i s -> cstr_at (p (buf d)) i = Some s) ->
  headers_of d = Some hs.
Proof.
  intros [_ _ He] Hs. unfold headers_of. apply mapM_Some. eapply Forall2_impl; [exact He|].
  intros h [k v] (Hk&e&Hid&Hc&Hv&Hlo). unfold header_of. rewrite Hid. simpl.
  rewrite Hc. simpl. by rewrite (Hs _ _ Hlo Hv).
Qed.

(** ** Lookup *)

Lemma HASH_FIND_STR_spec lo l d hs key :
  headers_rep lo l d hs ->
  match HASH_FIND_STR d key with
  | None => key ∉ hs.*1
  | Some h => exists kv, kv ∈ hs /\ kv.1 = key /\ header_at lo l (ents d) h kv
  end.
Proof.
  intros [Hwf _ He]. unfold HASH_FIND_STR.
  destruct (HASH_FIND HASH_JEN (table d) key) as [h|] eqn:E.
  - apply HASH_FIND_Some in E as [Hin <-]; [|done].
    apply list_elem_of_lookup in Hin as [i Hi].
    destruct (Forall2_lookup_l _ _ _ _ _ He Hi) as (kv&Hkv&H). exists kv.
    split_and!; [by eapply list_elem_of_lookup_2| |done]. by destruct H as [-> _].
  - apply HASH_FIND_None in E; [|done]. intros Hk. apply E.
    apply list_elem_of_fmap in Hk as (kv&->&Hkv).
    apply list_elem_of_lookup in Hkv as [i Hi].
    destruct (Forall2_lookup_r _ _ _ _ _ He Hi) as (h&Hh&[<- _]).
    apply list_elem_of_fmap. exists h. split; [done|]. by eapply list_elem_of_lookup_2.
Qed.

Lemma get_ent_offset_spec lo l d hs key :
  headers_rep lo l d hs ->
  ((key ∉ hs.*1) /\ net_data_get_ent_offset d key = Some (-1)) \/
  exists v i, (key, v) ∈ hs /\ net_data_get_ent_offset d key = Some i /\ str_in l i v /\ lo < i.
Proof.
  intros H. unfold net_data_get_ent_offset. pose proof (HASH_FIND_STR_spec _ _ _ _ key H) as Hf.
  destruct (HASH_FIND_STR d key) as [h|]; [right|by left].
  destruct Hf as ([k v]&Hin&<-&_&e&He&_&Hs&Hlo). rewrite He. simpl in *. eauto 10.
Qed.

Lemma get_ent_spec lo l d hs key :
  headers_rep lo l d hs ->
  ((key ∉ hs.*1) /\ net_data_get_ent d key = Some None) \/
  exists v i, (key, v) ∈ hs /\ net_data_get_ent d key = Some (Some i) /\ str_in l i v /\ lo < i.
Proof.
  intros H. unfold net_data_get_ent. pose proof (HASH_FIND_STR_spec _ _ _ _ key H) as Hf.
  destruct (HASH_FIND_STR d key) as [h|]; [right|by left].
  destruct Hf as ([k v]&Hin&<-&_&e&He&_&Hs&Hlo). rewrite He. simpl in *. eauto 10.
Qed.

(** ** Adding *)

Lemma cstr_strncpy key n : NUL ∉ key -> (length key < n)%nat -> cstr (strncpy key n) = Some key.
Proof.
  intros Hk Hn. unfold strncpy. rewrite firstn_all2 by lia.
  destruct (n - length key)%nat eqn:E; [lia|]. by apply cstr_of_chars.
Qed.

(** A name that fills the 32 bytes leaves them unterminated. *)
Lemma cstr_strncpy_long key n : NUL ∉ key -> (n <= length key)%nat -> cstr (strncpy key n) = None.
Proof.
  intros Hk Hn. unfold strncpy. replace (n - length key)%nat with 0%nat by lia.
  cbn [replicate]. rewrite app_nil_r. destruct (cstr _) as [s|] eqn:E; [|done].
  apply cstr_Some in E as (_&r&E). assert (NUL ∈ take n key) as Hin.
  { assert (Some NUL ∈ of_chars (take n key)) as Hin.
    { rewrite E. apply elem_of_app. right. by left. }
    apply list_elem_of_fmap in Hin as (c&[= ->]&Hin). done. }
  destruct Hk. rewrite <-(take_drop n key). apply elem_of_app. by left.
Qed.

Lemma add_ent_spec lo l d hs key val off :
  headers_rep lo l d hs -> NUL ∉ key -> (length key < HTTP_HEADER_KEY_MAXLEN)%nat ->
  str_in l off val -> lo < off ->
  exists d', add_ent d key off = Some d' /\ buf d' = buf d /\ headers_rep lo l d' (hs ++ [(key, val)]).
Proof.
  intros [Hwf Hf He] Hk Hlen Hv Hlo. unfold add_ent. rewrite cstr_strncpy by done.
  cbn [mbind option_bind]. eexists. split; [done|]. split; [done|].
  assert (ent_next d ∉ hh_id <$> HASH_ITER (table d)) as Hfresh.
  { intros (h&Hid&Hin)%list_elem_of_fmap. rewrite Forall_forall in Hf. apply Hf in Hin. lia. }
  destruct (HASH_ADD_spec HASH_JEN (table d) (ent_next d) key Hwf Hfresh) as [Hwf' Hit].
  split; cbn [table ents ent_next]; [done| |]; rewrite Hit.
  - apply Forall_app. split; [|by repeat constructor; simpl; lia].
    eapply Forall_impl; [exact Hf|]. simpl. lia.
  - apply Forall2_app.
    + rewrite Forall2_lookup in He |- *. intros i. specialize (He i).
      destruct (HASH_ITER (table d) !! i) as [h|] eqn:Eh; inv He; constructor.
      rename select (header_at _ _ _ _ _) into Ha. destruct Ha as (Hkey&e&Hid&Hc).
      split; [done|]. exists e. split; [|done]. rewrite lookup_insert_ne; [done|].
      intros E. apply Hfresh. apply list_elem_of_fmap. exists h. split; [done|].
      by eapply list_elem_of_lookup_2.
    + constructor; [|constructor]. split; [done|]. exists (HeaderEnt (strncpy key HTTP_HEADER_KEY_MAXLEN) off).
      split_and!; [by rewrite lookup_insert_eq|by apply cstr_strncpy|done|done].
Qed.

(** ** Parsing a header line *)

Lemma header_line_no_NUL line name sp val :
  header_line line name sp val -> (NUL ∉ name) /\ (NUL ∉ sp) /\ NUL ∉ line.
Proof.
  intros [-> [_ Hn] Hs [Hv _]].
  assert (NUL ∉ name) by by apply (all_in_no_NUL header_name).
  assert (NUL ∉ sp) by by apply (all_in_no_NUL [(SP, SP)]).
  split_and!; [done|done|]. rewrite not_elem_of_app, not_elem_of_cons, not_elem_of_app.
  by split_and!.
Qed.

(** The contents after a header line was cut. *)
Definition cut_header (l pre name sp val r : list ascii) : list ascii :=
  l ++ pre ++ name ++ NUL :: sp ++ val ++ NUL :: r.

(** The cut of the line and the key the table is given. *)
Lemma net_parse_header_cut d l s r pre name sp val res :
  strbuf_rep (buf d) (l ++ s ++ NUL :: r) -> strbuf_term (buf d) -> NUL ∉ s ->
  regexec header_re s = Some res -> loose_header s pre name sp val -> loose_caps res pre name sp val ->
  exists b, strbuf_rep b (cut_header l pre name sp val r) /\ strbuf_term b /\
    net_parse_header d (Z.of_nat (length l)) =
      d ← add_ent (set_buf d b) name
        (Z.of_nat (length l) + (Z.of_nat (length pre) + Z.of_nat (length name) + 1 + Z.of_nat (length sp)));
      Some (0, d).
Proof.
  intros Hr Ht Hn Hres [-> [_ Hname] _ _] [Hc1 Hc2].
  unfold net_parse_header. rewrite (str_in_rep _ _ (Z.of_nat (length l)) _ Hr)
    by (by apply str_in_here).
  cbn [mbind option_bind]. rewrite Hres. use_caps.
  replace (l ++ _) with ((l ++ pre ++ name) ++ ":"%char :: sp ++ val ++ NUL :: r) in Hr by app_eq.
  nul_step Hr b1 Ht1.
  replace ((l ++ pre ++ name) ++ _) with ((l ++ pre ++ name ++ NUL :: sp ++ val) ++ NUL :: r) in Hr by app_eq.
  nul_step Hr b2 Ht2.
  replace (_ ++ NUL :: r) with (cut_header l pre name sp val r) in Hr by (unfold cut_header; app_eq).
  rewrite (str_in_rep _ _ (Z.of_nat (length l) + Z.of_nat (length pre)) name Hr).
  2: { unfold cut_header. rewrite app_assoc. apply str_in_here; [len_lia|].
       by apply (all_in_no_NUL header_name). }
  exists b2. auto.
Qed.

Lemma net_parse_header_loose lo d l s r pre name sp val res hs :
  headers_rep lo l d hs -> lo < Z.of_nat (length l) ->
  strbuf_rep (buf d) (l ++ s ++ NUL :: r) -> strbuf_term (buf d) -> NUL ∉ s ->
  regexec header_re s = Some res -> loose_header s pre name sp val -> loose_caps res pre name sp val ->
  (length name < HTTP_HEADER_KEY_MAXLEN)%nat ->
  exists d', net_parse_header d (Z.of_nat (length l)) = Some (0, d') /\
    strbuf_rep (buf d') (cut_header l pre name sp val r) /\ strbuf_term (buf d') /\
    headers_rep lo (cut_header l pre name sp val r) d' (hs ++ [(name, val)]).
Proof.
  intros Hh Hlo Hr Ht Hs Hres Hl Hc Hlen.
  destruct (net_parse_header_cut d l s r pre name sp val res) as (b&Hr'&Ht'&->); [done..|].
  assert (headers_rep lo (cut_header l pre name sp val r) (set_buf d b) hs) as Hh2.
  { eapply headers_rep_mono; [exact Hh|]. intros i x _ Hx. by apply str_in_app. }
  destruct Hl as [_ [_ Hname] _ Hv].
  destruct (add_ent_spec _ _ _ _ name val
    (Z.of_nat (length l) + (Z.of_nat (length pre) + Z.of_nat (length name) + 1 + Z.of_nat (length sp))) Hh2)
    as (d'&->&Hbuf&Hh'); [by apply (all_in_no_NUL header_name)|done| |lia|].
  { unfold cut_header.
    replace (l ++ _) with ((l ++ pre ++ name ++ [NUL] ++ sp) ++ val ++ NUL :: r) by app_eq.
    apply str_in_here; [len_lia|done]. }
  exists d'. rewrite Hbuf. by split_and!.
Qed.

Lemma header_line_loose line name sp val :
  header_line line name sp val ->
  exists res, regexec header_re line = Some res /\ loose_header line [] name sp val /\
    loose_caps res [] name sp val.
Proof.
  intros Hl. destruct (regexec_header _ _ _ _ Hl) as (res&Hres&Hc). exists res.
  split_and!; [done| |done]. destruct Hl as [-> Hn Hs [Hv _]]. by split.
Qed.

(** ** The header a line stands for *)

(** The line as a C string. *)
Definition text_of (line : list ascii) : list ascii :=
  take_while (fun c => negb (bool_decide (c = NUL))) line.

Lemma text_of_NUL line : NUL ∉ text_of line.
Proof.
  unfold text_of. induction line as [|c line IH]; simpl; [apply not_elem_of_nil|].
  case_bool_decide; simpl; [apply not_elem_of_nil|]. by apply not_elem_of_cons.
Qed.

Lemma text_of_split line :
  exists r, line ++ [NUL] = text_of line ++ NUL :: r.
Proof.
  induction line as [|c line (r&E)]; simpl; [by exists []|].
  case_bool_decide as Hc; simpl; [subst; by eexists|]. exists r. by rewrite E.
Qed.

Lemma text_of_id line : NUL ∉ line -> text_of line = line.
Proof.
  unfold text_of. induction line as [|c line IH]; simpl; [done|].
  intros [Hc Hn]%not_elem_of_cons. rewrite bool_decide_false by done. simpl. by rewrite IH.
Qed.

Definition sub (s : list ascii) (a e : Z) : list ascii :=
  take (Z.to_nat (e - a)) (drop (Z.to_nat a) s).

(** Name and value of a header line, by the header pattern. *)
Definition header_of_line (line : list ascii) : option (list ascii * list ascii) :=
  let s := text_of line in
  res ← regexec header_re s;
  Some (sub s (rm_so res 1) (rm_eo res 1), sub s (rm_so res 2) (rm_eo res 2)).

Lemma sub_mid l s r a e :
  a = Z.of_nat (length l) -> e = a + Z.of_nat (length s) -> sub (l ++ s ++ r) a e = s.
Proof.
  intros -> ->. unfold sub. rewrite Nat2Z.id, drop_app_length.
  by rewrite take_app_length' by lia.
Qed.

Lemma header_of_line_Some line res pre name sp val :
  regexec header_re (text_of line) = Some res -> loose_header (text_of line) pre name sp val ->
  loose_caps res pre name sp val -> header_of_line line = Some (name, val).
Proof.
  intros Hres [E _ _ _] [Hc1 Hc2]. unfold header_of_line. rewrite Hres. cbn [mbind option_bind].
  use_caps. rewrite E. do 2 f_equal.
  - apply sub_mid; lia.
  - replace (pre ++ _) with ((pre ++ name ++ ":"%char :: sp) ++ val ++ []) by app_eq.
    apply sub_mid; len_lia.
Qed.

Lemma header_of_line_inv line name val :
  header_of_line line = Some (name, val) ->
  exists res pre sp, regexec header_re (text_of line) = Some res /\
    loose_header (text_of line) pre name sp val /\ loose_caps res pre name sp val.
Proof.
  intros H. pose proof H as H0. unfold header_of_line in H0.
  apply bind_Some in H0 as (res&Hres&_).
  destruct (regexec_header_inv _ _ Hres) as (pre&name'&sp&val'&Hl&Hc).
  rewrite (header_of_line_Some _ _ _ _ _ _ Hres Hl Hc) in H. simplify_eq. eauto 10.
Qed.

(** A well-formed line gives its own name and value. *)
Lemma header_of_line_grammar line name sp val :
  header_line line name sp val -> header_of_line line = Some (name, val).
Proof.
  intros Hl. pose proof (header_line_no_NUL _ _ _ _ Hl) as (_&_&Hn).
  destruct (header_line_loose _ _ _ _ Hl) as (res&Hres&Hlo&Hc).
  rewrite <-(text_of_id line Hn) in Hres, Hlo. by eapply header_of_line_Some.
Qed.

Lemma text_of_length line : (length (text_of line) <= length line)%nat.
Proof. unfold text_of. induction line as [|c line IH]; cbn; [done|]. destruct (negb _); cbn; lia. Qed.

Lemma header_of_line_length line name val :
  header_of_line line = Some (name, val) -> (length name + length val + 1 <= length line)%nat.
Proof.
  intros (res&pre&sp&_&[E _ _ _]&_)%header_of_line_inv. pose proof (text_of_length line) as Hl.
  rewrite E in Hl. revert Hl. autorewrite with len. cbn [length]. autorewrite with len. lia.
Qed.

(** [net_parse_header] on any line behind the contents [l]. *)
Lemma net_parse_header_spec lo l d hs line :
  headers_rep lo l d hs -> lo < Z.of_nat (length l) ->
  strbuf_rep (buf d) (l ++ line ++ [NUL]) -> strbuf_term (buf d) ->
  match header_of_line line with
  | None => net_parse_header d (Z.of_nat (length l)) = Some (-1, d)
  | Some (name, val) =>
      if decide (length name < HTTP_HEADER_KEY_MAXLEN)%nat then
        exists d' x, net_parse_header d (Z.of_nat (length l)) = Some (0, d') /\
          length x = length (line ++ [NUL]) /\ strbuf_rep (buf d') (l ++ x) /\
          strbuf_term (buf d') /\ headers_rep lo (l ++ x) d' (hs ++ [(name, val)])
      else net_parse_header d (Z.of_nat (length l)) = None
  end.
Proof.
  intros Hh Hlo Hr Ht. destruct (text_of_split line) as [r Er]. rewrite Er in *.
  pose proof (text_of_NUL line) as Hn.
  destruct (header_of_line line) as [[name val]|] eqn:E.
  - apply header_of_line_inv in E as (res&pre&sp&Hres&Hl&Hc). case_decide as Hlen.
    + destruct (net_parse_header_loose lo d l (text_of line) r pre name sp val res hs) as (d'&Hp&Hr'&Ht'&Hh');
        [done..|]. exists d', (pre ++ name ++ NUL :: sp ++ val ++ NUL :: r).
      split_and!; [done| |done|done|done]. destruct Hl as [El _ _ _]. rewrite El. len_lia.
    + destruct (net_parse_header_cut d l (text_of line) r pre name sp val res) as (b&_&_&->); [done..|].
      unfold add_ent. rewrite cstr_strncpy_long; [done| |lia].
      destruct Hl as [_ [_ Hname] _ _]. by apply (all_in_no_NUL header_name).
  - unfold header_of_line in E. apply bind_None in E as [E|(?&?&?)]; [|done].
    unfold net_parse_header. rewrite (str_in_rep _ _ (Z.of_nat (length l)) (text_of line) Hr)
      by (by apply str_in_here).
    cbn [mbind option_bind]. by rewrite E.
Qed.

(** ** Writing headers *)

Lemma header_bytes_cons kv hs :
  header_bytes (kv :: hs) = kv.1 ++ lit ": " ++ kv.2 ++ CRLF ++ header_bytes hs.
Proof. unfold header_bytes. cbn [fmap list_fmap concat]. by rewrite <-!app_assoc. Qed.

(** One [strbuf_cat] or [strbuf_append] of the goal. *)
Ltac cat_step Hr b :=
  let Hr' := fresh in let E := fresh in let Ht := fresh "Ht" in
  lazymatch goal with
  | |- context [strbuf_cat ?buf ?s] =>
      destruct (strbuf_cat_rep s buf _ Hr) as (b&E&Hr'&Ht&_);
      [rewrite (strbuf_rep_len _ _ Hr); autorewrite with len in *;
       cbn [length lit String.list_ascii_of_string CRLF] in *; lia|]
  | |- context [strbuf_append ?buf ?c] =>
      destruct (strbuf_append_rep buf _ c Hr) as (b&E&Hr'&Ht&_);
      [rewrite (strbuf_rep_len _ _ Hr); autorewrite with len in *;
       cbn [length lit String.list_ascii_of_string CRLF] in *; lia|]
  | |- context [strbuf_append_num ?buf ?x] =>
      destruct (strbuf_append_num_rep buf _ x Hr) as (b&E&Hr'&Ht&_);
      [rewrite (strbuf_rep_len _ _ Hr); autorewrite with len in *;
       cbn [length lit String.list_ascii_of_string CRLF] in *; lia|by auto|]
  end;
  rewrite E; clear Hr E; rename Hr' into Hr; cbn [mbind option_bind].

Lemma append_headers_spec d l : forall hs b bs,
  mapM (header_of d) l = Some hs -> strbuf_rep b bs ->
  Z.of_nat (length bs) + Z.of_nat (length (header_bytes hs)) < 1073741824 ->
  exists b', append_headers d l b = Some b' /\ strbuf_rep b' (bs ++ header_bytes hs) /\ strbuf_term b'.
Proof.
  induction l as [|h l IH]; intros hs b bs Hm Hr Hlen; cbn [append_headers].
  - assert (hs = []) as -> by (by injection Hm). change (header_bytes []) with CRLF in *.
    cat_step Hr b1. exists b1. split_and!; [done|done|]. apply Ht. by left.
  - cbn [mapM] in Hm. apply bind_Some in Hm as ([k v]&Hkv&Hm).
    apply bind_Some in Hm as (hs'&Hm&[= <-]).
    unfold header_of in Hkv. apply bind_Some in Hkv as (e&->&Hkv).
    apply bind_Some in Hkv as (k'&Hk&Hkv). apply bind_Some in Hkv as (v'&Hv&[= -> ->]).
    rewrite header_bytes_cons in *. cbn [fst snd] in *. cbn [mbind option_bind].
    rewrite Hk. cbn [mbind option_bind].
    cat_step Hr b1. cat_step Hr b2. rewrite Hv. cbn [mbind option_bind].
    cat_step Hr b3. cat_step Hr b4.
    destruct (IH hs' b4 _ Hm Hr) as (b5&->&Hr5&Ht5);
      [autorewrite with len in *; cbn [length lit String.list_ascii_of_string CRLF] in *; lia|].
    exists b5. split_and!; [done| |done]. contents_from Hr5 ltac:(app_eq).
Qed.

(** The bytes a request is forwarded with. *)
Definition req_bytes (method pth : list ascii) (major minor : Z) (hs : headers) : list ascii :=
  method ++ SP :: pth ++ lit " HTTP/" ++ sprintf_d major ++ "."%char :: sprintf_d minor ++
  CRLF ++ header_bytes hs.

Definition rsp_bytes (major minor code : Z) (msg : list ascii) (hs : headers) : list ascii :=
  lit "HTTP/" ++ sprintf_d major ++ "."%char :: sprintf_d minor ++ SP :: sprintf_d code ++
  SP :: msg ++ CRLF ++ header_bytes hs.

Definition int_range (z : Z) : Prop := INT_MIN <= z <= INT_MAX.

Lemma req_header_spec req method pth hs :
  cstr_at (p (buf (data req))) 0 = Some method ->
  cstr_at (p (buf (data req))) (path req) = Some pth ->
  headers_of (data req) = Some hs ->
  int_range (ver_major req) -> int_range (ver_minor req) ->
  Z.of_nat (length method + length pth + length (header_bytes hs)) < 1000000000 ->
  exists b, req_header req = Some b /\
    strbuf_rep b (req_bytes method pth (ver_major req) (ver_minor req) hs) /\ strbuf_term b.
Proof.
  intros Hm Hp Hh Hmaj Hmin Hlen. unfold req_header. rewrite Hm, Hp.
  pose proof (sprintf_d_length _ Hmaj). pose proof (sprintf_d_length _ Hmin).
  destruct strbuf_init_spec as (b0&->&Hr&_). cbn [mbind option_bind].
  cat_step Hr b1. cat_step Hr b2. cat_step Hr b3. cat_step Hr b4. cat_step Hr b5.
  cat_step Hr b6. cat_step Hr b7. cat_step Hr b8. cat_step Hr b9.
  destruct (append_headers_spec _ _ hs b9 _ Hh Hr) as (b&Hb&Hrb&Htb);
    [autorewrite with len in *; cbn [length lit String.list_ascii_of_string CRLF] in *; lia|].
  exists b. split_and!; [exact Hb| |done]. contents_from Hrb ltac:(unfold req_bytes; app_eq).
Qed.

Lemma rsp_header_spec rsp msg hs :
  cstr_at (p (buf (rsp_data rsp))) (http_msg rsp) = Some msg ->
  headers_of (rsp_data rsp) = Some hs ->
  int_range (rsp_ver_major rsp) -> int_range (rsp_ver_minor rsp) -> int_range (code rsp) ->
  Z.of_nat (length msg + length (header_bytes hs)) < 1000000000 ->
  exists b, rsp_header rsp = Some b /\
    strbuf_rep b (rsp_bytes (rsp_ver_major rsp) (rsp_ver_minor rsp) (code rsp) msg hs) /\ strbuf_term b.
Proof.
  intros Hm Hh Hmaj Hmin Hc Hlen. unfold rsp_header. rewrite Hm.
  pose proof (sprintf_d_length _ Hmaj). pose proof (sprintf_d_length _ Hmin).
  pose proof (sprintf_d_length _ Hc).
  destruct strbuf_init_spec as (b0&->&Hr&_). cbn [mbind option_bind].
  cat_step Hr b1. cat_step Hr b2. cat_step Hr b3. cat_step Hr b4. cat_step Hr b5.
  cat_step Hr b6. cat_step Hr b7. cat_step Hr b8. cat_step Hr b9.
  destruct (append_headers_spec _ _ hs b9 _ Hh Hr) as (b&Hb&Hrb&Htb);
    [autorewrite with len in *; cbn [length lit String.list_ascii_of_string CRLF] in *; lia|].
  exists b. split_and!; [exact Hb| |done]. contents_from Hrb ltac:(unfold rsp_bytes; app_eq).
Qed.
