(* ===== verification/NetProps.v ===== *)
(** Properties of the message parsing and forwarding of src/core/net_data.c:
    from the lines in the buffer to the bytes that are sent on. *)

From S2P Require Import Prelude CLib Strbuf Uthash Regex NetData HttpGrammar NetDataFacts Headers.

#[local] Open Scope Z_scope.

(** Prove a closed decidable statement by evaluation. *)
Ltac wit_dec := refine (bool_decide_unpack _ _); vm_compute; exact I.

(** ** Messages in the buffer *)

(** The buffer holds [line] as a string and then [tl], where the values of the
    headers [hs] are. *)
Record msg_rep (d : net_data) (line tl : list ascii) (hs : headers) : Prop := MsgRep {
  mr_rep : strbuf_rep (buf d) (line ++ NUL :: tl);
  mr_term : strbuf_term (buf d);
  mr_small : small (line ++ NUL :: tl);
  mr_headers : headers_rep (Z.of_nat (length line)) (line ++ NUL :: tl) d hs
}.

(** The code sees a start line up to its first [NUL]. *)
Lemma msg_rep_text d line tl hs : msg_rep d line tl hs -> exists tl', msg_rep d (text_of line) tl' hs.
Proof.
  intros [Hr Ht Hs [Hwf Hf He]]. destruct (text_of_split line) as [r E]. exists (r ++ tl).
  assert (line ++ NUL :: tl = text_of line ++ NUL :: r ++ tl) as El
    by (rewrite cons_middle, app_assoc, E; app_eq).
  rewrite El in *. split; [done|done|done|]. split; [done|done|].
  eapply Forall2_impl; [exact He|]. intros hd kv (Hk&x&Hx&Hc&Hstr&Hlo). split; [done|].
  exists x. split_and!; [done..|]. pose proof (text_of_length line). lia.
Qed.

Lemma request_line_length line m u a b :
  request_line line m u a b ->
  length line = (length m + 1 + length u + 6 + length a + 1 + length b)%nat.
Proof. intros [-> _ _ _ _]. autorewrite with len. cbn [length lit String.list_ascii_of_string]. lia. Qed.

Lemma request_line_no_NUL line m u a b : request_line line m u a b -> (NUL ∉ line) /\ NUL ∉ m.
Proof.
  intros [-> [_ Hm] [_ Hu] [_ Ha] [_ Hb]].
  assert (NUL ∉ m) by by apply (all_in_no_NUL alpha).
  assert (NUL ∉ a) by by apply (all_in_no_NUL digit).
  assert (NUL ∉ b) by by apply (all_in_no_NUL digit).
  split; [|done]. rewrite !not_elem_of_app, not_elem_of_cons, !not_elem_of_app,
    not_elem_of_cons, !not_elem_of_app, not_elem_of_cons.
  split_and!; try done. by rewrite list_elem_of_In; compute; intuition discriminate.
Qed.

(** What stands behind the target in the cut start line. *)
Definition after_target (a b tl : list ascii) : list ascii :=
  lit "HTTP/" ++ a ++ NUL :: b ++ NUL :: tl.

Lemma cut_line_tail line m u a b tl i x :
  request_line line m u a b -> str_in (line ++ NUL :: tl) i x -> Z.of_nat (length line) < i ->
  str_in (m ++ NUL :: u ++ NUL :: after_target a b tl) i x.
Proof.
  intros Hl%request_line_length Hx Hi. unfold after_target.
  replace (line ++ NUL :: tl) with ((line ++ [NUL]) ++ tl) in Hx by app_eq.
  replace (m ++ _) with
    ((m ++ NUL :: u ++ NUL :: lit "HTTP/" ++ a ++ NUL :: b ++ [NUL]) ++ tl) by app_eq.
  eapply str_in_tail; [| |exact Hx];
    autorewrite with len; cbn [length lit String.list_ascii_of_string]; lia.
Qed.

Lemma net_parse_req_split req line tl hs m u a b :
  msg_rep (data req) line tl hs -> request_line line m u a b ->
  exists buf', strbuf_rep buf' (m ++ NUL :: u ++ NUL :: after_target a b tl) /\ strbuf_term buf' /\
    small (m ++ NUL :: u ++ NUL :: after_target a b tl) /\
    net_parse_req req =
      parse_target (Req (set_buf (data req) buf') (port req) (atoi a) (atoi b)
        (host req) (protocol req) (Z.of_nat (length m) + 1)).
Proof.
  intros [Hr Ht Hsm _] Hl. pose proof (request_line_no_NUL _ _ _ _ _ Hl) as [Hline _].
  destruct (regexec_req _ _ _ _ _ Hl) as (res&Hres&Hc).
  destruct (split_startline_spec _ _ _ _ _ _ _ _ Hr Ht Hl Hc) as (b'&Hr'&Ht'&Hsp).
  exists b'. split_and!; [done|done| |].
  - unfold small in *. revert Hsm. apply request_line_length in Hl. unfold after_target.
    autorewrite with len. cbn [length lit String.list_ascii_of_string]. lia.
  - unfold net_parse_req. rewrite (str_in_rep _ _ 0 line Hr) by by apply str_in_front.
    cbn [mbind option_bind]. rewrite Hres, Hsp. done.
Qed.

Lemma atoi_range s : int_range (atoi s).
Proof. apply wrap32_range. Qed.

(** The request as it will be routed and sent on. *)
Record routed (req : net_req) (method hst pth : list ascii) (prt major minor : Z) (hs : headers)
    : Prop := Routed {
  ro_method : cstr_at (p (buf (data req))) 0 = Some method;
  ro_host : cstr_at (p (buf (data req))) (host req) = Some hst;
  ro_path : cstr_at (p (buf (data req))) (path req) = Some pth;
  ro_port : port req = prt;
  ro_ver : ver_major req = major /\ ver_minor req = minor;
  ro_headers : headers_of (data req) = Some hs
}.

(** An authority: a host name and possibly a port. *)
Definition authority_parts (auth name portpart : list ascii) : Prop :=
  auth = name ++ portpart /\ (name <> [] /\ all_in host_name name) /\
  (portpart = [] \/ exists ds, portpart = ":"%char :: ds /\ ds <> [] /\ all_in digit ds).

Lemma authority_host_port auth name portpart q :
  authority_parts auth name portpart -> (q = [] \/ exists x, q = "/"%char :: x) ->
  host_port (auth ++ q) name portpart q.
Proof.
  intros (->&Hn&Hp) Hq. split; [by rewrite <-app_assoc|done|].
  assert (stops host_name q /\ stops digit q) as [Hs1 Hs2] by by destruct Hq as [->|[x ->]].
  destruct Hp as [->|(ds&->&Hne&Hd)]; [left|right; eauto].
  split_and!; [done|done|]. intros r ->. by destruct Hq as [|[x ?]].
Qed.

(** ** Requests *)

(** [METHOD SCHEME://NAME PORT PATH HTTP/MAJOR.MINOR] names the host without its
    port, the port as a number, the path and the version. *)
Lemma parse_absolute req line tl hs m s name portpart q a b
    (Hmsg : msg_rep (data req) line tl hs)
    (Hline : request_line line m (s ++ lit "://" ++ (name ++ portpart) ++ q) a b)
    (Huri : absolute_uri (s ++ lit "://" ++ (name ++ portpart) ++ q) s (name ++ portpart) q)
    (Hauth : authority_parts (name ++ portpart) name portpart)
    (Hmethod : m <> lit "CONNECT") :
  exists req' bs, net_parse_req req = Some (0, req') /\
    routed req' m name (match q with [] => lit "/" | _ => q end) (port_of portpart)
      (atoi a) (atoi b) hs /\
    strbuf_rep (buf (data req')) bs /\ strbuf_term (buf (data req')).
Proof.
  destruct (net_parse_req_split _ _ _ _ _ _ _ _ Hmsg Hline) as (b1&Hr1&Ht1&Hs1&->).
  pose proof (request_line_no_NUL _ _ _ _ _ Hline) as [_ Hm].
  pose proof (rl_uri _ _ _ _ _ Hline) as [_ Hu].
  set (uri := s ++ _) in *.
  edestruct (parse_target_absolute (Req (set_buf (data req) b1) (port req) (atoi a) (atoi b)
    (host req) (protocol req) (Z.of_nat (length m) + 1))) as (b2&Hr2&Ht2&->); [done..|].
  assert (host_port ((name ++ portpart) ++ q) name portpart q) as Hhp.
  { apply authority_host_port; [done|]. destruct (au_path _ _ _ _ Huri) as [?|(x&?&_)]; eauto. }
  cbn [data port ver_major ver_minor host protocol path].
  edestruct (parse_host_spec (Req (set_buf (set_buf (data req) b1) b2) (port req) (atoi a) (atoi b)
    (Z.of_nat (length m) + 1 + (Z.of_nat (length s) + 3)) (Z.of_nat (length m) + 1)
    (uri_path_offset m s (name ++ portpart) q (after_target a b tl)))) as (b3&Hr3&Ht3&->).
  { exact Hr2. } { exact Ht2. }
  { pose proof (absolute_uri_length _ _ _ _ Huri). unfold small in Hs1. revert Hs1. unfold cut_uri.
    destruct q; autorewrite with len in *; cbn [length lit String.list_ascii_of_string] in *; lia. }
  { by apply (cut_uri_text m uri). } { exact Hhp. }
  eexists _, _. split; [done|]. split; [|split; [exact Hr3|exact Ht3]].
  destruct (absolute_strings b3 m uri s name portpart q (after_target a b tl)) as (H1&H2&H3&H4);
    [done..|].
  split; [exact H1|exact H2|exact H3|done|done|].
  apply (headers_rep_of (Z.of_nat (length line)) (line ++ NUL :: tl)).
  - apply (headers_rep_mono _ _ _ (data req) b3 _ (mr_headers _ _ _ _ Hmsg)). auto.
  - intros i x Hi Hx. apply H4; [by eapply cut_line_tail|].
    apply request_line_length in Hline. lia.
Qed.

(** C1: a request with an absolute target, [METHOD SCHEME://NAME PORT PATH
    HTTP/MAJOR.MINOR] with a method other than [CONNECT], is accepted, routed to
    host NAME on its port (80 when none is given), and forwarded in origin form:
    method, path ([/] when it is empty), version and the headers in the order
    they arrived, each as [NAME: VALUE] with its own [CRLF], and an empty line. *)
Theorem forward_absolute req line tl hs m s name portpart q a b
    (Hmsg : msg_rep (data req) line tl hs)
    (Hline : request_line line m (s ++ lit "://" ++ (name ++ portpart) ++ q) a b)
    (Huri : absolute_uri (s ++ lit "://" ++ (name ++ portpart) ++ q) s (name ++ portpart) q)
    (Hauth : authority_parts (name ++ portpart) name portpart)
    (Hmethod : m <> lit "CONNECT")
    (Hlen : Z.of_nat (length (header_bytes hs)) <= 268435456) :
  let pth := match q with [] => lit "/" | _ => q end in
  exists req' out, net_parse_req req = Some (0, req') /\
    routed req' m name pth (port_of portpart) (atoi a) (atoi b) hs /\
    req_header req' = Some out /\ strbuf_rep out (req_bytes m pth (atoi a) (atoi b) hs).
Proof.
  intros pth. destruct (parse_absolute _ _ _ _ _ _ _ _ _ _ _ Hmsg Hline Huri Hauth Hmethod)
    as (req'&bs&Hp&Hro&_). exists req'. pose proof Hro as [Hm _ Hq _ [Ha Hb] Hh].
  destruct (req_header_spec req' m pth hs) as (out&Hout&Hrep&_); [done..| | | |].
  - rewrite Ha. apply atoi_range.
  - rewrite Hb. apply atoi_range.
  - pose proof (mr_small _ _ _ _ Hmsg) as Hs. unfold small in Hs.
    apply request_line_length in Hline. unfold pth.
    destruct q; autorewrite with len in *; cbn [length lit String.list_ascii_of_string] in *; lia.
  - exists out. rewrite Ha, Hb in Hrep. done.
Qed.

(** C28: a relative target is routed by the [Host] header, of which the parser
    takes the name and the port; without a [Host] header the request is
    refused with -1. *)
Theorem net_parse_req_relative req line tl hs m u a b
    (Hmsg : msg_rep (data req) line tl hs)
    (Hline : request_line line m u a b)
    (Huri : forall s auth q, ~ absolute_uri u s auth q)
    (Hmethod : m <> lit "CONNECT") :
  (lit "Host" ∉ hs.*1 -> exists req', net_parse_req req = Some (-1, req')) /\
  ((forall v, (lit "Host", v) ∈ hs -> exists name portpart, authority_parts v name portpart) ->
   lit "Host" ∈ hs.*1 ->
   exists v name portpart req', (lit "Host", v) ∈ hs /\ authority_parts v name portpart /\
     net_parse_req req = Some (0, req') /\
     cstr_at (p (buf (data req'))) 0 = Some m /\
     cstr_at (p (buf (data req'))) (path req') = Some u /\
     cstr_at (p (buf (data req'))) (host req') = Some name /\
     port req' = port_of portpart /\
     (portpart = [] -> headers_of (data req') = Some hs)).
Proof.
  destruct (net_parse_req_split _ _ _ _ _ _ _ _ Hmsg Hline) as (b1&Hr1&Ht1&Hs1&->).
  pose proof (request_line_no_NUL _ _ _ _ _ Hline) as [_ Hm].
  pose proof (rl_uri _ _ _ _ _ Hline) as [_ Hu].
  set (req1 := Req _ _ _ _ _ _ _).
  assert (headers_rep (Z.of_nat (length line)) (line ++ NUL :: tl) (data req1) hs) as Hh
    by (apply (headers_rep_mono _ _ _ _ b1 _ (mr_headers _ _ _ _ Hmsg)); auto).
  assert (parse_target req1 = h ← net_data_get_ent_offset (data req1) (lit "Host");
    if h =? -1 then Some (-1, set_host req1 h) else parse_host (set_protocol (set_host req1 h) (-1))) as ->.
  { unfold parse_target. change (buf (data req1)) with b1.
    rewrite (str_in_rep _ _ 0 m Hr1) by by apply str_in_front.
    cbn [mbind option_bind]. rewrite decide_False by done.
    change (path req1) with (Z.of_nat (length m) + 1).
    rewrite (str_in_rep _ _ (Z.of_nat (length m) + 1) u Hr1).
    2: { rewrite cons_middle, app_assoc. apply str_in_here; [len_lia|done]. }
    cbn [mbind option_bind]. by rewrite regexec_uri_None. }
  destruct (get_ent_offset_spec _ _ _ _ (lit "Host") Hh) as [[Hno ->]|(v&h&Hin&->&Hv&Hlo)];
    cbn [mbind option_bind].
  - split; [eauto|]. intros _ Hyes. done.
  - split.
    { intros []. apply list_elem_of_fmap. by exists (lit "Host", v). }
    intros Hauth _. destruct (Hauth v Hin) as (name&portpart&Hparts).
    rewrite (proj2 (Z.eqb_neq _ _)) by lia.
    pose proof (authority_host_port _ _ _ [] Hparts (or_introl eq_refl)) as Hhp.
    rewrite app_nil_r in Hhp. pose proof (request_line_length _ _ _ _ _ Hline) as Hlen.
    pose proof (cut_line_tail _ _ _ _ _ _ _ _ Hline Hv Hlo) as Hv'.
    edestruct (parse_host_spec (set_protocol (set_host req1 h) (-1))) as (b2&Hr2&Ht2&->).
    { exact Hr1. } { exact Ht1. } { unfold small in Hs1. lia. } { exact Hv'. } { exact Hhp. }
    destruct (relative_strings b2 m u (after_target a b tl) h v name portpart [])
      as (H1&H2&_&H4&H5); [done|done|done|done|lia|exact Hr2|].
    exists v, name, portpart. eexists. split_and!; [done|done|reflexivity|exact H1| |exact H2|done|].
    { apply H4; [done|lia]. }
    intros ->. apply (headers_rep_of (Z.of_nat (length line)) (line ++ NUL :: tl)).
    + apply (headers_rep_mono _ _ _ (data req) b2 _ (mr_headers _ _ _ _ Hmsg)). auto.
    + intros i x Hi Hx. apply H5; [by eapply cut_line_tail|by left].
Qed.

(** The target of a [CONNECT] is the authority itself: its name becomes the
    host and its port the port, 80 when none is given. *)
Theorem net_parse_req_connect req line tl hs u name portpart a b
    (Hmsg : msg_rep (data req) line tl hs)
    (Hline : request_line line (lit "CONNECT") u a b)
    (Hauth : authority_parts u name portpart) :
  exists req', net_parse_req req = Some (0, req') /\
    cstr_at (p (buf (data req'))) 0 = Some (lit "CONNECT") /\
    cstr_at (p (buf (data req'))) (host req') = Some name /\
    port req' = port_of portpart /\ headers_of (data req') = Some hs.
Proof.
  destruct (net_parse_req_split _ _ _ _ _ _ _ _ Hmsg Hline) as (b1&Hr1&Ht1&Hs1&->).
  pose proof (request_line_no_NUL _ _ _ _ _ Hline) as [_ Hm].
  pose proof (rl_uri _ _ _ _ _ Hline) as [_ Hu].
  set (req1 := Req _ _ _ _ _ _ _).
  assert (parse_target req1 = parse_host (set_host req1 (path req1))) as ->.
  { unfold parse_target. change (buf (data req1)) with b1.
    rewrite (str_in_rep _ _ 0 _ Hr1) by by apply str_in_front.
    cbn [mbind option_bind]. by rewrite decide_True. }
  pose proof (authority_host_port _ _ _ [] Hauth (or_introl eq_refl)) as Hhp.
  rewrite app_nil_r in Hhp.
  assert (str_in (lit "CONNECT" ++ NUL :: u ++ NUL :: after_target a b tl)
    (Z.of_nat (length (lit "CONNECT")) + 1) u) as Hstr.
  { rewrite cons_middle, app_assoc. apply str_in_here; [len_lia|done]. }
  edestruct (parse_host_spec (set_host req1 (path req1))) as (b2&Hr2&Ht2&->).
  { exact Hr1. } { exact Ht1. } { unfold small in Hs1. lia. } { exact Hstr. } { exact Hhp. }
  destruct (relative_strings b2 (lit "CONNECT") u (after_target a b tl) (path req1) u name portpart [])
    as (H1&H2&_&_&H5); [done|exact Hstr|done|done|done|exact Hr2|].
  eexists. split_and!; [reflexivity|exact H1|exact H2|done|].
  apply (headers_rep_of (Z.of_nat (length line)) (line ++ NUL :: tl)).
  - apply (headers_rep_mono _ _ _ (data req) b2 _ (mr_headers _ _ _ _ Hmsg)). auto.
  - intros i x Hi Hx. apply H5; [by eapply cut_line_tail|]. right.
    apply request_line_length in Hline. change (path req1) with (Z.of_nat (length (lit "CONNECT")) + 1). lia.
Qed.

(** A request in a well-formed buffer, with the return value of a parser. *)
Definition safe_result (r : option (Z * net_req)) : Prop :=
  exists ret req' bs, r = Some (ret, req') /\ (ret = 0 \/ ret = -1) /\
    strbuf_rep (buf (data req')) bs /\ strbuf_term (buf (data req')).

Lemma parse_host_safe req bs text :
  strbuf_rep (buf (data req)) bs -> strbuf_term (buf (data req)) ->
  Z.of_nat (length bs) <= 268435457 -> str_in bs (host req) text -> safe_result (parse_host req).
Proof.
  intros Hr Ht Hs Htext. destruct (regexec host_re text) as [res|] eqn:E.
  - destruct (host_port_total text) as (name&portpart&rest&Hhp).
    { intros Hst. by rewrite regexec_host_None in E. }
    destruct (parse_host_spec req bs text name portpart rest) as (b&Hr'&Ht'&->); [done..|].
    eexists _, _, _. split; [done|]. split; [by left|]. by split; [exact Hr'|].
  - unfold parse_host. rewrite (str_in_rep _ _ _ _ Hr Htext). cbn [mbind option_bind].
    rewrite E. eexists _, _, _. split; [done|]. split; [by right|]. by split; [exact Hr|].
Qed.

(** C6: whatever the start line and the headers are, [net_parse_req] commits no
    undefined behaviour: it returns 0 or -1, every access stays inside the
    buffer, and the buffer is still well formed afterwards. *)
Theorem net_parse_req_safe req line tl hs
    (Hmsg : msg_rep (data req) line tl hs) (Hline : NUL ∉ line) :
  safe_result (net_parse_req req).
Proof.
  destruct (regexec req_re line) as [res|] eqn:E.
  2: { unfold net_parse_req. rewrite (str_in_rep _ _ 0 line (mr_rep _ _ _ _ Hmsg)) by by apply str_in_front.
       cbn [mbind option_bind]. rewrite E. eexists _, _, _. split; [done|]. split; [by right|].
       split; [apply (mr_rep _ _ _ _ Hmsg)|apply (mr_term _ _ _ _ Hmsg)]. }
  apply regexec_req_inv in E as (m&u&a&b&Hl&_).
  destruct (net_parse_req_split _ _ _ _ _ _ _ _ Hmsg Hl) as (b1&Hr1&Ht1&Hs1&->).
  pose proof (request_line_no_NUL _ _ _ _ _ Hl) as [_ Hm].
  pose proof (rl_uri _ _ _ _ _ Hl) as [_ Hu].
  set (req1 := Req _ _ _ _ _ _ _). set (R := after_target a b tl) in *.
  assert (str_in (m ++ NUL :: u ++ NUL :: R) (path req1) u) as Hstr.
  { rewrite cons_middle, app_assoc. apply str_in_here; [simpl; len_lia|done]. }
  destruct (decide (m = lit "CONNECT")) as [->|Hc].
  { unfold parse_target. change (buf (data req1)) with b1.
    rewrite (str_in_rep _ _ 0 _ Hr1) by by apply str_in_front.
    cbn [mbind option_bind]. rewrite decide_True by done.
    eapply parse_host_safe; [exact Hr1|exact Ht1|unfold small in Hs1; lia|exact Hstr]. }
  destruct (regexec uri_re u) as [res'|] eqn:E.
  - apply regexec_uri_inv in E as (s&auth&q&Ha&_).
    destruct (parse_target_absolute req1 m u s auth q R) as (b2&Hr2&Ht2&->); [done..|].
    eapply parse_host_safe; [exact Hr2|exact Ht2| |by apply (cut_uri_text m u)].
    pose proof (absolute_uri_length _ _ _ _ Ha). unfold small in Hs1. revert Hs1. unfold cut_uri.
    destruct q; autorewrite with len in *; cbn [length lit String.list_ascii_of_string] in *; lia.
  - unfold parse_target. change (buf (data req1)) with b1.
    rewrite (str_in_rep _ _ 0 m Hr1) by by apply str_in_front.
    cbn [mbind option_bind]. rewrite decide_False by done.
    rewrite (str_in_rep _ _ _ u Hr1 Hstr). cbn [mbind option_bind]. rewrite E.
    assert (headers_rep (Z.of_nat (length line)) (line ++ NUL :: tl) (data req1) hs) as Hh
      by (apply (headers_rep_mono _ _ _ _ b1 _ (mr_headers _ _ _ _ Hmsg)); auto).
    destruct (get_ent_offset_spec _ _ _ _ (lit "Host") Hh) as [[_ ->]|(v&h&_&->&Hv&Hlo)];
      cbn [mbind option_bind].
    + rewrite Z.eqb_refl. eexists _, _, _. split; [done|]. split; [by right|].
      split; [exact Hr1|exact Ht1].
    + rewrite (proj2 (Z.eqb_neq _ _)) by lia.
      eapply parse_host_safe; [exact Hr1|exact Ht1|unfold small in Hs1; lia|by eapply cut_line_tail].
Qed.

(** Exactly the lines of the request grammar are parsed further: any other
    start line is refused with -1 and the request is left as it was. *)
Theorem net_parse_req_malformed req line tl hs
    (Hmsg : msg_rep (data req) line tl hs) (Hline : NUL ∉ line)
    (Hbad : forall m u a b, ~ request_line line m u a b) :
  net_parse_req req = Some (-1, req).
Proof.
  unfold net_parse_req. rewrite (str_in_rep _ _ 0 line (mr_rep _ _ _ _ Hmsg)) by by apply str_in_front.
  cbn [mbind option_bind]. destruct (regexec req_re line) eqn:E; [|done].
  apply regexec_req_inv in E as (m&u&a&b&Hl&_). by destruct (Hbad m u a b).
Qed.


(** ** Responses *)

(** A parsed response: its numbers, its first string, its headers and the
    header that is sent on. *)
Record parsed_rsp (rsp : net_rsp) (a b c t : list ascii) (hs : headers) (lo : Z) (l : list ascii)
    : Prop := ParsedRsp {
  pr_code : code rsp = atoi c;
  pr_ver : rsp_ver_major rsp = atoi a /\ rsp_ver_minor rsp = atoi b;
  pr_first : cstr_at (p (buf (rsp_data rsp))) 0 = Some (lit "HTTP/" ++ a);
  pr_rep : strbuf_rep (buf (rsp_data rsp)) l;
  pr_headers : headers_rep lo l (rsp_data rsp) hs;
  pr_out : exists out, rsp_header rsp = Some out /\
    strbuf_rep out (rsp_bytes (atoi a) (atoi b) (atoi c) t hs)
}.

Lemma net_parse_rsp_parsed rsp line tl hs a b c t :
  msg_rep (rsp_data rsp) line tl hs -> status_line line a b c t ->
  Z.of_nat (length (header_bytes hs)) <= 268435456 ->
  exists rsp' lo l, net_parse_rsp rsp = Some (0, rsp') /\ parsed_rsp rsp' a b c t hs lo l.
Proof.
  intros Hmsg Hline Hlen.
  destruct (net_parse_rsp_spec _ _ _ _ _ _ _ (mr_rep _ _ _ _ Hmsg) (mr_term _ _ _ _ Hmsg) Hline)
    as (b'&Hr'&Ht'&->).
  set (rsp' := Rsp _ _ _ _ _).
  set (l := (lit "HTTP/" ++ a ++ NUL :: b ++ NUL :: c ++ NUL :: t ++ [NUL]) ++ tl).
  exists rsp', (Z.of_nat (length line)), l. split; [done|].
  pose proof Hline as [El [_ Ha] _ _ [_ Ht]].
  assert (length line = length (lit "HTTP/" ++ a ++ NUL :: b ++ NUL :: c ++ NUL :: t)) as Hll.
  { rewrite El. autorewrite with len. cbn [length]. lia. }
  assert (headers_rep (Z.of_nat (length line)) l (rsp_data rsp') hs) as Hhr.
  { apply (headers_rep_mono _ _ _ (rsp_data rsp) b' _ (mr_headers _ _ _ _ Hmsg)).
    intros i x Hi Hx.
    replace (line ++ NUL :: tl) with ((line ++ [NUL]) ++ tl) in Hx by app_eq.
    eapply str_in_tail; [| |exact Hx]; autorewrite with len in *; cbn [length] in *; lia. }
  assert (strbuf_rep (buf (rsp_data rsp')) l) as Hrep by contents_from Hr' ltac:(unfold l; app_eq).
  split; [done|done| |exact Hrep|exact Hhr|].
  - eapply str_in_rep; [exact Hr'|].
    replace (lit "HTTP/" ++ a ++ NUL :: b ++ NUL :: c ++ NUL :: t ++ NUL :: tl) with
      ((lit "HTTP/" ++ a) ++ NUL :: (b ++ NUL :: c ++ NUL :: t ++ NUL :: tl)) by app_eq.
    apply str_in_front. rewrite not_elem_of_app. split; [wit_dec|].
    by apply (all_in_no_NUL digit).
  - destruct (rsp_header_spec rsp' t hs) as (out&Hout&Hrep'&_); [| |apply atoi_range..| |].
    + eapply str_in_rep; [exact Hr'|]. unfold rsp'. cbn [http_msg].
      replace (lit "HTTP/" ++ a ++ NUL :: b ++ NUL :: c ++ NUL :: t ++ NUL :: tl) with
        ((lit "HTTP/" ++ a ++ NUL :: b ++ NUL :: c ++ [NUL]) ++ t ++ NUL :: tl) by app_eq.
      by apply str_in_here.
    + eapply headers_rep_of; [exact Hhr|]. intros i x _ Hx. by eapply str_in_rep.
    + pose proof (mr_small _ _ _ _ Hmsg) as Hs. unfold small in Hs. rewrite El in Hs.
      autorewrite with len in *. cbn [length] in *. lia.
    + by exists out.
Qed.

(** C21: a response whose status line is [HTTP/MAJOR.MINOR CODE MESSAGE] is
    accepted and sent on with the same version, code and message as numbers and
    text, and with its headers in the order they arrived. *)
Theorem forward_rsp rsp line tl hs a b c t
    (Hmsg : msg_rep (rsp_data rsp) line tl hs) (Hline : status_line line a b c t)
    (Hlen : Z.of_nat (length (header_bytes hs)) <= 268435456) :
  exists rsp' out, net_parse_rsp rsp = Some (0, rsp') /\ code rsp' = atoi c /\
    headers_of (rsp_data rsp') = Some hs /\
    rsp_header rsp' = Some out /\ strbuf_rep out (rsp_bytes (atoi a) (atoi b) (atoi c) t hs).
Proof.
  destruct (net_parse_rsp_parsed _ _ _ _ _ _ _ _ Hmsg Hline Hlen)
    as (rsp'&lo&l&Hp&[Hc _ _ Hr Hh (out&Hout&Ho)]).
  exists rsp', out. split_and!; [done|done| |done|done].
  eapply headers_rep_of; [exact Hh|]. intros i x _ Hx. by eapply str_in_rep.
Qed.

(** ** Header lines *)

(** After a line [NAME:VALUE] was read behind the contents, with a name
    shorter than 32 characters, [net_parse_header] at its offset adds the pair
    of the name and the value, without the spaces between the colon and the
    value, behind the headers already in the table, and keeps those. *)
Theorem net_parse_header_adds d line tl hs hline name sp val
    (Hbuf : strbuf_rep (buf d) (line ++ NUL :: tl ++ hline ++ [NUL]))
    (Hterm : strbuf_term (buf d))
    (Hsmall : small (line ++ NUL :: tl ++ hline ++ [NUL]))
    (Hhs : headers_rep (Z.of_nat (length line)) (line ++ NUL :: tl) d hs)
    (Hline : header_line hline name sp val)
    (Hname : (length name < HTTP_HEADER_KEY_MAXLEN)%nat) :
  exists d' tl', net_parse_header d (Z.of_nat (length (line ++ NUL :: tl))) = Some (0, d') /\
    msg_rep d' line tl' (hs ++ [(name, val)]) /\ length tl' = length (tl ++ hline ++ [NUL]).
Proof.
  pose proof (net_parse_header_spec _ (line ++ NUL :: tl) d hs hline Hhs) as H.
  rewrite (header_of_line_grammar _ _ _ _ Hline), decide_True in H by done.
  destruct H as (d'&x&Hp&Hx&Hr&Ht&Hh); [len_lia|contents_from Hbuf ltac:(app_eq)|done|].
  assert ((line ++ NUL :: tl) ++ x = line ++ NUL :: (tl ++ x)) as E by app_eq.
  rewrite E in *. exists d', (tl ++ x). split; [done|]. split; [split; [exact Hr|done| |exact Hh]|].
  - unfold small in *. autorewrite with len in *. cbn [length] in *. autorewrite with len in *.
    cbn [length] in *. lia.
  - len_lia.
Qed.

(** A header whose name fills the 32-byte key array leaves the key without
    a terminator, so [HASH_ADD_STR] reads past its end: the behaviour is
    undefined. *)
Theorem long_header_name_undefined d offset hline name sp val
    (Hat : exists l, strbuf_rep (buf d) (l ++ hline ++ [NUL]) /\ offset = Z.of_nat (length l))
    (Hterm : strbuf_term (buf d))
    (Hline : header_line hline name sp val)
    (Hname : (HTTP_HEADER_KEY_MAXLEN <= length name)%nat) :
  net_parse_header d offset = None.
Proof.
  destruct Hat as (l&Hr&->). pose proof (header_line_no_NUL _ _ _ _ Hline) as (Hn&_&Hl).
  destruct (header_line_loose _ _ _ _ Hline) as (res&Hres&Hlo&Hc).
  destruct (net_parse_header_cut d l hline [] [] name sp val res) as (b&_&_&->); [done..|].
  unfold add_ent. by rewrite cstr_strncpy_long.
Qed.

Lemma set_ent_loop_diverges fuel c val : forall b bs,
  strbuf_rep b bs -> Z.of_nat (length bs) + Z.of_nat fuel < 1073741823 ->
  set_ent_loop fuel b (c :: val) = Some None.
Proof.
  induction fuel as [|fuel IH]; intros b bs Hr Hf; [done|]. cbn [set_ent_loop].
  destruct (strbuf_append_rep b bs c Hr) as (b'&->&Hr'&_).
  { rewrite (strbuf_rep_len _ _ Hr). lia. }
  cbn [mbind option_bind]. apply (IH _ _ Hr'). len_lia.
Qed.

(** C40: [net_data_set_ent] never returns for a non-empty value: its loop
    appends the first character of the value for ever, so no number of
    iterations that fits the buffer ends it. *)
Theorem net_data_set_ent_never_returns fuel d bs key c val
    (Hrep : strbuf_rep (buf d) bs) (Hkey : NUL ∉ key)
    (Hlen : (length key < HTTP_HEADER_KEY_MAXLEN)%nat)
    (Hfuel : Z.of_nat (length bs) + Z.of_nat fuel < 1073741823) :
  net_data_set_ent fuel d key (c :: val) = Some None.
Proof.
  unfold net_data_set_ent, add_ent. rewrite cstr_strncpy by done. cbn [mbind option_bind buf].
  by rewrite (set_ent_loop_diverges _ _ _ _ bs).
Qed.

(** ** Instances *)

(** A buffer and a message built by the buffer operations themselves. *)
Definition mk_buf (bs : list ascii) : strbuf :=
  default (Strbuf [] 0 0) (b ← strbuf_init; strbuf_cat b bs).
Definition mk_data (bs : list ascii) : net_data := NetData (mk_buf bs) None ∅ 1.
Definition mk_req (d : net_data) : net_req := Req d 0 0 0 0 0 0.

Lemma mk_buf_rep bs :
  bs <> [] -> small bs -> strbuf_rep (mk_buf bs) bs /\ strbuf_term (mk_buf bs).
Proof.
  intros Hne Hs. unfold small in Hs. unfold mk_buf. destruct strbuf_init_spec as (b0&->&Hr&_).
  cbn [mbind option_bind]. destruct (strbuf_cat_rep bs b0 [] Hr) as (b&->&Hr'&Ht&_).
  { rewrite (strbuf_rep_len _ _ Hr). cbn [length]. lia. }
  split; [done|]. apply Ht. by left.
Qed.

Lemma mk_msg line tl : small (line ++ NUL :: tl) -> msg_rep (mk_data (line ++ NUL :: tl)) line tl [].
Proof.
  intros Hs. destruct (mk_buf_rep (line ++ NUL :: tl)) as [Hr Ht]; [by destruct line|done|].
  split; [done|done|done|]. by apply headers_rep_init.
Qed.

(** The message with one header whose value is the rest of the contents. *)
Definition add_header (d : net_data) (key : list ascii) (off : Z) : net_data :=
  default d (add_ent d key off).

Lemma mk_msg_header d line tl hs key val off :
  msg_rep d line tl hs -> NUL ∉ key -> (length key < HTTP_HEADER_KEY_MAXLEN)%nat ->
  str_in (line ++ NUL :: tl) off val -> Z.of_nat (length line) < off ->
  msg_rep (add_header d key off) line tl (hs ++ [(key, val)]).
Proof.
  intros [Hr Ht Hs Hh] Hk Hl Hv Ho. unfold add_header.
  destruct (add_ent_spec _ _ _ _ key val off Hh) as (d'&->&Hb&Hh'); [done..|].
  change (default d (Some d')) with d'. split; [by rewrite Hb|by rewrite Hb|done|done].
Qed.

Ltac wit :=
  repeat match goal with
  | |- request_line _ _ _ _ _ => constructor
  | |- absolute_uri _ _ _ _ => constructor
  | |- status_line _ _ _ _ _ => constructor
  | |- header_line _ _ _ _ => constructor
  | |- authority_parts _ _ _ => split
  | |- _ /\ _ => split
  | |- all_in _ _ => wit_dec
  | |- _ ∉ _ => wit_dec
  | |- small _ => vm_compute; discriminate
  | |- _ = _ => reflexivity
  | |- _ <> _ => discriminate
  | |- (_ < _)%nat => vm_compute; lia
  | |- (_ <= _)%nat => vm_compute; lia
  | |- _ <= _ => vm_compute; discriminate
  end.

Definition abs_line : list ascii := lit "GET http://www.example.com:8080/index.html HTTP/1.1".
Definition host_tl : list ascii := lit "Host" ++ NUL :: lit "www.example.com:8080" ++ [NUL].
Definition abs_req : net_req := mk_req (add_header (mk_data (abs_line ++ NUL :: host_tl)) (lit "Host") 57).

Lemma abs_msg :
  msg_rep (data abs_req) abs_line host_tl [(lit "Host", lit "www.example.com:8080")].
Proof.
  apply (mk_msg_header _ _ _ []); [apply mk_msg; wit|wit|wit| |vm_compute; reflexivity].
  vm_compute. reflexivity.
Qed.

Lemma forward_absolute_witness :
  exists req' out, net_parse_req abs_req = Some (0, req') /\ port req' = 8080 /\
    req_header req' = Some out /\
    strbuf_rep out (lit "GET /index.html HTTP/1.1" ++ CRLF ++
                    lit "Host: www.example.com:8080" ++ CRLF ++ CRLF).
Proof.
  destruct (forward_absolute abs_req abs_line host_tl
    [(lit "Host", lit "www.example.com:8080")] (lit "GET") (lit "http")
    (lit "www.example.com") (lit ":8080") (lit "/index.html") (lit "1") (lit "1") abs_msg)
    as (req'&out&Hp&Hro&Hh&Hr).
  - wit.
  - wit. right. eexists. split; [reflexivity|wit].
  - wit. right. eexists. split; [reflexivity|wit].
  - wit.
  - wit.
  - exists req', out. split; [exact Hp|]. split; [exact (ro_port _ _ _ _ _ _ _ _ Hro)|].
    split; [exact Hh|exact Hr].
Defined.

Definition rel_line : list ascii := lit "GET /index.html HTTP/1.0".
Definition rel_tl : list ascii := lit "Host" ++ NUL :: lit "example.com" ++ [NUL].
Definition rel_req : net_req := mk_req (add_header (mk_data (rel_line ++ NUL :: rel_tl)) (lit "Host") 30).

Lemma rel_msg : msg_rep (data rel_req) rel_line rel_tl [(lit "Host", lit "example.com")].
Proof.
  apply (mk_msg_header _ _ _ []); [apply mk_msg; wit|wit|wit|vm_compute; reflexivity..].
Qed.

(** A text that starts with a slash is no absolute URI. *)
Lemma slash_not_absolute x s auth q : ~ absolute_uri ("/"%char :: x) s auth q.
Proof. intros [E [Hs Hall] _ _]. destruct s as [|c s]; [done|]. cbn [app] in E. simplify_eq. by inv Hall. Qed.

Lemma net_parse_req_relative_witness :
  exists req', net_parse_req rel_req = Some (0, req') /\ port req' = 80 /\
    cstr_at (p (buf (data req'))) (host req') = Some (lit "example.com") /\
    cstr_at (p (buf (data req'))) (path req') = Some (lit "/index.html").
Proof.
  destruct (net_parse_req_relative rel_req rel_line rel_tl [(lit "Host", lit "example.com")]
    (lit "GET") (lit "/index.html") (lit "1") (lit "0") rel_msg) as [_ H].
  - wit.
  - intros s auth q. apply slash_not_absolute.
  - wit.
  - destruct H as (v&name&portpart&req'&Hin&Hparts&Hp&_&Hpath&Hhost&Hport&_).
    + intros v Hin. apply list_elem_of_singleton in Hin as [= ->].
      exists (lit "example.com"), []. wit. by left.
    + wit_dec.
    + apply list_elem_of_singleton in Hin as [= ->]. exists req'. split; [exact Hp|].
      destruct Hparts as (E&_&Hd). rewrite Hport, Hhost, Hpath.
      destruct Hd as [->|(ds&->&_)].
      * rewrite app_nil_r in E. rewrite <-E. split_and!; reflexivity.
      * exfalso. assert (":"%char ∈ name ++ ":"%char :: ds) as Hin.
        { apply elem_of_app. right. by left. }
        rewrite <-E in Hin. revert Hin. wit_dec.
Defined.

Definition con_line : list ascii := lit "CONNECT example.com:443 HTTP/1.1".
Definition con_req : net_req := mk_req (mk_data (con_line ++ NUL :: [])).

Lemma net_parse_req_connect_witness :
  exists req', net_parse_req con_req = Some (0, req') /\ port req' = 443 /\
    cstr_at (p (buf (data req'))) (host req') = Some (lit "example.com").
Proof.
  destruct (net_parse_req_connect con_req con_line [] [] (lit "example.com:443")
    (lit "example.com") (lit ":443") (lit "1") (lit "1")) as (req'&Hp&_&Hh&Hport&_).
  - apply mk_msg. wit.
  - wit.
  - wit. right. eexists. split; [reflexivity|wit].
  - exists req'. split; [exact Hp|]. split; [exact Hport|exact Hh].
Defined.

Definition bad_req : net_req := mk_req (mk_data (lit "GET /" ++ [NUL])).

Lemma net_parse_req_safe_witness : safe_result (net_parse_req rel_req).
Proof. apply (net_parse_req_safe rel_req rel_line rel_tl _ rel_msg). wit. Defined.

(** A request line has two spaces. *)
Lemma one_space_malformed m u a b : ~ request_line (lit "GET /") m u a b.
Proof.
  intros Hl. apply regexec_req in Hl as (res&Hres&_). by vm_compute in Hres.
Qed.

Lemma net_parse_req_malformed_witness : net_parse_req bad_req = Some (-1, bad_req).
Proof.
  apply (net_parse_req_malformed bad_req (lit "GET /") [] []).
  - apply mk_msg. wit.
  - wit.
  - apply one_space_malformed.
Defined.

Definition ok_line : list ascii := lit "HTTP/1.1 404 Not Found".
Definition ok_rsp : net_rsp := Rsp (mk_data (ok_line ++ NUL :: [])) 0 0 0 0.

Lemma forward_rsp_witness :
  exists rsp' out, net_parse_rsp ok_rsp = Some (0, rsp') /\ code rsp' = 404 /\
    rsp_header rsp' = Some out /\ strbuf_rep out (ok_line ++ CRLF ++ CRLF).
Proof.
  destruct (forward_rsp ok_rsp ok_line [] [] (lit "1") (lit "1") (lit "404") (lit "Not Found"))
    as (rsp'&out&Hp&Hc&_&Hh&Hr).
  - apply mk_msg. wit.
  - wit.
  - wit.
  - exists rsp', out. split; [exact Hp|]. split; [exact Hc|]. split; [exact Hh|exact Hr].
Defined.

Definition hdr_data : net_data := mk_data (ok_line ++ NUL :: lit "Server:  nginx" ++ [NUL]).

Lemma hdr_data_facts :
  strbuf_rep (buf hdr_data) (ok_line ++ NUL :: lit "Server:  nginx" ++ [NUL]) /\
  strbuf_term (buf hdr_data).
Proof. apply mk_buf_rep; wit. Qed.

Lemma net_parse_header_adds_witness :
  exists d' tl', net_parse_header hdr_data 23 = Some (0, d') /\
    msg_rep d' ok_line tl' [(lit "Server", lit "nginx")].
Proof.
  destruct (net_parse_header_adds hdr_data ok_line [] [] (lit "Server:  nginx") (lit "Server")
    (lit "  ") (lit "nginx")) as (d'&tl'&Hp&Hm&_).
  - apply hdr_data_facts.
  - apply hdr_data_facts.
  - wit.
  - by apply headers_rep_init.
  - wit. intros v. discriminate.
  - wit.
  - exists d', tl'. split; [exact Hp|exact Hm].
Defined.

(** The name of a header of the Fetch standard is 32 characters long. *)
Definition long_line : list ascii := lit "Access-Control-Allow-Credentials: true".

Lemma long_header_name_undefined_witness :
  net_parse_header (mk_data (ok_line ++ NUL :: long_line ++ [NUL])) 23 = None.
Proof.
  apply (long_header_name_undefined _ _ long_line (lit "Access-Control-Allow-Credentials")
    (lit " ") (lit "true")).
  - exists (ok_line ++ [NUL]). split; [|reflexivity]. apply mk_buf_rep; wit.
  - apply mk_buf_rep; wit.
  - wit. intros v. discriminate.
  - wit.
Defined.

Lemma net_data_set_ent_never_returns_witness :
  net_data_set_ent 1000 (mk_data [NUL]) (lit "Via") (lit "proxy") = Some None.
Proof.
  apply (net_data_set_ent_never_returns _ _ [NUL]); [apply mk_buf_rep; wit|wit|wit|].
  vm_compute. reflexivity.
Defined.
