(* ===== verification/Fetch.v ===== *)
(** Reading messages from a connection and sending them on: [net_fetch_headers],
    [net_fetch_http] and the error replies of src/core/net_handle.c, and the
    forwarding functions of src/core/net_data.c. *)

From S2P Require Import Prelude CLib Outcome Strbuf ConnIf ConnIO ConnIOFacts Uthash Regex NetData.
From S2P Require Import HttpGrammar NetDataFacts Headers NetProps.

#[local] Open Scope Z_scope.
#[local] Set Default Proof Using "All".

Definition HTTP_HEADER_MAXLEN : Z := 32 * 1024.

Section operations.
Context {W : Type} `{!ConnEnv W}.

Fixpoint net_fetch_headers (fuel : nat) (i : positive) (d : net_data) : M W (Z * net_data) :=
  match fuel with
  | O => no_fuel
  | S fuel' =>
      let p0 := len (buf d) in
      '(ret, b) ← conn_gets fuel i HTTP_HEADER_MAXLEN (buf d);
      let d := set_buf d b in
      if ret <=? 0 then mret (ret, d) else
      b ← demand (strbuf_append (buf d) NUL);
      '(ret, d) ← demand (net_parse_header (set_buf d b) p0);
      if negb (ret =? 0) then mret (-1, d) else net_fetch_headers fuel' i d
  end.

Definition net_fetch_http (fuel : nat) (i : positive) (d : net_data) : M W (Z * net_data) :=
  '(ret, b) ← conn_gets fuel i HTTP_HEADER_MAXLEN (buf d);
  let d := set_buf d b in
  if ret <=? 0 then mret (ret, d) else
  b ← demand (strbuf_append (buf d) NUL);
  '(ret, d) ← net_fetch_headers fuel i (set_buf d b);
  mret (ret, d).

Definition net_forward_req_header (fuel : nat) (req : net_req) (i : positive) : M W Z :=
  b ← demand (req_header req);
  s ← demand (bytes_at (p b) 0 (len b));
  conn_write fuel i s (len b).

(** The result of [conn_write] is dropped. *)
Definition net_forward_rsp_header (fuel : nat) (rsp : net_rsp) (i : positive) : M W Z :=
  b ← demand (rsp_header rsp);
  s ← demand (bytes_at (p b) 0 (len b));
  _ ← conn_write fuel i s (len b);
  mret 0.

Definition bad_request_msg : list ascii :=
  lit "HTTP/1.1 400 Bad Request" ++ CRLF ++ lit "Server: http-proxy" ++ CRLF ++ CRLF.
Definition bad_gateway_msg : list ascii :=
  lit "HTTP/1.1 502 Bad Gateway" ++ CRLF ++ lit "Server: http-proxy" ++ CRLF ++ CRLF.

Definition net_bad_request (fuel : nat) (i : positive) : M W () :=
  c ← load_conn i;
  if negb (open c) then mret () else
  _ ← conn_write fuel i bad_request_msg (Z.of_nat (length bad_request_msg));
  conn_close i.

Definition net_bad_gateway (fuel : nat) (i : positive) : M W () :=
  c ← load_conn i;
  if negb (open c) then mret () else
  _ ← conn_write fuel i bad_gateway_msg (Z.of_nat (length bad_gateway_msg));
  mret ().
End operations.

(** Solve a [reading] goal by one with equal bytes. *)
Ltac reading_from H :=
  match type of H with
  | ConnIOFacts.reading _ _ _ _ ?l =>
      match goal with |- ConnIOFacts.reading _ _ _ _ ?l' => replace l' with l by app_eq; exact H end
  end.

Section facts.
Context {W : Type} `{!ConnEnv W, !ConnObs W} (rd wr : positive -> Prop).
Context `{!ConnLaws W rd wr} (budget : nat).

Abbreviation reading := (reading rd budget).
Abbreviation rd_frame := (rd_frame wr).

(** A header section as it arrives: lines with their line ends. *)
Definition lines_bytes (ls : list (list ascii * list ascii)) : list ascii :=
  concat ((fun l => l.1 ++ l.2) <$> ls).

(** Among the bytes consumed is a line whose header name is too long for the
    key array. *)
Definition long_name_received (i : positive) (taken : list ascii) (w : W) : Prop :=
  exists pre line post name val, reading w i (taken ++ pre ++ line ++ post) /\
    header_of_line line = Some (name, val) /\ (HTTP_HEADER_KEY_MAXLEN <= length name)%nat.

Lemma long_name_later i taken x w :
  long_name_received i (taken ++ x) w -> long_name_received i taken w.
Proof.
  intros (pre&line&post&name&val&Hr&H). exists (x ++ pre), line, post, name, val.
  split; [|done]. revert Hr. by rewrite <-!app_assoc.
Qed.

(** Lines of headers, ended by an empty line. *)
Record header_section (ls : list (list ascii * list ascii)) (e : list ascii) (hs : headers) : Prop :=
  HeaderSection {
    hsec_lines : mapM (fun l => header_of_line l.1) ls = Some hs;
    hsec_plain : Forall (fun l => l.1 <> [] /\ Forall plain l.1 /\ line_end l.2) ls;
    hsec_names : Forall (fun kv => length kv.1 < HTTP_HEADER_KEY_MAXLEN)%nat hs;
    hsec_end : line_end e
  }.

Lemma lines_bytes_cons l ls : lines_bytes (l :: ls) = l.1 ++ l.2 ++ lines_bytes ls.
Proof. unfold lines_bytes. cbn. by rewrite <-app_assoc. Qed.

(** The state after the start line and some headers were read. *)
Record fetched (w : W) (i : positive) (d : net_data) (line tl : list ascii) (hs : headers)
    (taken : list ascii) : Prop := Fetched {
  fe_reading : reading w i taken;
  fe_rep : strbuf_rep (buf d) (line ++ NUL :: tl);
  fe_term : strbuf_term (buf d);
  fe_limit : Z.of_nat (length (line ++ NUL :: tl)) + 1 <= HTTP_HEADER_MAXLEN;
  fe_headers : headers_rep (Z.of_nat (length line)) (line ++ NUL :: tl) d hs;
  fe_bytes : (length (header_bytes hs) <= 2 * length tl + 2)%nat
}.

Lemma headers_rep_buf lo l d b hs : headers_rep lo l d hs -> headers_rep lo l (set_buf d b) hs.
Proof. intros H. by eapply headers_rep_mono. Qed.

Lemma header_bytes_snoc hs kv :
  length (header_bytes (hs ++ [kv])) = (length (header_bytes hs) + length kv.1 + length kv.2 + 4)%nat.
Proof using Type.
  unfold header_bytes. rewrite fmap_app, concat_app. cbn. autorewrite with len. cbn [length CRLF]. lia.
Qed.

Lemma net_fetch_headers_spec i line : forall fuel tl d hs taken w,
  fetched w i d line tl hs taken ->
  (stalls w + Z.to_nat (HTTP_HEADER_MAXLEN - Z.of_nat (length (line ++ NUL :: tl))) < fuel)%nat ->
  wp (long_name_received i taken) (net_fetch_headers fuel i d) (fun rd' w' =>
    rd_frame w w' /\
    ((rd'.1 = 0 /\ exists ls e hs' tl',
        header_section ls e hs' /\ fetched w' i rd'.2 line tl' (hs ++ hs') (taken ++ lines_bytes ls ++ e)) \/
     (rd'.1 = -1 /\ exists x, reading w' i (taken ++ x)))) w.
Proof.
  induction fuel as [|fuel IH]; intros tl d hs taken w [Hrd Hr Ht Hlim Hh Hbytes] Hf; [lia|].
  cbn [net_fetch_headers]. rewrite (strbuf_rep_len _ _ Hr).
  set (l := line ++ NUL :: tl) in *.
  eapply wp_seq.
  { eapply wp_undef_mono; [eapply (conn_gets_spec rd wr budget); [done|exact Hr|done|by vm_compute|done]|done]. }
  intros [ret b1] w1 (hline&(Hfr1&Hr1&Ht1&Hlen1&Hpl1)&Hcase). cbn [fst snd] in *.
  destruct Hcase as [[-> Hx]|(->&Hlt&e&He&Hrd1)].
  { cbn [Z.leb Z.compare]. wp_step. split; [done|]. by right. }
  destruct (Z.leb_spec (Z.of_nat (length hline)) 0) as [H0|H0].
  { wp_step. split; [done|]. destruct hline; [|cbn in H0; lia]. left. split; [done|].
    exists [], e, [], tl. rewrite !app_nil_r in *. split; [by split|].
    split; [exact Hrd1|exact Hr1|apply Ht1; by right|exact Hlim|by apply headers_rep_buf|done]. }
  destruct (strbuf_append_rep b1 _ NUL Hr1) as (b2&Hb2&Hr2&Ht2&_).
  { rewrite (strbuf_rep_len _ _ Hr1). unfold HTTP_HEADER_MAXLEN in *. lia. }
  change (buf (set_buf d b1)) with b1. apply wp_bind, (wp_demand _ _ b2); [done|].
  rewrite <-app_assoc in Hr2. change (set_buf (set_buf d b1) b2) with (set_buf d b2).
  pose proof (net_parse_header_spec _ l (set_buf d b2) hs hline (headers_rep_buf _ _ _ b2 _ Hh)) as Hp.
  destruct (header_of_line hline) as [[name val]|] eqn:Eh.
  2: { rewrite Hp; [|unfold l; len_lia|done|done].
       apply wp_bind, (wp_demand _ _ (-1, set_buf d b2)); [done|].
       cbn [Z.eqb negb]. wp_step. split; [done|]. right. split; [done|].
       exists (hline ++ e). done. }
  case_decide as Hname.
  2: { rewrite Hp; [|unfold l; len_lia|done|done]. apply wp_bind. unfold wp, demand, undef.
       exists [], hline, e, name, val. split_and!; [done|done|lia]. }
  destruct Hp as (d'&x&->&Hx&Hr'&Ht'&Hh'); [unfold l; len_lia|done|done|].
  apply wp_bind, (wp_demand _ _ (0, d')); [done|]. cbn [Z.eqb negb].
  assert (l ++ x = line ++ NUL :: (tl ++ x)) as E by (unfold l; app_eq).
  rewrite E in *. autorewrite with len in Hx. cbn [length] in Hx.
  eapply wp_mono.
  - eapply wp_undef_mono.
    + apply (IH (tl ++ x) d' (hs ++ [(name, val)]) (taken ++ hline ++ e)).
      * split; [done|done|done| |done|].
        2: { rewrite header_bytes_snoc. apply header_of_line_length in Eh. cbn [fst snd].
             autorewrite with len. lia. }
        revert Hlt. rewrite <-E. unfold l. autorewrite with len. cbn [length]. lia.
      * destruct Hfr1 as [_ Hst1]. rewrite <-E. revert Hf. autorewrite with len. lia.
    + intros w'. apply long_name_later.
  - intros [ret d2] w2 [Hfr2 Hcase]. split; [by etrans|]. cbn [fst snd] in *.
    destruct Hcase as [(->&ls&e2&hs'&tl'&Hsec&Hfe)|(->&y&Hy)].
    + left. split; [done|]. exists ((hline, e) :: ls), e2, ((name, val) :: hs'), tl'. split.
      * destruct Hsec as [H1 H2 H3 H4]. split; [|constructor|constructor|done]; cbn [fst snd]; auto.
        -- apply mapM_Some. apply mapM_Some in H1. by constructor.
        -- split_and!; [by intros ->|done|done].
      * rewrite lines_bytes_cons. cbn [fst snd]. rewrite <-!app_assoc in *. exact Hfe.
    + right. split; [done|]. exists ((hline ++ e) ++ y). by rewrite <-app_assoc in Hy.
Qed.

Lemma net_data_init_rep d :
  net_data_init = Some d -> strbuf_rep (buf d) [] /\ strbuf_term (buf d) /\ table d = None.
Proof.
  unfold net_data_init. destruct strbuf_init_spec as (b&->&Hr&Ht&_). by intros [= <-].
Qed.

(** The message [line], [hs] read from the connection into [d]; [bytes] are
    the bytes it was made of. *)
Definition message_read (d : net_data) (line : list ascii) (hs : headers) (bytes : list ascii) : Prop :=
  line <> [] /\ Forall plain line /\
  Z.of_nat (length line) <= HTTP_HEADER_MAXLEN /\
  Z.of_nat (length (header_bytes hs)) <= 2 * HTTP_HEADER_MAXLEN /\
  exists tl e ls e2, line_end e /\ header_section ls e2 hs /\ msg_rep d line tl hs /\
    bytes = line ++ e ++ lines_bytes ls ++ e2.

Lemma net_fetch_http_message i fuel d taken w :
  net_data_init = Some d -> reading w i taken -> (stalls w + Z.to_nat HTTP_HEADER_MAXLEN < fuel)%nat ->
  wp (long_name_received i taken) (net_fetch_http fuel i d) (fun rd' w' =>
    rd_frame w w' /\
    ((rd'.1 = 0 /\ exists line hs bytes, message_read rd'.2 line hs bytes /\
        reading w' i (taken ++ bytes)) \/
     (rd'.1 = 0 /\ strbuf_rep (buf rd'.2) [] /\ strbuf_term (buf rd'.2) /\ exists e, line_end e /\ reading w' i (taken ++ e)) \/
     (rd'.1 = -1 /\ exists x, reading w' i (taken ++ x)))) w.
Proof.
  intros (Hr&Ht&Htab)%net_data_init_rep Hrd Hf. unfold net_fetch_http. eapply wp_seq.
  { eapply wp_undef_mono;
      [eapply (conn_gets_spec rd wr budget); [done|exact Hr|by vm_compute|by vm_compute|]|done].
    cbn [length]. rewrite Z.sub_0_r. done. }
  intros [ret b1] w1 (line&(Hfr1&Hr1&Ht1&Hlen1&Hpl1)&Hcase). cbn [fst snd] in *.
  destruct Hcase as [[-> Hx]|(->&Hlt&e&He&Hrd1)].
  { cbn [Z.leb Z.compare]. wp_step. split; [done|]. by right; right. }
  cbn [app] in *. destruct (Z.leb_spec (Z.of_nat (length line)) 0) as [H0|H0].
  { wp_step. split; [done|]. destruct line; [|cbn in H0; lia]. right; left.
    split; [done|]. split; [done|]. split; [apply Ht1; by right|]. by exists e. }
  destruct (strbuf_append_rep b1 _ NUL Hr1) as (b2&Hb2&Hr2&Ht2&_).
  { rewrite (strbuf_rep_len _ _ Hr1). unfold HTTP_HEADER_MAXLEN in *. lia. }
  change (buf (set_buf d b1)) with b1. apply wp_bind, (wp_demand _ _ b2); [done|].
  change (set_buf (set_buf d b1) b2) with (set_buf d b2).
  eapply wp_seq.
  { eapply wp_undef_mono.
    - apply (net_fetch_headers_spec i line fuel [] (set_buf d b2) [] (taken ++ line ++ e)).
      + split; [done|done|done| |by apply headers_rep_init|cbn; lia].
        revert Hlt. autorewrite with len. cbn [length]. lia.
      + destruct Hfr1. autorewrite with len. cbn [length]. lia.
    - intros w'. apply long_name_later. }
  intros [ret d2] w2 [Hfr2 Hcase]. cbn [fst snd] in *. wp_step. split; [by etrans|].
  destruct Hcase as [(->&ls&e2&hs&tl&Hsec&[Hrd2 Hr' Ht' Hl' Hh' Hb'])|(->&y&Hy)].
  - left. split; [done|]. exists line, hs, (line ++ e ++ lines_bytes ls ++ e2). split.
    + autorewrite with len in Hl'. cbn [length] in Hl'.
      split; [by intros ->|]. split; [done|]. split; [lia|]. split; [cbn [app] in *; lia|]. exists tl, e, ls, e2. split_and!; [done|done| |done].
      split; [exact Hr'|done| |exact Hh']. unfold small. unfold HTTP_HEADER_MAXLEN in Hl'. len_lia.
    + reading_from Hrd2.
  - right; right. split; [done|]. exists ((line ++ e) ++ y). reading_from Hy.
Qed.

(** ** Writing *)

Lemma rep_bytes b bs : strbuf_rep b bs -> bytes_at (p b) 0 (len b) = Some bs.
Proof.
  intros (Hl&Hc&Hlt&r&Hp). apply bytes_at_Some. rewrite Hl. split_and!; [lia|done|cbn; lia|].
  cbn. rewrite drop_0, Hp. by rewrite take_app_length' by len_lia.
Qed.

Lemma net_forward_req_header_spec fuel req i f o b bs w :
  req_header req = Some b -> strbuf_rep b bs -> writing wr w i f o ->
  (stalls w + length bs < fuel)%nat ->
  wp safe (net_forward_req_header fuel req i) (fun ret w' =>
    wr_frame rd w w' /\ wrote wr i f o bs (Z.of_nat (length bs)) ret w') w.
Proof.
  intros Hb Hr Hw Hf. unfold net_forward_req_header.
  apply wp_bind, (wp_demand _ _ b); [done|]. apply wp_bind, (wp_demand _ _ bs); [by apply rep_bytes|].
  rewrite (strbuf_rep_len _ _ Hr). eapply wp_mono; [eapply (conn_write_spec rd wr budget); [done|lia|lia]|].
  intros ret w' (?&?&_). done.
Qed.
End facts.
