(* ===== verification/NetHttp.v ===== *)
(** Forwarding message bodies: [net_transfer_body_HTTP_1_1] of
    src/core/net_http.c, over the interface of ConnIf.v. *)

From S2P Require Import Prelude CLib Outcome Strbuf ConnIf ConnIO ConnIOFacts Uthash Regex NetData.
From S2P Require Import HttpGrammar NetDataFacts Headers NetProps Fetch.

#[local] Open Scope Z_scope.
#[local] Set Default Proof Using "All".

Definition HTTP_CHUNK_HEADER_MAXLEN : Z := 256.

Section operations.
Context {W : Type} `{!ConnEnv W}.

(** [conn_write(dst, buf.p, buf.len)]. *)
Definition write_buf (fuel : nat) (dst : positive) (b : strbuf) : M W Z :=
  s ← demand (bytes_at (p b) 0 (len b));
  conn_write fuel dst s (len b).

(** The [while] over the chunks; the signed [len+2] must not overflow. *)
Fixpoint chunk_loop (fuel : nat) (dst src : positive) (b : strbuf) : M W (Z * strbuf) :=
  match fuel with
  | O => no_fuel
  | S fuel' =>
      '(ret, b) ← conn_gets fuel src HTTP_CHUNK_HEADER_MAXLEN (strbuf_reset b);
      if ret <=? 0 then mret (-1, b) else
      b ← demand (strbuf_cat b CRLF);
      ret ← write_buf fuel dst b;
      if negb (ret =? 0) then mret (ret, b) else
      text ← demand (cstr_at (p b) 0);
      let len := default (-1) (sscanf_x text) in
      if len =? 0 then mret (0, b) else
      len2 ← demand (if in_int (len + 2) then Some (len + 2) else None);
      ret ← conn_copy fuel dst src len2;
      if negb (ret =? 0) then mret (ret, b) else chunk_loop fuel' dst src b
  end.

(** The [while] over the trailer lines. *)
Fixpoint trailer_loop (fuel : nat) (dst src : positive) (b : strbuf) : M W Z :=
  match fuel with
  | O => no_fuel
  | S fuel' =>
      '(ret, b) ← conn_gets fuel src HTTP_HEADER_MAXLEN (strbuf_reset b);
      if ret <? 0 then mret ret else
      b ← demand (strbuf_cat b CRLF);
      r ← write_buf fuel dst b;
      if negb (r =? 0) then mret (-1)
      else if ret =? 0 then mret 0 else trailer_loop fuel' dst src b
  end.

Definition transfer_chunked (fuel : nat) (dst src : positive) : M W Z :=
  b ← demand strbuf_init;
  '(ret, b) ← chunk_loop fuel dst src b;
  if ret =? 0 then trailer_loop fuel dst src b else mret ret.

(** The value of a header, [None] when it is absent. *)
Definition header_value (d : net_data) (key : list ascii) : option (option (list ascii)) :=
  off ← net_data_get_ent d key;
  match off with
  | None => Some None
  | Some off => v ← cstr_at (p (buf d)) off; Some (Some v)
  end.

Definition net_transfer_body_HTTP_1_1 (fuel : nat) (dst src : positive) (d : net_data) : M W Z :=
  method ← demand (cstr_at (p (buf d)) 0);
  if bool_decide (method = lit "HEAD") then mret 0 else
  te ← demand (header_value d (lit "Transfer-Encoding"));
  if bool_decide (te = Some (lit "chunked")) then transfer_chunked fuel dst src else
  cl ← demand (header_value d (lit "Content-Length"));
  let len := match cl with Some v => atoi v | None => 0 end in
  if 0 <? len then conn_copy fuel dst src len else mret 0.

(** The call as a function of the method and the two headers. *)
Lemma transfer_body_eq fuel dst src d method te cl w :
  cstr_at (p (buf d)) 0 = Some method ->
  header_value d (lit "Transfer-Encoding") = Some te ->
  header_value d (lit "Content-Length") = Some cl ->
  net_transfer_body_HTTP_1_1 fuel dst src d w =
    if bool_decide (method = lit "HEAD") then Ok 0 w
    else if bool_decide (te = Some (lit "chunked")) then transfer_chunked fuel dst src w
    else let n := match cl with Some v => atoi v | None => 0 end in
         if 0 <? n then conn_copy fuel dst src n w else Ok 0 w.
Proof.
  intros Hm Hte Hcl. unfold net_transfer_body_HTTP_1_1. rewrite Hm, Hte, Hcl.
  unfold demand, mbind, M_bind, mret, M_ret. cbv beta iota.
  destruct (bool_decide (method = _)); [done|]. destruct (bool_decide (te = _)); [done|].
  by destruct (0 <? _).
Qed.
End operations.

(** ** The bodies *)

(** The number [sscanf] reads from a chunk header, -1 when there is none. *)
Definition chunk_size (line : list ascii) : Z := default (-1) (sscanf_x (text_of (line ++ CRLF))).

(** Trailer lines as they arrive, and as they are sent on. *)
Inductive trailer : list ascii -> list ascii -> Prop :=
| trailer_end e : line_end e -> trailer e CRLF
| trailer_line line e t t' :
    line <> [] -> Forall plain line -> line_end e -> trailer t t' ->
    trailer (line ++ e ++ t) (line ++ CRLF ++ t').

(** The same for a chunked body: the chunk data (with the line end behind it)
    is sent on as it is, the other lines get a [CR LF]. *)
Inductive chunked_body : list ascii -> list ascii -> Prop :=
| chunk_last line e t t' :
    line <> [] -> Forall plain line -> line_end e -> chunk_size line = 0 -> trailer t t' ->
    chunked_body (line ++ e ++ t) (line ++ CRLF ++ t')
| chunk_more line e data t t' :
    line <> [] -> Forall plain line -> line_end e -> chunk_size line <> 0 ->
    Z.of_nat (length data) = chunk_size line + 2 -> chunked_body t t' ->
    chunked_body (line ++ e ++ data ++ t) (line ++ CRLF ++ data ++ t').

(** The beginning of a trailer that was not finished: some lines. *)
Inductive trailer_part : list ascii -> list ascii -> Prop :=
| trailer_none : trailer_part [] []
| trailer_cut line e : Forall plain line -> line_end e -> trailer_part (line ++ e) (line ++ CRLF)
| trailer_more line e t t' :
    line <> [] -> Forall plain line -> line_end e -> trailer_part t t' ->
    trailer_part (line ++ e ++ t) (line ++ CRLF ++ t').

(** The beginning of a chunked body that was not finished: it stops before or
    after a chunk header, in or after the data of a chunk, or in the trailer. *)
Inductive chunked_part : list ascii -> list ascii -> Prop :=
| part_none : chunked_part [] []
| part_header line e :
    line <> [] -> Forall plain line -> line_end e -> chunked_part (line ++ e) (line ++ CRLF)
| part_data line e data :
    line <> [] -> Forall plain line -> line_end e -> chunk_size line <> 0 ->
    Z.of_nat (length data) <= chunk_size line + 2 ->
    chunked_part (line ++ e ++ data) (line ++ CRLF ++ data)
| part_more line e data t t' :
    line <> [] -> Forall plain line -> line_end e -> chunk_size line <> 0 ->
    Z.of_nat (length data) = chunk_size line + 2 -> chunked_part t t' ->
    chunked_part (line ++ e ++ data ++ t) (line ++ CRLF ++ data ++ t')
| part_last line e t t' :
    line <> [] -> Forall plain line -> line_end e -> chunk_size line = 0 -> trailer_part t t' ->
    chunked_part (line ++ e ++ t) (line ++ CRLF ++ t').

(** A chunk header whose size is negative as an [int], or for which [len+2]
    overflows. *)
Definition bad_size (line : list ascii) : Prop := chunk_size line < -2 \/ INT_MAX < chunk_size line + 2.

Section facts.
Context {W : Type} `{!ConnEnv W, !ConnObs W} (rd wr : positive -> Prop).
Context `{!ConnLaws W rd wr} (budget : nat).

Abbreviation reading := (reading rd budget).
Abbreviation writing := (writing wr).
Abbreviation accepted := (accepted wr).
Abbreviation rd_frame := (rd_frame wr).

(** ** What a connection has delivered, whatever became of its buffer *)

Definition seen (i : positive) (x : list ascii) (w : W) : Prop :=
  rd i /\ exists c, get_conn i w = Some c /\ x `prefix_of` rcvd w (fd c).

Lemma reading_seen w i x : reading w i x -> seen i x w.
Proof. intros (Hi&c&un&Hc&_&Hr&_). split; [done|]. exists c. split; [done|]. rewrite Hr. by apply prefix_app_r. Qed.

Lemma seen_prefix i x y w : seen i y w -> x `prefix_of` y -> seen i x w.
Proof. intros (Hi&c&Hc&Hp) Hx. split; [done|]. exists c. split; [done|]. by etrans. Qed.

Lemma seen_frame i x w w' : seen i x w -> wr_frame rd w w' -> seen i x w'.
Proof.
  intros (Hi&c&Hc&Hp) [Hf _]. destruct (Hf i Hi c Hc) as (c'&Hc'&(E&_)&Hr). split; [done|].
  exists c'. by rewrite E, Hr.
Qed.

Lemma seen_put i x c c' w :
  seen i x w -> get_conn i w = Some c -> fd c' = fd c -> seen i x (put_conn i c' w).
Proof.
  intros (Hi&c0&Hc0&Hp) Hc E. simplify_eq. destruct (put_conn_obs (rd:=rd) (wr:=wr) i c' w) as (Hr&_).
  split; [done|]. exists c'. split; [apply (put_conn_get (rd:=rd) (wr:=wr)); congruence|].
  by rewrite Hr, E.
Qed.

(** A step of the reading side that may have spoilt the buffer. *)
Abbreviation seen_post i x w := (fun _ w' => seen i x w' /\ rd_frame w w').

Lemma close_seen i x w : seen i x w -> wp (seen i x) (conn_close i) (seen_post i x w) w.
Proof.
  intros (Hi&c&Hc&Hp). eapply (wp_undef_mono _ safe); [|done].
  eapply wp_mono; [by apply (close_law (rd:=rd) (wr:=wr))|].
  intros _ w' (Hc'&Hne&Hr&Hs&Hst). split; [split; [done|]; eexists; split; [done|by rewrite Hr]|].
  split; [|lia]. intros j _ cj Hj. destruct (decide (j = i)) as [->|Hji].
  - eexists. split; [exact Hc'|]. rewrite Hs. by simplify_eq.
  - exists cj. by rewrite Hne, Hs.
Qed.

Lemma take_char_seen i x c w :
  seen i x w -> get_conn i w = Some c -> wp (seen i x) (take_char i c) (seen_post i x w) w.
Proof.
  intros Hs Hc. unfold take_char. apply wp_bind. unfold demand.
  destruct (load (c_buf c) (buf_s c)) as [ch|]; [|done]. wp_step.
  apply wp_bind, save_conn_wp. wp_step. split; [by eapply seen_put|].
  by eapply (put_conn_rd_frame rd wr budget).
Qed.

Lemma conn_getc_seen fuel i x w :
  seen i x w -> (stalls w < fuel)%nat -> wp (seen i x) (conn_getc fuel i) (seen_post i x w) w.
Proof.
  intros Hs Hf. pose proof Hs as (Hi&c&Hc&Hp). unfold conn_getc.
  apply wp_bind, (load_conn_wp _ _ c); [done|].
  destruct (buf_s c <? buf_e c); [by apply take_char_seen|].
  apply wp_bind, save_conn_wp. set (c1 := with_buf c (c_buf c) 0 0). set (w1 := put_conn i c1 w).
  assert (get_conn i w1 = Some c1) as Hc1 by (apply (put_conn_get (rd:=rd) (wr:=wr)); congruence).
  assert (rd_frame w w1) as Hfr1 by by eapply (put_conn_rd_frame rd wr budget).
  destruct (put_conn_obs (rd:=rd) (wr:=wr) i c1 w) as (Hr1&_&Hst1).
  change (fd c) with (fd c1). eapply wp_seq.
  { eapply wp_undef_mono; [apply (try_recv_spec rd wr budget i); [done|done|]|done]. unfold w1. lia. }
  intros [rlen s] w2 (Hfr2&(c2&Hc2&Hsame)&_&Hcase). cbn [fst snd] in Hcase.
  assert (seen i x w2) as Hs2.
  { split; [done|]. exists c2. split; [done|]. rewrite (proj1 Hsame).
    assert (x `prefix_of` rcvd w1 (fd c1)) by (unfold w1; by rewrite Hr1).
    destruct Hcase as [[_ ->]|(_&_&_&->)]; [done|by apply prefix_app_r]. }
  apply wp_bind, (load_conn_wp _ _ c2); [done|].
  assert (rd_frame w w2) as Hfr by by etrans.
  destruct (rlen =? -1).
  - eapply wp_seq; [by apply close_seen|]. intros _ w3 [??]. wp_step. split; [done|by etrans].
  - apply wp_bind. unfold demand. destruct (fill_buf c2 s) as [b|]; [|done]. wp_step.
    unfold take_char. apply wp_bind. unfold demand.
    destruct (load _ _) as [ch|]; [|done]. wp_step. apply wp_bind, save_conn_wp. wp_step.
    split; [by eapply seen_put|]. etrans; [exact Hfr|]. by eapply (put_conn_rd_frame rd wr budget).
Qed.

Lemma gets_loop_seen i x limit : forall fuel ret b bs w,
  seen i x w -> strbuf_rep b bs -> Z.of_nat (length bs) + 1 <= limit -> limit <= 268435456 ->
  (stalls w + Z.to_nat (limit - Z.of_nat (length bs)) < fuel)%nat ->
  wp (seen i x) (gets_loop fuel i limit ret b) (fun rb w' => seen_post i x w rb w' /\
    exists bs', strbuf_rep rb.2 bs' /\ Z.of_nat (length bs') + 1 <= limit) w.
Proof.
  induction fuel as [|fuel IH]; intros ret b bs w Hs Hr Hlim Hmax Hf; [lia|]. cbn [gets_loop].
  rewrite (strbuf_rep_len _ _ Hr).
  destruct (Z.eqb_spec (Z.of_nat (length bs) + 1) limit).
  { wp_step. split; [done|]. by exists bs. }
  eapply wp_seq; [apply conn_getc_seen; [done|lia]|]. intros ch w1 [Hs1 Hfr1].
  destruct (ch =? -1). { wp_step. split; [done|]. by exists bs. }
  destruct (_ || _). { wp_step. split; [done|]. by exists bs. }
  destruct (strbuf_append_rep b bs (to_char ch) Hr) as (b1&->&Hr1&_).
  { rewrite (strbuf_rep_len _ _ Hr). lia. }
  apply wp_bind, (wp_demand _ _ b1); [done|]. eapply wp_mono.
  - apply (IH _ b1 (bs ++ [to_char ch])); [done|done|len_lia|done|].
    destruct Hfr1. autorewrite with len. cbn [length]. lia.
  - intros rb w2 [[Hs2 Hfr2] H]. split; [|done]. split; [done|by etrans].
Qed.

Lemma conn_gets_seen fuel i x limit b bs w :
  seen i x w -> strbuf_rep b bs -> Z.of_nat (length bs) + 1 <= limit -> limit <= 268435456 ->
  (stalls w + Z.to_nat (limit - Z.of_nat (length bs)) < fuel)%nat ->
  wp (seen i x) (conn_gets fuel i limit b) (fun rb w' => seen_post i x w rb w' /\
    exists bs', strbuf_rep rb.2 bs' /\ Z.of_nat (length bs') + 1 <= limit) w.
Proof.
  intros Hs Hr Hlim Hmax Hf. unfold conn_gets.
  eapply wp_seq; [by apply (gets_loop_seen i x limit fuel 0 b bs)|].
  intros [r b1] w1 [[Hs1 Hfr1] Hb]. destruct r as [[n ch]|]; [|wp_step; by split].
  destruct (negb _). { wp_step. by split. }
  eapply wp_seq; [apply conn_getc_seen; [done|destruct Hfr1; lia]|]. intros ch' w2 [Hs2 Hfr2].
  assert (rd_frame w w2) as Hfr by by etrans.
  destruct (ch' =? -1). { wp_step. by split. }
  destruct (negb _); [|wp_step; by split].
  pose proof Hs2 as (_&c&Hc&_). unfold conn_ungetc. apply wp_bind, wp_bind, (load_conn_wp _ _ c); [done|].
  destruct (negb _); [|wp_step; wp_step; by split].
  apply save_conn_wp. wp_step. split; [|done]. split; [by eapply seen_put|].
  etrans; [exact Hfr|]. by eapply (put_conn_rd_frame rd wr budget).
Qed.

(** ** Sending a line on *)

Lemma rep_text b bs : strbuf_rep b bs -> strbuf_term b -> cstr_at (p b) 0 = Some (text_of bs).
Proof using Type.
  intros (Hl&Hc&Hlt&r&Hp) Ht. unfold strbuf_term in Ht.
  rewrite Hl, Nat2Z.id, Hp, lookup_app_r, length_of_chars, Nat.sub_diag in Ht by len_lia.
  destruct r as [|x r]; simplify_eq/=. destruct (text_of_split bs) as [t E].
  rewrite Hp. apply cstr_at_Some. split; [lia|]. split; [apply text_of_NUL|].
  exists (of_chars t ++ r). cbn. rewrite drop_0.
  change (Some NUL :: r) with (of_chars [NUL] ++ r). rewrite app_assoc, <-of_chars_app, E.
  rewrite of_chars_app. cbn. by rewrite <-app_assoc.
Qed.

Lemma write_buf_spec fuel dst f o b bs w :
  strbuf_rep b bs -> writing w dst f o -> (stalls w + length bs < fuel)%nat ->
  wp safe (write_buf fuel dst b) (fun ret w' => wr_frame rd w w' /\
    ((ret = 0 /\ ~ closed w dst /\ writing w' dst f (o ++ bs)) \/
     (ret = -1 /\ closed w' dst /\ exists d, writing w' dst f (o ++ d) /\ d `prefix_of` bs)) /\
    (closed w dst -> ret = -1 /\ closed w' dst /\ writing w' dst f o)) w.
Proof.
  intros Hr Hw Hf. unfold write_buf. apply wp_bind, (wp_demand _ _ bs); [by apply (rep_bytes rd wr budget)|].
  rewrite (strbuf_rep_len _ _ Hr).
  eapply wp_mono; [apply (conn_write_spec rd wr budget _ _ f _ _ o); [done|lia|lia]|].
  intros ret w' (Hfr&Hwrote&Hcl). split; [done|]. split; [|exact Hcl]. destruct Hwrote as [[-> H]|(->&H&n&_&H')].
  - left. rewrite Nat2Z.id, firstn_all in H. split_and!; [done| |done].
    intros Hc. by destruct (Hcl Hc).
  - right. split_and!; [done|done|]. eexists. split; [done|]. eexists. symmetry. apply take_drop.
Qed.

Lemma cat_crlf b bs :
  strbuf_rep b bs -> Z.of_nat (length bs) + 1 <= HTTP_HEADER_MAXLEN ->
  exists b', strbuf_cat b CRLF = Some b' /\ strbuf_rep b' (bs ++ CRLF) /\ strbuf_term b'.
Proof using Type.
  intros Hr Hl. destruct (strbuf_cat_rep CRLF b bs Hr) as (b'&?&?&Ht&_).
  { rewrite (strbuf_rep_len _ _ Hr). unfold HTTP_HEADER_MAXLEN in *. cbn [length CRLF]. lia. }
  exists b'. split_and!; [done|done|]. apply Ht. by left.
Qed.

(** What is left of the budget of a connection. *)
Lemma reading_budget w i taken : reading w i taken -> (length taken + stalls w <= budget)%nat.
Proof.
  intros (_&c&un&_&_&Hr&Hb). unfold within in Hb. rewrite Hr in Hb. revert Hb. len_lia.
Qed.

(** ** Trailers *)

Definition HEADER_FUEL : nat := Z.to_nat HTTP_HEADER_MAXLEN.

(** Of the bytes [x] that were delivered, [x'] were passed on, in the relation
    [R]: all of [x'], or a prefix before the output was closed. *)
Definition cut_off (R : list ascii -> list ascii -> Prop) (dst src : positive) (f : Z)
    (taken o : list ascii) (w : W) : Prop :=
  exists x x', R x x' /\ seen src (taken ++ x) w /\ accepted w dst f o x'.

Lemma cut_off_nil (R : list ascii -> list ascii -> Prop) dst src f taken o w :
  R [] [] -> seen src taken w -> accepted w dst f o [] -> cut_off R dst src f taken o w.
Proof using Type. intros. exists [], []. by rewrite app_nil_r. Qed.

Lemma accepted_shift w j f o h x : accepted w j f (o ++ h) x -> accepted w j f o (h ++ x).
Proof using Type.
  intros (d&Hw&Hd). exists (h ++ d). rewrite app_assoc. split; [done|].
  destruct Hd as [->|[Hd ?]]; [by left|right]. split; [by apply prefix_app|done].
Qed.

Lemma cut_off_app (R R' : list ascii -> list ascii -> Prop) pre pre' dst src f taken o w :
  (forall x x', R x x' -> R' (pre ++ x) (pre' ++ x')) ->
  cut_off R dst src f (taken ++ pre) (o ++ pre') w -> cut_off R' dst src f taken o w.
Proof using Type.
  intros HR (x&x'&Hx&Hs&Ha%accepted_shift). exists (pre ++ x), (pre' ++ x'). rewrite <-app_assoc in Hs. auto.
Qed.

(** A line and its line end were read, and sent on as far as possible. *)
Lemma cut_off_line (R : list ascii -> list ascii -> Prop) x x' dst src f taken o d w :
  R x x' -> seen src (taken ++ x) w -> writing w dst f (o ++ d) -> d `prefix_of` x' -> closed w dst ->
  cut_off R dst src f taken o w.
Proof using Type. intros. exists x, x'. split_and!; [done..|]. exists d. split; [done|]. by right. Qed.

Lemma trailer_loop_spec dst src f : forall fuel b bs taken o w,
  dst <> src -> strbuf_rep b bs -> reading w src taken -> writing w dst f o ->
  (budget - length taken + budget + HEADER_FUEL + 2 < fuel)%nat ->
  wp safe (trailer_loop fuel dst src b) (fun ret w' =>
    (ret = 0 /\ exists t t', trailer t t' /\ reading w' src (taken ++ t) /\ writing w' dst f (o ++ t')) \/
    (ret = -1 /\ cut_off trailer_part dst src f taken o w')) w.
Proof.
  induction fuel as [|fuel IH]; intros b bs taken o w Hne Hr Hrd Hwr Hf; [lia|].
  pose proof (reading_budget _ _ _ Hrd) as Hbud. cbn [trailer_loop].
  eapply wp_seq.
  { eapply (conn_gets_spec rd wr budget); [done|by eapply strbuf_reset_spec|by vm_compute|by vm_compute|].
    cbn [length]. rewrite Z.sub_0_r. fold HEADER_FUEL. lia. }
  intros [ret b1] w1 (line&(Hfr1&Hr1&_&Hlen1&Hpl)&Hcase). cbn [fst snd app] in *.
  destruct (writing_frame rd wr budget _ _ _ _ _ Hwr Hfr1) as [Hwr1 _].
  destruct Hcase as [(->&x&Hx)|(->&Hlt&e&He&Hrd1)].
  { cbn [Z.ltb Z.compare]. wp_step. right. split; [done|]. apply cut_off_nil; [constructor| |by apply (accepted_start wr)].
    eapply seen_prefix; [by apply reading_seen|by apply prefix_app_r]. }
  rewrite (proj2 (Z.ltb_ge _ _)) by lia.
  destruct (cat_crlf b1 line Hr1 Hlen1) as (b2&Hb2&Hr2&Ht2).
  apply wp_bind, (wp_demand _ _ b2); [done|].
  eapply wp_seq.
  { apply (write_buf_spec _ _ f o _ _ _ Hr2); [done|]. destruct Hfr1.
    autorewrite with len. cbn [length CRLF]. unfold HEADER_FUEL in Hf. lia. }
  intros r w2 (Hfr2&Hcase&_). assert (reading w2 src (taken ++ line ++ e)) as Hrd2 by by eapply (reading_frame rd wr budget).
  destruct Hcase as [(->&_&Hwr2)|(->&Hcl2&d&Hwr2&Hd)]; cbn [Z.eqb Pos.eqb negb].
  2: { wp_step. right. split; [done|]. eapply cut_off_line; [by apply trailer_cut|by apply reading_seen|done..]. }
  destruct (Z.eqb_spec (Z.of_nat (length line)) 0) as [H0|H0].
  { destruct line; [|done]. wp_step. left. split; [done|]. exists e, CRLF. split; [by constructor|done]. }
  eapply wp_mono; [apply (IH b2 (line ++ CRLF) (taken ++ line ++ e) (o ++ line ++ CRLF)); try done|].
  { pose proof (reading_budget _ _ _ Hrd2) as Hb2'. autorewrite with len in *. lia. }
  intros ret w3 [(->&t&t'&Ht&Hrd3&Hwr3)|[-> Hcut]]; [left|right].
  2: { split; [done|]. eapply cut_off_app; [|exact Hcut]. intros x x' Hx. rewrite <-!app_assoc.
       apply trailer_more; [by intros ->|done..]. }
  split; [done|]. exists (line ++ e ++ t), (line ++ CRLF ++ t'). split; [|split].
  - apply trailer_line; [by intros ->|done..].
  - reading_from Hrd3.
  - by rewrite <-!app_assoc in Hwr3.
Qed.

(** ** Chunks *)

(** A chunk header with a size the code does not survive was delivered. *)
Definition bad_size_received (src : positive) (taken : list ascii) (w : W) : Prop :=
  exists pre line, bad_size line /\ seen src (taken ++ pre ++ line) w.

Lemma bad_size_later src taken x w :
  bad_size_received src (taken ++ x) w -> bad_size_received src taken w.
Proof.
  intros (pre&line&Hb&Hs). exists (x ++ pre), line. split; [done|]. by rewrite <-!app_assoc in *.
Qed.

(** Nothing more was passed on, and [x] is still what was delivered. *)
Definition lost (dst src : positive) (f : Z) (o x : list ascii) (w : W) : Prop :=
  seen src x w /\ closed w dst /\ writing w dst f o.

(** Once the output is closed the loop ends with the next chunk header. *)
Lemma chunk_loop_closed (U : W -> Prop) dst src f o x b fuel w :
  wp U (conn_gets (S fuel) src HTTP_CHUNK_HEADER_MAXLEN (strbuf_reset b)) (fun rb w' =>
    seen_post src x w rb w' /\ exists bs, strbuf_rep rb.2 bs /\ Z.of_nat (length bs) + 1 <= HTTP_CHUNK_HEADER_MAXLEN) w ->
  closed w dst -> writing w dst f o -> (stalls w + HEADER_FUEL + 2 < S fuel)%nat ->
  wp U (chunk_loop (S fuel) dst src b) (fun rb w' => rb.1 = -1 /\ lost dst src f o x w') w.
Proof.
  intros Hgets Hcl Hwr Hf. cbn [chunk_loop]. eapply wp_seq; [exact Hgets|].
  intros [ret b1] w1 [[Hs1 Hfr1] (bs1&Hr1&Hl1)]. cbn [snd] in *.
  destruct (writing_frame rd wr budget _ _ _ _ _ Hwr Hfr1) as [Hwr1 Hcl1].
  destruct (ret <=? 0); [wp_step; split; [done|split_and!; auto]|].
  destruct (cat_crlf b1 bs1 Hr1) as (b2&Hb2&Hr2&_).
  { unfold HTTP_CHUNK_HEADER_MAXLEN, HTTP_HEADER_MAXLEN in *. lia. }
  apply wp_bind, (wp_demand _ _ b2); [done|].
  eapply wp_seq.
  { eapply (wp_undef_mono _ safe); [|done]. apply (write_buf_spec _ _ f o _ _ _ Hr2); [done|].
    destruct Hfr1. autorewrite with len. cbn [length CRLF].
    unfold HEADER_FUEL, HTTP_CHUNK_HEADER_MAXLEN, HTTP_HEADER_MAXLEN in *. lia. }
  intros r w2 (Hfr2&_&Hlost). destruct Hlost as (->&Hcl2&Hwr2); [by auto|].
  cbn [Z.eqb Pos.eqb negb]. wp_step. split; [done|]. split_and!; [by eapply seen_frame|done..].
Qed.

Lemma chunk_fuel : (Z.to_nat HTTP_CHUNK_HEADER_MAXLEN <= HEADER_FUEL)%nat.
Proof using Type. unfold HEADER_FUEL, HTTP_CHUNK_HEADER_MAXLEN, HTTP_HEADER_MAXLEN. lia. Qed.

Lemma chunk_loop_lost dst src f o x b bs fuel w :
  seen src x w -> closed w dst -> writing w dst f o -> strbuf_rep b bs ->
  (stalls w + HEADER_FUEL + 2 < fuel)%nat ->
  wp (seen src x) (chunk_loop fuel dst src b) (fun rb w' => rb.1 = -1 /\ lost dst src f o x w') w.
Proof.
  intros Hs Hcl Hwr Hr Hf. pose proof chunk_fuel. destruct fuel as [|fuel]; [lia|].
  eapply chunk_loop_closed; [|done|exact Hwr|done].
  eapply (conn_gets_seen (S fuel) src x); [done|by eapply strbuf_reset_spec|by vm_compute|by vm_compute|].
  cbn [length]. rewrite Z.sub_0_r. lia.
Qed.

(** Without undefined behaviour while the buffer is sound. *)
Lemma chunk_loop_lost_safe dst src f o x b bs fuel w :
  reading w src x -> closed w dst -> writing w dst f o -> strbuf_rep b bs ->
  (stalls w + HEADER_FUEL + 2 < fuel)%nat ->
  wp safe (chunk_loop fuel dst src b) (fun rb w' => rb.1 = -1 /\ lost dst src f o x w') w.
Proof.
  intros Hs Hcl Hwr Hr Hf. pose proof chunk_fuel. destruct fuel as [|fuel]; [lia|].
  eapply chunk_loop_closed; [|done|exact Hwr|done]. eapply wp_mono.
  - eapply (conn_gets_spec rd wr budget); [done|by eapply strbuf_reset_spec|by vm_compute|by vm_compute|].
    cbn [length]. rewrite Z.sub_0_r. lia.
  - intros rb w1 (line&(Hfr1&Hr1&_&Hl1&_)&Hcase). split; [|by exists line]. split; [|done].
    destruct Hcase as [(_&y&Hy)|(_&_&e&_&Hy)]; (eapply seen_prefix; [by apply reading_seen|by apply prefix_app_r]).
Qed.

(** A negative length: the write is undefined unless the output is closed. *)
Lemma write_negative fuel dst f o s n w :
  n < 0 -> writing w dst f o -> (0 < fuel)%nat ->
  wp (fun w' => w' = w) (conn_write fuel dst s n) (fun ret w' =>
    ret = -1 /\ wr_frame rd w w' /\ closed w' dst /\ writing w' dst f o) w.
Proof.
  intros Hn (Hj&c&Hc&<-&Ho) Hf. unfold conn_write. apply wp_bind, (load_conn_wp _ _ c); [done|].
  unfold open. case_bool_decide; cbn [negb].
  - destruct fuel as [|fuel]; [lia|]. cbn [write_loop].
    rewrite (proj2 (Z.eqb_neq n 0)) by lia. rewrite (proj2 (Z.ltb_lt n 0)) by lia. done.
  - eapply wp_seq; [eapply (wp_undef_mono _ safe); [by apply (close_writing rd wr budget dst c)|done]|].
    intros _ w' (?&?&Hw). wp_step. rewrite Ho in Hw. by split_and!.
Qed.

Lemma conn_copy_negative fuel dst src f o taken n w :
  n < 0 -> dst <> src -> reading w src taken -> writing w dst f o -> (stalls w < fuel)%nat ->
  wp (seen src taken) (conn_copy fuel dst src n) (fun ret w' =>
    seen src taken w' /\ (stalls w' <= stalls w)%nat /\ writing w' dst f o /\
    (ret = -1 \/ (ret = 0 /\ closed w' dst))) w.
Proof.
  intros Hn Hne Hrd Hwr Hf. pose proof (reading_seen _ _ _ Hrd) as Hs.
  pose proof Hrd as (Hi&c&un&Hc&Hok&Hr&Hb). unfold conn_copy.
  apply wp_bind, (load_conn_wp _ _ c); [done|].
  destruct (Z.ltb_spec (buf_s c) (buf_e c)) as [Hlt|Hge].
  - apply wp_bind, (wp_demand _ _ un); [apply (bo_unread _ _ Hok)|].
    rewrite (proj2 (Z.ltb_lt n (buf_e c - buf_s c))) by lia. eapply wp_seq.
    { eapply (wp_undef_mono _ (fun w' => w' = w)); [by apply (write_negative _ _ f o); [..|lia]|].
      by intros w' ->. }
    intros ret w1 (->&Hfr1&Hcl1&Hwr1). pose proof (seen_frame _ _ _ _ Hs Hfr1) as Hs1.
    destruct Hfr1 as [Hk Hst1]. destruct (Hk src Hi c Hc) as (c1&Hc1&_).
    apply wp_bind, (load_conn_wp _ _ c1); [done|]. apply wp_bind, save_conn_wp.
    replace (n - n) with 0 by lia. destruct fuel as [|fuel]; [lia|]. cbn [copy_loop Z.eqb].
    set (c2 := with_rx _ _). destruct (put_conn_obs (rd:=rd) (wr:=wr) src c2 w1) as (_&_&Hst2).
    assert (rd_frame w1 (put_conn src c2 w1)) as Hfr2 by by eapply (put_conn_rd_frame rd wr budget).
    destruct (writing_frame rd wr budget _ _ _ _ _ Hwr1 Hfr2) as [Hwr2 Hcl2].
    wp_step. split; [by eapply seen_put|]. split; [lia|]. auto.
  - destruct fuel as [|fuel]; [lia|]. cbn [copy_loop].
    rewrite (proj2 (Z.eqb_neq n 0)) by lia. apply wp_bind, (load_conn_wp _ _ c); [done|].
    destruct (rewind_reading rd wr budget src c un taken w Hi Hc Hok Hge Hr)
      as (Hc1&Hok1&Hr1&Hfr1&Hb1&Hst1).
    set (c1 := with_buf c (c_buf c) 0 0) in *. apply wp_bind, save_conn_wp.
    change (fd c) with (fd c1). eapply wp_seq.
    { eapply (wp_undef_mono _ safe); [|done]. apply (try_recv_spec rd wr budget src); [done|done|lia]. }
    intros [rlen s] w2 (Hfr2&(c2&Hc2&Hsame)&_&Hcase). cbn [fst snd] in Hcase.
    assert (seen src taken w2) as Hs2.
    { split; [done|]. exists c2. split; [done|]. rewrite (proj1 Hsame). rewrite Hr1 in Hcase.
      destruct Hcase as [[_ ->]|(_&_&_&->)]; [done|by apply prefix_app_r]. }
    assert (rd_frame w w2) as Hfr by by etrans.
    destruct (_ || _).
    { eapply wp_seq; [by apply close_seen|]. intros _ w3 [Hs3 Hfr3]. wp_step.
      split; [done|]. split; [destruct Hfr, Hfr3; lia|]. split; [|by left].
      assert (rd_frame w w3) as Hfr' by by etrans. by apply (writing_frame rd wr budget _ _ _ _ _ Hwr Hfr'). }
    apply wp_bind, (load_conn_wp _ _ c2); [done|]. apply wp_bind. unfold demand at 1.
    destruct (fill_buf c2 s) as [b|]; [|done]. wp_step. apply wp_bind, save_conn_wp.
    set (c3 := with_buf c2 b _ _). set (w3 := put_conn src c3 w2).
    destruct (put_conn_obs (rd:=rd) (wr:=wr) src c3 w2) as (_&_&Hst3).
    assert (seen src taken w3) as Hs3 by by eapply seen_put.
    assert (rd_frame w w3) as Hfr3 by (etrans; [exact Hfr|by eapply (put_conn_rd_frame rd wr budget)]).
    destruct (writing_frame rd wr budget _ _ _ _ _ Hwr Hfr3) as [Hwr3 _].
    rewrite (proj2 (Z.ltb_ge rlen n)).
    2: { destruct Hcase as [[-> _]|(->&_)]; lia. }
    eapply wp_seq.
    { eapply (wp_undef_mono _ (fun w' => w' = w3)); [by apply (write_negative _ _ f o); [..|lia]|].
      by intros w' ->. }
    intros ret w4 (->&Hfr4&_&Hwr4). cbn [Z.eqb Pos.eqb]. wp_step.
    split; [by eapply seen_frame|]. split; [destruct Hfr3, Hfr4; lia|]. auto.
Qed.

(** Chunks [x] were consumed and [x'] passed on, and any trailer completes them
    to a body, the beginning of a trailer to the beginning of a body. *)
Definition chunks_done (dst src : positive) (f : Z) (taken o : list ascii) (w : W) : Prop :=
  exists x x', reading w src (taken ++ x) /\ writing w dst f (o ++ x') /\
    (forall t t', trailer t t' -> chunked_body (x ++ t) (x' ++ t')) /\
    (forall t t', trailer_part t t' -> chunked_part (x ++ t) (x' ++ t')).

(** The outcome of the loop over the chunks. *)
Definition chunks_post dst src f taken o (rb : Z * strbuf) (w' : W) : Prop :=
  (rb.1 = 0 /\ (exists bs', strbuf_rep rb.2 bs') /\ chunks_done dst src f taken o w') \/
  (rb.1 = -1 /\ cut_off chunked_part dst src f taken o w').

(** What the loop promises with so much fuel. *)
Definition chunks_ok dst src f fuel : Prop := forall b bs taken o w,
  strbuf_rep b bs -> reading w src taken -> writing w dst f o ->
  (budget - length taken + budget + HEADER_FUEL + 2 < fuel)%nat ->
  wp (bad_size_received src taken) (chunk_loop fuel dst src b) (chunks_post dst src f taken o) w.

(** From the copy of the data on. *)
Definition chunk_data fuel dst src b len2 : M W (Z * strbuf) :=
  ret ← conn_copy (S fuel) dst src len2;
  if negb (ret =? 0) then mret (ret, b) else chunk_loop fuel dst src b.

Lemma chunk_data_negative dst src f fuel b bs x o n w :
  n < 0 -> dst <> src -> strbuf_rep b bs -> reading w src x -> writing w dst f o -> (budget + HEADER_FUEL + 2 < fuel)%nat ->
  wp (seen src x) (chunk_data fuel dst src b n) (fun rb w' => rb.1 = -1 /\ seen src x w' /\ writing w' dst f o) w.
Proof.
  intros Hneg Hne Hr Hrd Hwr Hf. pose proof (reading_budget _ _ _ Hrd) as Hbud. unfold chunk_data. eapply wp_seq.
  { apply (conn_copy_negative _ _ _ f o x); [done..|lia]. }
  intros ret w3 (Hs3&Hst3&Hwr3&[->|(->&Hcl3)]); cbn [Z.eqb Pos.eqb negb]; [by wp_step|].
  eapply wp_mono; [eapply (chunk_loop_lost dst src f _ x); [done|done|exact Hwr3|exact Hr|lia]|].
  by intros rb w4 (?&?&_&?).
Qed.

(** The data of a chunk cut short. *)
Lemma cut_data dst src f taken o w line e :
  line <> [] -> Forall plain line -> line_end e -> chunk_size line <> 0 ->
  rd src -> cut_short rd wr budget w dst src f (taken ++ line ++ e) (o ++ line ++ CRLF) [] (chunk_size line + 2) ->
  cut_off chunked_part dst src f taken o w.
Proof using Type.
  intros Hline Hpl He Hz Hi (data&y&z&_&(c&Hc&Hdl)&Hacc&Hzy&Hlz&_). cbn [app] in Hacc.
  apply accepted_shift in Hacc. rewrite <-app_assoc in Hacc.
  exists (line ++ e ++ z), (line ++ CRLF ++ z). split; [by apply part_data|]. split; [|done].
  split; [done|]. exists c. split; [done|]. rewrite Hdl, <-!app_assoc. do 3 apply prefix_app. done.
Qed.

Lemma chunk_data_spec dst src f fuel b bs line e taken o w : chunks_ok dst src f fuel ->
  dst <> src -> strbuf_rep b bs -> reading w src (taken ++ line ++ e) -> writing w dst f (o ++ line ++ CRLF) ->
  (budget - length taken + budget + HEADER_FUEL + 2 < S fuel)%nat ->
  line <> [] -> line_end e -> Forall plain line -> chunk_size line <> 0 -> 0 <= chunk_size line + 2 ->
  wp (bad_size_received src taken) (chunk_data fuel dst src b (chunk_size line + 2))
    (chunks_post dst src f taken o) w.
Proof.
  intros IH Hne Hr Hrd Hwr Hf Hline He Hpl Hz Hpos. pose proof (reading_budget _ _ _ Hrd) as Hbud. autorewrite with len in Hbud.
  assert (0 < length line)%nat by (destruct line; [done|cbn; lia]). unfold chunk_data. eapply wp_seq.
  { eapply (wp_undef_mono _ safe); [|done].
    apply (conn_copy_spec rd wr budget (S fuel) dst src f (taken ++ line ++ e) (o ++ line ++ CRLF) []);
      [done|done|by apply accepted_start|lia|]. autorewrite with len. lia. }
  intros ret w3 [[(->&data&Hdl&Hrd3&d&Hwr3&Hd)|(->&Hcs)] Hst3]; cbn [Z.eqb Pos.eqb negb app] in *.
  2: { wp_step. right. split; [done|]. apply (cut_data dst src f taken o w3 line e); try done. apply Hrd. }
  destruct Hd as [->|[Hpre Hcl3]].
  - eapply wp_mono; [eapply wp_undef_mono|].
    + apply (IH b bs ((taken ++ line ++ e) ++ data) ((o ++ line ++ CRLF) ++ data)); [exact Hr|done|done|].
      pose proof (reading_budget _ _ _ Hrd3) as Hb3. autorewrite with len in *. lia.
    + intros w'. rewrite <-app_assoc. intros H'. eapply bad_size_later. exact H'.
    + intros rb w4 [(E&Hb'&x&x'&Hx&Hx'&Hbody&Hpart)|[E Hcut]]; [left|right]; (split; [done|]).
      2: { eapply (cut_off_app _ _ (line ++ e ++ data) (line ++ CRLF ++ data)); [|by rewrite <-!app_assoc in Hcut].
           intros x x' Hx. rewrite <-!app_assoc. by apply part_more. }
      split; [done|].
      exists (line ++ e ++ data ++ x), (line ++ CRLF ++ data ++ x'). split; [reading_from Hx|].
      split; [by rewrite <-!app_assoc in *|]. split; intros t t' Ht; rewrite <-!app_assoc.
      * apply chunk_more; [done..|by apply Hbody].
      * apply part_more; [done..|by apply Hpart].
  - eapply wp_mono; [eapply (wp_undef_mono _ safe); [|done]|].
    + eapply (chunk_loop_lost_safe dst src f _ ((taken ++ line ++ e) ++ data));
        [done|done|exact Hwr3|exact Hr|lia].
    + intros rb w4 (E&Hs4&Hcl4&Hwr4). right. split; [done|].
      eapply (cut_off_line _ (line ++ e ++ data) (line ++ CRLF ++ data)); [apply part_data; try done; lia| | | |done].
      * by rewrite <-!app_assoc in Hs4.
      * rewrite <-app_assoc in Hwr4. exact Hwr4.
      * rewrite <-app_assoc. apply prefix_app, prefix_app. done.
Qed.

Lemma chunk_loop_spec dst src f : dst <> src -> forall fuel, chunks_ok dst src f fuel.
Proof.
  intros Hne fuel. induction fuel as [|fuel IH]; intros b bs taken o w Hr Hrd Hwr Hf; [lia|].
  pose proof (reading_budget _ _ _ Hrd) as Hbud. cbn [chunk_loop].
  assert (Z.to_nat HTTP_CHUNK_HEADER_MAXLEN <= HEADER_FUEL)%nat as Hcf
    by (unfold HEADER_FUEL, HTTP_CHUNK_HEADER_MAXLEN, HTTP_HEADER_MAXLEN; lia).
  eapply wp_seq.
  { eapply (wp_undef_mono _ safe); [|done].
    eapply (conn_gets_spec rd wr budget); [done|by eapply strbuf_reset_spec|by vm_compute|by vm_compute|].
    cbn [length]. rewrite Z.sub_0_r. lia. }
  intros [ret b1] w1 (line&(Hfr1&Hr1&_&Hlen1&Hpl)&Hcase). cbn [fst snd app] in *.
  destruct (writing_frame rd wr budget _ _ _ _ _ Hwr Hfr1) as [Hwr1 _].
  assert (forall x, reading w1 src (taken ++ x) -> cut_off chunked_part dst src f taken o w1) as Hnone.
  { intros x Hx. apply cut_off_nil; [constructor| |by apply (accepted_start wr)].
    eapply seen_prefix; [by apply reading_seen|by apply prefix_app_r]. }
  destruct Hcase as [(->&x&Hx)|(->&Hlt&e&He&Hrd1)].
  { cbn [Z.leb Z.compare]. wp_step. right. eauto. }
  destruct (Z.leb_spec (Z.of_nat (length line)) 0) as [H0|H0]; [wp_step; right; eauto|].
  assert (line <> []) as Hline by by intros ->.
  destruct (cat_crlf b1 line Hr1) as (b2&Hb2&Hr2&Ht2).
  { unfold HTTP_CHUNK_HEADER_MAXLEN, HTTP_HEADER_MAXLEN in *. lia. }
  apply wp_bind, (wp_demand _ _ b2); [done|].
  eapply wp_seq.
  { eapply (wp_undef_mono _ safe); [|done]. apply (write_buf_spec _ _ f o _ _ _ Hr2); [done|].
    destruct Hfr1. autorewrite with len. cbn [length CRLF].
    unfold HEADER_FUEL, HTTP_CHUNK_HEADER_MAXLEN, HTTP_HEADER_MAXLEN in *. lia. }
  intros r w2 (Hfr2&Hcase&_). assert (reading w2 src (taken ++ line ++ e)) as Hrd2 by by eapply (reading_frame rd wr budget).
  destruct Hcase as [(->&_&Hwr2)|(->&Hcl2&d&Hwr2&Hd)]; cbn [Z.eqb Pos.eqb negb].
  2: { wp_step. right. split; [done|]. eapply cut_off_line; [by apply part_header|by apply reading_seen|done..]. }
  apply wp_bind, (wp_demand _ _ (text_of (line ++ CRLF))); [by apply rep_text|].
  fold (chunk_size line).
  destruct (Z.eqb_spec (chunk_size line) 0) as [Hz|Hz].
  { wp_step. left. split; [done|]. split; [by eexists|]. exists (line ++ e), (line ++ CRLF).
    split_and!; [done|done|..]; intros t t' Ht; rewrite <-!app_assoc; [by apply chunk_last|by apply part_last]. }
  assert (bad_size line -> forall w', seen src (taken ++ line ++ e) w' -> bad_size_received src taken w') as Hbad.
  { intros Hbad w' Hs. exists [], line. split; [done|]. eapply seen_prefix; [exact Hs|].
    cbn [app]. apply prefix_app. by apply prefix_app_r. }
  unfold in_int. destruct ((INT_MIN <=? chunk_size line + 2) && (chunk_size line + 2 <=? INT_MAX)) eqn:Ei.
  2: { apply wp_bind. unfold wp, demand, undef. apply Hbad; [|by apply reading_seen].
       unfold bad_size, INT_MIN in *. apply andb_false_iff in Ei as [Ei|Ei]; bool_prop; lia. }
  apply wp_bind, (wp_demand _ _ (chunk_size line + 2)); [done|].
  destruct (decide (chunk_size line + 2 < 0)) as [Hneg|Hpos].
  - assert (bad_size line) as Hbs by (left; lia). eapply wp_mono; [eapply wp_undef_mono|].
    + apply (chunk_data_negative dst src f fuel b2 (line ++ CRLF) (taken ++ line ++ e) (o ++ line ++ CRLF)); [done..|].
      pose proof (reading_budget _ _ _ Hrd2) as Hbud2. autorewrite with len in Hbud2. lia.
    + by apply Hbad.
    + intros rb w4 (E&Hs4&Hwr4). right. split; [done|].
      exists (line ++ e), (line ++ CRLF). split; [by apply part_header|]. split; [done|].
      rewrite <-(app_nil_r (line ++ CRLF)). apply accepted_shift. by apply (accepted_start wr).
  - apply (chunk_data_spec dst src f fuel b2 (line ++ CRLF) line e taken o); try done; lia.
Qed.

(** ** The body *)

Lemma transfer_chunked_spec fuel dst src f taken o w :
  dst <> src -> reading w src taken -> writing w dst f o ->
  (2 * budget + HEADER_FUEL + 2 < fuel)%nat ->
  wp (bad_size_received src taken) (transfer_chunked fuel dst src) (fun ret w' =>
    (ret = 0 /\ exists x x', chunked_body x x' /\ reading w' src (taken ++ x) /\ writing w' dst f (o ++ x')) \/
    (ret = -1 /\ cut_off chunked_part dst src f taken o w')) w.
Proof.
  intros Hne Hrd Hwr Hf. unfold transfer_chunked. destruct strbuf_init_spec as (b&Hb&Hr&_).
  apply wp_bind, (wp_demand _ _ b); [done|].
  eapply wp_seq; [apply (chunk_loop_spec dst src f Hne fuel b [] taken o); [done..|lia]|].
  intros [ret b1] w1. unfold chunks_post. cbn [fst snd]. intros [(->&[bs Hr1]&x&x'&Hx&Hx'&Hbody&Hpart)|[-> E]].
  2: { cbn [Z.eqb Pos.eqb]. wp_step. by right. }
  cbn [Z.eqb]. eapply wp_mono.
  - eapply (wp_undef_mono _ safe); [|done].
    apply (trailer_loop_spec dst src f fuel b1 bs (taken ++ x) (o ++ x')); [done..|lia].
  - intros ret w2 [(->&t&t'&Ht&Hrd2&Hwr2)|[-> Hcut]]; [left|right]; (split; [done|]).
    2: { eapply cut_off_app; [exact Hpart|exact Hcut]. }
    exists (x ++ t), (x' ++ t'). split; [by apply Hbody|]. by rewrite <-!app_assoc in *.
Qed.
End facts.
