(* ===== verification/BodyProps.v ===== *)
(** Properties of reading whole messages and of forwarding bodies
    (src/core/net_handle.c and net_http.c), for every world that satisfies the
    interface laws, with instances in the scripted world. *)

From S2P Require Import Prelude CLib Outcome Strbuf ConnIf ConnIO ConnIOFacts Sim ConnIOProps.
From S2P Require Import Uthash Regex NetData HttpGrammar NetDataFacts Headers NetProps Fetch NetHttp.

#[local] Open Scope Z_scope.

(** C8: [net_fetch_http] on a fresh message does not run for ever.  With 0 there are two
    cases: it has consumed a start line, the header lines and the empty line, and the
    message holds the start line and, for each header line in order, the name and value
    the header pattern gives; or it has consumed an empty first line, and the message
    holds nothing.  Otherwise the result is -1.  It is undefined only when a
    header name was received that does not fit the key array. *)
Theorem net_fetch_http_reads {W} `{!ConnEnv W, !ConnObs W} (rd wr : positive -> Prop)
    `{!ConnLaws W rd wr} (budget fuel : nat) i d taken w
    (Hinit : net_data_init = Some d) (Hrd : reading rd budget w i taken)
    (Hf : (stalls w + Z.to_nat HTTP_HEADER_MAXLEN < fuel)%nat) :
  wp (long_name_received rd budget i taken) (net_fetch_http fuel i d) (fun r w' =>
    rd_frame wr w w' /\
    ((r.1 = 0 /\ exists line hs bytes, message_read r.2 line hs bytes /\
        reading rd budget w' i (taken ++ bytes)) \/
     (r.1 = 0 /\ strbuf_rep (buf r.2) [] /\
        exists e, line_end e /\ reading rd budget w' i (taken ++ e)) \/
     (r.1 = -1 /\ exists x, reading rd budget w' i (taken ++ x)))) w.
Proof.
  eapply wp_mono; [by apply (net_fetch_http_message rd wr budget)|].
  intros r w' [Hfr [H|[(?&?&_&?)|H]]]; split; [done|by left|done|right; by left|done|by right; right].
Qed.

(** C5: a chunked body is passed on chunk by chunk.  [net_transfer_body_HTTP_1_1]
    always returns; with 0 it has consumed exactly one chunked body with its
    trailer and the output has accepted the same chunks and trailer lines, the
    chunk data unchanged and every line ended by [CR LF].  Otherwise the result is
    -1, and the output has accepted the beginning of such a body in the same
    form, all of it or a prefix before it was closed.  The only undefined
    behaviour on the way is a chunk size that is negative or overflows. *)
Theorem transfer_body_chunked {W} `{!ConnEnv W, !ConnObs W} (rd wr : positive -> Prop)
    `{!ConnLaws W rd wr} (budget fuel : nat) dst src f d method taken o w
    (Hne : dst <> src) (Hrd : reading rd budget w src taken) (Hwr : writing wr w dst f o)
    (Hmethod : cstr_at (p (buf d)) 0 = Some method) (Hhead : method <> lit "HEAD")
    (Hte : header_value d (lit "Transfer-Encoding") = Some (Some (lit "chunked")))
    (Hf : (2 * budget + Z.to_nat HTTP_HEADER_MAXLEN + 2 < fuel)%nat) :
  wp (bad_size_received rd src taken) (net_transfer_body_HTTP_1_1 fuel dst src d) (fun ret w' =>
    (ret = 0 /\ exists x x', chunked_body x x' /\
       reading rd budget w' src (taken ++ x) /\ writing wr w' dst f (o ++ x')) \/
    (ret = -1 /\ cut_off rd wr chunked_part dst src f taken o w')) w.
Proof.
  unfold net_transfer_body_HTTP_1_1. rewrite Hmethod, Hte.
  apply wp_bind, (wp_demand _ _ method); [done|]. rewrite bool_decide_false by done.
  apply wp_bind, (wp_demand _ _ (Some (lit "chunked"))); [done|]. rewrite bool_decide_true by done.
  by apply (transfer_chunked_spec rd wr budget).
Qed.

(** C29: a body with a length, without chunked encoding.  For a positive length
    [n] the call returns.  With 0 exactly [n] bytes were consumed, and the output
    has accepted them in order: all of them, or a prefix of them and it is
    closed.  Otherwise the result is -1, and the output has accepted, in order,
    all that the input delivered, which is less than [n] bytes, or it is closed
    and has accepted a prefix of that and at most [n] bytes.  Without a positive
    length, and for [HEAD], nothing happens and the result is 0. *)
Theorem transfer_body_length {W} `{!ConnEnv W, !ConnObs W} (rd wr : positive -> Prop)
    `{!ConnLaws W rd wr} (budget fuel : nat) dst src f d method te cl taken o w
    (Hne : dst <> src) (Hrd : reading rd budget w src taken) (Hwr : writing wr w dst f o)
    (Hmethod : cstr_at (p (buf d)) 0 = Some method)
    (Hte : header_value d (lit "Transfer-Encoding") = Some te) (Hnc : te <> Some (lit "chunked"))
    (Hcl : header_value d (lit "Content-Length") = Some cl)
    (Hf : (stalls w + budget < fuel)%nat) :
  let n := match cl with Some v => atoi v | None => 0 end in
  if bool_decide (method = lit "HEAD") || (n <=? 0)
  then net_transfer_body_HTTP_1_1 fuel dst src d w = Ok 0 w
  else exists ret w', net_transfer_body_HTTP_1_1 fuel dst src d w = Ok ret w' /\
    ((ret = 0 /\ exists data x, Z.of_nat (length data) = n /\
        reading rd budget w' src (taken ++ data) /\ writing wr w' dst f (o ++ x) /\
        (x = data \/ (x `prefix_of` data /\ closed w' dst))) \/
     (ret = -1 /\ exists data x, delivered w' src (taken ++ data) /\ writing wr w' dst f (o ++ x) /\
        ((x = data /\ Z.of_nat (length data) < n) \/
         (x `prefix_of` data /\ Z.of_nat (length x) <= n /\ closed w' dst)))).
Proof.
  intros n. pose proof (transfer_body_eq fuel dst src d method te cl w Hmethod Hte Hcl) as E.
  cbv zeta in E. fold n in E. rewrite (bool_decide_false (te = _)) in E by done.
  destruct (bool_decide (method = lit "HEAD")); cbn [orb]; [exact E|].
  destruct (Z.leb_spec n 0) as [Hn|Hn].
  - rewrite (proj2 (Z.ltb_ge 0 n)) in E by lia. exact E.
  - rewrite (proj2 (Z.ltb_lt 0 n)) in E by lia. rewrite E.
    destruct (wp_Ok _ _ _ (conn_copy_spec rd wr budget fuel dst src f taken o [] n w Hne Hrd (accepted_start _ _ _ _ _ Hwr)
      ltac:(lia) ltac:(lia))) as (ret&w'&->&Hcopied&_).
    exists ret, w'. split; [done|].
    destruct Hcopied as [(->&data&Hl&Hr&x&Hw&Hx)|[-> Hcs]]; [left|right]; (split; [done|]); [by exists data, x|].
    destruct Hcs as (x&y&z&_&Hy&(x1&Hw&Hd)&Hz&Hlz&Hall). cbn [app length] in *. exists y, x1.
    split; [done|]. split; [done|].
    destruct Hd as [->|[Hdz Hclosed]].
    + destruct Hall as [[-> ?]|?]; [left|right]; (split; [done|]); [lia|]. split; [lia|done].
    + right. split; [by etrans|]. split; [|done]. apply prefix_length in Hdz. lia.
Qed.

(** ** Instances *)

Definition msg_script : list (list ascii) :=
  [lit "GET /a HTTP/1.1" ++ [CR]; [LF] ++ lit "Host: b" ++ CRLF; []; CRLF ++ lit "rest"].

Lemma net_fetch_http_reads_witness :
  exists d, net_data_init = Some d /\
  wp (long_name_received all_conns 200 1 []) (net_fetch_http (Z.to_nat 40000) 1 d) (fun r w' =>
    (r.1 = 0 /\ exists line hs bytes, message_read r.2 line hs bytes /\
        reading all_conns 200 w' 1 bytes) \/
    (r.1 = 0 /\ strbuf_rep (buf r.2) [] /\
        exists e, line_end e /\ reading all_conns 200 w' 1 e) \/
    (r.1 = -1 /\ exists x, reading all_conns 200 w' 1 x)) (sim_world msg_script 200).
Proof.
  eexists. split; [reflexivity|].
  eapply wp_mono; [apply (net_fetch_http_reads all_conns all_conns 200 (Z.to_nat 40000) 1 _ [])|].
  - reflexivity.
  - by apply sim_reading.
  - change (stalls (sim_world msg_script 200)) with 200%nat. unfold HTTP_HEADER_MAXLEN. lia.
  - intros r w' [_ H]. exact H.
Defined.

(** The run of that instance: the header is stored and the rest is left. *)
Example net_fetch_http_run :
  (d ← net_data_init;
   match net_fetch_http 200 1 d (sim_world msg_script 200) with
   | Ok (r, d) _ => Some (r, headers_of d)
   | _ => None
   end) = Some (0, Some [(lit "Host", lit "b")]).
Proof. vm_compute. reflexivity. Qed.

Definition chunked_tl : list ascii := lit "Transfer-Encoding" ++ NUL :: lit "chunked" ++ [NUL].
Definition chunked_data : net_data :=
  add_header (mk_data (ok_line ++ NUL :: chunked_tl)) (lit "Transfer-Encoding") 41.
Definition chunked_script : list (list ascii) :=
  [lit "5" ++ CRLF ++ lit "hel"; []; lit "lo" ++ CRLF ++ lit "0" ++ [LF]; CRLF].

Lemma transfer_body_chunked_witness :
  wp (bad_size_received all_conns 1 []) (net_transfer_body_HTTP_1_1 (Z.to_nat 40000) 2 1 chunked_data)
    (fun ret w' =>
    (ret = 0 /\ exists x x', chunked_body x x' /\
       reading all_conns 100 w' 1 x /\ writing all_conns w' 2 6 x') \/
    (ret = -1 /\ cut_off all_conns all_conns chunked_part 2 1 6 [] [] w')) (sim_world chunked_script 100).
Proof.
  apply (transfer_body_chunked all_conns all_conns 100 (Z.to_nat 40000) 2 1 6 chunked_data ok_line [] []).
  - discriminate.
  - by apply sim_reading.
  - apply sim_writing.
  - vm_compute. reflexivity.
  - discriminate.
  - vm_compute. reflexivity.
  - unfold HTTP_HEADER_MAXLEN. lia.
Defined.

(** The run of that instance: the lone [LF] became [CR LF]. *)
Example transfer_body_chunked_run :
  match net_transfer_body_HTTP_1_1 200 2 1 chunked_data (sim_world chunked_script 100) with
  | Ok r w => Some (r, sim_sent w 6)
  | _ => None
  end = Some (0, lit "5" ++ CRLF ++ lit "hello" ++ CRLF ++ lit "0" ++ CRLF ++ CRLF).
Proof. vm_compute. reflexivity. Qed.

Definition length_tl : list ascii := lit "Content-Length" ++ NUL :: lit "9" ++ [NUL].
Definition length_data : net_data :=
  add_header (mk_data (ok_line ++ NUL :: length_tl)) (lit "Content-Length") 38.

Lemma transfer_body_length_witness :
  exists w', net_transfer_body_HTTP_1_1 300 2 1 length_data (sim_world chunked_script 100) = Ok 0 w' /\
    exists data x, Z.of_nat (length data) = 9 /\ reading all_conns 100 w' 1 data /\
      writing all_conns w' 2 6 x.
Proof.
  pose proof (transfer_body_length all_conns all_conns 100 300 2 1 6 length_data ok_line None
    (Some (lit "9")) [] [] (sim_world chunked_script 100)) as H.
  destruct H as (ret&w'&Hrun&Hcase).
  - discriminate.
  - by apply sim_reading.
  - apply sim_writing.
  - vm_compute. reflexivity.
  - vm_compute. reflexivity.
  - discriminate.
  - vm_compute. reflexivity.
  - change (stalls (sim_world chunked_script 100)) with 100%nat. lia.
  - destruct Hcase as [(->&data&x&Hl&Hr&Hw&_)|[-> _]].
    + exists w'. split; [exact Hrun|]. exists data, x. split; [exact Hl|]. split; [exact Hr|exact Hw].
    + exfalso. revert Hrun. vm_compute. discriminate.
Defined.
