(* ===== verification/Relay.v ===== *)
(** Relaying whole responses: the parts of [net_http_rsp_handler] and of the
    [CONNECT] handlers in src/core/net_http.c that read from one connection and
    write to another, over the interface of ConnIf.v.  Loops take [fuel]. *)

From S2P Require Import Prelude CLib Outcome Strbuf ConnIf ConnIO ConnIOFacts Uthash Regex NetData.
From S2P Require Import HttpGrammar NetDataFacts Headers NetProps Fetch NetHttp.

#[local] Open Scope Z_scope.
#[local] Set Default Proof Using "All".

(** [ver_major*100 + ver_minor]; the signed operations must not overflow. *)
Definition version_number (major minor : Z) : option Z :=
  if in_int (major * 100) && in_int (major * 100 + minor) then Some (major * 100 + minor) else None.

Section operations.
Context {W : Type} `{!ConnEnv W}.

(** [while (cond) ...] with a body that says whether to go on. *)
Fixpoint forever {A} (fuel : nat) (body : M W (option A)) : M W A :=
  match fuel with
  | O => no_fuel
  | S fuel => o ← body; match o with Some a => mret a | None => forever fuel body end
  end.

(** Reading a response: on failure the code returned after closing the server
    and the bad gateway reply. *)
Definition http_fetch_rsp (fuel : nat) (client server : positive) : M W (net_rsp + Z) :=
  d ← demand net_data_init;
  '(ret, d) ← net_fetch_http fuel server d;
  if negb (ret =? 0) then
    _ ← conn_close server; _ ← net_bad_gateway fuel client; mret (inr ret)
  else
    '(ret, rsp) ← demand (net_parse_rsp (Rsp d 0 0 0 0));
    if negb (ret =? 0) then
      _ ← conn_close server; _ ← net_bad_gateway fuel client; mret (inr ret)
    else mret (inl rsp).

(** The loop over the body of an HTTP/1.0 response. *)
Definition copy_until_end (fuel : nat) (client server : positive) : M W Z :=
  forever fuel (
    ret ← conn_copy fuel client server (64 * 1024);
    mret (if ret <? 0 then Some 0 else None)).

(** The body of a response, by its version. *)
Definition http_forward_body (fuel : nat) (client server : positive) (rsp : net_rsp) : M W Z :=
  v ← demand (version_number (rsp_ver_major rsp) (rsp_ver_minor rsp));
  if 100 <? v then
    net_transfer_body_HTTP_1_1 fuel client server (rsp_data rsp)
  else
    ret ← copy_until_end fuel client server;
    _ ← conn_close client;
    _ ← conn_close server;
    mret ret.

(** [net_http_rsp_handler] up to the body: the code of an early return, or the
    result of forwarding the body and the status code. *)
Definition http_relay_rsp (fuel : nat) (client server : positive) : M W (Z + Z * Z) :=
  rsp ← http_fetch_rsp fuel client server;
  match rsp with
  | inr ret => mret (inl ret)
  | inl rsp =>
      ret ← net_forward_rsp_header fuel rsp client;
      if negb (ret =? 0) then mret (inl ret) else
      ret ← http_forward_body fuel client server rsp;
      mret (inr (ret, code rsp))
  end.

(** [while (1) { ret = conn_copy(dst, src, 64*1024); if (ret) break; }]. *)
Definition tunnel (fuel : nat) (dst src : positive) : M W Z :=
  forever fuel (
    ret ← conn_copy fuel dst src (64 * 1024);
    mret (if negb (ret =? 0) then Some ret else None)).
End operations.

(** ** The bodies of responses *)

(** A header of the message, [None] when it has none of that name. *)
Definition field (hs : headers) (key : list ascii) (v : option (list ascii)) : Prop :=
  match v with
  | None => key ∉ hs.*1
  | Some v => (key, v) ∈ hs
  end.

(** The bytes [x] of a body as they arrive and [x'] as they are sent on, by the
    headers. *)
Definition body_of (hs : headers) (x x' : list ascii) : Prop :=
  exists te cl, field hs (lit "Transfer-Encoding") te /\ field hs (lit "Content-Length") cl /\
    if bool_decide (te = Some (lit "chunked")) then chunked_body x x'
    else x' = x /\ Z.of_nat (length x) = Z.max 0 (match cl with Some v => atoi v | None => 0 end).

Lemma header_value_field lo l d hs key :
  strbuf_rep (buf d) l -> headers_rep lo l d hs ->
  exists v, header_value d key = Some v /\ field hs key v.
Proof.
  intros Hr Hh. unfold header_value.
  destruct (get_ent_spec _ _ _ _ key Hh) as [[Hno ->]|(v&i&Hin&->&Hv&_)]; cbn [mbind option_bind].
  - by exists None.
  - rewrite (str_in_rep _ _ _ _ Hr Hv). by exists (Some v).
Qed.

(** A first line outside the grammar. *)
Lemma net_parse_rsp_malformed rsp line :
  cstr_at (p (buf (rsp_data rsp))) 0 = Some line -> regexec rsp_re line = None ->
  net_parse_rsp rsp = Some (-1, rsp).
Proof. intros Hl Hr. unfold net_parse_rsp. rewrite Hl. cbn [mbind option_bind]. by rewrite Hr. Qed.

Lemma rsp_bytes_length a b c t hs :
  (length (rsp_bytes (atoi a) (atoi b) (atoi c) t hs) <= length t + length (header_bytes hs) + 50)%nat.
Proof.
  pose proof (sprintf_d_length (atoi a) (atoi_range a)). pose proof (sprintf_d_length (atoi b) (atoi_range b)).
  pose proof (sprintf_d_length (atoi c) (atoi_range c)).
  unfold rsp_bytes. repeat (autorewrite with len; cbn [length CRLF lit String.list_ascii_of_string]). lia.
Qed.

(** Enough for one response: the loops over the bytes of the server, a header
    read, and a header written. *)
Definition relay_fuel (budget : nat) : nat := (2 * budget + 5 * HEADER_FUEL)%nat.

Section facts.
Context {W : Type} `{!ConnEnv W, !ConnObs W} (rd wr : positive -> Prop).
Context `{!ConnLaws W rd wr} (budget : nat).

Abbreviation reading := (reading rd budget).
Abbreviation writing := (writing wr).
Abbreviation accepted := (accepted wr).
Abbreviation rd_frame := (rd_frame wr).
Abbreviation wr_frame := (wr_frame rd).

(** ** Frames *)

Lemma delivered_frame w w' i x : rd i -> delivered w i x -> wr_frame w w' -> delivered w' i x.
Proof.
  intros Hi (c&Hc&Hr) [Hk _]. destruct (Hk i Hi c Hc) as (c'&Hc'&(E&_)&Hr'). exists c'.
  by rewrite E, Hr'.
Qed.

Lemma close_accepted j f o x w :
  accepted w j f o x ->
  wp safe (conn_close j) (fun _ w' => wr_frame w w' /\ closed w' j /\ accepted w' j f o x) w.
Proof.
  intros (d&(Hj&c&Hc&<-&Ho)&Hd). eapply wp_mono; [by apply (close_writing rd wr budget j c)|].
  intros _ w' (Hfr&Hcl&Hw). split_and!; [done|done|]. exists d. rewrite Ho in Hw. split; [done|].
  destruct Hd as [?|[? _]]; auto.
Qed.

(** ** Replies and headers *)

Lemma net_bad_gateway_spec fuel j f o x w :
  accepted w j f o x -> (stalls w + length bad_gateway_msg < fuel)%nat ->
  wp safe (net_bad_gateway fuel j) (fun _ w' =>
    wr_frame w w' /\ accepted w' j f o (x ++ bad_gateway_msg)) w.
Proof.
  intros Hacc Hf. pose proof Hacc as (d&(Hj&c&Hc&_)&_). unfold net_bad_gateway.
  apply wp_bind, (load_conn_wp _ _ c); [done|]. unfold open. case_bool_decide as Hst; cbn [negb].
  - eapply wp_seq; [apply (conn_write_accepted rd wr budget _ _ f o x); [done|lia|lia]|].
    intros ret w' (Hfr&Hacc'&_). wp_step. split; [done|]. by rewrite Nat2Z.id, firstn_all in Hacc'.
  - wp_step. split; [done|]. eapply accepted_closed; [done| |by apply prefix_app_r].
    exists c. split; [done|]. by destruct (stat c).
Qed.

(** Sending a header on; the result of the write is dropped. *)
Lemma net_forward_rsp_header_spec fuel rsp j f o x b bs w :
  rsp_header rsp = Some b -> strbuf_rep b bs -> accepted w j f o x -> (stalls w + length bs < fuel)%nat ->
  wp safe (net_forward_rsp_header fuel rsp j) (fun ret w' =>
    ret = 0 /\ wr_frame w w' /\ accepted w' j f o (x ++ bs)) w.
Proof.
  intros Hb Hr Hacc Hf. unfold net_forward_rsp_header.
  apply wp_bind, (wp_demand _ _ b); [done|]. apply wp_bind, (wp_demand _ _ bs); [by apply (rep_bytes rd wr budget)|].
  rewrite (strbuf_rep_len _ _ Hr).
  eapply wp_seq; [apply (conn_write_accepted rd wr budget _ _ f o x); [done|lia|lia]|].
  intros ret w' (Hfr&Hacc'&_). wp_step. split_and!; [done|done|]. by rewrite Nat2Z.id, firstn_all in Hacc'.
Qed.

(** ** Copying until the end *)

(** Everything [src] delivers is passed on behind [h], unless the output is
    closed. *)
Definition drained (dst src : positive) (f : Z) (taken o h : list ascii) (w : W) : Prop :=
  exists data y, reading w src (taken ++ data) /\ delivered w src (taken ++ y) /\
    accepted w dst f o (h ++ y).

Lemma copy_all_spec {A} (g : Z -> option A) (r : A) dst src f o fuel' : forall fuel taken h w,
  g 0 = None -> g (-1) = Some r -> dst <> src ->
  reading w src taken -> accepted w dst f o h ->
  (budget - length taken < fuel)%nat -> (2 * budget < fuel')%nat ->
  wp safe (forever fuel (ret ← conn_copy fuel' dst src (64 * 1024); mret (g ret))) (fun a w' =>
    a = r /\ drained dst src f taken o h w') w.
Proof.
  induction fuel as [|fuel IH]; intros taken h w H0 H1 Hne Hrd Hacc Hf Hf'; [lia|]. cbn [forever].
  pose proof (reading_budget rd wr budget _ _ _ Hrd) as Hb. apply wp_bind. eapply wp_seq.
  { apply (conn_copy_spec rd wr budget fuel' dst src f taken o h); [done..|lia|lia]. }
  intros ret w1 [[(->&more&Hlen&Hrd1&Hacc1)|(->&data&y&z&Hrd1&Hdl&Hacc1&Hz&_&Hall)] Hst]; wp_step.
  - rewrite H0. cbn [app] in *. pose proof (reading_budget rd wr budget _ _ _ Hrd1) as Hb1.
    eapply wp_mono; [apply (IH (taken ++ more) (h ++ more) w1); try done|].
    { autorewrite with len in *. lia. }
    intros a w2 (->&data&y&Hrd2&Hdl&Hacc2). split; [done|]. rewrite <-!app_assoc in *.
    exists (more ++ data), (more ++ y). done.
  - rewrite H1. wp_step. split; [done|]. exists data, y. split; [done|]. split; [done|].
    destruct Hall as [[-> _]|Hcl]; [done|]. eapply accepted_closed; [exact Hacc1|done|by apply prefix_app].
Qed.

(** ** The body *)

(** A body that was not finished: of a chunked one a beginning was passed on; of
    one with a length all that was delivered, which is too short, or a prefix of that and
    the output is closed. *)
Definition body_cut (dst src : positive) (f : Z) (taken o h : list ascii) (hs : headers) (w : W) : Prop :=
  exists te cl, field hs (lit "Transfer-Encoding") te /\ field hs (lit "Content-Length") cl /\
    if bool_decide (te = Some (lit "chunked"))
    then exists x x', chunked_part x x' /\ seen rd src (taken ++ x) w /\ accepted w dst f o (h ++ x')
    else exists y z, delivered w src (taken ++ y) /\ accepted w dst f o (h ++ z) /\ z `prefix_of` y /\
      let n := match cl with Some v => atoi v | None => 0 end in
      Z.of_nat (length z) <= n /\ ((z = y /\ Z.of_nat (length z) < n) \/ closed w dst).

Lemma transfer_chunked_accepted fuel dst src f taken o h w :
  dst <> src -> reading w src taken -> accepted w dst f o h -> (2 * budget + HEADER_FUEL + 2 < fuel)%nat ->
  wp (bad_size_received rd src taken) (transfer_chunked fuel dst src) (fun ret w' =>
    (ret = 0 /\ exists x x', chunked_body x x' /\ reading w' src (taken ++ x) /\
       accepted w' dst f o (h ++ x')) \/
    (ret = -1 /\ exists x x', chunked_part x x' /\ seen rd src (taken ++ x) w' /\ accepted w' dst f o (h ++ x'))) w.
Proof.
  intros Hne Hrd (d&Hwr&Hd) Hf. destruct Hd as [->|[Hpre Hcl]].
  - eapply wp_mono; [by apply (transfer_chunked_spec rd wr budget fuel dst src f taken (o ++ h))|].
    intros ret w' [(->&x&x'&Hb&Hx&Hx')|(->&x&x'&Hb&Hx&Hx')]; [left|right]; (split; [done|]); exists x, x'.
    + rewrite <-app_assoc in Hx'. split_and!; [done|done|]. exists (h ++ x'). auto.
    + split_and!; [done|done|]. by apply (accepted_shift wr).
  - unfold transfer_chunked. destruct strbuf_init_spec as (b&Hb&Hr&_).
    apply wp_bind, (wp_demand _ _ b); [done|]. eapply wp_seq.
    { eapply (wp_undef_mono _ safe); [|done].
      eapply (chunk_loop_lost_safe rd wr budget dst src f _ taken); [done|done|exact Hwr|exact Hr|].
      pose proof (reading_budget rd wr budget _ _ _ Hrd). lia. }
    intros [ret b1] w1 (E&Hs1&Hcl1&Hwr1). cbn [fst] in E. subst. cbn [Z.eqb Pos.eqb]. wp_step. right. split; [done|].
    exists [], []. rewrite !app_nil_r. split; [constructor|]. split; [done|]. exists d. auto.
Qed.

(** The body of a message whose first string is not [HEAD]. *)
Lemma transfer_body_spec fuel dst src f taken o h d first lo l hs w :
  dst <> src -> reading w src taken -> accepted w dst f o h ->
  cstr_at (p (buf d)) 0 = Some first -> first <> lit "HEAD" ->
  strbuf_rep (buf d) l -> headers_rep lo l d hs -> (2 * budget + HEADER_FUEL + 2 < fuel)%nat ->
  wp (bad_size_received rd src taken) (net_transfer_body_HTTP_1_1 fuel dst src d) (fun ret w' =>
    (ret = 0 /\ exists x x', body_of hs x x' /\ reading w' src (taken ++ x) /\
       accepted w' dst f o (h ++ x')) \/
    (ret = -1 /\ body_cut dst src f taken o h hs w')) w.
Proof.
  intros Hne Hrd Hacc Hfirst Hhead Hr Hh Hf.
  destruct (header_value_field _ _ _ _ (lit "Transfer-Encoding") Hr Hh) as (te&Hte&Ht).
  destruct (header_value_field _ _ _ _ (lit "Content-Length") Hr Hh) as (cl&Hcl&Hc).
  unfold wp. rewrite (transfer_body_eq fuel dst src d first te cl w Hfirst Hte Hcl).
  rewrite bool_decide_false by done. pose proof (reading_budget rd wr budget _ _ _ Hrd).
  destruct (bool_decide (te = _)) eqn:E.
  - fold (wp (bad_size_received rd src taken) (transfer_chunked fuel dst src)
      (fun ret w' => (ret = 0 /\ exists x x', body_of hs x x' /\ reading w' src (taken ++ x) /\
         accepted w' dst f o (h ++ x')) \/ (ret = -1 /\ body_cut dst src f taken o h hs w')) w).
    eapply wp_mono; [by apply (transfer_chunked_accepted _ _ _ f taken o h)|].
    intros ret w' [(->&x&x'&Hb&?&?)|[-> Hcut]]; [left|right]; (split; [done|]).
    + exists x, x'. split_and!; [|done..]. exists te, cl. by rewrite E.
    + exists te, cl. by rewrite E.
  - cbv zeta. set (n := match cl with Some v => _ | None => _ end).
    assert (forall x, Z.of_nat (length x) = Z.max 0 n -> body_of hs x x) as Hbody
      by (intros x Hx; exists te, cl; by rewrite E).
    destruct (Z.ltb_spec 0 n) as [Hn|Hn].
    + destruct (wp_Ok _ _ _ (conn_copy_spec rd wr budget fuel dst src f taken o h n w Hne Hrd Hacc
        ltac:(lia) ltac:(lia))) as (ret&w'&->&Hcopied&_).
      destruct Hcopied as [(->&x&Hl&Hx&Hx')|(->&x&y&z&_&Hy&Hz&Hzy&Hlz&Hall)]; [left|right]; (split; [done|]).
      * exists x, x. split_and!; [|done..]. apply Hbody. lia.
      * exists te, cl. rewrite E. split; [done|]. split; [done|]. exists y, z. by split_and!.
    + left. split; [done|]. exists [], []. rewrite !app_nil_r. split_and!; [|done..].
      apply Hbody. cbn. lia.
Qed.

(** ** The response *)

(** [bytes] are the start line [line], the header lines of [hs] and the empty
    line, with their line ends. *)
Definition message_bytes (line : list ascii) (hs : headers) (bytes : list ascii) : Prop :=
  line <> [] /\ Forall plain line /\ exists e ls e2, line_end e /\ header_section ls e2 hs /\
    bytes = line ++ e ++ lines_bytes ls ++ e2.

(** A response was read and parsed into [rsp]. *)
Definition rsp_fetched (server : positive) (taken : list ascii) (rsp : net_rsp)
    (a b c t : list ascii) (hs : headers) (w : W) : Prop :=
  exists line bytes lo l, message_bytes line hs bytes /\ status_line (text_of line) a b c t /\
    parsed_rsp rsp a b c t hs lo l /\ reading w server (taken ++ bytes) /\
    Z.of_nat (length t) <= HTTP_HEADER_MAXLEN /\
    Z.of_nat (length (header_bytes hs)) <= 2 * HTTP_HEADER_MAXLEN.

Lemma rsp_failed_spec {A} (a : A) fuel client server f taken o h w :
  reading w server taken -> accepted w client f o h -> (stalls w + HEADER_FUEL < fuel)%nat ->
  wp safe (_ ← conn_close server; _ ← net_bad_gateway fuel client; mret a) (fun r w' =>
    r = a /\ accepted w' client f o (h ++ bad_gateway_msg)) w.
Proof.
  intros Hrd Hacc Hf. eapply wp_seq; [by apply (close_reading rd wr budget server taken)|].
  intros ? w1 [Hfr Hrd1]. pose proof (accepted_frame rd wr budget _ _ _ _ _ _ Hacc Hfr) as Hacc1.
  eapply wp_seq; [apply (net_bad_gateway_spec fuel client f o h); [done|]|].
  { destruct Hfr. assert (length bad_gateway_msg <= HEADER_FUEL)%nat; [|lia].
    unfold HEADER_FUEL, HTTP_HEADER_MAXLEN. change (length bad_gateway_msg) with 48%nat. lia. }
  intros ? w2 [_ Hacc2]. by wp_step.
Qed.

Lemma http_fetch_rsp_spec fuel client server f taken o h w :
  reading w server taken -> accepted w client f o h ->
  (2 * budget + 2 * HEADER_FUEL < fuel)%nat ->
  wp (long_name_received rd budget server taken) (http_fetch_rsp fuel client server) (fun r w' =>
    (r = inr (-1) /\ accepted w' client f o (h ++ bad_gateway_msg)) \/
    exists rsp a b c t hs, r = inl rsp /\ rsp_fetched server taken rsp a b c t hs w' /\
      accepted w' client f o h) w.
Proof.
  intros Hrd Hacc Hf. pose proof (reading_budget rd wr budget _ _ _ Hrd) as Hbud.
  unfold http_fetch_rsp. destruct net_data_init as [d|] eqn:Hd; [|by vm_compute in Hd].
  apply wp_bind, (wp_demand _ _ d); [done|].
  assert (0 < HEADER_FUEL)%nat by (unfold HEADER_FUEL, HTTP_HEADER_MAXLEN; lia).
  eapply wp_seq; [apply (net_fetch_http_message rd wr budget server fuel d taken); [done|done|fold HEADER_FUEL; lia]|].
  intros [ret d1] w1 [Hfr Hcase]. cbn [fst snd] in Hcase.
  pose proof (accepted_frame rd wr budget _ _ _ _ _ _ Hacc Hfr) as Hacc1.
  assert (forall x, reading w1 server x -> wp (long_name_received rd budget server taken)
    (_ ← conn_close server; _ ← net_bad_gateway fuel client; mret (inr (-1)))
    (fun r w' => (r = inr (-1) /\ accepted w' client f o (h ++ bad_gateway_msg)) \/
      exists rsp a b c t hs, r = inl rsp /\ rsp_fetched server taken rsp a b c t hs w' /\
        accepted w' client f o h) w1) as Hfail.
  { intros x Hx. eapply (wp_undef_mono _ safe); [|done].
    eapply wp_mono; [apply (rsp_failed_spec (A:=net_rsp + Z) (inr (-1)) fuel client server f x o h);
      [done|done|destruct Hfr; lia]|]. intros r w2 [-> ?]. by left. }
  destruct Hcase as [(->&line&hs&bytes&Hmsg&Hrd1)|[(->&Hr&Ht&e&_&Hrd1)|(->&x&Hrd1)]];
    cbn [Z.eqb Pos.eqb negb]; [| |by eapply Hfail].
  - destruct Hmsg as (Hne&Hpl&Hll&Hlb&tl0&e&ls&e2&He&Hsec&Hrep0&->).
    destruct (msg_rep_text _ _ _ _ Hrep0) as [tl Hrep].
    destruct (regexec rsp_re (text_of line)) as [res|] eqn:Hre.
    + destruct (regexec_rsp_inv _ _ Hre) as (a&b&c&t&Hline&_).
      destruct (net_parse_rsp_parsed (Rsp d1 0 0 0 0) (text_of line) tl hs a b c t) as (rsp&lo&l&->&Hp);
        [done|done|unfold HTTP_HEADER_MAXLEN in *; lia|].
      apply wp_bind, (wp_demand _ _ (0, rsp)); [done|]. cbn [Z.eqb negb]. wp_step. right.
      exists rsp, a, b, c, t, hs. split_and!; [done| |done].
      exists line, (line ++ e ++ lines_bytes ls ++ e2), lo, l.
      split; [split; [done|]; split; [done|]; by exists e, ls, e2|].
      split; [done|]. split; [done|]. split; [done|]. split; [|done].
      destruct Hline as [El _ _ _ _]. pose proof (text_of_length line) as Htl. revert Hll Htl.
      rewrite El. repeat (autorewrite with len; cbn [length]). lia.
    + rewrite (net_parse_rsp_malformed _ (text_of line)); [| |done].
      2: { eapply str_in_rep; [exact (mr_rep _ _ _ _ Hrep)|]. apply str_in_front, text_of_NUL. }
      apply wp_bind, (wp_demand _ _ (-1, Rsp d1 0 0 0 0)); [done|]. cbn [Z.eqb Pos.eqb negb].
      by eapply Hfail.
  - rewrite (net_parse_rsp_malformed _ []); [|by apply (rep_text _ [])|by vm_compute].
    apply wp_bind, (wp_demand _ _ (-1, Rsp d1 0 0 0 0)); [done|]. cbn [Z.eqb Pos.eqb negb].
    by eapply Hfail.
Qed.

(** What the code does not survive: a header name that does not fit its array,
    a version number that overflows, and a bad chunk size. *)
Definition bad_version_received (server : positive) (taken : list ascii) (w : W) : Prop :=
  exists line hs bytes a b c t, message_bytes line hs bytes /\ status_line (text_of line) a b c t /\
    version_number (atoi a) (atoi b) = None /\ reading w server (taken ++ bytes).
Definition fatal_rsp (server : positive) (taken : list ascii) (w : W) : Prop :=
  long_name_received rd budget server taken w \/ bad_version_received server taken w \/
  bad_size_received rd server taken w.

(** A response with the version number [v] was relayed: with a newer version
    the body is taken by the headers, otherwise it is all the server delivers. *)
Definition relayed (client server : positive) (f : Z) (taken o : list ascii) (v : Z)
    (hs : headers) (header : list ascii) (w : W) : Prop :=
  if 100 <? v then
    exists x x', body_of hs x x' /\ reading w server (taken ++ x) /\ accepted w client f o (header ++ x')
  else
    exists y, delivered w server (taken ++ y) /\ accepted w client f o (header ++ y) /\ closed w client.

Lemma http_forward_body_spec fuel client server f taken o h rsp a b c t hs lo l v w :
  client <> server -> rd server -> parsed_rsp rsp a b c t hs lo l ->
  reading w server taken -> accepted w client f o h ->
  version_number (atoi a) (atoi b) = Some v -> (2 * budget + HEADER_FUEL + 2 < fuel)%nat ->
  wp (bad_size_received rd server taken) (http_forward_body fuel client server rsp) (fun ret w' =>
    (ret = 0 /\ relayed client server f taken o v hs h w') \/
    (ret = -1 /\ 100 < v /\ body_cut client server f taken o h hs w')) w.
Proof.
  intros Hne Hi [_ [Ea Eb] Hfirst Hr Hh _] Hrd Hacc Hv Hf. unfold http_forward_body. rewrite Ea, Eb.
  apply wp_bind, (wp_demand _ _ v); [done|]. unfold relayed. destruct (Z.ltb_spec 100 v).
  - eapply wp_mono; [eapply (transfer_body_spec fuel client server f taken o h); try done|].
    intros ret w' [?|[? ?]]; auto.
  - eapply wp_seq.
    { eapply (wp_undef_mono _ safe); [|done].
      apply (copy_all_spec (fun ret => if ret <? 0 then Some 0 else None) 0 client server f o fuel
        fuel taken h); try done; lia. }
    intros ret w1 (->&data&y&Hrd1&Hdl1&Hacc1). eapply wp_seq.
    { eapply (wp_undef_mono _ safe); [|done]. by apply close_accepted. }
    intros ? w2 (Hfr2&Hcl2&Hacc2).
    pose proof (reading_frame rd wr budget _ _ _ _ Hrd1 Hfr2) as (_&cn&un&Hc&Hok&Hrc&Hb).
    pose proof (delivered_frame _ _ _ _ Hi Hdl1 Hfr2) as (cn'&Hc'&Hdl2). rewrite Hc in Hc'. injection Hc' as <-.
    eapply wp_seq.
    { eapply (wp_undef_mono _ safe); [|done].
      apply (close_delivered rd wr budget server (taken ++ data) cn (taken ++ y)); [|done..].
      split; [done|]. by exists cn, un. }
    intros ? w3 (Hfr3&_&Hdl3). wp_step. left. split; [done|]. exists y.
    split; [done|]. split; [by eapply accepted_frame|].
    destruct Hacc2 as (d&Hw&_). by apply (writing_frame rd wr budget _ _ _ _ _ Hw Hfr3).
Qed.

Lemma http_relay_rsp_spec fuel client server f taken o w :
  client <> server -> reading w server taken -> writing w client f o -> (relay_fuel budget < fuel)%nat ->
  wp (fatal_rsp server taken) (http_relay_rsp fuel client server) (fun r w' =>
    (r = inl (-1) /\ accepted w' client f o bad_gateway_msg) \/
    exists line hs bytes a b c t, message_bytes line hs bytes /\ status_line (text_of line) a b c t /\
      exists v, version_number (atoi a) (atoi b) = Some v /\
        let header := rsp_bytes (atoi a) (atoi b) (atoi c) t hs in
        ((r = inr (0, atoi c) /\ relayed client server f (taken ++ bytes) o v hs header w') \/
         (r = inr (-1, atoi c) /\ 100 < v /\
            body_cut client server f (taken ++ bytes) o header hs w'))) w.
Proof.
  intros Hne Hrd Hwr Hf. unfold http_relay_rsp, relay_fuel in *.
  assert (100 < HEADER_FUEL)%nat as Hhf by (unfold HEADER_FUEL, HTTP_HEADER_MAXLEN; lia).
  eapply wp_seq.
  { eapply wp_undef_mono.
    - apply (http_fetch_rsp_spec fuel client server f taken o []); [done|by apply accepted_start|lia].
    - intros w'. by left. }
  intros r w1 [(->&Hacc)|(rsp&a&b&c&t&hs&->&(line&bytes&lo&l&Hmsg&Hline&Hp&Hrd1&Hlt&Hlb)&Hacc)].
  { wp_step. left. done. }
  pose proof Hp as [Hcode _ _ _ _ (out&Hout&Horep)].
  pose proof (rsp_bytes_length a b c t hs) as Hlen.
  pose proof (reading_budget rd wr budget _ _ _ Hrd1) as Hb1.
  eapply wp_seq.
  { eapply (wp_undef_mono _ safe); [|done].
    apply (net_forward_rsp_header_spec fuel rsp client f o [] out _ w1 Hout Horep Hacc).
    unfold HEADER_FUEL in *. lia. }
  intros ret w2 (->&Hfr2&Hacc2). cbn [Z.eqb negb app] in *.
  pose proof (reading_frame rd wr budget _ _ _ _ Hrd1 Hfr2) as Hrd2. pose proof Hrd2 as [Hi _].
  destruct (version_number (atoi a) (atoi b)) as [v|] eqn:Hv.
  - eapply wp_seq.
    { eapply wp_undef_mono.
      - apply (http_forward_body_spec fuel client server f (taken ++ bytes) o
          (rsp_bytes (atoi a) (atoi b) (atoi c) t hs) rsp a b c t hs lo l v); try done; lia.
      - intros w' H. right; right. by eapply bad_size_later. }
    intros ret w3 Hcase. wp_step. right. exists line, hs, bytes, a, b, c, t. rewrite Hcode.
    split; [done|]. split; [done|]. exists v. split; [done|]. cbv zeta.
    destruct Hcase as [[-> Hrel]|[-> Hcut]]; [by left|by right].
  - apply wp_bind. unfold http_forward_body. destruct (pr_ver _ _ _ _ _ _ _ _ Hp) as [-> ->]. rewrite Hv.
    unfold wp, demand, undef, mbind, M_bind. right; left. by exists line, hs, bytes, a, b, c, t.
Qed.
End facts.
