(* ===== verification/RelayProps.v ===== *)
(** Properties of relaying responses and tunnels (src/core/net_http.c), for every
    world that satisfies the interface laws, with instances in the scripted
    world. *)

From S2P Require Import Prelude CLib Outcome Strbuf ConnIf ConnIO ConnIOFacts CopyEnds Sim ConnIOProps.
From S2P Require Import Uthash Regex NetData HttpGrammar NetDataFacts Headers NetProps Fetch NetHttp Relay.

#[local] Open Scope Z_scope.

(** C2: one call of [net_http_rsp_handler] relays one response, up to the end of
    its body.  When it returns, either no response could be read, the result is -1 and the
    client was sent the bad gateway reply; or exactly one header section was
    consumed, and the client has accepted the same status line and headers in
    order, followed by the body.  With 0 that is, for a version above 1.0, the
    body the headers announce, of which exactly the bytes were consumed, else
    everything the server delivered until its end, with the client closed behind
    it.  With -1, for a version above 1.0 only, it is the beginning of the announced body
    ([body_cut]): of a chunked one some chunks and lines, of one with a length all the
    server delivered, which is too short, or part of it and the client is closed.
    "Accepted" is always all of these bytes, or a prefix of them before the
    client was closed.  The call does not run for ever, and it has undefined behaviour only
    when the server has sent a header name that does not fit its array, a
    version number that overflows or a bad chunk size ([fatal_rsp]). *)
Theorem response_relayed {W} `{!ConnEnv W, !ConnObs W} (rd wr : positive -> Prop)
    `{!ConnLaws W rd wr} (budget fuel : nat) client server f taken o w
    (Hne : client <> server) (Hrd : reading rd budget w server taken)
    (Hwr : writing wr w client f o) (Hf : (relay_fuel budget < fuel)%nat) :
  wp (fatal_rsp rd budget server taken) (http_relay_rsp fuel client server) (fun r w' =>
    (r = inl (-1) /\ accepted wr w' client f o bad_gateway_msg) \/
    exists line hs bytes a b c t, message_bytes line hs bytes /\ status_line (text_of line) a b c t /\
      exists v, version_number (atoi a) (atoi b) = Some v /\
        let header := rsp_bytes (atoi a) (atoi b) (atoi c) t hs in
        ((r = inr (0, atoi c) /\ relayed rd wr budget client server f (taken ++ bytes) o v hs header w') \/
         (r = inr (-1, atoi c) /\ 100 < v /\
            body_cut rd wr client server f (taken ++ bytes) o header hs w'))) w.
Proof. by apply http_relay_rsp_spec. Qed.

Lemma tunnel_cause {W} `{!ConnEnv W, !ConnObs W} (rd wr : positive -> Prop) `{!ConnLaws W rd wr}
    dst src shut f fuel' : dst <> src -> rd src -> wr dst ->
  (forall nt w, returns (async_yield nt) (fun _ w' => closed w' src -> closed w src \/ shut) w) ->
  forall fuel w, intact dst src shut f w ->
  returns (forever fuel (ret ← conn_copy fuel' dst src (64 * 1024); mret (if negb (ret =? 0) then Some ret else None)))
    (fun _ w' => cause dst src shut w') w.
Proof.
  intros Hne Hi Hj Hy. induction fuel as [|fuel IH]; intros w Hw; [done|]. cbn [forever]. apply returns_bind, returns_bind.
  eapply returns_mono; [by apply (conn_copy_ended rd wr dst src Hne Hi Hj shut Hy f)|].
  intros ret w1 [[-> Hw1]|[-> Hca]]; cbn; [by apply IH|exact Hca].
Qed.

(** C14: a tunnel ends only when one of its sides does.  The loop of the
    [CONNECT] handlers returns, with -1; by then the output has accepted
    everything the input delivered, in order, or a prefix of it and is
    closed.  It returns for a cause: the output is closed, the program is exiting,
    the stream of the input has been found at its end or broken, or another part of the
    program has closed the input ([shut]), before the call or while the
    coroutine was suspended.  That no bytes are there yet is no cause. *)
Theorem tunnel_relays {W} `{!ConnEnv W, !ConnObs W} (rd wr : positive -> Prop)
    `{!ConnLaws W rd wr} (budget fuel : nat) dst src f taken o w
    (Hne : dst <> src) (Hrd : reading rd budget w src taken)
    (Hwr : writing wr w dst f o) (Hf : (2 * budget < fuel)%nat)
    (shut : Prop) (Hshut : closed w src -> shut)
    (Hyield : forall nt w, returns (async_yield nt) (fun _ w' => closed w' src -> closed w src \/ shut) w) :
  exists w' data d, tunnel fuel dst src w = Ok (-1) w' /\ delivered w' src (taken ++ data) /\
    writing wr w' dst f (o ++ d) /\ (d = data \/ (d `prefix_of` data /\ closed w' dst)) /\
    (closed w' dst \/ exiting w' = true \/ (exists c, get_conn src w' = Some c /\ ended w' (fd c)) \/ shut).
Proof.
  destruct (wp_Ok _ _ _ (copy_all_spec rd wr budget (fun ret => if negb (ret =? 0) then Some ret else None)
      (-1) dst src f o fuel fuel taken [] w eq_refl eq_refl Hne Hrd (accepted_start _ _ _ _ _ Hwr)
      ltac:(lia) Hf)) as (ret&w'&Hrun&->&_&data&_&Hdl&d&Hw&Hd).
  exists w', data, d. split; [exact Hrun|]. split; [done|]. split; [done|]. split; [done|].
  pose proof Hrd as (Hi&c&un&Hc&Hok&_). pose proof Hwr as (Hj&cd&Hcd&_).
  pose proof (tunnel_cause rd wr dst src shut (fd c) fuel Hne Hi Hj Hyield fuel w) as H.
  unfold tunnel in Hrun. unfold returns in H. rewrite Hrun in H. apply H.
  split; [|by eexists]. exists c. split; [done|]. split; [done|]. split; [by destruct Hok|].
  intros Hst. apply Hshut. by exists c.
Qed.

(** C26: the method of the request plays no part in the body of its response.
    The first string of a parsed response is its protocol, so that the test
    for [HEAD] in [net_transfer_body_HTTP_1_1] never succeeds and the call does
    the same as without it: the announced body is awaited behind the response
    to a [HEAD], too. *)
Theorem response_ignores_method {W} `{!ConnEnv W} (rsp rsp' : net_rsp) line tl hs a b c t te cl
    (fuel : nat) (dst src : positive)
    (Hmsg : msg_rep (rsp_data rsp) line tl hs) (Hline : status_line line a b c t)
    (Hlen : Z.of_nat (length (header_bytes hs)) <= 268435456)
    (Hparse : net_parse_rsp rsp = Some (0, rsp'))
    (Hte : header_value (rsp_data rsp') (lit "Transfer-Encoding") = Some te)
    (Hcl : header_value (rsp_data rsp') (lit "Content-Length") = Some cl) :
  let n := match cl with Some v => atoi v | None => 0 end in
  net_transfer_body_HTTP_1_1 fuel dst src (rsp_data rsp') ≡@{M W Z}
    if bool_decide (te = Some (lit "chunked")) then transfer_chunked fuel dst src
    else if 0 <? n then conn_copy fuel dst src n else mret 0.
Proof.
  intros n w. destruct (net_parse_rsp_parsed _ _ _ _ _ _ _ _ Hmsg Hline Hlen)
    as (r&lo&l&Hp&[_ _ Hfirst _ _ _]). rewrite Hparse in Hp. injection Hp as <-.
  rewrite (transfer_body_eq fuel dst src _ _ te cl w Hfirst Hte Hcl). fold n.
  rewrite bool_decide_false by done.
  destruct (bool_decide _); [done|]. cbv zeta. fold n. destruct (0 <? n); reflexivity.
Qed.

(** ** Instances *)

Definition rsp_script : list (list ascii) :=
  [lit "HTTP/1.1 200 OK" ++ CRLF ++ lit "Content-Len"; []; lit "gth: 5" ++ CRLF ++ CRLF ++ lit "hel"; lit "lo"].

Lemma response_relayed_witness :
  wp (fatal_rsp all_conns 200 1 []) (http_relay_rsp (Z.to_nat 200000) 2 1) (fun r w' =>
    (r = inl (-1) /\ accepted all_conns w' 2 6 [] bad_gateway_msg) \/
    exists line hs bytes a b c t, message_bytes line hs bytes /\ status_line (text_of line) a b c t /\
      exists v, version_number (atoi a) (atoi b) = Some v /\
        let header := rsp_bytes (atoi a) (atoi b) (atoi c) t hs in
        ((r = inr (0, atoi c) /\ relayed all_conns all_conns 200 2 1 6 bytes [] v hs header w') \/
         (r = inr (-1, atoi c) /\ 100 < v /\ body_cut all_conns all_conns 2 1 6 bytes [] header hs w'))) (sim_world rsp_script 200).
Proof.
  apply (response_relayed all_conns all_conns 200 (Z.to_nat 200000) 2 1 6 [] []).
  - discriminate.
  - by apply sim_reading.
  - apply sim_writing.
  - unfold relay_fuel, HEADER_FUEL, HTTP_HEADER_MAXLEN. lia.
Defined.

(** The run of that instance, and one for HTTP/1.0. *)
Example relay_run :
  match http_relay_rsp 300 2 1 (sim_world rsp_script 200) with
  | Ok r w => Some (r, sim_sent w 6)
  | _ => None
  end = Some (inr (0, 200), lit "HTTP/1.1 200 OK" ++ CRLF ++ lit "Content-Length: 5" ++ CRLF ++ CRLF ++ lit "hello").
Proof. vm_compute. reflexivity. Qed.

Example relay_run_1_0 :
  match http_relay_rsp 300 2 1
    (sim_world [lit "HTTP/1.0 200 OK" ++ CRLF ++ CRLF ++ lit "all"; []; lit " of it"] 200) with
  | Ok r w => Some (r, sim_sent w 6)
  | _ => None
  end = Some (inr (0, 200), lit "HTTP/1.0 200 OK" ++ CRLF ++ CRLF ++ lit "all of it").
Proof. vm_compute. reflexivity. Qed.

Lemma tunnel_relays_witness :
  exists w' data d, tunnel 300 2 1 (sim_world script1 100) = Ok (-1) w' /\ delivered w' 1 data /\
    writing all_conns w' 2 6 d /\ (d = data \/ (d `prefix_of` data /\ closed w' 2)) /\
    (closed w' 2 \/ exiting w' = true \/ (exists c, get_conn 1 w' = Some c /\ ended w' (fd c)) \/ False).
Proof.
  apply (tunnel_relays all_conns all_conns 100 300 2 1 6 [] [] (sim_world script1 100)).
  - discriminate.
  - by apply sim_reading.
  - apply sim_writing.
  - lia.
  - intros (c&Hc&Hst). vm_compute in Hc. injection Hc as <-. discriminate Hst.
  - intros nt w H. by left.
Defined.

Definition head_line : list ascii := lit "HTTP/1.1 200 OK".
Definition head_tl : list ascii := lit "Content-Length" ++ NUL :: lit "9" ++ [NUL].
Definition head_rsp : net_rsp :=
  Rsp (add_header (mk_data (head_line ++ NUL :: head_tl)) (lit "Content-Length") 31) 0 0 0 0.

Lemma head_msg : msg_rep (rsp_data head_rsp) head_line head_tl [(lit "Content-Length", lit "9")].
Proof.
  apply (mk_msg_header _ _ _ []); [apply mk_msg; wit|wit|wit|vm_compute; reflexivity..].
Qed.

(** The response to a [HEAD] with a length: the code waits for 9 bytes. *)
Lemma response_ignores_method_witness :
  exists rsp', net_parse_rsp head_rsp = Some (0, rsp') /\
    net_transfer_body_HTTP_1_1 10 2 1 (rsp_data rsp') ≡@{M sim Z} conn_copy 10 2 1 9.
Proof.
  eexists. split; [vm_compute; reflexivity|].
  apply (response_ignores_method head_rsp _ head_line head_tl _ (lit "1") (lit "1") (lit "200") (lit "OK")
    None (Some (lit "9")) 10 2 1 head_msg).
  - wit.
  - wit.
  - vm_compute. reflexivity.
  - vm_compute. reflexivity.
  - vm_compute. reflexivity.
Defined.
