(* ===== verification/AlwaysIO.v ===== *)
(** Invariants of the routines written against the interface of ConnIf.v:
    whatever the operations of the interface keep, the I/O routines of
    conn_io.c, the reading and forwarding of messages (net_handle.c, net_data.c,
    net_http.c) keep, too. *)

From S2P Require Import Prelude CLib Outcome Strbuf ConnIf ConnIO NetData Fetch NetHttp Relay.

#[local] Open Scope Z_scope.
#[local] Set Default Proof Using "All".

Class KeepsEnv (W : Type) `{!ConnEnv W} (P : W -> Prop) := {
  keeps_recv f n w : P w -> P (recv f n w).2;
  keeps_send f s w : P w -> P (send f s w).2;
  keeps_put i c w : P w -> P (put_conn i c w);
  keeps_yield n : always P (async_yield n);
  keeps_close i : always P (conn_close i)
}.

Section always_io.
Context {W : Type} `{!ConnEnv W} (P : W -> Prop) `{!KeepsEnv W P}.

#[local] Hint Resolve keeps_yield keeps_close : always.

Lemma always_sys_io f b : always P (sys_io f b).
Proof.
  intros w Hw. unfold sys_io. destruct b as [n|s].
  - pose proof (keeps_recv f n w Hw). by destruct (recv f n w) as [[]].
  - pose proof (keeps_send f s w Hw). by destruct (send f s w) as [[]].
Qed.
#[local] Hint Resolve always_sys_io : always.

Lemma always_try_io fuel f b cb : always P (conn_try_io fuel f b cb).
Proof. induction fuel; cbn [conn_try_io]; always_tac. Qed.
#[local] Hint Resolve always_try_io : always.

Lemma always_load_conn i : always P (load_conn i).
Proof. unfold load_conn. always_tac. Qed.
Lemma always_save_conn i c : always P (save_conn i c).
Proof. apply always_modify. intros w. apply keeps_put. Qed.
#[local] Hint Resolve always_load_conn always_save_conn : always.

Lemma always_take_char i c : always P (take_char i c).
Proof. unfold take_char. always_tac. Qed.
#[local] Hint Resolve always_take_char : always.

Lemma always_conn_getc fuel i : always P (conn_getc fuel i).
Proof. unfold conn_getc. always_tac. Qed.
#[local] Hint Resolve always_conn_getc : always.

Lemma always_conn_ungetc i : always P (conn_ungetc i).
Proof. unfold conn_ungetc. always_tac. Qed.
#[local] Hint Resolve always_conn_ungetc : always.

Lemma always_gets_loop fuel i n : forall r b, always P (gets_loop fuel i n r b).
Proof. induction fuel; intros; cbn [gets_loop]; always_tac. Qed.
#[local] Hint Resolve always_gets_loop : always.

Lemma always_conn_gets fuel i n b : always P (conn_gets fuel i n b).
Proof. unfold conn_gets. always_tac. Qed.

Lemma always_write_loop fuel i : forall s n, always P (write_loop fuel i s n).
Proof. induction fuel; intros; cbn [write_loop]; always_tac. Qed.
#[local] Hint Resolve always_conn_gets always_write_loop : always.

Lemma always_conn_write fuel i s n : always P (conn_write fuel i s n).
Proof. unfold conn_write. always_tac. Qed.
#[local] Hint Resolve always_conn_write : always.

Lemma always_copy_loop fuel out inp : forall n, always P (copy_loop fuel out inp n).
Proof. induction fuel; intros; cbn [copy_loop]; always_tac. Qed.
#[local] Hint Resolve always_copy_loop : always.

Lemma always_conn_copy fuel out inp n : always P (conn_copy fuel out inp n).
Proof. unfold conn_copy. always_tac. Qed.
#[local] Hint Resolve always_conn_copy : always.

Lemma always_fetch_headers fuel i : forall d, always P (net_fetch_headers fuel i d).
Proof. induction fuel; intros; cbn [net_fetch_headers]; always_tac. Qed.
#[local] Hint Resolve always_fetch_headers : always.

Lemma always_fetch_http fuel i d : always P (net_fetch_http fuel i d).
Proof. unfold net_fetch_http. always_tac. Qed.

Lemma always_forward_req_header fuel q i : always P (net_forward_req_header fuel q i).
Proof. unfold net_forward_req_header. always_tac. Qed.

Lemma always_forward_rsp_header fuel r i : always P (net_forward_rsp_header fuel r i).
Proof. unfold net_forward_rsp_header. always_tac. Qed.

Lemma always_bad_request fuel i : always P (net_bad_request fuel i).
Proof. unfold net_bad_request. always_tac. Qed.

Lemma always_bad_gateway fuel i : always P (net_bad_gateway fuel i).
Proof. unfold net_bad_gateway. always_tac. Qed.

Lemma always_write_buf fuel i b : always P (write_buf fuel i b).
Proof. unfold write_buf. always_tac. Qed.
#[local] Hint Resolve always_fetch_http always_forward_rsp_header always_bad_gateway always_write_buf : always.

Lemma always_chunk_loop fuel dst src : forall b, always P (chunk_loop fuel dst src b).
Proof. induction fuel; intros; cbn [chunk_loop]; always_tac. Qed.

Lemma always_trailer_loop fuel dst src : forall b, always P (trailer_loop fuel dst src b).
Proof. induction fuel; intros; cbn [trailer_loop]; always_tac. Qed.
#[local] Hint Resolve always_chunk_loop always_trailer_loop : always.

Lemma always_transfer_body fuel dst src d : always P (net_transfer_body_HTTP_1_1 fuel dst src d).
Proof. unfold net_transfer_body_HTTP_1_1, transfer_chunked. always_tac. Qed.
#[local] Hint Resolve always_transfer_body : always.

Lemma always_forever {A} fuel (m : M W (option A)) : always P m -> always P (forever fuel m).
Proof using Type. intros Hm. induction fuel; cbn [forever]; always_tac. Qed.

Lemma always_tunnel fuel dst src : always P (tunnel fuel dst src).
Proof. apply always_forever. always_tac. Qed.

Lemma always_copy_until_end fuel dst src : always P (copy_until_end fuel dst src).
Proof. apply always_forever. always_tac. Qed.
#[local] Hint Resolve always_copy_until_end : always.

Lemma always_relay_rsp fuel client server : always P (http_relay_rsp fuel client server).
Proof. unfold http_relay_rsp, http_fetch_rsp, http_forward_body. always_tac. Qed.
End always_io.

#[export] Hint Resolve keeps_yield keeps_close always_conn_write always_fetch_http
  always_forward_req_header always_bad_request always_bad_gateway always_transfer_body always_tunnel
  always_relay_rsp always_forever : always.
#[export] Hint Extern 0 (KeepsEnv _ _) => typeclasses eauto : always.
