(* ===== verification/Table.v ===== *)
(** Hash tables with distinct keys, as the proxy's modules keep them: ordered
    association lists with the operations of uthash.  Every module looks a key
    up before it adds it, and under that discipline the bucket tables implement
    these lists (Uthash.v, [ut_refines_alist]). *)

From S2P Require Import Prelude.

Section table.
Context {K V : Type} `{!EqDecision K}.
Implicit Types (t : list (K * V)) (k : K) (v : V).

(** [HASH_FIND]. *)
Fixpoint tbl_find (k : K) (t : list (K * V)) : option V :=
  match t with
  | [] => None
  | (k', v) :: t => if decide (k' = k) then Some v else tbl_find k t
  end.

(** [HASH_ADD] of a key that was looked up and not found. *)
Definition tbl_add (k : K) (v : V) (t : list (K * V)) : list (K * V) := t ++ [(k, v)].

(** [HASH_DEL] of the element with the key. *)
Definition tbl_del (k : K) (t : list (K * V)) : list (K * V) := filter (fun kv => kv.1 <> k) t.

(** A store through the pointer [HASH_FIND] returned. *)
Definition tbl_set (k : K) (v : V) (t : list (K * V)) : list (K * V) :=
  (fun kv => if decide (kv.1 = k) then (k, v) else kv) <$> t.

Lemma tbl_find_None k t : tbl_find k t = None <-> k ∉ t.*1.
Proof.
  induction t as [|[k' v] t IH]; cbn; [split; [by intros _ ?%elem_of_nil|done]|].
  rewrite not_elem_of_cons. case_decide as E; [split; [done|by intros [[] _]]|].
  rewrite IH. intuition congruence.
Qed.

Lemma tbl_find_Some k v t : tbl_find k t = Some v -> (k, v) ∈ t.
Proof.
  induction t as [|[k' v'] t IH]; cbn; [done|]. case_decide; intros E; [simplify_eq; by left|right; auto].
Qed.

Lemma tbl_find_elem k v t : NoDup t.*1 -> tbl_find k t = Some v <-> (k, v) ∈ t.
Proof.
  intros Hnd. split; [apply tbl_find_Some|]. intros Hin. destruct (tbl_find k t) as [v'|] eqn:E.
  - apply tbl_find_Some in E. f_equal.
    assert ((k, v) = (k, v')) as [=] by by apply (NoDup_fmap_inj fst t). done.
  - apply tbl_find_None in E. destruct E. apply list_elem_of_fmap. by exists (k, v).
Qed.

Lemma tbl_find_add k k' v t :
  k ∉ t.*1 -> tbl_find k' (tbl_add k v t) = if decide (k' = k) then Some v else tbl_find k' t.
Proof.
  unfold tbl_add. induction t as [|[k1 v1] t IH]; cbn; intros Hn.
  - repeat case_decide; congruence.
  - apply not_elem_of_cons in Hn as [? Hn]. rewrite IH by done. repeat case_decide; congruence.
Qed.

Lemma tbl_find_set k k' v t :
  tbl_find k' (tbl_set k v t) =
    if decide (k' = k) then (match tbl_find k t with Some _ => Some v | None => None end)
    else tbl_find k' t.
Proof.
  unfold tbl_set. induction t as [|[k1 v1] t IH]; cbn; [by case_decide|].
  repeat (case_decide; subst; cbn); try congruence; rewrite IH; repeat case_decide; congruence.
Qed.

Lemma tbl_find_del k k' t :
  tbl_find k' (tbl_del k t) = if decide (k' = k) then None else tbl_find k' t.
Proof.
  unfold tbl_del. induction t as [|[k1 v1] t IH]; [by case_decide|].
  rewrite filter_cons. cbn [fst tbl_find].
  destruct (decide (k1 <> k)) as [|E]; cbn [tbl_find]; rewrite IH; repeat case_decide;
    try congruence; destruct E; congruence.
Qed.

Lemma tbl_set_keys k v t : (tbl_set k v t).*1 = t.*1.
Proof.
  unfold tbl_set. rewrite <-list_fmap_compose. apply list_fmap_ext. intros i [k' v'] _. cbn.
  by case_decide; subst.
Qed.

Lemma tbl_del_keys k t : (tbl_del k t).*1 = filter (fun x => x <> k) t.*1.
Proof. unfold tbl_del. symmetry. by apply filter_fmap_ext. Qed.

Lemma tbl_add_keys k v t : (tbl_add k v t).*1 = t.*1 ++ [k].
Proof. unfold tbl_add. by rewrite fmap_app. Qed.

Lemma tbl_add_NoDup k v t : k ∉ t.*1 -> NoDup t.*1 -> NoDup (tbl_add k v t).*1.
Proof.
  intros Hn Hnd. rewrite tbl_add_keys. apply NoDup_app. split_and!; [done| |apply NoDup_singleton].
  intros k' Hk' ->%list_elem_of_singleton. done.
Qed.

Lemma tbl_del_NoDup k t : NoDup t.*1 -> NoDup (tbl_del k t).*1.
Proof. intros. rewrite tbl_del_keys. by apply NoDup_filter. Qed.

Lemma tbl_del_length k v t :
  NoDup t.*1 -> tbl_find k t = Some v -> Z.of_nat (length (tbl_del k t)) = (Z.of_nat (length t) - 1)%Z.
Proof. intros Hnd Hf%tbl_find_Some. by apply (length_filter_key fst t (k, v)). Qed.

Lemma tbl_set_length k v t : length (tbl_set k v t) = length t.
Proof. apply length_fmap. Qed.
End table.
