(* ===== verification/Event.v ===== *)
(** src/core/event.c: event identifiers, the table of event handlers, the queue
    of posted events as a linked list of heap nodes, and the dispatch loop.

    The operations work on any state [W] that contains the module's variables
    ([HasEvent]); the handlers the table holds are functions of the program,
    invoked through [call]. *)

From S2P Require Import Prelude CLib Outcome ConnIf Table.

#[local] Open Scope Z_scope.

(** [struct event]; a null pointer is [None]. *)
Record event := Event { ev_eid : event_id; ev_data : Z; ev_next : option positive }.

(** The file's variables; [nodes] are the allocated [struct event]s.  [Hd] are
    the handler functions; an entry of [handlers] holds [handler] and [data]. *)
Record event_state (Hd : Type) := EventState {
  handlers : list (event_id * (Hd * Z));
  id_max : event_id;
  nodes : gmap positive event;
  ev_head : option positive;
  ev_tail : option positive
}.
Arguments EventState {Hd}.
Arguments handlers {Hd}. Arguments id_max {Hd}. Arguments nodes {Hd}.
Arguments ev_head {Hd}. Arguments ev_tail {Hd}.

Class HasEvent (Hd W : Type) := {
  ev_get : W -> event_state Hd;
  ev_put : event_state Hd -> W -> W;
  ev_get_put s w : ev_get (ev_put s w) = s
}.

Section event.
Context {Hd W : Type} `{!HasEvent Hd W}.
Implicit Types (s : event_state Hd) (w : W).

Definition with_handlers s h : event_state Hd := EventState h (id_max s) (nodes s) (ev_head s) (ev_tail s).
Definition with_queue s n h t : event_state Hd := EventState (handlers s) (id_max s) n h t.

Definition update (f : event_state Hd -> event_state Hd) : M W () :=
  modify (fun w => ev_put (f (ev_get w)) w).

Definition event_get_id : M W event_id :=
  id ← get (fun w => id_max (ev_get w));
  _ ← update (fun s => EventState (handlers s) (u32 (id + 1)) (nodes s) (ev_head s) (ev_tail s));
  mret id.

Definition event_free_id (eid : event_id) : M W () :=
  t ← get (fun w => handlers (ev_get w));
  match tbl_find eid t with
  | Some _ => update (fun s => with_handlers s (tbl_del eid (handlers s)))
  | None => mret ()
  end.

Definition event_set_handler (eid : event_id) (h : Hd) (data : Z) : M W Z :=
  t ← get (fun w => handlers (ev_get w));
  _ ← update (fun s => with_handlers s
        (match tbl_find eid t with
         | None => tbl_add eid (h, data) t
         | Some _ => tbl_set eid (h, data) t
         end));
  mret 0.

(** A read of a queue node; a node that was freed is undefined behaviour. *)
Definition load_event (p : option positive) : M W (positive * event) :=
  s ← get ev_get;
  demand (p ← p; e ← nodes s !! p; Some (p, e)).

Definition event_post (eid : event_id) (data : Z) : M W Z :=
  s ← get ev_get;
  let p := fresh (dom (nodes s)) in
  let n := <[p := Event eid data None]> (nodes s) in
  match ev_tail s with
  | None => _ ← update (fun s => with_queue s n (Some p) (Some p)); mret 0
  | Some q =>
      '(q, e) ← load_event (Some q);
      _ ← update (fun s => with_queue s (<[q := Event (ev_eid e) (ev_data e) (Some p)]> n)
                             (ev_head s) (Some p));
      mret 0
  end.

Context (call : Hd -> event_id -> Z -> Z -> M W Z).

(** The body of the loop of [event_work] up to the return of the handler. *)
Definition dispatch : M W () :=
  s ← get ev_get;
  '(_, e) ← load_event (ev_head s);
  match tbl_find (ev_eid e) (handlers s) with
  | None => mret ()
  | Some (h, data) => _ ← call h (ev_eid e) data (ev_data e); mret ()
  end.

Fixpoint work_loop (fuel : nat) : M W () :=
  match fuel with
  | O => no_fuel
  | S fuel' =>
      s ← get ev_get;
      match ev_head s with
      | None => mret ()
      | Some _ =>
          _ ← dispatch;
          s ← get ev_get;
          '(p, e) ← load_event (ev_head s);
          _ ← update (fun s => with_queue s (delete p (nodes s)) (ev_next e) (ev_tail s));
          work_loop fuel'
      end
  end.

Definition event_work (fuel : nat) : M W Z :=
  _ ← work_loop fuel;
  _ ← update (fun s => with_queue s (nodes s) (ev_head s) None);
  mret 0.

Definition event_module_done (fuel : nat) : M W () :=
  _ ← event_work fuel;
  update (fun s => with_handlers s (foldl (fun t kv => tbl_del kv.1 t) (handlers s) (handlers s))).
End event.
