(* ===== verification/EventProps.v ===== *)
(** The event queue of src/core/event.c as a first-in first-out queue, and the
    dispatch loop. *)

From S2P Require Import Prelude CLib Outcome ConnIf Table Event.

#[local] Open Scope Z_scope.

(** A posted event: its identifier and the datum of [event_post]. *)
Abbreviation posted := (event_id * Z)%type.

(** The nodes reachable from [p], with their addresses. *)
Fixpoint chain (n : gmap positive event) (p : option positive) (l : list (positive * posted)) : Prop :=
  match l with
  | [] => p = None
  | (a, (eid, d)) :: l => p = Some a /\ exists nx, n !! a = Some (Event eid d nx) /\ chain n nx l
  end.

(** The queue holds [q], every allocated node is in it, and [tail] is the last
    one.  Between freeing the last node and the end of [event_work] only the
    part without [tail] holds. *)
Definition queue_nodes {Hd} (s : event_state Hd) (q : list posted) (t : option positive) : Prop :=
  exists l, l.*2 = q /\ NoDup l.*1 /\ chain (nodes s) (ev_head s) l /\
    (forall a, a ∈ dom (nodes s) <-> a ∈ l.*1) /\ t = last l.*1.
Definition queue_rep {Hd} (s : event_state Hd) (q : list posted) : Prop :=
  queue_nodes s q (ev_tail s).
Definition loop_rep {Hd} (s : event_state Hd) (q : list posted) : Prop :=
  exists t, queue_nodes s q t /\ (q <> [] -> ev_tail s = t).

Lemma chain_ext n n' p l :
  chain n p l -> (forall a, a ∈ l.*1 -> n' !! a = n !! a) -> chain n' p l.
Proof.
  revert p. induction l as [|[a [eid d]] l IH]; intros p; cbn; [done|].
  intros [-> (nx&Ha&Hc)] Hext. split; [done|]. exists nx. split.
  - rewrite Hext; [done|by left].
  - apply IH; [done|]. intros b Hb. apply Hext. by right.
Qed.

(** Linking a new node behind the last one. *)
Lemma chain_snoc n p l q e r x :
  chain n p l -> NoDup l.*1 -> last l.*1 = Some q -> n !! q = Some e -> r ∉ l.*1 ->
  chain (<[q := Event (ev_eid e) (ev_data e) (Some r)]> (<[r := Event x.1 x.2 None]> n)) p (l ++ [(r, x)]).
Proof.
  revert p. induction l as [|[a [eid d]] l IH]; intros p; [done|].
  intros [-> (nx&Ha&Hc)] Hnd Hlast Hq Hr. rewrite fmap_cons in Hnd, Hr. cbn [fst] in Hnd, Hr.
  apply NoDup_cons in Hnd as [Hna Hnd]. apply not_elem_of_cons in Hr as [Hra Hr].
  cbn [app chain]. split; [done|]. destruct l as [|y l].
  - cbn in Hlast, Hc. simplify_eq. exists (Some r). split; [by rewrite lookup_insert_eq|].
    cbn. destruct x as [xe xd]. split; [done|]. exists None. split; [|done].
    rewrite lookup_insert_ne by done. by rewrite lookup_insert_eq.
  - assert (last (y :: l).*1 = Some q) as Hlast' by exact Hlast.
    exists nx. split; [|by apply IH]. rewrite lookup_insert_ne, lookup_insert_ne; [done|done|].
    intros ->. apply Hna. by apply last_Some_elem_of.
Qed.

Section event_props.
Context {Hd W : Type} `{!HasEvent Hd W}.
Implicit Types (s : event_state Hd) (w : W) (q : list posted).

Lemma queue_rep_empty h i : queue_rep (EventState h i ∅ None None : event_state Hd) [].
Proof. exists []. split_and!; [done|constructor|done| |done]. intros a. cbn. rewrite dom_empty. set_solver. Qed.

Lemma queue_nodes_frame s s' q t :
  queue_nodes s q t -> nodes s' = nodes s -> ev_head s' = ev_head s -> queue_nodes s' q t.
Proof. intros (l&?&?&?&?&?) E1 E2. exists l. by rewrite E1, E2. Qed.

Lemma queue_post s q eid d :
  queue_rep s q ->
  let p := fresh (dom (nodes s)) in
  match ev_tail s with
  | None => queue_rep (with_queue s (<[p := Event eid d None]> (nodes s)) (Some p) (Some p))
              (q ++ [(eid, d)])
  | Some t => exists e, nodes s !! t = Some e /\
      queue_rep (with_queue s (<[t := Event (ev_eid e) (ev_data e) (Some p)]>
                   (<[p := Event eid d None]> (nodes s))) (ev_head s) (Some p)) (q ++ [(eid, d)])
  end.
Proof.
  intros (l&<-&Hnd&Hc&Hdom&Ht) p.
  assert (p ∉ l.*1) as Hp. { rewrite <-Hdom. apply is_fresh. }
  assert (forall n : gmap positive event, dom n = {[p]} ∪ dom (nodes s) ->
    forall a, a ∈ dom n <-> a ∈ (l ++ [(p, (eid, d))]).*1) as Hdom'.
  { intros n Hn a. rewrite Hn, fmap_app, elem_of_app, elem_of_union, elem_of_singleton, Hdom.
    cbn. rewrite list_elem_of_singleton. tauto. }
  assert (NoDup (l ++ [(p, (eid, d))]).*1) as Hnd'.
  { rewrite fmap_app. apply NoDup_app. split_and!; [done| |apply NoDup_singleton].
    intros a Ha ->%list_elem_of_singleton. done. }
  rewrite Ht. destruct (last l.*1) as [t|] eqn:El.
  - assert (t ∈ dom (nodes s)) as [e He]%elem_of_dom by by apply Hdom, last_Some_elem_of.
    exists e. split; [done|]. exists (l ++ [(p, (eid, d))]). split_and!.
    + by rewrite fmap_app.
    + done.
    + by apply (chain_snoc _ _ _ _ _ _ (eid, d)).
    + apply Hdom'. cbn. rewrite !dom_insert_L.
      apply elem_of_dom_2, singleton_subseteq_l in He.
      apply subseteq_union_1_L. etrans; [exact He|apply union_subseteq_r].
    + by rewrite fmap_app, last_app.
  - apply last_None, fmap_nil_inv in El as ->. exists [(p, (eid, d))]. split_and!; [done|done| | |done].
    + cbn. split; [done|]. exists None. by rewrite lookup_insert_eq.
    + apply Hdom'. cbn. by rewrite dom_insert_L.
Qed.

(** ** The operations *)

Lemma event_post_spec U eid d q w :
  queue_rep (ev_get w) q ->
  wp U (event_post eid d) (fun r w' => r = 0 /\ exists s', w' = ev_put s' w /\
    queue_rep s' (q ++ [(eid, d)]) /\ handlers s' = handlers (ev_get w) /\ id_max s' = id_max (ev_get w)) w.
Proof.
  intros Hq. pose proof (queue_post _ _ eid d Hq) as H. cbv zeta in H.
  unfold event_post. wp_step. destruct (ev_tail (ev_get w)) as [t|] eqn:Et.
  - destruct H as (e&He&H). apply wp_bind. unfold load_event. wp_step.
    eapply wp_demand; [cbn; by rewrite He|]. cbn. apply wp_bind, wp_modify. apply wp_ret.
    split; [done|]. eexists. split; [done|]. by split_and!.
  - apply wp_bind, wp_modify, wp_ret. split; [done|]. eexists. split; [done|]. by split_and!.
Qed.

Lemma event_set_handler_spec U eid h d w :
  wp U (event_set_handler eid h d) (fun r w' => r = 0 /\ exists s', w' = ev_put s' w /\
    tbl_find eid (handlers s') = Some (h, d) /\
    (forall k, k <> eid -> tbl_find k (handlers s') = tbl_find k (handlers (ev_get w))) /\
    (forall q, queue_rep (ev_get w) q -> queue_rep s' q) /\ id_max s' = id_max (ev_get w)) w.
Proof.
  unfold event_set_handler. wp_step. apply wp_bind, wp_modify, wp_ret. split; [done|].
  eexists. split; [done|]. cbn. split_and!; [| | |done].
  - destruct (tbl_find eid (handlers (ev_get w))) as [x|] eqn:E.
    + by rewrite tbl_find_set, decide_True, E by done.
    + rewrite tbl_find_add, decide_True; [done..|by apply tbl_find_None].
  - intros k Hk. destruct (tbl_find eid (handlers (ev_get w))) as [x|] eqn:E.
    + by rewrite tbl_find_set, decide_False by done.
    + rewrite tbl_find_add, decide_False; [done..|by apply tbl_find_None].
  - intros q Hq. by eapply queue_nodes_frame.
Qed.

Lemma event_free_id_spec U eid w :
  wp U (event_free_id eid) (fun _ w' => exists s', (w' = w /\ s' = ev_get w \/ w' = ev_put s' w) /\
    tbl_find eid (handlers s') = None /\
    (forall k, k <> eid -> tbl_find k (handlers s') = tbl_find k (handlers (ev_get w))) /\
    (forall q, queue_rep (ev_get w) q -> queue_rep s' q) /\ id_max s' = id_max (ev_get w)) w.
Proof.
  unfold event_free_id. wp_step. destruct (tbl_find eid (handlers (ev_get w))) as [x|] eqn:E.
  - apply wp_modify. eexists. split; [by right|]. cbn. split_and!.
    + by rewrite tbl_find_del, decide_True.
    + intros k Hk. by rewrite tbl_find_del, decide_False.
    + intros q Hq. by eapply queue_nodes_frame.
    + done.
  - apply wp_ret. exists (ev_get w). by split_and!; [left| | | |].
Qed.
End event_props.

(** ** The dispatch loop *)

Section work.
Context {Hd W : Type} `{!HasEvent Hd W}.
Context (call : Hd -> event_id -> Z -> Z -> M W Z).
Implicit Types (s : event_state Hd) (w : W) (q new log : list posted).

(** The effect of handling the first event [e] of the queue, behind which [q] waits: its
    handler runs, if there is one, and what it has put in the queue is [new];
    then the event leaves the queue, and [q] and [new] stay. *)
Definition handled (e : posted) q w new w' : Prop :=
  exists w1 s', w' = ev_put s' w1 /\ handlers s' = handlers (ev_get w1) /\
    id_max s' = id_max (ev_get w1) /\
    queue_rep (ev_get w1) (e :: q ++ new) /\ loop_rep s' (q ++ new) /\
    match tbl_find e.1 (handlers (ev_get w)) with
    | None => w1 = w /\ new = []
    | Some (h, data) => exists r, call h e.1 data e.2 w = Ok r w1
    end.

(** [works q w log w']: from [w] with queue [q] the events [log] are handled in
    that order, each one together with what its handler posts at the end of the
    queue, until the queue is empty in [w']. *)
Inductive works : list posted -> W -> list posted -> list posted -> W -> Prop :=
| works_nil w : works [] w [] [] w
| works_cons e q w new w1 log all w' :
    handled e q w new w1 -> works (q ++ new) w1 log all w' ->
    works (e :: q) w (e :: log) (new ++ all) w'.

(** Events are handled in the order in which they were posted. *)
Lemma works_fifo q w log all w' : works q w log all w' -> log = q ++ all.
Proof. induction 1 as [|e q w new w1 log all w' _ _ ->]; [done|]. by rewrite <-app_assoc. Qed.

Lemma loop_rep_head s q : loop_rep s q -> ev_head s = None -> q = [].
Proof. intros (t&(l&<-&_&Hc&_)&_) E. destruct l as [|[a [eid d]] l]; [done|]. destruct Hc as [? _]. congruence. Qed.

Lemma queue_pop s e q : queue_rep s (e :: q) ->
  exists p nx, ev_head s = Some p /\ nodes s !! p = Some (Event e.1 e.2 nx) /\
    loop_rep (with_queue s (delete p (nodes s)) nx (ev_tail s)) q.
Proof.
  intros (l&Hl&Hnd&Hc&Hdom&Ht). destruct l as [|[a [eid d]] l]; [done|]. cbn in Hl. simplify_eq.
  destruct Hc as [Hh (nx&Ha&Hc)]. exists a, nx. split_and!; [done|done|].
  cbn in Hnd. apply NoDup_cons in Hnd as [Hna Hnd]. exists (last l.*1). split.
  - exists l. split_and!; [done|done| | |done].
    + cbn. eapply chain_ext; [done|]. intros b Hb. rewrite lookup_delete_ne; [done|]. by intros <-.
    + intros b. cbn. rewrite dom_delete, elem_of_difference, Hdom, elem_of_singleton. cbn.
      rewrite elem_of_cons. split; [tauto|]. intros Hb. split; [by right|]. by intros ->.
  - intros Hq. cbn. rewrite Ht. destruct l; [done|]. done.
Qed.

Lemma loop_rep_queue s e q : loop_rep s (e :: q) -> queue_rep s (e :: q).
Proof. intros (t&H&E). unfold queue_rep. by rewrite E. Qed.

#[local] Set Default Proof Using "All".

Context (mu : W -> nat).
Hypothesis mu_put : forall s w, mu (ev_put s w) = mu w.
(** A handler leaves the queue as it is except for what it posts, and [mu]
    bounds what may still be posted. *)
Hypothesis call_ok : forall h eid d0 d1 w q,
  queue_rep (ev_get w) q -> q <> [] ->
  wp safe (call h eid d0 d1) (fun _ w' => exists new,
    queue_rep (ev_get w') (q ++ new) /\ (mu w' + length new <= mu w)%nat) w.

Lemma dispatch_spec e q w :
  queue_rep (ev_get w) (e :: q) ->
  wp safe (dispatch call) (fun _ w1 => exists new, queue_rep (ev_get w1) (e :: q ++ new) /\
    (mu w1 + length new <= mu w)%nat /\
    match tbl_find e.1 (handlers (ev_get w)) with
    | None => w1 = w /\ new = []
    | Some (h, data) => exists r, call h e.1 data e.2 w = Ok r w1
    end) w.
Proof.
  intros Hq. destruct (queue_pop _ _ _ Hq) as (p&nx&Hh&Hp&_). unfold dispatch. wp_step.
  apply wp_bind. unfold load_event. wp_step. eapply wp_demand; [rewrite Hh; cbn; by rewrite Hp|].
  cbn. destruct (tbl_find e.1 _) as [[h data]|] eqn:E.
  - destruct (wp_Ok _ _ _ (call_ok h e.1 data e.2 w _ Hq ltac:(done))) as (r&w1&Hrun&new&Hnew&Hmu).
    apply wp_bind. unfold wp. rewrite Hrun. exists new. split_and!; [done|done|by exists r].
  - apply wp_ret. exists []. rewrite app_nil_r. split_and!; [done|cbn; lia|done|done].
Qed.

Lemma work_loop_spec fuel : forall q w,
  loop_rep (ev_get w) q -> (length q + mu w < fuel)%nat ->
  wp safe (work_loop call fuel) (fun _ w' => loop_rep (ev_get w') [] /\
    exists log all, works q w log all w') w.
Proof.
  induction fuel as [|fuel IH]; intros q w Hq Hf; [lia|]. cbn [work_loop]. wp_step.
  destruct (ev_head (ev_get w)) as [p0|] eqn:Eh.
  2: { pose proof (loop_rep_head _ _ Hq Eh) as ->. apply wp_ret. split; [done|]. exists [], []. constructor. }
  destruct q as [|e q]. { destruct Hq as (t&(l&Hl&_&Hc&_)&_). apply fmap_nil_inv in Hl as ->. cbn in Hc. congruence. }
  apply loop_rep_queue in Hq. eapply wp_seq; [by apply dispatch_spec|].
  intros _ w1 (new&Hq1&Hmu&Hcall). wp_step. destruct (queue_pop _ _ _ Hq1) as (p&nx&Hh&Hp&Hpop).
  apply wp_bind. unfold load_event. wp_step. eapply wp_demand; [rewrite Hh; cbn; by rewrite Hp|].
  cbn. apply wp_bind, wp_modify. eapply wp_mono.
  - apply (IH (q ++ new)); [by rewrite ev_get_put|]. rewrite mu_put. len_lia.
  - intros _ w' (Hend&log&all&Hw). split; [done|]. exists (e :: log), (new ++ all).
    econstructor; [|exact Hw]. exists w1. eexists. split; [reflexivity|]. split; [done|]. split; [done|].
    split; [exact Hq1|]. split; [exact Hpop|exact Hcall].
Qed.

Lemma event_work_spec fuel q w :
  queue_rep (ev_get w) q -> (length q + mu w < fuel)%nat ->
  wp safe (event_work call fuel) (fun r w' => r = 0 /\ exists log all w1,
    works q w log all w1 /\ w' = ev_put (with_queue (ev_get w1) ∅ None None) w1) w.
Proof.
  intros Hq Hf. unfold event_work. eapply wp_seq; [apply (work_loop_spec fuel q); [by exists (ev_tail (ev_get w))|done]|].
  intros _ w1 ((t&(l&Hl&_&Hc&Hdom&_)&_)&log&all&Hw). apply fmap_nil_inv in Hl as ->. cbn in Hc, Hdom.
  apply wp_bind, wp_modify, wp_ret. split; [done|]. exists log, all, w1. split; [done|]. rewrite Hc.
  assert (dom (nodes (ev_get w1)) = ∅) as E%dom_empty_inv_L.
  { apply leibniz_equiv. intros a. rewrite Hdom. split; [by intros ?%elem_of_nil|by intros ?%elem_of_empty]. }
  by rewrite E.
Qed.
End work.

(** ** Identifiers *)

Section ids.
Context {Hd W : Type} `{!HasEvent Hd W}.

(** [n] calls of [event_get_id] in a row. *)
Fixpoint event_get_ids (n : nat) : M W (list event_id) :=
  match n with
  | O => mret []
  | S n => id ← event_get_id; ids ← event_get_ids n; mret (id :: ids)
  end.

Lemma u32_add i j : u32 (u32 i + j) = u32 (i + j).
Proof. unfold u32. by rewrite Zplus_mod_idemp_l. Qed.

Lemma event_get_ids_eq n w :
  id_max (ev_get w) = u32 (id_max (ev_get w)) ->
  exists w', event_get_ids n w = Ok ((fun i => u32 (id_max (ev_get w) + Z.of_nat i)) <$> seq 0 n) w'.
Proof.
  revert w. induction n as [|n IH]; intros w Hw; [by eexists|]. cbn [event_get_ids].
  unfold event_get_id, update, get, modify, mbind, M_bind, mret, M_ret.
  set (w1 := ev_put _ w).
  assert (id_max (ev_get w1) = u32 (id_max (ev_get w) + 1)) as E1 by (unfold w1; by rewrite ev_get_put).
  destruct (IH w1) as [w' ->]. { rewrite E1. unfold u32. by rewrite Zmod_mod. }
  exists w'. f_equal. cbn. rewrite Z.add_0_r, <-Hw. f_equal.
  rewrite <-fmap_S_seq, <-list_fmap_compose. apply list_fmap_ext. intros i k _.
  cbn. rewrite E1, u32_add. f_equal. lia.
Qed.
End ids.

(** The identifiers of [event_get_id] count upwards modulo [2^32]; as long
    as at most [2^32] are taken they are pairwise different, and the next one is
    the first one again. *)
Theorem event_ids_distinct {Hd W} `{!HasEvent Hd W} (n : nat) (w : W)
    (Hw : 0 <= id_max (ev_get w) < 4294967296) :
  exists ids w', event_get_ids n w = Ok ids w' /\ length ids = n /\
    (NoDup ids <-> Z.of_nat n <= 4294967296) /\
    forall i id, ids !! i = Some id -> id = (id_max (ev_get w) + Z.of_nat i) mod 4294967296.
Proof.
  destruct (event_get_ids_eq n w) as [w' E]. { symmetry. by apply Z.mod_small. }
  eexists _, w'. split; [exact E|]. set (f := fun i : nat => u32 (id_max (ev_get w) + Z.of_nat i)).
  assert (forall i, (i < n)%nat -> (f <$> seq 0 n) !! i = Some (f i)) as Hl.
  { intros i Hi. rewrite list_lookup_fmap, lookup_seq_lt by done. done. }
  split_and!; [by rewrite length_fmap, length_seq| |].
  - split.
    + intros Hnd. apply Z.nlt_ge. intros Hlt.
      assert (0%nat = Z.to_nat 4294967296) as Heq; [|lia].
      eapply NoDup_lookup; [exact Hnd| |]; rewrite Hl by lia; [done|]. f_equal.
      unfold f, u32. rewrite Z2Nat.id by done. rewrite Z.add_0_r.
      rewrite <-(Z.mod_add (id_max _) 1 4294967296) by done. by rewrite Z.mul_1_l.
    + intros Hn. apply NoDup_fmap_2_strong; [|apply NoDup_seq].
      intros i j Hi%elem_of_seq Hj%elem_of_seq Hij. unfold f, u32 in Hij.
      apply (f_equal (fun z => (z - id_max (ev_get w)) mod 4294967296)) in Hij.
      rewrite !Zminus_mod_idemp_l in Hij. rewrite !Z.add_simpl_l, !Z.mod_small in Hij by lia. lia.
  - intros i id Hid. rewrite list_lookup_fmap in Hid.
    apply fmap_Some in Hid as (k&[Hk Hi]%lookup_seq&->). by rewrite Hk.
Qed.

(** C10: [event_work] always returns when what its handlers can post is bounded:
    it handles the queued events and exactly the events that the handlers put in the queue
    meanwhile, in the order in which they were posted, and leaves an empty queue in which every node
    has been freed; no node is used after it was freed. *)
Theorem event_work_fifo {Hd W} `{!HasEvent Hd W} (call : Hd -> event_id -> Z -> Z -> M W Z)
    (mu : W -> nat) (Hmu : forall (s : event_state Hd) w, mu (ev_put s w) = mu w)
    (Hcall : forall h eid d0 d1 w q, queue_rep (ev_get w) q -> q <> [] ->
      wp safe (call h eid d0 d1) (fun _ w' => exists new,
        queue_rep (ev_get w') (q ++ new) /\ (mu w' + length new <= mu w)%nat) w)
    (fuel : nat) (q : list posted) (w : W)
    (Hq : queue_rep (ev_get w) q) (Hf : (length q + mu w < fuel)%nat) :
  exists log all w1, event_work call fuel w = Ok 0 (ev_put (with_queue (ev_get w1) ∅ None None) w1) /\
    works call q w log all w1 /\ log = q ++ all.
Proof.
  destruct (wp_Ok _ _ _ (event_work_spec call mu Hmu Hcall fuel q w Hq Hf))
    as (r&w'&Hrun&->&log&all&w1&Hw&->).
  exists log, all, w1. split_and!; [done|done|]. by eapply works_fifo.
Qed.

(** [event_post] always returns 0 and puts the event behind the queued ones
    in a node of its own; the handlers and the identifiers are as before. *)
Theorem event_post_enqueues {Hd W} `{!HasEvent Hd W} (eid : event_id) (d : Z) (q : list posted) (w : W)
    (Hq : queue_rep (ev_get w) q) :
  exists s', event_post eid d w = Ok 0 (ev_put s' w) /\ queue_rep s' (q ++ [(eid, d)]) /\
    handlers s' = handlers (ev_get w) /\ id_max s' = id_max (ev_get w).
Proof.
  destruct (wp_Ok _ _ _ (event_post_spec safe eid d q w Hq)) as (r&w'&Hrun&->&s'&->&H). by exists s'.
Qed.

(** ** An instance: handlers that log their event and post a number of others *)

Record demo := Demo { demo_ev : event_state bool; demo_left : nat; demo_log : list posted }.
#[export] Instance demo_event : HasEvent bool demo := {
  ev_get := demo_ev;
  ev_put s w := Demo s (demo_left w) (demo_log w);
  ev_get_put s w := eq_refl
}.

(** The handler [true] posts its event again under the identifier of [data0]. *)
Definition demo_call (h : bool) (eid : event_id) (d0 d1 : Z) : M demo Z :=
  _ ← modify (fun w => Demo (demo_ev w) (demo_left w) (demo_log w ++ [(eid, d1)]));
  n ← get demo_left;
  match h, n with
  | true, S n => _ ← modify (fun w => Demo (demo_ev w) n (demo_log w)); event_post d0 (d1 + 1)
  | _, _ => mret 0
  end.

Definition demo_world : demo :=
  Demo (EventState [(7, (true, 8)); (8, (true, 7)); (9, (false, 0))] 10 ∅ None None) 2 [].

Definition demo_posted : demo :=
  match (_ ← event_post 7 1; _ ← event_post 5 0; event_post 9 3) demo_world with
  | Ok _ w => w
  | _ => demo_world
  end.

Lemma demo_call_ok h eid d0 d1 w q :
  queue_rep (ev_get w) q ->
  wp safe (demo_call h eid d0 d1) (fun _ w' => exists new,
    queue_rep (ev_get w') (q ++ new) /\ (demo_left w' + length new <= demo_left w)%nat) w.
Proof.
  intros Hq. unfold demo_call. wp_step. wp_step. cbn [demo_left].
  assert (exists new, queue_rep (demo_ev w) (q ++ new) /\ (demo_left w + length new <= demo_left w)%nat) as Hno.
  { exists []. rewrite app_nil_r. split; [done|cbn; lia]. }
  destruct h; [|by apply wp_ret]. destruct (demo_left w) as [|n]; [by apply wp_ret|].
  wp_step. eapply wp_mono; [by apply (event_post_spec _ _ _ q)|].
  intros r w' (_&s'&->&Hs'&_). exists [(d0, d1 + 1)]. split; [done|cbn; lia].
Qed.

Lemma demo_posted_rep : queue_rep (demo_ev demo_posted) [(7, 1); (5, 0); (9, 3)].
Proof.
  assert (queue_rep (ev_get demo_world) []) as H0 by apply queue_rep_empty.
  destruct (wp_Ok _ _ _ (event_post_spec safe 7 1 _ _ H0))
    as (r1&w1&E1&_&s1&Hw1&H1&_).
  replace s1 with (ev_get w1) in H1 by (by subst).
  destruct (wp_Ok _ _ _ (event_post_spec safe 5 0 _ w1 H1)) as (r2&w2&E2&_&s2&Hw2&H2&_).
  replace s2 with (ev_get w2) in H2 by (by subst).
  destruct (wp_Ok _ _ _ (event_post_spec safe 9 3 _ w2 H2)) as (r3&w3&E3&_&s3&Hw3&H3&_).
  replace s3 with (ev_get w3) in H3 by (by subst).
  unfold demo_posted, mbind, M_bind. rewrite E1, E2, E3. exact H3.
Qed.

Lemma event_post_enqueues_witness :
  exists s', event_post 4 2 demo_posted = Ok 0 (ev_put s' demo_posted) /\
    queue_rep s' ([(7, 1); (5, 0); (9, 3)] ++ [(4, 2)]) /\
    handlers s' = handlers (demo_ev demo_posted) /\ id_max s' = id_max (demo_ev demo_posted).
Proof. exact (event_post_enqueues 4 2 _ demo_posted demo_posted_rep). Defined.

Lemma event_work_fifo_witness :
  exists log all w1, event_work demo_call 6 demo_posted = Ok 0 (ev_put (with_queue (ev_get w1) ∅ None None) w1) /\
    works demo_call [(7, 1); (5, 0); (9, 3)] demo_posted log all w1 /\ log = [(7, 1); (5, 0); (9, 3)] ++ all.
Proof.
  apply (event_work_fifo demo_call demo_left).
  - reflexivity.
  - intros. by apply demo_call_ok.
  - apply demo_posted_rep.
  - vm_compute. lia.
Defined.

(** The run: the event 5 has no handler, the ones posted on the way come last. *)
Example event_work_run :
  match event_work demo_call 6 demo_posted with
  | Ok _ w => Some (demo_log w)
  | _ => None
  end = Some [(7, 1); (9, 3); (8, 2); (7, 3)].
Proof. vm_compute. reflexivity. Qed.

Lemma event_ids_distinct_witness :
  exists ids w', event_get_ids 3 demo_world = Ok ids w' /\ length ids = 3%nat /\
    (NoDup ids <-> Z.of_nat 3 <= 4294967296) /\
    forall i id, ids !! i = Some id -> id = (10 + Z.of_nat i) mod 4294967296.
Proof.
  assert (0 <= id_max (ev_get demo_world) < 4294967296) as H by (vm_compute; split; [discriminate|reflexivity]).
  exact (event_ids_distinct 3 demo_world H).
Defined.
