(* ===== verification/Async.v ===== *)
(** src/core/async.c: coroutines on saved machine contexts.

    [Pc] are the machine contexts: a coroutine that has not started is its entry
    point, one that called [async_yield] is the point behind the call.  [code]
    is the program text: run from a context, with the value [async_yield]
    returns there, it either returns from the coroutine's function or reaches
    the next [async_yield], whose arguments and continuation it gives.
    [swapcontext] to a coroutine therefore runs [code] once and, when it ended
    in a yield, the first half of [async_yield]. *)

From S2P Require Import Prelude CLib Outcome ConnIf.

#[local] Open Scope Z_scope.

Inductive async_stat := ASYNC_INIT | ASYNC_RUNNING | ASYNC_PAUSE | ASYNC_FINISH.
#[export] Instance async_stat_eq_dec : EqDecision async_stat.
Proof. solve_decision. Defined.

(** [yield_type] and [yield_data] together: the constructors of [conn_notice]
    are the yield types, [None] is [YIELD_NONE]. *)
Record async_cxt (Pc : Type) := AsyncCxt { uc : Pc; a_stat : async_stat; yielded : option conn_notice }.
Arguments AsyncCxt {Pc}. Arguments uc {Pc}. Arguments a_stat {Pc}. Arguments yielded {Pc}.

(** The allocated contexts and the file's variables. *)
Record async_state (Pc : Type) := AsyncState {
  cxts : gmap positive (async_cxt Pc);
  call_cxt : option positive;
  yield_ret : Z
}.
Arguments AsyncState {Pc}. Arguments cxts {Pc}. Arguments call_cxt {Pc}. Arguments yield_ret {Pc}.

Class HasAsync (Pc W : Type) := {
  as_get : W -> async_state Pc;
  as_put : async_state Pc -> W -> W;
  as_get_put s w : as_get (as_put s w) = s;
  as_put_put s s' w : as_put s (as_put s' w) = as_put s w
}.

Section async.
Context {Pc W : Type} `{!HasAsync Pc W}.
Implicit Types (s : async_state Pc) (w : W) (x : positive).

Definition as_update (f : async_state Pc -> async_state Pc) : M W () :=
  modify (fun w => as_put (f (as_get w)) w).

Definition load_cxt x : M W (async_cxt Pc) := s ← get as_get; demand (cxts s !! x).
Definition save_cxt x (c : async_cxt Pc) : M W () :=
  as_update (fun s => AsyncState (<[x := c]> (cxts s)) (call_cxt s) (yield_ret s)).

Definition async_init (x : positive) (entry : Pc) : M W () :=
  save_cxt x (AsyncCxt entry ASYNC_INIT None).

(** [cxt->stat = ASYNC_PAUSE; makecontext(&cxt->uc, ...)], as the callers start
    a coroutine. *)
Definition async_make (x : positive) (entry : Pc) : M W () :=
  c ← load_cxt x; save_cxt x (AsyncCxt entry ASYNC_PAUSE (yielded c)).

(** [mem_decref(cxt, async_done)] on the only reference. *)
Definition async_done (x : positive) : M W () :=
  _ ← load_cxt x;
  as_update (fun s => AsyncState (delete x (cxts s)) (call_cxt s) (yield_ret s)).

(** The first half of [async_yield], up to [swapcontext]. *)
Definition async_yield_out (n : conn_notice) (pc : Pc) : M W () :=
  s ← get as_get;
  x ← demand (call_cxt s);
  c ← load_cxt x;
  save_cxt x (AsyncCxt pc ASYNC_PAUSE (Some n)).

Context (code : Pc -> Z -> M W (option (conn_notice * Pc))).

(** [swapcontext] into a coroutine, until control is back. *)
Definition swap_to (pc : Pc) : M W () :=
  v ← get (fun w => yield_ret (as_get w));
  r ← code pc v;
  match r with
  | None => mret ()
  | Some (n, pc) => async_yield_out n pc
  end.

Definition async_resume (x : positive) (retval : Z) : M W () :=
  c ← load_cxt x;
  if negb (bool_decide (a_stat c = ASYNC_PAUSE)) then mret () else
  _ ← as_update (fun s => AsyncState (<[x := AsyncCxt (uc c) ASYNC_RUNNING None]> (cxts s)) (Some x) retval);
  _ ← swap_to (uc c);
  c ← load_cxt x;
  _ ← (if bool_decide (a_stat c = ASYNC_RUNNING)
       then save_cxt x (AsyncCxt (uc c) ASYNC_FINISH (yielded c)) else mret ());
  as_update (fun s => AsyncState (cxts s) None (yield_ret s)).

(** [async_call], whose comment says that it does not work: [makecontext] gets a
    [va_list] where the arguments belong, which is harmless only without arguments.
    Nothing calls it. *)
Definition async_call (x : positive) (func : Pc) (argc : Z) : M W () :=
  c ← load_cxt x;
  if negb (bool_decide (a_stat c = ASYNC_INIT)) then mret () else
  _ ← (if argc =? 0 then save_cxt x (AsyncCxt func (a_stat c) (yielded c)) else undef);
  c ← load_cxt x;
  _ ← save_cxt x (AsyncCxt (uc c) ASYNC_PAUSE (yielded c));
  async_resume x 0.

(** ** The state machine *)

(** No coroutine runs. *)
Definition at_rest s : Prop :=
  call_cxt s = None /\ forall x c, cxts s !! x = Some c -> a_stat c <> ASYNC_RUNNING.

(** The code of a coroutine works between two yields on other state: it may
    allocate contexts, but leaves those that exist and the variables of
    async.c alone. *)
Definition code_frame s s' : Prop :=
  cxts s ⊆ cxts s' /\ call_cxt s' = call_cxt s /\ yield_ret s' = yield_ret s /\
  forall x c, cxts s' !! x = Some c -> cxts s !! x = None -> a_stat c <> ASYNC_RUNNING.

(** The context of a coroutine after its code gave [r]. *)
Definition after_code (pc : Pc) (r : option (conn_notice * Pc)) : async_cxt Pc :=
  match r with
  | None => AsyncCxt pc ASYNC_FINISH None
  | Some (n, pc) => AsyncCxt pc ASYNC_PAUSE (Some n)
  end.

Lemma load_cxt_wp U x c Q w : cxts (as_get w) !! x = Some c -> Q c w -> wp U (load_cxt x) Q w.
Proof using Type. intros Hc HQ. unfold load_cxt. wp_step. by apply (wp_demand _ _ c). Qed.

Lemma async_resume_spec U x retval c Q w :
  cxts (as_get w) !! x = Some c -> a_stat c = ASYNC_PAUSE ->
  wp U (code (uc c) retval) (fun r w2 =>
    code_frame (AsyncState (<[x := AsyncCxt (uc c) ASYNC_RUNNING None]> (cxts (as_get w))) (Some x) retval)
      (as_get w2) /\
    Q () (as_put (AsyncState (<[x := after_code (uc c) r]> (cxts (as_get w2))) None retval) w2))
   (as_put (AsyncState (<[x := AsyncCxt (uc c) ASYNC_RUNNING None]> (cxts (as_get w))) (Some x) retval) w) ->
  wp U (async_resume x retval) Q w.
Proof.
  intros Hc Hs Hcode. unfold async_resume. apply wp_bind, (load_cxt_wp _ _ c); [done|].
  rewrite bool_decide_true by done. cbn [negb]. apply wp_bind, wp_modify.
  set (w1 := as_put _ w) in *. apply wp_bind. unfold swap_to. wp_step.
  assert (yield_ret (as_get w1) = retval) as -> by (unfold w1; by rewrite as_get_put).
  eapply wp_seq; [exact Hcode|].
  intros r w2 ((Hsub&Hcall&Hret&_)&HQ). unfold w1 in *. cbn [cxts call_cxt yield_ret] in *.
  assert (cxts (as_get w2) !! x = Some (AsyncCxt (uc c) ASYNC_RUNNING None)) as Hx.
  { eapply lookup_weaken; [|exact Hsub]. apply lookup_insert_eq. }
  destruct r as [[n pc]|].
  - unfold async_yield_out. wp_step. apply wp_bind, (wp_demand _ _ x); [done|].
    apply wp_bind, (load_cxt_wp _ _ (AsyncCxt (uc c) ASYNC_RUNNING None)); [done|]. apply wp_modify.
    apply wp_bind, (load_cxt_wp _ _ (AsyncCxt pc ASYNC_PAUSE (Some n))).
    { rewrite as_get_put. apply lookup_insert_eq. }
    cbn [a_stat]. rewrite bool_decide_false by done. apply wp_bind, wp_ret, wp_modify. rewrite !as_put_put, !as_get_put. cbn.
    by rewrite ?insert_insert_eq, Hret.
  - apply wp_ret. apply wp_bind, (load_cxt_wp _ _ (AsyncCxt (uc c) ASYNC_RUNNING None)); [done|].
    cbn [a_stat]. rewrite bool_decide_true by done. apply wp_bind, wp_modify, wp_modify. rewrite !as_put_put, !as_get_put. cbn.
    by rewrite ?insert_insert_eq, Hret.
Qed.

(** A coroutine that is not paused is not run: resuming it is a no-op. *)
Lemma async_resume_skip x retval c w :
  cxts (as_get w) !! x = Some c -> a_stat c <> ASYNC_PAUSE -> async_resume x retval w = Ok () w.
Proof using Type.
  intros Hc Hs. unfold async_resume, load_cxt, get, demand, mbind, M_bind. rewrite Hc. cbn.
  by rewrite bool_decide_false.
Qed.
End async.

(** ** Coroutines as a specification

    A coroutine is fresh, waits with a continuation, or has finished; resuming a
    waiting one runs its code once, and resuming another one does nothing. *)

Inductive co_state (Pc : Type) :=
| CoFresh (pc : Pc)
| CoWaits (pc : Pc) (n : option conn_notice)
| CoDone.
Arguments CoFresh {Pc}. Arguments CoWaits {Pc}. Arguments CoDone {Pc}.

Section spec.
Context {Pc E : Type} (code_of : Pc -> Z -> E -> option (conn_notice * Pc) * E).

Definition co_of (c : async_cxt Pc) : co_state Pc :=
  match a_stat c with
  | ASYNC_INIT => CoFresh (uc c)
  | ASYNC_FINISH => CoDone
  | _ => CoWaits (uc c) (yielded c)
  end.

Definition co_resume (te : gmap positive (co_state Pc) * E) (xv : positive * Z)
    : gmap positive (co_state Pc) * E :=
  match te.1 !! xv.1 with
  | Some (CoWaits pc _) =>
      let '(r, e) := code_of pc xv.2 te.2 in
      (<[xv.1 := match r with Some (n, pc) => CoWaits pc (Some n) | None => CoDone end]> te.1, e)
  | _ => te
  end.

#[export] Instance pair_async : HasAsync Pc (async_state Pc * E) := {
  as_get := fst; as_put s w := (s, w.2); as_get_put s w := eq_refl; as_put_put s s' w := eq_refl
}.

Definition pair_code (pc : Pc) (v : Z) : M (async_state Pc * E) (option (conn_notice * Pc)) :=
  fun w => let '(r, e) := code_of pc v w.2 in Ok r (w.1, e).

Fixpoint resume_all (l : list (positive * Z)) : M (async_state Pc * E) () :=
  match l with
  | [] => mret ()
  | (x, v) :: l => _ ← async_resume pair_code x v; resume_all l
  end.

Definition all_known (s : async_state Pc) (l : list (positive * Z)) : Prop :=
  Forall (fun xv => is_Some (cxts s !! xv.1)) l.

Lemma co_of_after pc r :
  co_of (after_code pc r) = match r with Some (n, pc) => CoWaits pc (Some n) | None => CoDone end.
Proof. by destruct r as [[n pc']|]. Qed.

Lemma async_resume_refines x v s e l :
  at_rest s -> is_Some (cxts s !! x) -> all_known s l ->
  exists s' e', async_resume pair_code x v (s, e) = Ok () (s', e') /\ at_rest s' /\ all_known s' l /\
    (co_of <$> cxts s', e') = co_resume (co_of <$> cxts s, e) (x, v).
Proof.
  intros Hrest [c Hc] Hl. unfold co_resume. cbn [fst snd]. rewrite lookup_fmap, Hc. cbn [fmap option_fmap option_map].
  destruct (decide (a_stat c = ASYNC_PAUSE)) as [Hp|Hp].
  2: { exists s, e. split_and!; [|done..|].
       - apply (async_resume_skip pair_code x v c (s, e)); done.
       - pose proof (proj2 Hrest _ _ Hc). unfold co_of. by destruct (a_stat c). }
  assert (co_of c = CoWaits (uc c) (yielded c)) as -> by (unfold co_of; by rewrite Hp).
  destruct (code_of (uc c) v e) as [r e'] eqn:Er.
  set (s' := AsyncState (<[x := after_code (uc c) r]> (cxts s)) None v).
  assert (async_resume pair_code x v (s, e) = Ok () (s', e')) as Hrun.
  { edestruct (wp_Ok (async_resume pair_code x v) (fun _ w' => w' = (s', e')) (s, e)) as ([]&w'&Hrun&->); [|exact Hrun].
    eapply (async_resume_spec pair_code); [exact Hc|done|]. unfold wp, pair_code. cbn. rewrite Er. cbn. split.
    - split_and!; [done..|]. intros y d Hy Hn. cbn in Hy, Hn. congruence.
    - unfold s'. by rewrite insert_insert_eq. }
  exists s', e'. split_and!; [exact Hrun|split; [done|]| |].
  - intros y d. cbn. rewrite lookup_insert_Some. intros [[_ <-]|[_ Hy]]; [by destruct r as [[??]|]|].
    by eapply (proj2 Hrest).
  - eapply Forall_impl; [exact Hl|]. intros yv Hy. cbn. by rewrite lookup_insert_is_Some'; right.
  - cbn. by rewrite fmap_insert, co_of_after.
Qed.
End spec.

(** C19: for every sequence of resumptions of existing coroutines, async.c
    implements the coroutine specification: a waiting coroutine's code runs once
    from where it yielded, with the value passed to [async_resume] as the result
    of [async_yield], and then waits or is done; resuming a fresh or a finished
    one changes nothing; in between no coroutine is running and [call_cxt] is
    null. *)
Theorem async_refines_coroutines {Pc E} (code_of : Pc -> Z -> E -> option (conn_notice * Pc) * E)
    (l : list (positive * Z)) (s : async_state Pc) (e : E)
    (Hrest : at_rest s) (Hl : all_known s l) :
  exists s' e', resume_all code_of l (s, e) = Ok () (s', e') /\ at_rest s' /\
    (co_of <$> cxts s', e') = foldl (co_resume code_of) (co_of <$> cxts s, e) l.
Proof.
  revert s e Hrest Hl. induction l as [|[x v] l IH]; intros s e Hrest Hl; [by exists s, e|].
  pose proof (Forall_inv Hl) as Hx. pose proof (Forall_inv_tail Hl) as Hl'.
  destruct (async_resume_refines code_of x v s e l Hrest Hx Hl') as (s1&e1&Hrun&Hr1&Hl1&E1).
  destruct (IH s1 e1 Hr1 Hl1) as (s2&e2&Hrun2&Hr2&E2).
  exists s2, e2. cbn [resume_all foldl]. unfold mbind, M_bind. rewrite Hrun. by rewrite E2, E1.
Qed.

(** An instance: coroutine code that yields [pc] times and logs what it gets. *)
Definition count_code (pc : nat) (v : Z) (log : list (nat * Z)) :
    option (conn_notice * nat) * list (nat * Z) :=
  (match pc with O => None | S n => Some (CONN_WAIT_FOR_EVENT (Z.of_nat n), n) end, log ++ [(pc, v)]).

Definition count_state : async_state nat :=
  AsyncState {[1%positive := AsyncCxt 1%nat ASYNC_PAUSE None;
               2%positive := AsyncCxt 5%nat ASYNC_INIT None]} None 0.

Lemma async_refines_coroutines_witness :
  exists s' e', resume_all count_code [(1%positive, 0); (2%positive, 7); (1%positive, -1); (1%positive, 9)]
      (count_state, []) = Ok () (s', e') /\
    at_rest s' /\
    (co_of <$> cxts s', e') =
      ({[1%positive := CoDone; 2%positive := CoFresh 5%nat]}, [(1%nat, 0); (0%nat, -1)]).
Proof.
  destruct (async_refines_coroutines count_code
    [(1%positive, 0); (2%positive, 7); (1%positive, -1); (1%positive, 9)] count_state [])
    as (s'&e'&Hrun&Hrest&Hres).
  - split; [reflexivity|]. intros x c Hx.
    destruct (decide (x = 1%positive)) as [->|H1]; [vm_compute in Hx; by injection Hx as <-|].
    destruct (decide (x = 2%positive)) as [->|H2]; [vm_compute in Hx; by injection Hx as <-|].
    unfold count_state in Hx. cbn [cxts] in Hx. by rewrite lookup_insert_ne, lookup_singleton_ne in Hx by done.
  - repeat constructor; eexists; reflexivity.
  - exists s', e'. split; [exact Hrun|]. split; [exact Hrest|].
    rewrite Hres. vm_compute. reflexivity.
Defined.
