(* ===== verification/NetPull.v ===== *)
(** src/core/net_pull.c: the registry of file descriptors with their handlers,
    kept along with the kernel's epoll set, and the dispatch of epoll events.
    [proxy_epoll_err] is the one of src/core/net_utils.c.

    The epoll system calls and [close] are parameters ([PullKernel]); handlers
    are functions of the program, invoked through [call]. *)

From S2P Require Import Prelude CLib Outcome ConnIf Table.

#[local] Open Scope Z_scope.

(** [struct net_handler_t].  A null handler is [None]; a datum that was never
    assigned is [None], too. *)
Record net_handler_t (Hd : Type) := NetHandler {
  np_fd : Z;
  h_read : option Hd; h_write : option Hd; h_err : option Hd;
  d_read : option Z; d_write : option Z; d_err : option Z
}.
Arguments NetHandler {Hd}. Arguments np_fd {Hd}.
Arguments h_read {Hd}. Arguments h_write {Hd}. Arguments h_err {Hd}.
Arguments d_read {Hd}. Arguments d_write {Hd}. Arguments d_err {Hd}.

(** The file's variables.  [fd_cnt] counts open descriptors, far below the
    range of [int]. *)
Record pull_state (Hd : Type) := PullState {
  p_handlers : list (Z * net_handler_t Hd);
  epollfd : Z;
  fd_cnt : Z
}.
Arguments PullState {Hd}. Arguments p_handlers {Hd}. Arguments epollfd {Hd}. Arguments fd_cnt {Hd}.

Definition pull_state0 {Hd} : pull_state Hd := PullState [] (-1) 0.

Class HasPull (Hd W : Type) := {
  pl_get : W -> pull_state Hd;
  pl_put : pull_state Hd -> W -> W;
  pl_get_put s w : pl_get (pl_put s w) = s
}.

(** [epoll_wait] gives the events with their descriptors, or [None] for -1. *)
Class PullKernel (W : Type) := {
  epoll_create : W -> Z * W;
  epoll_ctl_add : Z -> W -> Z * W;
  epoll_ctl_del : Z -> W -> Z * W;
  epoll_wait : W -> option (list (Z * Z)) * W;
  sys_close : Z -> W -> W
}.

Definition EPOLL_EVENT_MAX : Z := 128.

Definition proxy_epoll_err (events : Z) : bool :=
  negb (Z.land events EPOLLERR =? 0) || negb (Z.land events EPOLLHUP =? 0) ||
  negb (Z.land events EPOLLRDHUP =? 0).

Section net_pull.
Context {Hd W : Type} `{!HasPull Hd W, !PullKernel W}.
Implicit Types (s : pull_state Hd) (w : W).

Definition pl_update (f : pull_state Hd -> pull_state Hd) : M W () :=
  modify (fun w => pl_put (f (pl_get w)) w).
(** A system call. *)
Definition sys {A} (f : W -> A * W) : M W A := fun w => let '(a, w) := f w in Ok a w.

Definition with_table s t : pull_state Hd := PullState t (epollfd s) (fd_cnt s).

Definition net_pull_init : M W Z :=
  e ← sys epoll_create;
  _ ← pl_update (fun s => PullState (p_handlers s) e (fd_cnt s));
  mret (if e <? 0 then -1 else 0).

Definition net_pull_add (fd : Z) (err : option Hd) (derr : Z) : M W Z :=
  r ← sys (epoll_ctl_add fd);
  if r <? 0 then mret (-1) else
  t ← get (fun w => p_handlers (pl_get w));
  _ ← (match tbl_find fd t with
       | None => pl_update (fun s => with_table s
                   (tbl_add fd (NetHandler fd None None err None None (Some derr)) t))
       | Some _ => mret ()
       end);
  _ ← pl_update (fun s => PullState (p_handlers s) (epollfd s) (fd_cnt s + 1));
  mret 0.

Definition net_pull_set_handler (fd flag : Z) (h : option Hd) (data : Z) : M W Z :=
  t ← get (fun w => p_handlers (pl_get w));
  match tbl_find fd t with
  | None => mret (-1)
  | Some e =>
      let e := if negb (Z.land flag EPOLLIN =? 0)
               then NetHandler (np_fd e) h (h_write e) (h_err e) (Some data) (d_write e) (d_err e) else e in
      let e := if negb (Z.land flag EPOLLOUT =? 0)
               then NetHandler (np_fd e) (h_read e) h (h_err e) (d_read e) (Some data) (d_err e) else e in
      _ ← pl_update (fun s => with_table s (tbl_set fd e t));
      mret 0
  end.

Definition net_pull_del (fd : Z) : M W Z :=
  t ← get (fun w => p_handlers (pl_get w));
  match tbl_find fd t with
  | None => mret (-1)
  | Some _ =>
      r ← sys (epoll_ctl_del fd);
      if r <? 0 then mret (-1) else
      _ ← pl_update (fun s => PullState (tbl_del fd (p_handlers s)) (epollfd s) (fd_cnt s - 1));
      mret 0
  end.

Context (call : Hd -> Z -> Z -> M W Z).

(** [if (h) h(ev, d);] *)
Definition call_opt (h : option Hd) (events : Z) (d : option Z) : M W () :=
  match h with
  | None => mret ()
  | Some h => d ← demand d; _ ← call h events d; mret ()
  end.

(** The entry with the handlers taken out for one event. *)
Definition cleared (e : net_handler_t Hd) : net_handler_t Hd :=
  NetHandler (np_fd e) None None (h_err e) (Some 0) (Some 0) (d_err e).

(** The body of the [for] in [net_pull_work]. *)
Definition serve_event (ev : Z * Z) : M W () :=
  let '(events, fd) := ev in
  t ← get (fun w => p_handlers (pl_get w));
  match tbl_find fd t with
  | None => mret ()
  | Some nh =>
      _ ← pl_update (fun s => with_table s (tbl_set fd (cleared nh) t));
      _ ← (if proxy_epoll_err events then call_opt (h_err nh) events (d_err nh) else mret ());
      _ ← call_opt (h_read nh) events (d_read nh);
      call_opt (h_write nh) events (d_write nh)
  end.

Fixpoint serve_events (l : list (Z * Z)) : M W () :=
  match l with
  | [] => mret ()
  | ev :: l => _ ← serve_event ev; serve_events l
  end.

Definition net_pull_work : M W Z :=
  s ← get pl_get;
  if epollfd s <? 0 then mret (-1)
  else if fd_cnt s =? 0 then mret (-1)
  else
    r ← sys epoll_wait;
    match r with
    | None => mret (-1)
    | Some evs => _ ← serve_events evs; mret 0
    end.

(** The second loop of [net_pull_done], over the entries copied out. *)
Fixpoint close_handlers (l : list (Z * net_handler_t Hd)) : M W () :=
  match l with
  | [] => mret ()
  | (_, nh) :: l =>
      _ ← call_opt (h_err nh) EPOLLERR (d_err nh);
      _ ← call_opt (h_read nh) EPOLLERR (d_read nh);
      _ ← call_opt (h_write nh) EPOLLERR (d_write nh);
      close_handlers l
  end.

Fixpoint close_fds (l : list (Z * net_handler_t Hd)) : M W () :=
  match l with
  | [] => mret ()
  | (_, nh) :: l => _ ← modify (sys_close (np_fd nh)); close_fds l
  end.

Definition net_pull_done : M W Z :=
  t ← get (fun w => p_handlers (pl_get w));
  if bool_decide (t = []) then mret 0 else
  _ ← close_fds t;
  _ ← pl_update (fun s => with_table s []);
  _ ← close_handlers t;
  mret 0.
End net_pull.
