(* ===== verification/NetPullProps.v ===== *)
(** The registry of src/core/net_pull.c stays in step with the kernel's epoll
    set, and dispatching events is free of undefined behaviour. *)

From S2P Require Import Prelude CLib Outcome ConnIf Table NetPull.

#[local] Open Scope Z_scope.

(** What the system calls do, in terms of the kernel's interest set. *)
Class PullLaws (Hd W : Type) `{!HasPull Hd W, !PullKernel W} := {
  interest : W -> gset Z;
  pl_put_interest s w : interest (pl_put s w) = interest w;
  add_law fd w : let '(r, w') := epoll_ctl_add fd w in (pl_get w' = pl_get w) /\
    ((r = 0 /\ (fd ∉ interest w) /\ interest w' = {[fd]} ∪ interest w) \/
     (r = -1 /\ interest w' = interest w));
  del_law fd w : let '(r, w') := epoll_ctl_del fd w in pl_get w' = pl_get w /\
    if decide (fd ∈ interest w) then r = 0 /\ interest w' = interest w ∖ {[fd]}
    else r = -1 /\ interest w' = interest w;
  wait_law w : let '(r, w') := epoll_wait w in pl_get w' = pl_get w /\ interest w' = interest w;
  close_law fd w : pl_get (sys_close fd w) = pl_get w /\
    interest (sys_close fd w) = interest w ∖ {[fd]}
}.

Section net_pull_props.
Context {Hd W : Type} `{!HasPull Hd W, !PullKernel W, !PullLaws Hd W}.
Implicit Types (s : pull_state Hd) (w : W).

(** Every handler that is set has its datum. *)
Definition entry_ok (fd : Z) (e : net_handler_t Hd) : Prop :=
  np_fd e = fd /\ (is_Some (h_read e) -> is_Some (d_read e)) /\
  (is_Some (h_write e) -> is_Some (d_write e)) /\ (is_Some (h_err e) -> is_Some (d_err e)).

Definition table_wf (t : list (Z * net_handler_t Hd)) : Prop :=
  NoDup t.*1 /\ forall fd e, tbl_find fd t = Some e -> entry_ok fd e.

(** The registry: descriptors are distinct, [fd_cnt] counts them, and they are
    the ones the kernel watches. *)
Definition pull_wf w : Prop :=
  table_wf (p_handlers (pl_get w)) /\
  fd_cnt (pl_get w) = Z.of_nat (length (p_handlers (pl_get w))) /\
  forall fd, fd ∈ interest w <-> fd ∈ (p_handlers (pl_get w)).*1.

Lemma table_wf_set t fd e :
  table_wf t -> entry_ok fd e -> table_wf (tbl_set fd e t).
Proof.
  intros [Hnd Ht] He. split; [by rewrite tbl_set_keys|]. intros fd' e' Hf. rewrite tbl_find_set in Hf.
  case_decide as Hd1; subst; [|by apply Ht]. destruct (tbl_find fd t); [by simplify_eq|done].
Qed.

Lemma pull_wf_set w t fd e :
  pull_wf w -> t = p_handlers (pl_get w) -> entry_ok fd e ->
  pull_wf (pl_put (with_table (pl_get w) (tbl_set fd e t)) w).
Proof.
  intros (Ht&Hc&Hi) -> He. unfold pull_wf. rewrite pl_get_put. cbn.
  split_and!; [by apply table_wf_set|by rewrite tbl_set_length|].
  intros fd'. by rewrite pl_put_interest, tbl_set_keys.
Qed.

Lemma tbl_find_keys (t : list (Z * net_handler_t Hd)) fd :
  fd ∈ t.*1 <-> is_Some (tbl_find fd t).
Proof.
  destruct (tbl_find fd t) as [e|] eqn:E.
  - split; [by eexists|]. intros _. apply list_elem_of_fmap. exists (fd, e). split; [done|]. by apply tbl_find_Some.
  - apply tbl_find_None in E. split; [done|by intros []].
Qed.

(** [net_pull_add] keeps the registry in step, and registers a new descriptor
    unless the kernel refuses it. *)
Lemma net_pull_add_spec U fd err derr w :
  pull_wf w ->
  wp U (net_pull_add fd err derr) (fun r w' => pull_wf w' /\
    ((r = 0 /\ tbl_find fd (p_handlers (pl_get w)) = None /\
      p_handlers (pl_get w') = tbl_add fd (NetHandler fd None None err None None (Some derr)) (p_handlers (pl_get w))) \/
     (r = -1 /\ pl_get w' = pl_get w))) w.
Proof.
  intros (Ht&Hc&Hi). unfold net_pull_add. apply wp_bind. unfold wp at 1, sys.
  pose proof (add_law fd w) as L. destruct (epoll_ctl_add fd w) as [r w1].
  destruct L as [Hpl [(->&Hn&Hi1)|[-> Hi1]]]; cbn [Z.ltb Z.compare].
  2: { apply wp_ret. split; [|by right]. unfold pull_wf. rewrite Hpl, Hi1. done. }
  wp_step. rewrite Hpl.
  assert (tbl_find fd (p_handlers (pl_get w)) = None) as Hnone by by rewrite tbl_find_None, <-Hi.
  rewrite Hnone. apply wp_bind, wp_modify. apply wp_bind, wp_modify. apply wp_ret.
  unfold pull_wf. rewrite !pl_get_put, !pl_put_interest. cbn. rewrite Hpl.
  pose proof Hnone as Hkey. apply tbl_find_None in Hkey. split; [|by left].
  split_and!.
  - split; [by apply tbl_add_NoDup, Ht|]. intros fd' e'. rewrite tbl_find_add by done.
    case_decide; intros; simplify_eq; [|by apply Ht]. split_and!; cbn; [done|by intros []..|done].
  - unfold tbl_add. rewrite Hc. len_lia.
  - intros fd'. rewrite Hi1, tbl_add_keys, elem_of_app, elem_of_union, Hi, elem_of_singleton, list_elem_of_singleton. tauto.
Qed.

Lemma net_pull_set_handler_spec U fd flag h data w :
  pull_wf w ->
  wp U (net_pull_set_handler fd flag h data) (fun r w' => pull_wf w' /\
    (r = -1 <-> fd ∉ interest w)) w.
Proof.
  intros Hwf. pose proof Hwf as (Ht&Hc&Hi). unfold net_pull_set_handler. wp_step.
  destruct (tbl_find fd _) as [e|] eqn:E.
  - destruct (proj2 Ht _ _ E) as (H1&H2&H3&H4). apply wp_bind, wp_modify, wp_ret. split.
    + apply pull_wf_set; [done..|]. unfold entry_ok. by repeat case_match.
    + split; [done|]. rewrite Hi, tbl_find_keys, E. by intros [].
  - apply wp_ret. split; [done|]. rewrite Hi, tbl_find_keys, E. split; [by intros _ []|done].
Qed.

Lemma net_pull_del_spec U fd w :
  pull_wf w ->
  wp U (net_pull_del fd) (fun r w' => pull_wf w' /\
    ((r = 0 /\ fd ∈ interest w /\ interest w' = interest w ∖ {[fd]}) \/
     (r = -1 /\ (fd ∉ interest w) /\ w' = w))) w.
Proof.
  intros Hwf. pose proof Hwf as (Ht&Hc&Hi). unfold net_pull_del. wp_step.
  destruct (tbl_find fd _) as [e|] eqn:E.
  - assert (fd ∈ interest w) as Hin by by rewrite Hi, tbl_find_keys, E.
    apply wp_bind. unfold wp at 1, sys. pose proof (del_law fd w) as L.
    destruct (epoll_ctl_del fd w) as [r w1]. rewrite decide_True in L by done.
    destruct L as (Hpl&->&Hi1). cbn [Z.ltb Z.compare]. apply wp_bind, wp_modify, wp_ret. cbn [Z.ltb Z.compare].
    unfold pull_wf. rewrite pl_get_put, pl_put_interest, Hpl. cbn. split; [split_and!|by left].
    + split; [by apply tbl_del_NoDup, Ht|]. intros fd' e'. rewrite tbl_find_del. case_decide; [done|]. by apply Ht.
    + symmetry. rewrite (tbl_del_length _ e); [lia|by apply Ht|done].
    + intros fd'. rewrite Hi1, tbl_del_keys, elem_of_difference, Hi, list_elem_of_filter, elem_of_singleton. tauto.
  - apply wp_ret. split; [done|]. right. split_and!; [done| |done]. rewrite Hi, tbl_find_keys, E. by intros [].
Qed.

(** ** Dispatching *)

Section dispatch.
Context (call : Hd -> Z -> Z -> M W Z).

(** Handlers may add, change and delete registrations. *)
Definition handlers_keep_wf : Prop := forall h events d w,
  pull_wf w -> wp safe (call h events d) (fun _ w' => pull_wf w') w.

Lemma call_opt_spec h events d w :
  handlers_keep_wf -> pull_wf w -> (is_Some h -> is_Some d) ->
  wp safe (call_opt call h events d) (fun _ w' => pull_wf w') w.
Proof.
  intros Hcall Hwf Hdat. destruct h as [h|]; cbn [call_opt]; [|by apply wp_ret].
  destruct Hdat as [x ->]; [by eexists|]. apply wp_bind, (wp_demand _ _ x); [done|].
  apply (wp_seq _ _ _ (fun _ w' => pull_wf w')); [by apply Hcall|]. intros r w' Hw'. by apply wp_ret.
Qed.

Lemma serve_event_spec ev w :
  handlers_keep_wf -> pull_wf w -> wp safe (serve_event call ev) (fun _ w' => pull_wf w') w.
Proof.
  intros Hcall Hwf. destruct ev as [events fd]. unfold serve_event. wp_step.
  destruct (tbl_find fd _) as [e|] eqn:E; [|by apply wp_ret].
  destruct Hwf as ((Hnd&Ht)&Hc&Hi). pose proof (Ht _ _ E) as (H1&H2&H3&H4).
  apply wp_bind, wp_modify, (wp_seq _ _ _ (fun _ w' => pull_wf w')).
  {
    assert (pull_wf (pl_put (with_table (pl_get w) (tbl_set fd (cleared e) (p_handlers (pl_get w)))) w)) as Hwf1.
    { apply pull_wf_set; [by split_and!|done|]. split_and!; [done..|]. cbn. done. }
    destruct (proxy_epoll_err events); [by apply call_opt_spec|by apply wp_ret]. }
  intros _ w1 Hw1. apply (wp_seq _ _ _ (fun _ w' => pull_wf w')); [by apply call_opt_spec|]. intros _ w2 Hw2. by apply call_opt_spec.
Qed.

Lemma serve_events_spec l : forall w,
  handlers_keep_wf -> pull_wf w -> wp safe (serve_events call l) (fun _ w' => pull_wf w') w.
Proof.
  induction l as [|ev l IH]; intros w Hcall Hwf; cbn [serve_events]; [by apply wp_ret|].
  apply (wp_seq _ _ _ (fun _ w' => pull_wf w')); [by apply serve_event_spec|]. intros ? w' Hw'. by apply IH.
Qed.
End dispatch.
End net_pull_props.

(** ** Properties *)

(** What the program does to the registry. *)
Inductive pull_op (Hd : Type) :=
| PullAdd (fd : Z) (err : option Hd) (derr : Z)
| PullSet (fd flag : Z) (h : option Hd) (data : Z)
| PullDel (fd : Z).
Arguments PullAdd {Hd}. Arguments PullSet {Hd}. Arguments PullDel {Hd}.

Section run.
Context {Hd W : Type} `{!HasPull Hd W, !PullKernel W}.

Definition pull_step (op : pull_op Hd) : M W Z :=
  match op with
  | PullAdd fd err derr => net_pull_add fd err derr
  | PullSet fd flag h data => net_pull_set_handler fd flag h data
  | PullDel fd => net_pull_del fd
  end.

Fixpoint pull_run (ops : list (pull_op Hd)) : M W () :=
  match ops with
  | [] => mret ()
  | op :: ops => _ ← pull_step op; pull_run ops
  end.

Context `{!PullLaws Hd W}.

Lemma pull_step_spec op w : pull_wf w -> wp safe (pull_step op) (fun _ w' => pull_wf w') w.
Proof.
  intros Hwf. destruct op; eapply wp_mono; cbn [pull_step].
  - by apply net_pull_add_spec.
  - by intros ? ? [? _].
  - by apply net_pull_set_handler_spec.
  - by intros ? ? [? _].
  - by apply net_pull_del_spec.
  - by intros ? ? [? _].
Qed.

Lemma pull_run_spec ops : forall w, pull_wf w -> wp safe (pull_run ops) (fun _ w' => pull_wf w') w.
Proof.
  induction ops as [|op ops IH]; intros w Hwf; cbn [pull_run]; [by apply wp_ret|].
  eapply wp_seq; [by apply pull_step_spec|]. intros ? w' Hw'. by apply IH.
Qed.
End run.

(** C20: the registry of descriptors stays in step with the kernel: however
    descriptors are added, given handlers and deleted, and whatever the handlers
    that [net_pull_work] calls do to the registry while the events of one
    [epoll_wait] are served, the descriptors in the table are pairwise different
    and exactly those the kernel watches, and [fd_cnt] is their number.  No
    handler is called with a datum that was never set, and no entry is used
    after it was freed. *)
Theorem net_pull_in_sync {Hd W} `{!HasPull Hd W, !PullKernel W, !PullLaws Hd W}
    (react : Hd -> Z -> Z -> W -> list (pull_op Hd)) (ops : list (pull_op Hd)) (w : W)
    (Hwf : pull_wf w) :
  exists w1 r w2, pull_run ops w = Ok () w1 /\ pull_wf w1 /\
    net_pull_work (fun h ev d => ops ← get (react h ev d); _ ← pull_run ops; mret 0) w1 = Ok r w2 /\
    pull_wf w2 /\ fd_cnt (pl_get w2) = Z.of_nat (size (interest w2)) /\
    (interest w1 = ∅ -> r = -1 /\ w2 = w1).
Proof.
  destruct (wp_Ok _ _ _ (pull_run_spec ops w Hwf)) as ([]&w1&Hrun&Hwf1).
  set (call := fun h ev d => ops ← get (react h ev d); _ ← pull_run ops; mret 0).
  assert (handlers_keep_wf call) as Hcall.
  { intros h ev d w' Hw'. unfold call. wp_step. eapply wp_seq; [by apply pull_run_spec|].
    intros ? w'' Hw''. by apply wp_ret. }
  assert (wp safe (net_pull_work call) (fun r w2 => pull_wf w2 /\ (fd_cnt (pl_get w1) = 0 -> r = -1 /\ w2 = w1)) w1)
    as Hwork.
  { unfold net_pull_work. wp_step. destruct (_ <? 0); [by apply wp_ret|].
    destruct (Z.eqb_spec (fd_cnt (pl_get w1)) 0); [by apply wp_ret|].
    apply wp_bind. unfold wp at 1, sys. pose proof (wait_law w1) as L.
    destruct (epoll_wait w1) as [evs w2]. destruct L as [Hpl Hi].
    assert (pull_wf w2) as Hwf2 by (unfold pull_wf in *; by rewrite Hpl, Hi).
    destruct evs as [evs|]; [|by apply wp_ret].
    eapply wp_seq; [by apply (serve_events_spec call)|]. intros ? w3 Hw3. by apply wp_ret. }
  destruct (wp_Ok _ _ _ Hwork) as (r&w2&Hrun2&Hwf2&Hend).
  assert (forall w, pull_wf w -> fd_cnt (pl_get w) = Z.of_nat (size (interest w))) as Hsize.
  { intros w' ([Hnd _]&->&Hi). f_equal. rewrite <-(length_fmap fst).
    assert (interest w' = list_to_set (p_handlers (pl_get w')).*1) as ->.
    { apply leibniz_equiv. intros fd. by rewrite Hi, elem_of_list_to_set. }
    by rewrite size_list_to_set. }
  exists w1, r, w2. split_and!; [done|done|done|done|by apply Hsize|].
  intros He. apply Hend. rewrite Hsize, He by done. done.
Qed.

(** An instance: a kernel that accepts every change it can make and delivers
    scripted events. *)
Record toy := Toy { t_pull : pull_state nat; t_set : gset Z; t_events : list (list (Z * Z)) }.
#[export] Instance toy_pull : HasPull nat toy := {
  pl_get := t_pull; pl_put s w := Toy s (t_set w) (t_events w); pl_get_put s w := eq_refl
}.
#[export] Instance toy_kernel : PullKernel toy := {
  epoll_create w := (3, w);
  epoll_ctl_add fd w :=
    if decide (fd ∈ t_set w) then (-1, w) else (0, Toy (t_pull w) ({[fd]} ∪ t_set w) (t_events w));
  epoll_ctl_del fd w :=
    if decide (fd ∈ t_set w) then (0, Toy (t_pull w) (t_set w ∖ {[fd]}) (t_events w)) else (-1, w);
  epoll_wait w := match t_events w with
                  | [] => (None, w)
                  | evs :: r => (Some evs, Toy (t_pull w) (t_set w) r)
                  end;
  sys_close fd w := Toy (t_pull w) (t_set w ∖ {[fd]}) (t_events w)
}.
#[export] Instance toy_laws : PullLaws nat toy.
Proof.
  refine {| interest := t_set |}.
  - done.
  - intros fd w. cbn. case_decide; split; auto.
  - intros fd w. cbn. case_decide; auto.
  - intros w. cbn. by destruct (t_events w).
  - done.
Defined.

Definition toy_world : toy := Toy (PullState [] 3 0) ∅ [[(EPOLLIN, 5); (EPOLLHUP, 6); (EPOLLIN, 5)]].
(** The handler 1 deletes its descriptor, the others add one. *)
Definition toy_react (h : nat) (ev d : Z) (w : toy) : list (pull_op nat) :=
  match h with 1%nat => [PullDel d] | _ => [PullAdd (d + 10) None 0; PullSet d EPOLLIN (Some 2%nat) d] end.
Definition toy_ops : list (pull_op nat) :=
  [PullAdd 5 None 0; PullAdd 6 (Some 1%nat) 6; PullAdd 5 None 0; PullSet 5 (EPOLLIN + EPOLLOUT) (Some 2%nat) 5].

Lemma net_pull_in_sync_witness :
  exists w1 r w2, pull_run toy_ops toy_world = Ok () w1 /\ pull_wf w1 /\
    net_pull_work (fun h ev d => ops ← get (toy_react h ev d); _ ← pull_run ops; mret 0) w1 = Ok r w2 /\
    pull_wf w2 /\ fd_cnt (pl_get w2) = Z.of_nat (size (interest w2)) /\
    (interest w1 = ∅ -> r = -1 /\ w2 = w1).
Proof.
  apply (net_pull_in_sync toy_react toy_ops toy_world).
  split; [split; [constructor|discriminate]|]. split; [reflexivity|].
  intros fd. split; intros H; [by apply elem_of_empty in H|by apply elem_of_nil in H].
Defined.

(** The run: descriptor 6 was deleted, 15 added. *)
Example net_pull_in_sync_run :
  match (_ ← pull_run toy_ops;
         net_pull_work (fun h ev d => ops ← get (toy_react h ev d); _ ← pull_run ops; mret 0)) toy_world with
  | Ok r w => Some (r, (p_handlers (pl_get w)).*1, fd_cnt (pl_get w))
  | _ => None
  end = Some (0, [5; 15], 2).
Proof. vm_compute. reflexivity. Qed.
