(* ===== verification/Registry.v ===== *)
(** The registry of descriptors under everything the program does to it.  The
    program also closes descriptors behind the registry's back, so what holds
    throughout is weaker than the invariant of NetPullProps: the kernel watches
    only registered descriptors, and [fd_cnt] is at least their number. *)

From S2P Require Import Prelude CLib Outcome ConnIf Table NetPull NetPullProps.

#[local] Open Scope Z_scope.

Section registry.
Context {Hd W : Type} `{!HasPull Hd W, !PullKernel W, !PullLaws Hd W}.
Implicit Types (w : W).

Definition registry_ok w : Prop :=
  table_wf (p_handlers (pl_get w)) /\
  Z.of_nat (length (p_handlers (pl_get w))) <= fd_cnt (pl_get w) /\
  forall fd, fd ∈ interest w -> fd ∈ (p_handlers (pl_get w)).*1.

Lemma pull_wf_registry w : pull_wf w -> registry_ok w.
Proof. intros (Ht&Hc&Hi). split_and!; [done|lia|]. intros fd. by rewrite Hi. Qed.

Lemma registry_ok_same w w' :
  pl_get w' = pl_get w -> interest w' ⊆ interest w -> registry_ok w -> registry_ok w'.
Proof. intros E Hs (Ht&Hc&Hi). unfold registry_ok. rewrite E. split_and!; [done..|]. intros fd Hfd. auto. Qed.

Lemma registry_ok_set w fd e :
  registry_ok w -> entry_ok fd e ->
  registry_ok (pl_put (with_table (pl_get w) (tbl_set fd e (p_handlers (pl_get w)))) w).
Proof.
  intros (Ht&Hc&Hi) He. unfold registry_ok. rewrite pl_get_put. cbn. split_and!.
  - by apply table_wf_set.
  - by rewrite tbl_set_length.
  - intros fd'. rewrite pl_put_interest, tbl_set_keys. apply Hi.
Qed.

Lemma close_registry fd : always registry_ok (modify (sys_close fd)).
Proof.
  apply always_modify. intros w Hw. destruct (close_law fd w) as [E Hi].
  eapply registry_ok_same; [exact E| |exact Hw]. rewrite Hi. apply subseteq_difference_l. done.
Qed.

Lemma add_registry fd err derr : always registry_ok (net_pull_add fd err derr).
Proof.
  intros w Hw. pose proof Hw as (Ht&Hc&Hi). unfold net_pull_add, sys, mbind, M_bind.
  pose proof (add_law fd w) as L. destruct (epoll_ctl_add fd w) as [r w1].
  destruct L as [Hpl [(->&Hn&Hi1)|[-> Hi1]]]; cbn [Z.ltb Z.compare].
  2: { eapply registry_ok_same; [exact Hpl| |exact Hw]. by rewrite Hi1. }
  unfold get, pl_update, modify. cbn beta iota. rewrite Hpl.
  destruct (tbl_find fd (p_handlers (pl_get w))) as [e|] eqn:E; unfold mret, M_ret, registry_ok;
    rewrite !pl_get_put, !pl_put_interest, Hi1; cbn.
  - rewrite Hpl. split_and!; [done|lia|]. intros fd' [->%elem_of_singleton|Hf]%elem_of_union; [|by apply Hi].
    rewrite tbl_find_keys, E. by eexists.
  - pose proof E as Hkey. apply tbl_find_None in Hkey. split_and!.
    + split; [by apply tbl_add_NoDup, Ht|]. intros fd' e'. rewrite tbl_find_add by done.
      case_decide; intros; simplify_eq; [|by apply Ht]. split_and!; cbn; [done|by intros []..|done].
    + unfold tbl_add. rewrite Hpl. len_lia.
    + intros fd'. rewrite tbl_add_keys, elem_of_app, elem_of_union, elem_of_singleton, list_elem_of_singleton.
      intros [->|Hf]; [by right|left; by apply Hi].
Qed.

Lemma set_handler_registry fd flag h data : always registry_ok (net_pull_set_handler fd flag h data).
Proof.
  intros w Hw. unfold net_pull_set_handler, mbind, M_bind, get, pl_update, modify, mret, M_ret.
  destruct (tbl_find fd _) as [e|] eqn:E; [|done]. destruct Hw as ([Hnd Ht]&Hc&Hi).
  destruct (Ht _ _ E) as (H1&H2&H3&H4). apply registry_ok_set; [done|]. unfold entry_ok. by repeat case_match.
Qed.

Lemma del_registry fd : always registry_ok (net_pull_del fd).
Proof.
  intros w Hw. pose proof Hw as (Ht&Hc&Hi). unfold net_pull_del, mbind, M_bind, get, sys.
  destruct (tbl_find fd _) as [e|] eqn:E; [|done].
  pose proof (del_law fd w) as L. destruct (epoll_ctl_del fd w) as [r w1]. destruct L as [Hpl L].
  case_decide as Hin; destruct L as [-> Hi1]; cbn [Z.ltb Z.compare].
  - unfold pl_update, modify, mret, M_ret, registry_ok. rewrite pl_get_put, pl_put_interest, Hi1, Hpl. cbn.
    split_and!.
    + split; [by apply tbl_del_NoDup, Ht|]. intros fd' e'. rewrite tbl_find_del. case_decide; [done|]. by apply Ht.
    + rewrite (tbl_del_length _ e); [lia|by apply Ht|done].
    + intros fd'. rewrite tbl_del_keys, elem_of_difference, list_elem_of_filter, elem_of_singleton. intros [? ?]. auto.
  - eapply registry_ok_same; [exact Hpl| |exact Hw]. by rewrite Hi1.
Qed.

(** Closing the registered descriptors empties the kernel's set. *)
Lemma close_fds_spec (l : list (Z * net_handler_t Hd)) : forall w,
  exists w', close_fds l w = Ok () w' /\ pl_get w' = pl_get w /\
    interest w' = interest w ∖ list_to_set (np_fd ∘ snd <$> l).
Proof.
  induction l as [|[k nh] l IH]; intros w; cbn [close_fds].
  - exists w. split_and!; [done..|]. cbn. by rewrite difference_empty_L.
  - unfold mbind, M_bind, modify. destruct (close_law (np_fd nh) w) as [E Hi].
    destruct (IH (sys_close (np_fd nh) w)) as (w'&->&E'&Hi'). exists w'. split_and!; [done|congruence|].
    rewrite Hi', Hi. cbn. by rewrite difference_difference_l_L.
Qed.

(** ** Dispatching *)

Section dispatch.
Context (call : Hd -> Z -> Z -> M W Z) (Hcall : forall h ev d, always registry_ok (call h ev d)).

#[local] Hint Resolve Hcall : always.

Lemma call_opt_registry h ev d : always registry_ok (call_opt call h ev d).
Proof using Hcall. unfold call_opt. always_tac. Qed.
#[local] Hint Resolve call_opt_registry : always.

Lemma serve_event_registry ev : always registry_ok (serve_event call ev).
Proof using Hcall.
  destruct ev as [events fd]. unfold serve_event. intros w Hw. unfold mbind at 1, M_bind at 1, get.
  destruct (tbl_find fd _) as [e|] eqn:E; [|done].
  destruct (proj2 (proj1 Hw) _ _ E) as (H1&H2&H3&H4).
  assert (registry_ok (pl_put (with_table (pl_get w) (tbl_set fd (cleared e) (p_handlers (pl_get w)))) w)) as Hw1.
  { apply registry_ok_set; [done|]. split_and!; [done..|]. cbn. done. }
  revert Hw1. unfold mbind at 1, M_bind at 1, pl_update, modify. cbn beta iota.
  generalize (pl_put (with_table (pl_get w) (tbl_set fd (cleared e) (p_handlers (pl_get w)))) w).
  match goal with |- forall w, _ -> match ?m w with _ => _ end => change (always registry_ok m) end.
  always_tac.
Qed.
#[local] Hint Resolve serve_event_registry : always.

Lemma serve_events_registry l : always registry_ok (serve_events call l).
Proof using Hcall. induction l; cbn [serve_events]; always_tac. Qed.
#[local] Hint Resolve serve_events_registry : always.

Lemma net_pull_work_registry : always registry_ok (net_pull_work call).
Proof using Hcall.
  unfold net_pull_work. apply always_bind; [auto with always|]. intros s.
  destruct (_ <? 0); [auto with always|]. destruct (_ =? 0); [auto with always|].
  apply always_bind; [|intros []; always_tac]. intros w Hw. unfold sys. pose proof (wait_law w) as L.
  destruct (epoll_wait w) as [evs w1]. destruct L as [Hpl Hi].
  eapply registry_ok_same; [exact Hpl| |exact Hw]. by rewrite Hi.
Qed.

Lemma close_handlers_registry l : always registry_ok (close_handlers call l).
Proof using Hcall. induction l as [|[? nh] l IH]; cbn [close_handlers]; always_tac. Qed.

Lemma net_pull_done_registry : always registry_ok (net_pull_done call).
Proof using Hcall.
  intros w Hw. unfold net_pull_done. unfold mbind at 1, M_bind at 1, get.
  set (t := p_handlers (pl_get w)). destruct (bool_decide (t = [])); [done|].
  destruct (close_fds_spec t w) as (w1&Hrun&Hpl&Hi). unfold mbind at 1, M_bind at 1. rewrite Hrun.
  unfold mbind at 1, M_bind at 1, pl_update, modify.
  assert (registry_ok (pl_put (with_table (pl_get w1) []) w1)) as Hw1.
  { destruct Hw as ([Hnd Ht]&Hc&Hsub). unfold registry_ok. rewrite pl_get_put, Hpl. cbn. fold t in Hc.
    split_and!; [split; [constructor|done]|lia|]. intros fd Hfd. rewrite pl_put_interest, Hi in Hfd.
    apply elem_of_difference in Hfd as [Hfd Hn]. apply Hsub in Hfd. destruct Hn.
    apply tbl_find_keys in Hfd as [e He]. apply elem_of_list_to_set, list_elem_of_fmap. exists (fd, e).
    split; [by destruct (Ht _ _ He) as [<- _]|]. by apply tbl_find_Some. }
  revert Hw1. generalize (pl_put (with_table (pl_get w1) []) w1). fold t.
  match goal with |- forall w, _ -> match ?m w with _ => _ end => change (always registry_ok m) end.
  apply always_bind; [apply close_handlers_registry|auto with always].
Qed.
End dispatch.
End registry.
