(* ===== verification/World.v ===== *)
(** The state of the whole program: the variables of its modules over the state
    [K] of the operating system, whose calls are parameters ([Kernel]), and the
    instances that let each module's operations run in it. *)

From S2P Require Import Prelude CLib Outcome ConnIf Table Event NetPull Uthash NetData.

#[local] Open Scope Z_scope.

(** The functions the program registers as handlers of descriptors
    ([net_pull_handler_t]) and of events ([event_handler]). *)
Inductive net_pull_handler :=
| conn_err_handler_fn | conn_epoll_handler_fn | conn_accept_handler_fn
| conn_notice_free_connection_closed_fn | dns_notify_handler_fn.
Inductive event_handler := conn_event_handler_fn.

(** A result of the resolver: [ai_family] and the bytes of the address. *)
Record addrinfo := AddrInfo { ai_family : Z; ai_addr : list Z }.

(** System calls; the integers are their results, with [errno] behind. *)
Class Kernel (K : Type) := {
  k_recv : Z -> nat -> K -> recv_res * K;
  k_send : Z -> list ascii -> K -> send_res * K;
  k_socket : Z -> K -> Z * K;
  k_fcntl_getfl : Z -> K -> Z * K;
  k_fcntl_setfl : Z -> Z -> K -> Z * K;
  k_connect : Z -> conn_endpoint -> K -> (Z * Z) * K;
  k_close : Z -> K -> K;
  k_epoll_create : K -> Z * K;
  k_epoll_ctl_add : Z -> K -> Z * K;
  k_epoll_ctl_del : Z -> K -> Z * K;
  k_epoll_wait : K -> option (list (Z * Z)) * K;
  (** [getaddrinfo_a] with the event to signal, and what it has stored in
      [ar_result] later on (null is [None]). *)
  k_getaddrinfo_a : list ascii -> event_id -> K -> Z * K;
  k_ar_result : event_id -> K -> option (list addrinfo);
  (** [accept] with the address it stores, the calls that make a listening
      socket, and [getaddrinfo] with its list of results. *)
  k_accept : Z -> K -> (Z * Z * conn_endpoint) * K;
  k_setsockopt : Z -> K -> Z * K;
  k_bind : Z -> conn_endpoint -> K -> Z * K;
  k_listen : Z -> K -> Z * K;
  k_getaddrinfo : list ascii -> K -> (Z * list addrinfo) * K;
  (** [signalfd] behind [sigprocmask]; a read from it: the event identifier
      [ssi_ptr] points to, or [None] when no whole structure was read. *)
  k_signalfd : K -> Z * K;
  k_read_siginfo : Z -> K -> option event_id * K
}.

(** The calls that have nothing to do with epoll and close nothing. *)
Inductive io_step {K} `{!Kernel K} (k : K) : K -> Prop :=
| io_recv f n : io_step k (k_recv f n k).2
| io_send f s : io_step k (k_send f s k).2
| io_socket a : io_step k (k_socket a k).2
| io_getfl f : io_step k (k_fcntl_getfl f k).2
| io_setfl f o : io_step k (k_fcntl_setfl f o k).2
| io_connect f ep : io_step k (k_connect f ep k).2
| io_getaddrinfo_a h e : io_step k (k_getaddrinfo_a h e k).2
| io_accept f : io_step k (k_accept f k).2
| io_setsockopt f : io_step k (k_setsockopt f k).2
| io_bind f ep : io_step k (k_bind f ep k).2
| io_listen f : io_step k (k_listen f k).2
| io_getaddrinfo h : io_step k (k_getaddrinfo h k).2
| io_signalfd : io_step k (k_signalfd k).2
| io_read_siginfo f : io_step k (k_read_siginfo f k).2.

(** ** src/core/conn.c *)

(** [struct conn_pool_ent]; the [head] inside a [struct conn_pool] is one, too,
    with its [conn] unset. *)
Record conn_pool_ent := PoolEnt {
  e_conn : option positive; e_prev : option positive; e_next : option positive
}.

(** The connections allocated with [mem_alloc_auto], each with the reference
    count in front of it; the table [free_pool] (the key of an entry and the
    address of its [head]); the pool elements. *)
Record conn_state := ConnState {
  objs : gmap positive (Z * conn);
  free_pool : list (conn_endpoint * positive);
  ents : gmap positive conn_pool_ent
}.

(** ** src/core/main.c *)

Inductive main_stat_e := RUNING | EXITING.

(** ** src/core/net_handle.c, net_handle.h and net_utils.c *)

(** The handlers [net_http_module_init] registers, in pairs. *)
Inductive net_req_handler_t := net_http_req_handler_fn | net_connect_req_handler_fn.
Inductive net_rsp_handler_t := net_http_rsp_handler_fn | net_connect_rsp_handler_fn.

(** [struct net_handlers] with its method set; a null method is [None]. *)
Record net_handlers := NetHandlers {
  method : list ascii; req_handler : net_req_handler_t; rsp_handler : net_rsp_handler_t
}.

(** [struct net_handle_cxt]: the client, the server connections in use by
    endpoint, and the list of requests that wait for their response, each with
    the connection it was sent on. *)
Record net_handle_cxt := HandleCxt {
  client : positive;
  hc_pool : list (conn_endpoint * positive);
  hc_list : list (positive * positive);
  ev_notice_req : event_id; ev_notice_rsp : event_id;
  req_blocked : bool; rsp_blocked : bool;
  req_will_exit : bool; rsp_will_exited : bool
}.

(** The array [handlers], the contexts, the requests with their reference
    counts, and the cache of [net_dns_lookup_a] with its entries. *)
Record handle_state := HandleState {
  methods : list (option net_handlers);
  hcxts : gmap positive net_handle_cxt;
  reqs : gmap positive (Z * net_req);
  dns_cache : ut_head;
  dns_ents : gmap positive (cells * list addrinfo)
}.

(** ** The servers: [sfds], [sfd_cnt], [req_handler] and [rsp_handler] of conn.c,
    [signal_fd] of net_utils.c; the local [data_p] of [conn_accept_handler], to
    which a pointer is passed on *)

(** The functions given to [conn_set_req_handler] and [conn_set_rsp_handler]. *)
Inductive conn_req_handler := net_req_handler_fn.
Inductive conn_rsp_handler := net_rsp_handler_fn.

Record serve_state := ServeState {
  sfds : list Z; sfd_cnt : Z;
  conn_req : option conn_req_handler; conn_rsp : option conn_rsp_handler;
  signal_fd : Z;
  data_p : option positive
}.

(** ** The state *)

Record world (K : Type) := World {
  w_pull : pull_state net_pull_handler;
  w_event : event_state event_handler;
  w_conn : conn_state;
  w_handle : handle_state;
  w_main : main_stat_e;
  w_serve : serve_state;
  w_k : K
}.
Arguments World {K}. Arguments w_pull {K}. Arguments w_event {K}. Arguments w_conn {K}.
Arguments w_handle {K}. Arguments w_main {K}. Arguments w_serve {K}. Arguments w_k {K}.

Section instances.
Context {K : Type}.
Implicit Types (w : world K).

Definition put_pull s w : world K := World s (w_event w) (w_conn w) (w_handle w) (w_main w) (w_serve w) (w_k w).
Definition put_event s w : world K := World (w_pull w) s (w_conn w) (w_handle w) (w_main w) (w_serve w) (w_k w).
Definition put_conns s w : world K := World (w_pull w) (w_event w) s (w_handle w) (w_main w) (w_serve w) (w_k w).
Definition put_handle s w : world K := World (w_pull w) (w_event w) (w_conn w) s (w_main w) (w_serve w) (w_k w).
Definition put_k k w : world K := World (w_pull w) (w_event w) (w_conn w) (w_handle w) (w_main w) (w_serve w) k.
Definition put_main s w : world K := World (w_pull w) (w_event w) (w_conn w) (w_handle w) s (w_serve w) (w_k w).
Definition put_serve s w : world K := World (w_pull w) (w_event w) (w_conn w) (w_handle w) (w_main w) s (w_k w).

#[export] Instance world_event : HasEvent event_handler (world K) := {
  ev_get := w_event; ev_put := put_event; ev_get_put s w := eq_refl
}.
#[export] Instance world_pull : HasPull net_pull_handler (world K) := {
  pl_get := w_pull; pl_put := put_pull; pl_get_put s w := eq_refl
}.

Context `{!Kernel K}.

(** A system call of the kernel, in the world. *)
Definition lift {A} (f : K -> A * K) w : A * world K := let '(a, k) := f (w_k w) in (a, put_k k w).

#[export] Instance world_kernel : PullKernel (world K) := {
  epoll_create := lift k_epoll_create;
  epoll_ctl_add fd := lift (k_epoll_ctl_add fd);
  epoll_ctl_del fd := lift (k_epoll_ctl_del fd);
  epoll_wait := lift k_epoll_wait;
  sys_close fd w := put_k (k_close fd (w_k w)) w
}.
End instances.
