(* ===== verification/Conn.v ===== *)
(** src/core/conn.c: connections, their reference counts (src/core/mem.c), the
    pool of idle connections to servers, opening and closing. *)

From S2P Require Import Prelude CLib Outcome ConnIf ConnIO Table Event NetPull World.

#[local] Open Scope Z_scope.

Definition CONN_IOBUF_SIZE : Z := 16 * 1024.
Definition AF_INET : Z := 2.
Definition AF_INET6 : Z := 10.

Definition known_family (f : Z) : bool := (f =? AF_INET) || (f =? AF_INET6).
Definition htons (v : Z) : Z := let v := u16 v in Z.lor (Z.shiftl (Z.land v 255) 8) (Z.shiftr v 8).

Section conn.
Context {K : Type} `{!Kernel K}.
Implicit Types (w : world K) (i : positive).

Definition cn_update (f : conn_state -> conn_state) : M (world K) () :=
  modify (fun w => put_conns (f (w_conn w)) w).
Definition with_objs (s : conn_state) o : conn_state := ConnState o (free_pool s) (ents s).
Definition with_ents (s : conn_state) e : conn_state := ConnState (objs s) (free_pool s) e.

(** A dereference of an allocated object: its count and its contents. *)
Definition load_obj i : M (world K) (Z * conn) := s ← get w_conn; demand (objs s !! i).
Definition save_obj i (o : Z * conn) : M (world K) () :=
  cn_update (fun s => with_objs s (<[i := o]> (objs s))).
Definition load_c i : M (world K) conn := o ← load_obj i; mret (o.2).
Definition set_c i (f : conn -> conn) : M (world K) () := o ← load_obj i; save_obj i (o.1, f o.2).

(** ** src/core/mem.c *)

(** [mem_alloc_auto(sizeof(struct conn))]; the contents are those the callers
    give it at once. *)
Definition mem_alloc_auto (c : conn) : M (world K) positive :=
  s ← get w_conn;
  let i := fresh (dom (objs s)) in
  _ ← save_obj i (1, c);
  mret i.

Definition mem_incref i : M (world K) () := o ← load_obj i; save_obj i (o.1 + 1, o.2).

(** [mem_decref(ptr, done)]. *)
Definition mem_decref i (done : positive -> M (world K) ()) : M (world K) Z :=
  o ← load_obj i;
  _ ← save_obj i (o.1 - 1, o.2);
  if o.1 - 1 =? 0 then
    _ ← done i;
    _ ← load_obj i;
    _ ← cn_update (fun s => with_objs s (delete i (objs s)));
    mret 0
  else mret 1.

(** ** Opening and closing *)

(** The members [conn_init] sets; with a null [ep] the endpoint stays. *)
Definition conn_init (c : conn) (fd : Z) (ep : option conn_endpoint) : conn :=
  Conn fd (replicate (Z.to_nat CONN_IOBUF_SIZE) None) CONN_IOBUF_SIZE 0 0 0 0 CONN_FREE
    (default (c_ep c) ep) None.

Definition conn_close i : M (world K) () :=
  c ← load_c i;
  if bool_decide (stat c = CONN_CLOSED) then mret () else
  _ ← net_pull_del (fd c);
  _ ← modify (sys_close (fd c));
  set_c i (fun c => with_stat c CONN_CLOSED).

Definition conn_done i : M (world K) () :=
  c ← load_c i;
  if negb (bool_decide (stat c = CONN_CLOSED)) then conn_close i
  else
    _ ← net_pull_del (fd c);
    modify (sys_close (fd c)).

Definition conn_err_handler (events : Z) i : M (world K) Z :=
  _ ← set_c i (fun c => with_stat c CONN_CLOSED); mret 0.

(** [net_setnonblocking] of src/core/net_utils.c. *)
Definition O_NONBLOCK : Z := 2048.
Definition net_setnonblocking (fd : Z) : M (world K) Z :=
  opts ← sys (lift (k_fcntl_getfl fd));
  if opts <? 0 then mret (-1) else
  r ← sys (lift (k_fcntl_setfl fd (Z.lor opts O_NONBLOCK)));
  if r <? 0 then mret (-1) else mret 0.

(** ** The pool *)

Definition load_ent (p : option positive) : M (world K) (positive * conn_pool_ent) :=
  s ← get w_conn; demand (p ← p; e ← ents s !! p; Some (p, e)).
Definition save_ent (p : positive) (e : conn_pool_ent) : M (world K) () :=
  cn_update (fun s => with_ents s (<[p := e]> (ents s))).
(** [p->prev = x] and [p->next = x]. *)
Definition set_prev (p : option positive) (x : option positive) : M (world K) () :=
  '(p, e) ← load_ent p; save_ent p (PoolEnt (e_conn e) x (e_next e)).
Definition set_next (p : option positive) (x : option positive) : M (world K) () :=
  '(p, e) ← load_ent p; save_ent p (PoolEnt (e_conn e) (e_prev e) x).
Definition alloc_ent (e : conn_pool_ent) : M (world K) positive :=
  s ← get w_conn; let p := fresh (dom (ents s)) in _ ← save_ent p e; mret p.
Definition free_ent (p : option positive) : M (world K) () :=
  '(p, _) ← load_ent p; cn_update (fun s => with_ents s (delete p (ents s))).

Definition conn_addrpool_add i : M (world K) () :=
  c ← load_c i;
  s ← get w_conn;
  let h := tbl_find (c_ep c) (free_pool s) in
  elem ← alloc_ent (PoolEnt None None None);
  _ ← mem_incref i;
  _ ← set_c i (fun c => with_apool (with_stat c CONN_FREE) (Some elem));
  match h with
  | None =>
      _ ← save_ent elem (PoolEnt (Some i) None None);
      h ← alloc_ent (PoolEnt None None (Some elem));
      _ ← set_prev (Some elem) (Some h);
      cn_update (fun s => ConnState (objs s) (tbl_add (c_ep c) h (free_pool s)) (ents s))
  | Some h =>
      '(h, e) ← load_ent (Some h);
      _ ← save_ent elem (PoolEnt (Some i) (Some h) (e_next e));
      _ ← (match e_next e with Some n => set_prev (Some n) (Some elem) | None => mret () end);
      set_next (Some h) (Some elem)
  end.

Definition conn_addrpool_del i : M (world K) () :=
  c ← load_c i;
  match apool c with
  | None => mret ()
  | Some elem =>
      '(elem, e) ← load_ent (Some elem);
      _ ← set_next (e_prev e) (e_next e);
      _ ← (match e_next e with Some n => set_prev (Some n) (e_prev e) | None => mret () end);
      _ ← free_ent (Some elem);
      _ ← mem_decref i conn_done;
      mret ()
  end.

Definition conn_addrpool_try_get_and_del (ep : conn_endpoint) : M (world K) (option positive) :=
  s ← get w_conn;
  match tbl_find ep (free_pool s) with
  | None => mret None
  | Some h =>
      '(h, e) ← load_ent (Some h);
      match e_next e with
      | None => mret None
      | Some elem =>
          '(elem, e) ← load_ent (Some elem);
          _ ← set_next (Some h) (e_next e);
          _ ← (match e_next e with Some n => set_prev (Some n) (Some h) | None => mret () end);
          i ← demand (e_conn e);
          _ ← set_c i (fun c => with_apool c None);
          _ ← free_ent (Some elem);
          mret (Some i)
      end
  end.

(** The datum of a handler: the address of a connection. *)
Definition ptr (i : positive) : Z := Z.pos i.

Definition conn_notice_free_connection_closed (events : Z) i : M (world K) Z :=
  if proxy_epoll_err events then
    _ ← conn_close i;
    _ ← conn_addrpool_del i;
    mret 0
  else
    c ← load_c i;
    _ ← net_pull_set_handler (fd c) EPOLLIN (Some conn_notice_free_connection_closed_fn) (ptr i);
    mret 0.

Definition conn_free i : M (world K) () :=
  c ← load_c i;
  m ← get w_main;
  if bool_decide (stat c = CONN_CLOSED) || (match m with EXITING => true | RUNING => false end)
  then mret () else
  _ ← set_c i (fun c => with_stat c CONN_FREE);
  _ ← conn_addrpool_add i;
  _ ← net_pull_set_handler (fd c) EPOLLIN (Some conn_notice_free_connection_closed_fn) (ptr i);
  mret ().

Context (async_yield : conn_notice -> M (world K) Z).

(** A fresh [struct conn] before [conn_init]: only [stat] is set. *)
Definition conn_blank : conn :=
  Conn 0 [] 0 0 0 0 0 CONN_CLOSED (Endpoint 0 0 []) None.

Definition conn_get_by_endpoint (ep : conn_endpoint) : M (world K) (option positive) :=
  r ← conn_addrpool_try_get_and_del ep;
  match r with
  | Some i =>
      _ ← set_c i (fun c => with_stat c CONN_USED);
      c ← load_c i;
      _ ← net_pull_set_handler (fd c) (Z.lor EPOLLIN EPOLLOUT) None 0;
      mret (Some i)
  | None =>
      fd ← sys (lift (k_socket (family ep)));
      if fd <? 0 then mret None else
      nb ← net_setnonblocking fd;
      if nb <? 0 then _ ← modify (sys_close fd); mret None else
      '(ret, errno) ← sys (lift (k_connect fd ep));
      if (ret <? 0) && negb (errno =? EINPROGRESS) then _ ← modify (sys_close fd); mret None else
      i ← mem_alloc_auto conn_blank;
      _ ← net_pull_add fd (Some conn_err_handler_fn) (ptr i);
      y ← (if (ret <? 0) && (errno =? EINPROGRESS)
           then async_yield (CONN_IO_WILL_BLOCK fd EPOLLIN) else mret 0);
      if y =? -1 then
        _ ← net_pull_del fd;
        _ ← mem_decref i (fun _ => mret ());
        mret None
      else
        _ ← set_c i (fun c => conn_init c fd (Some ep));
        mret (Some i)
  end.
End conn.
