(* ===== verification/ConnLink.v ===== *)
(** The interface of ConnIf.v implemented by the modules of the program: the
    connections of src/core/conn.c over the system calls, so that every theorem
    about conn_io.c and the message routines holds of the real [conn_close]. *)

From S2P Require Import Prelude CLib Outcome ConnIf Table Event NetPull NetPullProps World Conn.

#[local] Open Scope Z_scope.

(** What the other coroutines do while the running one is suspended. *)
Class Suspend (K : Type) := suspend : conn_notice -> M (world K) Z.

Section env.
Context {K : Type} `{!Kernel K, !Suspend K}.

Definition obj_get (i : positive) (w : world K) : option conn := snd <$> objs (w_conn w) !! i.
Definition obj_put (i : positive) (c : conn) (w : world K) : world K :=
  put_conns (with_objs (w_conn w) (alter (fun o => (o.1, c)) i (objs (w_conn w)))) w.

#[export] Instance world_env : ConnEnv (world K) := {
  recv f n := lift (k_recv f n);
  send f s := lift (k_send f s);
  async_yield := suspend;
  exiting w := match w_main w with EXITING => true | RUNING => false end;
  get_conn := obj_get;
  put_conn := obj_put;
  conn_close := Conn.conn_close
}.
End env.

(** Observations of the kernel, and what its calls do to them. *)
Class KernelObs (K : Type) := {
  k_rcvd : K -> Z -> list ascii;
  k_sent : K -> Z -> list ascii;
  k_stalls : K -> nat;
  k_ended : K -> Z -> Prop
}.

Definition same_io {K} `{!KernelObs K} (k k' : K) : Prop :=
  k_rcvd k' = k_rcvd k /\ k_sent k' = k_sent k /\ k_stalls k' = k_stalls k /\ forall f, k_ended k f -> k_ended k' f.

Class KernelLaws (K : Type) `{!Kernel K, !KernelObs K} := {
  k_recv_law f n k r k' : k_recv f n k = (r, k') ->
    k_sent k' = k_sent k /\ (forall f', f' <> f -> k_rcvd k' f' = k_rcvd k f') /\
    (k_stalls k' <= k_stalls k)%nat /\
    match r with
    | RecvData s => (length s <= n)%nat /\ k_rcvd k' f = k_rcvd k f ++ s /\
        (k_stalls k' + length s <= k_stalls k)%nat
    | RecvErr e => k_rcvd k' f = k_rcvd k f /\ (e = EAGAIN -> (k_stalls k' < k_stalls k)%nat)
    end;
  k_send_law f s k r k' : k_send f s k = (r, k') ->
    k_rcvd k' = k_rcvd k /\ (forall f', f' <> f -> k_sent k' f' = k_sent k f') /\
    (k_stalls k' <= k_stalls k)%nat /\
    match r with
    | SendN n => (n <= length s)%nat /\ k_sent k' f = k_sent k f ++ take n s
    | SendErr e => k_sent k' f = k_sent k f /\ (e = EAGAIN -> (k_stalls k' < k_stalls k)%nat)
    end;
  k_close_law f k : same_io k (k_close f k);
  k_del_law f k r k' : k_epoll_ctl_del f k = (r, k') -> same_io k k';
  k_ended_law f n k r k' : k_recv f n k = (r, k') ->
    match r with
    | RecvData [] => (0 < n)%nat -> k_ended k' f
    | RecvData _ => True
    | RecvErr e => e <> EAGAIN -> k_ended k' f
    end
}.

#[export] Instance world_obs {K} `{!KernelObs K} : ConnObs (world K) := {
  rcvd w := k_rcvd (w_k w); sent w := k_sent (w_k w); stalls w := k_stalls (w_k w);
  ended w := k_ended (w_k w)
}.

(** The other coroutines leave the sides of [rd] and [wr] alone. *)
Class SuspendLaw (K : Type) `{!Kernel K, !KernelObs K, !Suspend K} (rd wr : positive -> Prop) :=
  suspend_law nt w : wp safe (suspend nt) (fun _ w' =>
    (forall i, rd i -> keeps_rd i w w') /\ (forall i, wr i -> keeps_wr i w w') /\
    (stalls w' <= stalls w)%nat) w.

Section laws.
Context {K : Type} `{!Kernel K, !KernelObs K, !KernelLaws K, !Suspend K} (rd wr : positive -> Prop).
Context `{!SuspendLaw K rd wr}.
Implicit Types (w : world K).

Lemma obj_get_put i j c w :
  obj_get j (obj_put i c w) = if decide (i = j) then (fun _ => c) <$> obj_get i w else obj_get j w.
Proof using Type.
  unfold obj_get, obj_put. cbn. case_decide as E.
  - subst. rewrite lookup_alter_eq. by destruct (_ !! j).
  - by rewrite lookup_alter_ne.
Qed.

(** [net_pull_del] touches nothing of the connections and of their traffic. *)
Lemma net_pull_del_frame f w :
  wp safe (net_pull_del f) (fun _ w' => w_conn w' = w_conn w /\ w_main w' = w_main w /\ same_io (w_k w) (w_k w')) w.
Proof using KernelLaws0.
  unfold net_pull_del. wp_step. destruct (tbl_find f _); [|by apply wp_ret].
  apply wp_bind. unfold wp at 1, sys. cbn. unfold lift.
  destruct (k_epoll_ctl_del f (w_k w)) as [r k'] eqn:E. apply k_del_law in E.
  destruct (r <? 0); [by apply wp_ret|]. by apply wp_bind, wp_modify, wp_ret.
Qed.

Lemma set_c_spec U i f o w :
  objs (w_conn w) !! i = Some o ->
  wp U (set_c i f) (fun _ w' => w' = put_conns (with_objs (w_conn w) (<[i := (o.1, f o.2)]> (objs (w_conn w)))) w) w.
Proof using Type.
  intros Ho. unfold set_c, load_obj, save_obj. apply wp_bind. wp_step.
  eapply wp_demand; [exact Ho|]. by apply wp_modify.
Qed.

Lemma load_c_spec U i o w Q :
  objs (w_conn w) !! i = Some o -> Q o.2 w -> wp U (load_c i) Q w.
Proof using Type.
  intros Ho HQ. unfold load_c, load_obj. apply wp_bind. wp_step. eapply wp_demand; [exact Ho|]. by apply wp_ret.
Qed.

Lemma conn_close_frame i c w :
  obj_get i w = Some c -> wp safe (Conn.conn_close i) (fun _ w' =>
    obj_get i w' = Some (with_stat c CONN_CLOSED) /\
    (forall j, j <> i -> obj_get j w' = obj_get j w) /\ same_io (w_k w) (w_k w') /\ w_main w' = w_main w) w.
Proof using KernelLaws0.
  unfold obj_get at 1. intros ([rc c']&Ho&Ec)%fmap_Some. cbn in Ec. subst c'. unfold Conn.conn_close.
  apply wp_bind, (load_c_spec _ _ (rc, c)); [done|]. cbn [snd]. destruct (bool_decide _) eqn:E.
  { apply wp_ret. split_and!; [|done..]. unfold obj_get. rewrite Ho. bool_prop. cbn.
    destruct c. cbn in *. by subst. }
  eapply wp_seq; [apply net_pull_del_frame|]. intros ? w1 (Hc1&Hm1&Hr1&Hs1&Ht1&He1). apply wp_bind, wp_modify.
  pose proof (k_close_law (fd c) (w_k w1)) as (Hr2&Hs2&Ht2&He2).
  eapply wp_mono; [apply (set_c_spec _ _ _ (rc, c)); cbn; by rewrite Hc1|].
  intros _ w2 ->. cbn. split_and!.
  - unfold obj_get. cbn. by rewrite lookup_insert_eq.
  - intros j Hj. unfold obj_get. cbn. rewrite Hc1. by rewrite lookup_insert_ne.
  - unfold same_io. cbn. rewrite Hr2, Hs2, Ht2, Hr1, Hs1, Ht1. split_and!; try done. intros g Hg. by apply He2, He1.
  - exact Hm1.
Qed.

#[export] Instance world_laws : ConnLaws (world K) rd wr.
Proof using KernelLaws0 SuspendLaw0.
  split.
  - intros i c w Hc. cbn in *. rewrite obj_get_put, decide_True by done. by destruct (obj_get i w).
  - intros i j c w Hne. cbn. by rewrite obj_get_put, decide_False.
  - done.
  - intros f n w r w'. cbn. unfold lift. destruct (k_recv f n (w_k w)) as [r0 k'] eqn:E.
    intros [= <- <-]. by apply k_recv_law in E.
  - intros f s w r w'. cbn. unfold lift. destruct (k_send f s (w_k w)) as [r0 k'] eqn:E.
    intros [= <- <-]. by apply k_send_law in E.
  - apply suspend_law.
  - intros i c w Hc. eapply wp_mono; [exact (conn_close_frame i c w Hc)|]. intros _ w' (H1&H2&(H3&H4&H5&_)&_). done.
  - intros f n w r w'. cbn. unfold lift. destruct (k_recv f n (w_k w)) as [r0 k'] eqn:E.
    intros [= <- <-]. by apply k_ended_law in E.
  - intros i w. cbn [ConnIf.conn_close world_env]. destruct (obj_get i w) as [c|] eqn:Ec.
    + pose proof (conn_close_frame i c w Ec) as H. unfold wp in H. destruct (Conn.conn_close i w) as [[] w'|w'|]; [|done..].
      destruct H as (_&_&(_&_&_&He)&Hm). split; [cbn; by rewrite Hm|exact He].
    + unfold Conn.conn_close, load_c, load_obj, mbind, M_bind, get, demand. unfold obj_get in Ec.
      by destruct (objs (w_conn w) !! i).
Qed.
End laws.

(** The epoll set of the kernel: what the calls do to it. *)
Class KernelPull (K : Type) `{!Kernel K} := {
  k_interest : K -> gset Z;
  k_add_law f k : let '(r, k') := k_epoll_ctl_add f k in
    (r = 0 /\ (f ∉ k_interest k) /\ k_interest k' = {[f]} ∪ k_interest k) \/
    (r = -1 /\ k_interest k' = k_interest k);
  k_ctl_del_law f k : let '(r, k') := k_epoll_ctl_del f k in
    if decide (f ∈ k_interest k) then r = 0 /\ k_interest k' = k_interest k ∖ {[f]}
    else r = -1 /\ k_interest k' = k_interest k;
  k_wait_law k : k_interest (k_epoll_wait k).2 = k_interest k;
  k_close_interest f k : k_interest (k_close f k) = k_interest k ∖ {[f]};
  k_io_interest k k' : io_step k k' -> k_interest k' = k_interest k;
  k_create_interest k : k_interest (k_epoll_create k).2 = k_interest k
}.

#[export] Instance world_pull_laws {K} `{!Kernel K, !KernelPull K} : PullLaws net_pull_handler (world K).
Proof.
  refine {| interest := fun w : world K => k_interest (w_k w) |}.
  - done.
  - intros f w. cbn. unfold lift. pose proof (k_add_law f (w_k w)) as L.
    destruct (k_epoll_ctl_add f (w_k w)) as [r k']. by split.
  - intros f w. cbn. unfold lift. pose proof (k_ctl_del_law f (w_k w)) as L.
    destruct (k_epoll_ctl_del f (w_k w)) as [r k']. by split.
  - intros w. cbn. unfold lift. pose proof (k_wait_law (w_k w)) as L.
    by destruct (k_epoll_wait (w_k w)) as [r k'].
  - intros f w. split; [done|]. apply k_close_interest.
Defined.
