(* ===== verification/ConnPool.v ===== *)
(** The pool of idle connections of src/core/conn.c: the doubly linked lists of
    pool elements implement a stack of connections for each endpoint. *)

From S2P Require Import Prelude CLib Outcome ConnIf Table Event NetPull World Conn.
From S2P Require Import ConnLink.

#[local] Open Scope Z_scope.

(** ** Doubly linked lists *)

(** A node: its address and its connection; a head has none. *)
Abbreviation node := (positive * option positive)%type.
Abbreviation heap := (gmap positive conn_pool_ent).

(** [dll m prev p l]: from [p] on, the heap holds the nodes [l], the first of
    which points back to [prev]. *)
Fixpoint dll (m : heap) (prev p : option positive) (l : list node) : Prop :=
  match l with
  | [] => p = None
  | (a, c) :: l => p = Some a /\ exists nx, m !! a = Some (PoolEnt c prev nx) /\ dll m (Some a) nx l
  end.

(** The same for a part of a list, up to the node [prev'] and what follows. *)
Fixpoint seg (m : heap) (prev p : option positive) (l : list node) (prev' p' : option positive) : Prop :=
  match l with
  | [] => prev' = prev /\ p' = p
  | (a, c) :: l => p = Some a /\ exists nx, m !! a = Some (PoolEnt c prev nx) /\ seg m (Some a) nx l prev' p'
  end.

Lemma dll_ext m m' prev p l :
  dll m prev p l -> (forall a, a ∈ l.*1 -> m' !! a = m !! a) -> dll m' prev p l.
Proof.
  revert prev p. induction l as [|[a i] l IH]; intros prev p; [done|].
  intros [-> (nx&Ha&Hl)] Hext. split; [done|]. exists nx. split.
  - rewrite Hext; [done|by left].
  - apply IH; [done|]. intros b Hb. apply Hext. by right.
Qed.

Lemma seg_ext m m' prev p l prev' p' :
  seg m prev p l prev' p' -> (forall a, a ∈ l.*1 -> m' !! a = m !! a) -> seg m' prev p l prev' p'.
Proof.
  revert prev p. induction l as [|[a i] l IH]; intros prev p; [done|].
  intros [-> (nx&Ha&Hl)] Hext. split; [done|]. exists nx. split.
  - rewrite Hext; [done|by left].
  - apply IH; [done|]. intros b Hb. apply Hext. by right.
Qed.

Lemma dll_app m prev p l1 l2 :
  dll m prev p (l1 ++ l2) <-> exists prev' p', seg m prev p l1 prev' p' /\ dll m prev' p' l2.
Proof.
  revert prev p. induction l1 as [|[a c] l1 IH]; intros prev p; cbn.
  - split; [by eexists _, _|]. by intros (?&?&[-> ->]&?).
  - split.
    + intros [-> (nx&Ha&Hl)]. apply IH in Hl as (prev'&p'&Hs&Hl). exists prev', p'.
      split; [split; [done|by exists nx]|done].
    + intros (prev'&p'&[-> (nx&Ha&Hs)]&Hl). split; [done|]. exists nx. split; [done|].
      apply IH. by exists prev', p'.
Qed.

Lemma dll_lookup m prev p l a : dll m prev p l -> a ∈ l.*1 -> a ∈ dom m.
Proof.
  revert prev p. induction l as [|[b c] l IH]; intros prev p; [by intros _ ?%elem_of_nil|].
  intros [-> (nx&Hb&Hl)] [->|Hin]%elem_of_cons; [by eapply elem_of_dom_2|by eapply IH].
Qed.

(** Making the first node of a list point back elsewhere. *)
Definition set_back (m : heap) (p prev : option positive) : heap :=
  match p with
  | Some n => alter (fun e => PoolEnt (e_conn e) prev (e_next e)) n m
  | None => m
  end.

Lemma dll_set_back m prev prev' p l :
  dll m prev p l -> NoDup l.*1 -> dll (set_back m p prev') prev' p l.
Proof.
  destruct l as [|[a c] l]; [by intros ->|]. intros [-> (nx&Ha&Hl)] Hnd. cbn in Hnd.
  apply NoDup_cons in Hnd as [Hna _]. cbn. split; [done|]. exists nx.
  rewrite lookup_alter_eq, Ha. split; [done|]. eapply dll_ext; [done|].
  intros b Hb. rewrite lookup_alter_ne; [done|]. by intros <-.
Qed.

Lemma set_back_ne m p prev a : p <> Some a -> set_back m p prev !! a = m !! a.
Proof. destruct p as [n|]; [|done]. intros Hn. cbn. rewrite lookup_alter_ne; [done|]. congruence. Qed.

(** The heap after unlinking the node [a] between [q] and [nx]. *)
Definition unlinked (m : heap) (q : positive) (e : conn_pool_ent) (a : positive) (nx : option positive) : heap :=
  delete a (set_back (<[q := PoolEnt (e_conn e) (e_prev e) nx]> m) nx (Some q)).

Lemma dll_unlink m p l1 q cq a ca l2 :
  NoDup (l1 ++ (q, cq) :: (a, ca) :: l2).*1 -> dll m None p (l1 ++ (q, cq) :: (a, ca) :: l2) ->
  exists pq nx, m !! q = Some (PoolEnt cq pq (Some a)) /\ m !! a = Some (PoolEnt ca (Some q) nx) /\
    (forall n, nx = Some n -> is_Some (m !! n) /\ n <> a /\ n <> q) /\
    dll (unlinked m q (PoolEnt cq pq (Some a)) a nx) None p (l1 ++ (q, cq) :: l2) /\
    (forall b, b ∉ (l1 ++ (q, cq) :: (a, ca) :: l2).*1 ->
       unlinked m q (PoolEnt cq pq (Some a)) a nx !! b = m !! b).
Proof.
  intros Hnd Hl. apply dll_app in Hl as (pq&p'&Hs&(->&nq&Hq&[-> (nx&Ha&Hl2)])).
  exists pq, nx. rewrite fmap_app in Hnd. cbn [fmap list_fmap fst] in Hnd.
  apply NoDup_app in Hnd as (_&Hdis&Hnd). apply NoDup_cons in Hnd as [Hqn Hnd].
  pose proof Hnd as Hnd2. apply NoDup_cons in Hnd2 as [Han Hnd2].
  apply not_elem_of_cons in Hqn as [Hqa Hqn].
  assert (forall n, nx = Some n -> n ∈ l2.*1) as Hnx.
  { intros n ->. destruct l2 as [|[b c] l2]; [done|]. destruct Hl2 as [[= ->] _]. by left. }
  assert (forall b, b <> q -> b <> a -> b ∉ l2.*1 ->
    unlinked m q (PoolEnt cq pq (Some a)) a nx !! b = m !! b) as Hframe.
  { intros b Hbq Hba Hb2. unfold unlinked. rewrite lookup_delete_ne by done.
    rewrite set_back_ne by (intros ->; by destruct Hb2; apply Hnx). by rewrite lookup_insert_ne. }
  split_and!; [done|done| | |].
  - intros n ->. pose proof (Hnx n eq_refl) as Hn. split_and!.
    + apply elem_of_dom. by eapply dll_lookup.
    + by intros ->.
    + by intros ->.
  - apply dll_app. exists pq, (Some q). split.
    + eapply seg_ext; [exact Hs|]. intros b Hb. specialize (Hdis b Hb).
      rewrite !not_elem_of_cons in Hdis. destruct Hdis as (?&?&?). by apply Hframe.
    + split; [done|]. exists nx. split.
      * unfold unlinked. rewrite lookup_delete_ne by done.
        rewrite set_back_ne by (intros ->; by destruct Hqn; apply Hnx). by rewrite lookup_insert_eq.
      * eapply dll_ext; [apply (dll_set_back (<[q := PoolEnt cq pq nx]> m) (Some a) (Some q) nx l2)|]; [|done|].
        -- eapply dll_ext; [exact Hl2|]. intros b Hb. rewrite lookup_insert_ne; [done|]. by intros <-.
        -- intros b Hb. unfold unlinked. rewrite lookup_delete_ne; [done|]. by intros <-.
  - intros b Hb. rewrite fmap_app, elem_of_app in Hb. cbn [fmap list_fmap fst] in Hb.
    rewrite !elem_of_cons in Hb. apply Hframe; tauto.
Qed.

(** The heap after linking the node [a] with connection [c] behind [h]. *)
Definition linked (m : heap) (h : positive) (e : conn_pool_ent) (a : positive) (c : option positive) : heap :=
  <[h := PoolEnt (e_conn e) (e_prev e) (Some a)]>
    (set_back (<[a := PoolEnt c (Some h) (e_next e)]> m) (e_next e) (Some a)).

Lemma dll_link m h ch nx a c l :
  NoDup ((h, ch) :: l).*1 -> dll m None (Some h) ((h, ch) :: l) -> a ∉ ((h, ch) :: l).*1 ->
  m !! h = Some (PoolEnt ch None nx) ->
  dll (linked m h (PoolEnt ch None nx) a c) None (Some h) ((h, ch) :: (a, c) :: l).
Proof.
  intros Hnd [_ (nx'&Hh&Hl)] Ha Hh'. simplify_eq. cbn in Hnd, Ha.
  apply NoDup_cons in Hnd as [Hhn Hnd]. apply not_elem_of_cons in Ha as [Hah Ha].
  assert (forall n, nx' = Some n -> n ∈ l.*1) as Hnx.
  { intros n ->. destruct l as [|[b d] l]; [done|]. destruct Hl as [[= ->] _]. by left. }
  split; [done|]. exists (Some a). unfold linked. cbn [e_conn e_prev e_next].
  rewrite lookup_insert_eq. split; [done|]. split; [done|]. exists nx'. split.
  - rewrite lookup_insert_ne by done. rewrite set_back_ne by (intros ->; by destruct Ha; apply Hnx).
    by rewrite lookup_insert_eq.
  - eapply dll_ext; [apply (dll_set_back (<[a := PoolEnt c (Some h) nx']> m) (Some h) (Some a) nx' l)|]; [|done|].
    + eapply dll_ext; [exact Hl|]. intros b Hb. rewrite lookup_insert_ne; [done|]. by intros <-.
    + intros b Hb. rewrite lookup_insert_ne; [done|]. by intros <-.
Qed.

Lemma linked_ne m h e a c b :
  b <> h -> b <> a -> e_next e <> Some b -> linked m h e a c !! b = m !! b.
Proof.
  intros Hh Ha Hn. unfold linked. rewrite lookup_insert_ne by done. rewrite set_back_ne by done.
  by rewrite lookup_insert_ne.
Qed.

(** ** The pool *)

#[export] Instance conn_endpoint_countable : Countable conn_endpoint.
Proof.
  apply (inj_countable' (fun e => (family e, ep_port e, addr e))
    (fun p => Endpoint p.1.1 p.1.2 p.2)). by intros [].
Defined.

Definition nodes_of (h : positive) (l : list (positive * positive)) : list node :=
  (h, None) :: (prod_map id Some <$> l).

(** For each endpoint that has an entry in [free_pool]: the address of its head,
    and the elements with their connections. *)
Abbreviation pool_lists := (gmap conn_endpoint (positive * list (positive * positive))).

(** A listed connection exists and knows its element. *)
Definition pooled (s : conn_state) (ep : conn_endpoint) (a i : positive) : Prop :=
  exists rc c, objs s !! i = Some (rc, c) /\ apool c = Some a /\ c_ep c = ep.

Definition list_rep (s : conn_state) (ep : conn_endpoint) (h : positive) (l : list (positive * positive)) : Prop :=
  NoDup (h :: l.*1) /\ dll (ents s) None (Some h) (nodes_of h l) /\
  forall a i, (a, i) ∈ l -> pooled s ep a i.

Definition pool_rep (s : conn_state) (T : pool_lists) : Prop :=
  (forall ep, tbl_find ep (free_pool s) = fst <$> T !! ep) /\
  (forall ep h l, T !! ep = Some (h, l) -> list_rep s ep h l) /\
  forall ep1 ep2 h1 l1 h2 l2, T !! ep1 = Some (h1, l1) -> T !! ep2 = Some (h2, l2) ->
    ep1 <> ep2 -> forall a, a ∈ h1 :: l1.*1 -> a ∉ h2 :: l2.*1.

Definition listed (T : pool_lists) (i : positive) : Prop :=
  exists ep h l a, T !! ep = Some (h, l) /\ (a, i) ∈ l.

(** The connections of each endpoint, the one added last in front. *)
Definition stacks (T : pool_lists) : gmap conn_endpoint (list positive) := (fun hl => hl.2.*2) <$> T.

Lemma nodes_of_addrs h l : (nodes_of h l).*1 = h :: l.*1.
Proof. unfold nodes_of. cbn. by rewrite <-list_fmap_compose. Qed.

Lemma pooled_objs s s' ep a i :
  pooled s ep a i ->
  (forall rc c, objs s !! i = Some (rc, c) -> exists rc' c', objs s' !! i = Some (rc', c') /\
     apool c' = apool c /\ c_ep c' = c_ep c) ->
  pooled s' ep a i.
Proof. intros (rc&c&Hi&Ha&<-) H. destruct (H rc c Hi) as (rc'&c'&?&?&?). exists rc', c'. split_and!; congruence. Qed.

(** A list is left alone when its nodes and its connections are. *)
Lemma list_rep_frame s s' ep h l :
  list_rep s ep h l -> (forall a, a ∈ h :: l.*1 -> ents s' !! a = ents s !! a) ->
  (forall a i, (a, i) ∈ l -> pooled s ep a i -> pooled s' ep a i) -> list_rep s' ep h l.
Proof.
  intros (Hnd&Hl&Hp) He Ho. split_and!; [done| |by auto].
  eapply dll_ext; [exact Hl|]. intros a. rewrite nodes_of_addrs. apply He.
Qed.

Lemma list_addrs s ep h l : list_rep s ep h l -> forall a, a ∈ h :: l.*1 -> a ∈ dom (ents s).
Proof. intros (_&Hl&_) a Ha. eapply dll_lookup; [exact Hl|]. by rewrite nodes_of_addrs. Qed.

(** Changing the list of one endpoint. *)
Lemma pool_rep_insert s s' T ep h l :
  pool_rep s T -> list_rep s' ep h l ->
  (forall ep', tbl_find ep' (free_pool s') = if decide (ep' = ep) then Some h else tbl_find ep' (free_pool s)) ->
  (forall ep' h' l', T !! ep' = Some (h', l') -> ep' <> ep ->
     (forall a, a ∈ h' :: l'.*1 -> ents s' !! a = ents s !! a /\ a ∉ h :: l.*1) /\
     (forall a i, (a, i) ∈ l' -> pooled s ep' a i -> pooled s' ep' a i)) ->
  pool_rep s' (<[ep := (h, l)]> T).
Proof.
  intros (Hf&Hl&Hd) Hn Hf' Ho. split_and!.
  - intros ep'. rewrite Hf', Hf. case_decide as E; [subst; by rewrite lookup_insert_eq|].
    by rewrite lookup_insert_ne.
  - intros ep' h' l' [[<- [= <- <-]]|[Hne HT]]%lookup_insert_Some; [done|].
    destruct (Ho ep' h' l' HT) as [Ha Hp]; [done|]. eapply list_rep_frame; [by apply Hl| |done].
    intros a Hin. by apply Ha.
  - intros ep1 ep2 h1 l1 h2 l2 [[<- [= <- <-]]|[H1 HT1]]%lookup_insert_Some
      [[<- [= <- <-]]|[H2 HT2]]%lookup_insert_Some Hne a Ha1 Ha2.
    + done.
    + by destruct (Ho _ _ _ HT2 ltac:(done)) as [Ho2 _]; destruct (Ho2 a Ha2).
    + by destruct (Ho _ _ _ HT1 ltac:(done)) as [Ho1 _]; destruct (Ho1 a Ha1).
    + by eapply (Hd ep1 ep2).
Qed.

Lemma pool_rep_empty o : pool_rep (ConnState o [] ∅) ∅.
Proof. split_and!; intros *; [by rewrite lookup_empty|by rewrite lookup_empty..]. Qed.

(** An element belongs to one endpoint: that of its connection. *)
Lemma listed_unique s T ep1 h1 l1 a1 ep2 h2 l2 a2 i :
  pool_rep s T -> T !! ep1 = Some (h1, l1) -> (a1, i) ∈ l1 ->
  T !! ep2 = Some (h2, l2) -> (a2, i) ∈ l2 -> ep1 = ep2 /\ a1 = a2.
Proof.
  intros (_&Hl&_) H1 Hi1 H2 Hi2. destruct (Hl _ _ _ H1) as (_&_&Hp1), (Hl _ _ _ H2) as (_&_&Hp2).
  destruct (Hp1 _ _ Hi1) as (rc&c&Hc&?&?), (Hp2 _ _ Hi2) as (rc'&c'&Hc'&?&?). split; congruence.
Qed.

(** *** An entry joins a list *)

Section join.
Context (s : conn_state) (T : gmap conn_endpoint (positive * list (positive * positive))) (ep : conn_endpoint) (o : gmap positive (Z * conn)) (a i : positive).
Hypothesis Hrep : pool_rep s T.
(** With the objects [o] those that are listed stay so, and the entry is right. *)
Hypothesis Hkeep : forall s' ep' h l b j, objs s' = o -> T !! ep' = Some (h, l) -> (b, j) ∈ l ->
  pooled s ep' b j -> pooled s' ep' b j.
Hypothesis Hnew : forall s', objs s' = o -> pooled s' ep a i.
Hypothesis Ha : a ∉ dom (ents s).

Lemma fresh_entry ep' h' l' : T !! ep' = Some (h', l') -> a ∉ h' :: l'.*1.
Proof using Hrep Ha. intros HT Hin. apply Ha. by eapply list_addrs; [apply (proj1 (proj2 Hrep) _ _ _ HT)|]. Qed.

(** Behind the head of a list, *)
Lemma pool_rep_link h l nx : T !! ep = Some (h, l) -> ents s !! h = Some (PoolEnt None None nx) ->
  (forall n, nx = Some n -> n ∈ l.*1) ->
  pool_rep (ConnState o (free_pool s) (linked (ents s) h (PoolEnt None None nx) a (Some i))) (<[ep := (h, (a, i) :: l)]> T).
Proof using All.
  intros HT Hh Hnx. pose proof Hrep as (Hf&Hl&Hd). destruct (Hl _ _ _ HT) as (Hnd&Hdll&Hp).
  pose proof (fresh_entry _ _ _ HT) as Haf. pose proof Haf as [Hah Hal]%not_elem_of_cons.
  eapply (pool_rep_insert s); [done| |intros ep'; cbn; case_decide; [subst; by rewrite Hf, HT|done]|].
  - split_and!.
    + cbn. apply NoDup_cons in Hnd as [Hn Hnd]. apply NoDup_cons. split; [by apply not_elem_of_cons|by apply NoDup_cons].
    + assert (NoDup (nodes_of h l).*1 /\ a ∉ (nodes_of h l).*1) as [Hn1 Hn2] by by rewrite nodes_of_addrs.
      exact (dll_link _ h None nx a (Some i) _ Hn1 Hdll Hn2 Hh).
    + intros b j [[= -> ->]|Hin]%elem_of_cons; [by apply Hnew|]. by eapply Hkeep; [|exact HT| |apply Hp].
  - intros ep' h' l' HT2 Hne. split; [|by intros b j Hin; eapply Hkeep].
    intros b Hb. pose proof (Hd _ _ _ _ _ _ HT2 HT Hne b Hb) as Hb'.
    pose proof (fresh_entry _ _ _ HT2) as Hab. cbn in Hb'. apply not_elem_of_cons in Hb' as [Hbh Hbl].
    assert (b <> a) as Hba by by intros ->.
    split; [|cbn; rewrite !not_elem_of_cons; by split_and!].
    apply linked_ne; [done..|]. cbn. intros E. by apply Hnx in E.
Qed.

(** or in a list of its own. *)
Lemma pool_rep_first h m' : T !! ep = None -> h ∉ dom (ents s) ->
  m' !! h = Some (PoolEnt None None (Some a)) -> m' !! a = Some (PoolEnt (Some i) (Some h) None) ->
  (forall b, b <> a -> b <> h -> m' !! b = ents s !! b) ->
  pool_rep (ConnState o (tbl_add ep h (free_pool s)) m') (<[ep := (h, [(a, i)])]> T).
Proof using All.
  intros HT Hhm Hmh Hma Hm'. pose proof Hrep as (Hf&Hl&Hd).
  assert (tbl_find ep (free_pool s) = None) as Hnone by by rewrite Hf, HT.
  assert (h <> a) as Hha by congruence.
  eapply (pool_rep_insert s); [done| |intros ep'; cbn; apply tbl_find_add; by apply tbl_find_None|].
  - split_and!.
    + cbn. apply NoDup_cons. rewrite list_elem_of_singleton. split; [done|apply NoDup_singleton].
    + split; [done|]. exists (Some a). split; [exact Hmh|]. split; [done|]. by exists None.
    + intros b j Hin%list_elem_of_singleton. simplify_eq. by apply Hnew.
  - intros ep' h' l' HT2 Hne. split; [|by intros b j Hin; eapply Hkeep].
    intros b Hb. pose proof (fresh_entry _ _ _ HT2) as Hab.
    assert (b ∈ dom (ents s)) as Hbd by (eapply list_addrs; [by apply (Hl _ _ _ HT2)|done]).
    assert (b <> a) by by intros ->. assert (b <> h) by by intros ->.
    split; [by apply Hm'|]. cbn. rewrite !not_elem_of_cons. split_and!; [done..|apply not_elem_of_nil].
Qed.
End join.

(** ** The operations *)

Section pool.
Context {K : Type} `{!Kernel K}.
Implicit Types (w : world K) (m : heap) (i : positive).

Definition put_ents m w : world K := put_conns (with_ents (w_conn w) m) w.
Definition put_objs o w : world K := put_conns (with_objs (w_conn w) o) w.
Abbreviation w_ents w := (ents (w_conn w)).
Abbreviation w_objs w := (objs (w_conn w)).

Lemma load_ent_spec U p e w Q :
  w_ents w !! p = Some e -> Q (p, e) w -> wp U (load_ent (Some p)) Q w.
Proof. intros He HQ. unfold load_ent. wp_step. eapply wp_demand; [cbn; by rewrite He|done]. Qed.

Lemma set_next_spec U p e x w Q :
  w_ents w !! p = Some e -> Q () (put_ents (<[p := PoolEnt (e_conn e) (e_prev e) x]> (w_ents w)) w) ->
  wp U (set_next (Some p) x) Q w.
Proof. intros He HQ. unfold set_next. apply wp_bind. eapply load_ent_spec; [done|]. by apply wp_modify. Qed.

(** [if (p) p->prev = x;] *)
Lemma set_prev_opt_spec U (p : option positive) x w Q :
  (forall n, p = Some n -> is_Some (w_ents w !! n)) -> Q () (put_ents (set_back (w_ents w) p x) w) ->
  wp U (match p with Some n => set_prev (Some n) x | None => mret () end) Q w.
Proof.
  intros Hp HQ. destruct p as [n|].
  - destruct (Hp n eq_refl) as [e He]. unfold set_prev. apply wp_bind. eapply load_ent_spec; [done|].
    apply wp_modify. cbn in HQ. unfold put_ents in HQ. cbn.
    replace (<[n := PoolEnt (e_conn e) x (e_next e)]> (w_ents w))
      with (alter (fun e => PoolEnt (e_conn e) x (e_next e)) n (w_ents w)); [done|].
    apply map_eq. intros k. destruct (decide (k = n)) as [->|].
    + by rewrite lookup_alter_eq, He, lookup_insert_eq.
    + by rewrite lookup_alter_ne, lookup_insert_ne.
  - apply wp_ret. cbn in HQ. unfold put_ents, with_ents, put_conns in HQ. by destruct w as [? ? [] ? ? ?].
Qed.

Lemma free_ent_spec U p e w Q :
  w_ents w !! p = Some e -> Q () (put_ents (delete p (w_ents w)) w) -> wp U (free_ent (Some p)) Q w.
Proof. intros He HQ. unfold free_ent. apply wp_bind. eapply load_ent_spec; [done|]. by apply wp_modify. Qed.

Lemma set_c_wp U i f rc c w Q :
  w_objs w !! i = Some (rc, c) -> Q () (put_objs (<[i := (rc, f c)]> (w_objs w)) w) -> wp U (set_c i f) Q w.
Proof. intros Hi HQ. eapply wp_mono; [by apply (set_c_spec _ _ _ (rc, c))|]. by intros [] w' ->. Qed.

Lemma load_c_wp U i rc c w Q : w_objs w !! i = Some (rc, c) -> Q c w -> wp U (load_c i) Q w.
Proof. intros Hi HQ. by apply (load_c_spec _ _ (rc, c)). Qed.

(** The other endpoints' lists are untouched by a change of the heap and of the
    objects that keeps their nodes and their connections. *)
Lemma others_untouched s s' T ep h l :
  pool_rep s T -> T !! ep = Some (h, l) ->
  (forall b, b ∉ h :: l.*1 -> ents s' !! b = ents s !! b) ->
  (forall ep' i a, ep' <> ep -> pooled s ep' a i -> pooled s' ep' a i) ->
  forall ep' h' l', T !! ep' = Some (h', l') -> ep' <> ep ->
    (forall a, a ∈ h' :: l'.*1 -> ents s' !! a = ents s !! a /\ a ∉ h :: l.*1) /\
    (forall a i, (a, i) ∈ l' -> pooled s ep' a i -> pooled s' ep' a i).
Proof.
  intros (_&_&Hd) HT He Ho ep' h' l' HT' Hne. split.
  - intros a Ha. assert (a ∉ h :: l.*1) by by eapply (Hd ep' ep). split; [by apply He|done].
  - intros a i _. by apply Ho.
Qed.

Lemma try_get_spec ep T w :
  pool_rep (w_conn w) T ->
  wp safe (conn_addrpool_try_get_and_del ep) (fun r w' =>
    match T !! ep with
    | Some (h, (a, i) :: l) => r = Some i /\ pool_rep (w_conn w') (<[ep := (h, l)]> T) /\
        exists rc c, w_objs w !! i = Some (rc, c) /\ w_objs w' = <[i := (rc, with_apool c None)]> (w_objs w)
    | _ => r = None /\ w' = w
    end) w.
Proof.
  intros Hrep. pose proof Hrep as (Hf&Hl&Hd). unfold conn_addrpool_try_get_and_del. wp_step. rewrite Hf.
  destruct (T !! ep) as [[h l]|] eqn:HT; cbn [fmap option_fmap option_map fst]; [|by apply wp_ret].
  destruct (Hl _ _ _ HT) as (Hnd&Hdll&Hp).
  destruct l as [|[a i] l].
  { destruct Hdll as [_ (nx&Hh&Hnx)]. cbn in Hnx. subst nx. apply wp_bind. eapply load_ent_spec; [done|].
    cbn. by apply wp_ret. }
  destruct (dll_unlink (w_ents w) (Some h) [] h None a (Some i) (prod_map id Some <$> l))
    as (pq&nx&Hh&Ha&Hnx&Hnew&Hframe); [change (NoDup (nodes_of h ((a, i) :: l)).*1); by rewrite nodes_of_addrs|exact Hdll|].
  assert (pq = None) as ->. { destruct Hdll as [_ (?&?&_)]. congruence. }
  destruct (Hp a i) as (rc&c&Hi&Hac&Hec); [by left|].
  assert (a <> h) as Hah. { cbn in Hnd. apply NoDup_cons in Hnd as [Hn _]. intros ->. apply Hn. by left. }
  apply wp_bind. eapply load_ent_spec; [exact Hh|]. cbn [e_next].
  apply wp_bind. eapply load_ent_spec; [exact Ha|]. cbn [e_next e_conn].
  apply wp_bind. eapply set_next_spec; [exact Hh|]. cbn [e_conn e_prev].
  apply wp_bind, set_prev_opt_spec.
  { intros n En. destruct (Hnx n En) as (?&?&?). cbn. by rewrite lookup_insert_ne. }
  apply wp_bind, (wp_demand _ _ i); [done|]. cbn.
  apply wp_bind. eapply set_c_wp; [exact Hi|]. cbn.
  assert (set_back (<[h := PoolEnt None None nx]> (w_ents w)) nx (Some h) !! a = Some (PoolEnt (Some i) (Some h) nx)) as Ha'.
  { rewrite set_back_ne by (intros En; by destruct (Hnx a En) as (_&?&_)). by rewrite lookup_insert_ne. }
  apply wp_bind. eapply free_ent_spec; [exact Ha'|]. apply wp_ret. cbn. split; [done|]. split.
  2: { exists rc, c. by split. }
  set (s' := ConnState (<[i := (rc, with_apool c None)]> (w_objs w)) (free_pool (w_conn w))
    (unlinked (w_ents w) h (PoolEnt None None (Some a)) a nx)).
  change (pool_rep s' (<[ep := (h, l)]> T)).
  assert (forall ep' b j, ep' <> ep \/ j <> i -> pooled (w_conn w) ep' b j -> pooled s' ep' b j) as Hkeep.
  { intros ep' b j Hor (rc'&c'&Hj&?&?). destruct (decide (j = i)) as [->|Hj'].
    - simplify_eq. by destruct Hor.
    - exists rc', c'. cbn. by rewrite lookup_insert_ne. }
  assert (T !! ep = Some (h, (a, i) :: l)) as HT' by done.
  eapply (pool_rep_insert (w_conn w)); [done| |intros ep'; cbn; case_decide; [subst; by rewrite Hf, HT|done]|].
  - cbn in Hnd. apply NoDup_cons in Hnd as [Hn1 Hnd]. apply NoDup_cons in Hnd as [Hn2 Hnd].
    split_and!; [|exact Hnew|].
    + apply NoDup_cons. split; [|done]. intros ?. apply Hn1. by right.
    + intros b j Hj. apply Hkeep; [|apply Hp; by right]. right. intros ->.
      apply Hn2. destruct (listed_unique _ _ _ _ _ a _ _ _ b i Hrep HT' ltac:(by left) HT' ltac:(by right)) as [_ ->].
      apply list_elem_of_fmap. by exists (b, i).
  - intros ep' h' l' HT2 Hne. destruct (others_untouched (w_conn w) s' T ep h ((a, i) :: l) Hrep HT') with (ep' := ep') (h' := h') (l' := l') as [H1 H2]; [|by intros; apply Hkeep; [left|]|done|done|].
    + intros b Hb. apply Hframe. change (b ∉ (nodes_of h ((a, i) :: l)).*1). by rewrite nodes_of_addrs.
    + split; [|done]. intros b Hb. destruct (H1 b Hb) as [? Hn]. split; [done|].
      cbn. cbn in Hn. rewrite !not_elem_of_cons in *. tauto.
Qed.

(** Closing touches nothing of the pool and of the modules above. *)
Definition same_above w w' : Prop :=
  w_handle w' = w_handle w /\ w_event w' = w_event w /\ w_main w' = w_main w.

Lemma net_pull_del_conns U f w :
  wp U (net_pull_del f) (fun _ w' => w_conn w' = w_conn w /\ same_above w w') w.
Proof.
  unfold net_pull_del. wp_step. destruct (tbl_find f _); [|by apply wp_ret].
  apply wp_bind. unfold wp at 1, sys. cbn. unfold lift. destruct (k_epoll_ctl_del f (w_k w)) as [r k'].
  destruct (r <? 0); [by apply wp_ret|]. by apply wp_bind, wp_modify, wp_ret.
Qed.

Lemma closed_eq c : stat c = CONN_CLOSED -> with_stat c CONN_CLOSED = c.
Proof. destruct c. cbn. by intros <-. Qed.

Lemma objs_same i rc c w :
  w_objs w !! i = Some (rc, c) -> with_objs (w_conn w) (<[i := (rc, c)]> (w_objs w)) = w_conn w.
Proof. intros Hi. unfold with_objs. rewrite insert_id by done. by destruct (w_conn w). Qed.

Lemma conn_close_conns U i rc c w :
  w_objs w !! i = Some (rc, c) ->
  wp U (conn_close i) (fun _ w' =>
    w_conn w' = with_objs (w_conn w) (<[i := (rc, with_stat c CONN_CLOSED)]> (w_objs w)) /\ same_above w w') w.
Proof.
  intros Hi. unfold conn_close. apply wp_bind. eapply load_c_wp; [done|].
  destruct (bool_decide _) eqn:E.
  - apply wp_ret. bool_prop. by rewrite closed_eq, objs_same.
  - eapply wp_seq; [apply net_pull_del_conns|]. intros r w1 [E1 Hs]. apply wp_bind, wp_modify.
    eapply set_c_wp; [cbn; by rewrite E1|]. cbn. unfold with_objs. by rewrite E1.
Qed.

Lemma conn_done_conns U i rc c w :
  w_objs w !! i = Some (rc, c) ->
  wp U (conn_done i) (fun _ w' =>
    w_conn w' = with_objs (w_conn w) (<[i := (rc, with_stat c CONN_CLOSED)]> (w_objs w)) /\ same_above w w') w.
Proof.
  intros Hi. unfold conn_done. apply wp_bind. eapply load_c_wp; [done|].
  destruct (bool_decide _) eqn:E; cbn [negb]; [|by apply conn_close_conns].
  eapply wp_seq; [apply net_pull_del_conns|]. intros r w1 [E1 Hs]. apply wp_modify. cbn. rewrite E1.
  bool_prop. by rewrite closed_eq, objs_same.
Qed.

(** Giving up a reference; the last one destroys the connection. *)
Lemma mem_decref_spec U i rc c w :
  w_objs w !! i = Some (rc, c) ->
  wp U (mem_decref i conn_done) (fun _ w' => w_conn w' = with_objs (w_conn w)
    (if rc =? 1 then delete i (w_objs w) else <[i := (rc - 1, c)]> (w_objs w)) /\ same_above w w') w.
Proof.
  intros Hi. unfold mem_decref. apply wp_bind. unfold load_obj. wp_step. eapply wp_demand; [exact Hi|].
  cbn [fst snd]. apply wp_bind, wp_modify.
  destruct (Z.eqb_spec (rc - 1) 0) as [E|E].
  - rewrite (proj2 (Z.eqb_eq rc 1)) by lia. eapply wp_seq.
    { eapply (conn_done_conns _ i (rc - 1) c). cbn. by rewrite lookup_insert_eq. }
    intros ? w1 [E1 Hs]. apply wp_bind. unfold load_obj. wp_step.
    eapply wp_demand; [rewrite E1; cbn; by rewrite lookup_insert_eq|]. apply wp_bind, wp_modify, wp_ret.
    cbn. rewrite E1. unfold with_objs. cbn. by rewrite !delete_insert_eq.
  - rewrite (proj2 (Z.eqb_neq rc 1)) by lia. by apply wp_ret.
Qed.

(** The predecessor of an element in its list. *)
Lemma nodes_of_split h l1 a i l2 :
  exists L1 q cq, nodes_of h (l1 ++ (a, i) :: l2) = L1 ++ (q, cq) :: (a, Some i) :: (prod_map id Some <$> l2) /\
    nodes_of h (l1 ++ l2) = L1 ++ (q, cq) :: (prod_map id Some <$> l2).
Proof.
  unfold nodes_of. rewrite !fmap_app. destruct l1 as [|x l1 _] using rev_ind.
  - by exists [], h, None.
  - exists ((h, None) :: (prod_map id Some <$> l1)), x.1, (Some x.2). rewrite !fmap_app. cbn.
    by rewrite <-!app_assoc.
Qed.

Lemma addrpool_del_spec i ep h l a rc c T w :
  pool_rep (w_conn w) T -> T !! ep = Some (h, l) -> (a, i) ∈ l -> w_objs w !! i = Some (rc, c) ->
  wp safe (conn_addrpool_del i) (fun _ w' =>
    pool_rep (w_conn w') (<[ep := (h, filter (fun x => x.2 <> i) l)]> T) /\
    w_objs w' = if rc =? 1 then delete i (w_objs w) else <[i := (rc - 1, c)]> (w_objs w)) w.
Proof.
  intros Hrep HT Hin Hi. pose proof Hrep as (Hf&Hl&Hd).
  destruct (Hl _ _ _ HT) as (Hnd&Hdll&Hp). destruct (Hp a i Hin) as (rc'&c'&Hi'&Hac&Hec).
  rewrite Hi in Hi'. injection Hi' as <- <-. subst ep. apply list_elem_of_split in Hin as (l1&l2&->).
  assert (forall x, x ∈ l1 ++ l2 -> x.2 <> i) as Hothers.
  { intros [b j] Hb Hj. cbn in Hj. subst j.
    assert (b ∈ (l1 ++ l2).*1) as Hb1 by (apply list_elem_of_fmap; by exists (b, i)).
    assert ((b, i) ∈ l1 ++ (a, i) :: l2) as Hb2 by (rewrite elem_of_app, elem_of_cons in *; tauto).
    destruct (listed_unique _ _ _ _ _ a _ _ _ b i Hrep HT ltac:(rewrite elem_of_app, elem_of_cons; tauto) HT Hb2) as [_ ->].
    apply NoDup_cons in Hnd as [_ Hnd]. rewrite fmap_app in Hnd, Hb1. cbn in Hnd.
    apply NoDup_app in Hnd as (_&H1&H2). apply NoDup_cons in H2 as [H2 _].
    apply elem_of_app in Hb1 as [Hb1|Hb1]; [|done]. apply (H1 _ Hb1). by left. }
  assert (filter (fun x => x.2 <> i) (l1 ++ (a, i) :: l2) = l1 ++ l2) as ->.
  { rewrite filter_app, filter_cons_False by by intros [].
    rewrite !filter_all; [done|apply Forall_forall; intros; apply Hothers; rewrite elem_of_app; tauto..]. }
  destruct (nodes_of_split h l1 a i l2) as (L1&q&cq&En&En').
  assert (NoDup (nodes_of h (l1 ++ (a, i) :: l2)).*1) as Hndn by by rewrite nodes_of_addrs.
  rewrite En in Hdll, Hndn.
  destruct (dll_unlink _ _ _ _ _ _ _ _ Hndn Hdll) as (pq&nx&Hq&Ha&Hnx&Hnew&Hframe).
  rewrite <-En in Hframe. rewrite <-En' in Hnew.
  assert (a <> q) as Haq. { intros ->. rewrite Hq in Ha. simplify_eq. rewrite fmap_app in Hndn.
    apply NoDup_app in Hndn as (_&_&Hn). apply NoDup_cons in Hn as [Hn _]. apply Hn. by left. }
  unfold conn_addrpool_del. apply wp_bind. eapply load_c_wp; [exact Hi|]. rewrite Hac.
  apply wp_bind. eapply load_ent_spec; [exact Ha|]. cbn [e_prev e_next].
  apply wp_bind. eapply set_next_spec; [exact Hq|]. cbn [e_conn e_prev].
  apply wp_bind, set_prev_opt_spec.
  { intros n E. destruct (Hnx n E) as (?&?&?). cbn. by rewrite lookup_insert_ne. }
  assert (set_back (<[q := PoolEnt cq pq nx]> (w_ents w)) nx (Some q) !! a = Some (PoolEnt (Some i) (Some q) nx)) as Ha'.
  { rewrite set_back_ne by (intros E; by destruct (Hnx a E) as (_&?&_)). by rewrite lookup_insert_ne. }
  apply wp_bind. eapply free_ent_spec; [exact Ha'|]. eapply wp_seq; [by apply (mem_decref_spec _ i rc c)|].
  intros r w' [E _]. apply wp_ret. rewrite E. cbn. split; [|done].
  set (s' := ConnState (if rc =? 1 then delete i (w_objs w) else <[i := (rc - 1, c)]> (w_objs w))
    (free_pool (w_conn w)) (unlinked (w_ents w) q (PoolEnt cq pq (Some a)) a nx)).
  change (pool_rep s' (<[c_ep c := (h, l1 ++ l2)]> T)).
  assert (forall ep' b j, j <> i -> pooled (w_conn w) ep' b j -> pooled s' ep' b j) as Hkeep.
  { intros ep' b j Hj (rc'&c'&Hj'&?&?). exists rc', c'. cbn.
    by destruct (rc =? 1); rewrite ?lookup_delete_ne, ?lookup_insert_ne. }
  eapply (pool_rep_insert (w_conn w)); [done| |intros ep'; cbn; case_decide; [subst; by rewrite Hf, HT|done]|].
  - split_and!; [|exact Hnew|].
    + apply NoDup_cons in Hnd as [Hn1 Hnd]. rewrite fmap_app in *. cbn in Hn1, Hnd.
      rewrite elem_of_app, elem_of_cons in Hn1. apply NoDup_cons. rewrite elem_of_app. split; [tauto|].
      apply NoDup_app in Hnd as (?&Hdis&[_ ?]%NoDup_cons). apply NoDup_app. split_and!; [done| |done].
      intros b Hb Hb2. apply (Hdis b Hb). by right.
    + intros b j Hj. apply Hkeep; [by apply (Hothers (b, j))|apply Hp]. rewrite elem_of_app, elem_of_cons in *. tauto.
  - intros ep' h' l' HT2 Hne.
    destruct (others_untouched (w_conn w) s' T _ h _ Hrep HT) with (ep' := ep') (h' := h') (l' := l')
      as [H1 H2]; [| |done|done|].
    + intros b Hb. apply Hframe. by rewrite nodes_of_addrs.
    + intros ep2 j b Hne2 Hj. apply Hkeep; [|done]. intros ->. destruct Hj as (rc'&c'&Hj&_&<-). congruence.
    + split; [|done]. intros b Hb. destruct (H1 b Hb) as [? Hn]. split; [done|].
      rewrite fmap_app in *. cbn in Hn. rewrite !elem_of_cons, elem_of_app, elem_of_cons in *. tauto.
Qed.

Lemma alloc_ent_spec U e w Q :
  (forall a, a ∉ dom (w_ents w) -> Q a (put_ents (<[a := e]> (w_ents w)) w)) -> wp U (alloc_ent e) Q w.
Proof. intros HQ. unfold alloc_ent. wp_step. apply wp_bind, wp_modify, wp_ret. apply HQ, is_fresh. Qed.

Lemma save_ent_spec U p e w Q :
  Q () (put_ents (<[p := e]> (w_ents w)) w) -> wp U (save_ent p e) Q w.
Proof. intros HQ. by apply wp_modify. Qed.

Lemma incref_and_set U i f rc c w Q :
  w_objs w !! i = Some (rc, c) -> Q () (put_objs (<[i := (rc + 1, f c)]> (w_objs w)) w) ->
  wp U (_ ← mem_incref i; set_c i f) Q w.
Proof.
  intros Hi HQ. unfold mem_incref, load_obj. apply wp_bind, wp_bind. wp_step. eapply wp_demand; [exact Hi|].
  apply wp_modify. eapply set_c_wp; [cbn; by rewrite lookup_insert_eq|]. cbn. by rewrite insert_insert_eq.
Qed.

Lemma addrpool_add_spec i rc c T w :
  pool_rep (w_conn w) T -> w_objs w !! i = Some (rc, c) -> ~ listed T i ->
  wp safe (conn_addrpool_add i) (fun _ w' => exists h a,
    pool_rep (w_conn w')
      (<[c_ep c := (h, (a, i) :: match T !! c_ep c with Some hl => hl.2 | None => [] end)]> T) /\
    w_objs w' = <[i := (rc + 1, with_apool (with_stat c CONN_FREE) (Some a))]> (w_objs w)) w.
Proof.
  intros Hrep Hi Hnl. pose proof Hrep as (Hf&Hl&Hd). unfold conn_addrpool_add.
  apply wp_bind. eapply load_c_wp; [exact Hi|]. wp_step. apply wp_bind, alloc_ent_spec. intros a Ha.
  rewrite <-M_bind_bind. apply wp_bind. eapply incref_and_set; [exact Hi|]. rewrite Hf.
  set (o := <[i := _]> _).
  assert (forall s' ep' h l b j, objs s' = o -> T !! ep' = Some (h, l) -> (b, j) ∈ l ->
    pooled (w_conn w) ep' b j -> pooled s' ep' b j) as Hkeep.
  { intros s' ep' h l b j Eo HT Hin (rc'&c'&Hj&?&?). exists rc', c'. rewrite Eo. unfold o.
    rewrite lookup_insert_ne; [done|]. intros <-. apply Hnl. by exists ep', h, l, b. }
  assert (forall s' , objs s' = o -> pooled s' (c_ep c) a i) as Hnew.
  { intros s' Eo. eexists _, _. rewrite Eo. unfold o. by rewrite lookup_insert_eq. }
  destruct (T !! c_ep c) as [[h l]|] eqn:HT; cbn [fmap option_fmap option_map fst snd].
  - destruct (Hl _ _ _ HT) as (Hnd&[_ (nx&Hh&Hrest)]&_). pose proof (fresh_entry _ _ a Hrep Ha _ _ _ HT) as Haf.
    pose proof Haf as [Hah _]%not_elem_of_cons.
    assert (forall n, nx = Some n -> n ∈ l.*1) as Hnx.
    { intros n ->. destruct l as [|[b j] l]; [done|]. destruct Hrest as [[= ->] _]. by left. }
    apply wp_bind. eapply load_ent_spec; [cbn; rewrite lookup_insert_ne by done; exact Hh|].
    cbn [e_next]. apply wp_bind, save_ent_spec. apply wp_bind, set_prev_opt_spec.
    { intros n E. cbn. rewrite !lookup_insert_ne by (intros ->; by apply Haf; right; apply Hnx).
      apply elem_of_dom, (list_addrs _ _ _ _ (Hl _ _ _ HT)). right. by apply Hnx. }
    cbn. rewrite insert_insert_eq. eapply set_next_spec.
    { cbn. rewrite set_back_ne by (intros E; apply NoDup_cons in Hnd as [Hn _]; by apply Hn, Hnx).
      rewrite lookup_insert_ne by done. exact Hh. }
    cbn. exists h, a. split; [|done]. exact (pool_rep_link _ _ _ o a i Hrep Hkeep Hnew Ha h l nx HT Hh Hnx).
  - apply wp_bind, save_ent_spec. apply wp_bind, alloc_ent_spec. intros h Hh. cbn in Hh.
    rewrite !dom_insert_L in Hh.
    assert (h <> a /\ h ∉ dom (w_ents w)) as [Hha Hhm] by set_solver.
    apply wp_bind. unfold set_prev. apply wp_bind. eapply load_ent_spec.
    { cbn. rewrite lookup_insert_ne by done. by rewrite lookup_insert_eq. }
    apply wp_modify, wp_modify. cbn. exists h, a. split; [|done].
    apply (pool_rep_first _ _ (c_ep c) o a i Hrep Hkeep Hnew Ha); [done|done| |apply lookup_insert_eq|].
    + by rewrite lookup_insert_ne, lookup_insert_eq.
    + intros b ? ?. by rewrite !lookup_insert_ne.
Qed.
End pool.
