(* ===== verification/DemoKernel.v ===== *)
(** A concrete kernel for the instances: the scripted sockets of Sim.v, the
    lowest free number for a new descriptor, clients and epoll events from lists,
    lookups that are done at once, and a record of every [close]. *)

From S2P Require Import Prelude CLib Outcome ConnIf Sim Table Event NetPull World Conn ConnLink.

#[local] Open Scope Z_scope.

Record dkernel := DKernel {
  dk_io : sim;
  dk_open : list Z;
  dk_epoll : list Z;
  dk_closed : list Z;
  dk_backlog : list conn_endpoint;
  dk_events : list (list (Z * Z));
  dk_lookups : list event_id
}.

(** The lowest number from [n] on that is not open. *)
Fixpoint lowest (fuel : nat) (n : Z) (l : list Z) : Z :=
  match fuel with
  | O => n
  | S fuel => if decide (n ∈ l) then lowest fuel (n + 1) l else n
  end.

Definition with_io s (k : dkernel) : dkernel :=
  DKernel s (dk_open k) (dk_epoll k) (dk_closed k) (dk_backlog k) (dk_events k) (dk_lookups k).
Definition with_open l (k : dkernel) : dkernel :=
  DKernel (dk_io k) l (dk_epoll k) (dk_closed k) (dk_backlog k) (dk_events k) (dk_lookups k).
Definition with_epoll l (k : dkernel) : dkernel :=
  DKernel (dk_io k) (dk_open k) l (dk_closed k) (dk_backlog k) (dk_events k) (dk_lookups k).
Definition with_backlog l (k : dkernel) : dkernel :=
  DKernel (dk_io k) (dk_open k) (dk_epoll k) (dk_closed k) l (dk_events k) (dk_lookups k).
Definition with_events l (k : dkernel) : dkernel :=
  DKernel (dk_io k) (dk_open k) (dk_epoll k) (dk_closed k) (dk_backlog k) l (dk_lookups k).
Definition with_lookups l (k : dkernel) : dkernel :=
  DKernel (dk_io k) (dk_open k) (dk_epoll k) (dk_closed k) (dk_backlog k) (dk_events k) l.

(** The lowest free descriptor number. *)
Definition new_fd (k : dkernel) : Z * dkernel :=
  let f := lowest (length (dk_open k)) 5 (dk_open k) in (f, with_open (f :: dk_open k) k).

#[export] Instance demo_kernel : Kernel dkernel := {
  k_recv f n k := let '(r, s) := sim_recv f n (dk_io k) in (r, with_io s k);
  k_send f x k := let '(r, s) := sim_send f x (dk_io k) in (r, with_io s k);
  k_socket _ := new_fd;
  k_fcntl_getfl _ k := (2, k);
  k_fcntl_setfl _ _ k := (0, k);
  k_connect _ _ k := ((-1, EINPROGRESS), k);
  k_close f k := DKernel (dk_io k) (filter (fun x => x <> f) (dk_open k))
                   (filter (fun x => x <> f) (dk_epoll k)) (dk_closed k ++ [f]) (dk_backlog k) (dk_events k)
                   (dk_lookups k);
  k_epoll_create k := (3, k);
  k_epoll_ctl_add f k := if decide (f ∈ dk_epoll k) then (-1, k) else (0, with_epoll (f :: dk_epoll k) k);
  k_epoll_ctl_del f k :=
    if decide (f ∈ dk_epoll k) then (0, with_epoll (filter (fun x => x <> f) (dk_epoll k)) k) else (-1, k);
  k_epoll_wait k := match dk_events k with
    | [] => (None, k)
    | evs :: l => (Some evs, with_events l k)
    end;
  k_getaddrinfo_a _ e k := (0, with_lookups (dk_lookups k ++ [e]) k);
  k_ar_result _ k := Some [AddrInfo AF_INET [10; 0; 0; 2]];
  k_accept _ k := match dk_backlog k with
    | [] => ((-1, EAGAIN, Endpoint 0 0 []), k)
    | ep :: eps => let '(f, k) := new_fd k in ((f, 0, ep), with_backlog eps k)
    end;
  k_setsockopt _ k := (0, k);
  k_bind _ ep k := (if decide (addr ep = [10; 0; 0; 9]) then -1 else 0, k);
  k_listen _ k := (0, k);
  k_getaddrinfo _ k := ((0, [AddrInfo AF_INET [10; 0; 0; 9]; AddrInfo AF_INET [10; 0; 0; 1]; AddrInfo 1 []]), k);
  k_signalfd k := (4, k);
  k_read_siginfo _ k := match dk_lookups k with
    | [] => (None, k)
    | e :: l => (Some e, with_lookups l k)
    end
}.

#[export] Instance demo_obs : KernelObs dkernel := {
  k_rcvd k := sim_rcvd (dk_io k); k_sent k := sim_sent (dk_io k); k_stalls k := s_left (dk_io k);
  k_ended k := ended (dk_io k)
}.

#[export] Instance demo_laws : KernelLaws dkernel.
Proof.
  split.
  - intros f n k r k'. cbn. destruct (sim_recv f n (dk_io k)) as [r0 s] eqn:E. intros [= <- <-].
    change (recv f n (dk_io k) = (r0, s)) in E. destruct (recv_law (rd:=fun _ => True) (wr:=fun _ => True) f n (dk_io k) r0 s E) as (_&H1&H2&H3&H4).
    by split_and!.
  - intros f x k r k'. cbn [k_send demo_kernel]. destruct (sim_send f x (dk_io k)) as [r0 s] eqn:E. intros [= <- <-].
    change (send f x (dk_io k) = (r0, s)) in E. destruct (send_law (rd:=fun _ => True) (wr:=fun _ => True) f x (dk_io k) r0 s E) as (_&H1&H2&H3&H4).
    by split_and!.
  - done.
  - intros f k r k'. cbn. by case_decide; intros [= <- <-].
  - intros f n k r k'. cbn [k_recv demo_kernel]. destruct (sim_recv f n (dk_io k)) as [r0 s] eqn:E. intros [= <- <-].
    exact (recv_ended (rd:=fun _ => True) (wr:=fun _ => True) f n (dk_io k) r0 s E).
Qed.

(** A kernel with the descriptors 3 and 4 open, and scripted input. *)
Definition dkernel0 (script : list (list ascii)) (n : nat) : dkernel :=
  DKernel (sim_world script n) [3; 4] [] [] [] [] [].

Definition empty_conns : conn_state := ConnState ∅ [] ∅.
Definition dworld : world dkernel :=
  World (PullState [] 3 0) (EventState [] 0 ∅ None None) empty_conns
    (HandleState (replicate 32 None) ∅ ∅ None ∅) RUNING
    (ServeState (replicate 32 (-1)) 0 None None (-1) None) (dkernel0 [] 10).

(** While a coroutine is suspended nothing happens. *)
#[export] Instance demo_suspend : Suspend dkernel := fun _ => mret 0.

#[export] Instance demo_suspend_law rd wr : SuspendLaw dkernel rd wr.
Proof. intros nt w. apply wp_ret. split_and!; [by intros; reflexivity..|done]. Qed.

Lemma list_to_set_without (f : Z) (l : list Z) :
  (list_to_set (filter (fun x => x <> f) l) : gset Z) = list_to_set l ∖ {[f]}.
Proof.
  apply leibniz_equiv. intros x.
  rewrite elem_of_difference, !elem_of_list_to_set, list_elem_of_filter, elem_of_singleton. tauto.
Qed.

#[export] Instance demo_pull : KernelPull dkernel.
Proof.
  refine {| k_interest := fun k => list_to_set (dk_epoll k) |}.
  - intros f k. cbn. case_decide as E; [by right|].
    left. split_and!; [done|by rewrite elem_of_list_to_set|done].
  - intros f k. cbn. case_decide as E.
    + rewrite decide_True by by rewrite elem_of_list_to_set. split; [done|]. apply list_to_set_without.
    + by rewrite decide_False by by rewrite elem_of_list_to_set.
  - intros k. cbn. by destruct (dk_events k).
  - intros f k. apply list_to_set_without.
  - intros k k' []; cbn; repeat case_match; simplify_eq/=; done.
  - done.
Defined.
