(* ===== verification/ConnLoop.v ===== *)
(** Coroutines on the event loop: [conn_async_final], [conn_epoll_handler] and
    [conn_event_handler] of src/core/conn.c, which resume a coroutine when the
    descriptor or the event it waits for is ready, and park it again. *)

From S2P Require Import Prelude CLib Outcome ConnIf Table Event EventProps Async NetPull World Conn.
From S2P Require Import DemoKernel.

#[local] Open Scope Z_scope.

Section conn_loop.
Context {Pc K : Type} `{!Kernel K}.

(** The contexts of async.c next to the other modules. *)
Abbreviation state := (async_state Pc * world K)%type.

#[export] Instance loop_async : HasAsync Pc state := {
  as_get := fst; as_put s w := (s, w.2); as_get_put s w := eq_refl; as_put_put s s' w := eq_refl
}.
#[export] Instance loop_event : HasEvent event_handler state := {
  ev_get w := w_event w.2; ev_put s w := (w.1, put_event s w.2); ev_get_put s w := eq_refl
}.
#[export] Instance loop_pull : HasPull net_pull_handler state := {
  pl_get w := w_pull w.2; pl_put s w := (w.1, put_pull s w.2); pl_get_put s w := eq_refl
}.

(** The address of a context as the datum of a handler. *)
Definition cxt_ptr (x : positive) : Z := Z.pos x.

Definition conn_async_final (x : positive) : M state Z :=
  c ← load_cxt x;
  if negb (bool_decide (a_stat c = ASYNC_PAUSE)) then _ ← async_done x; mret (-1) else
  match yielded c with
  | Some (CONN_IO_WILL_BLOCK fd flag) =>
      _ ← net_pull_set_handler fd flag (Some conn_epoll_handler_fn) (cxt_ptr x); mret 0
  | Some (CONN_WAIT_FOR_EVENT eid) =>
      _ ← event_set_handler eid conn_event_handler_fn (cxt_ptr x); mret 0
  | None => mret 0
  end.

Context (code : Pc -> Z -> M state (option (conn_notice * Pc))).

Definition conn_epoll_handler (events : Z) (x : positive) : M state Z :=
  _ ← async_resume code x (if proxy_epoll_err events then -1 else 0);
  _ ← conn_async_final x;
  mret 0.

Definition conn_event_handler (eid : event_id) (x : positive) (data1 : Z) : M state Z :=
  _ ← async_resume code x (if data1 =? 0 then 1 else 0);
  _ ← conn_async_final x;
  mret 0.

(** ** Parking *)

(** The coroutine [x] is registered for what it waits for. *)
Definition parked (x : positive) (n : conn_notice) (w : state) : Prop :=
  match n with
  | CONN_WAIT_FOR_EVENT eid =>
      tbl_find eid (handlers (ev_get w)) = Some (conn_event_handler_fn, cxt_ptr x)
  | CONN_IO_WILL_BLOCK fd flag =>
      exists e, tbl_find fd (p_handlers (pl_get w)) = Some e /\
        (Z.land flag EPOLLIN <> 0 -> h_read e = Some conn_epoll_handler_fn /\ d_read e = Some (cxt_ptr x)) /\
        (Z.land flag EPOLLOUT <> 0 -> h_write e = Some conn_epoll_handler_fn /\ d_write e = Some (cxt_ptr x))
  end.

(** A notice that can be parked: its descriptor is registered. *)
Definition can_park (n : conn_notice) (w : state) : Prop :=
  match n with
  | CONN_WAIT_FOR_EVENT _ => True
  | CONN_IO_WILL_BLOCK fd _ => is_Some (tbl_find fd (p_handlers (pl_get w)))
  end.

Lemma set_handler_parks U fd flag x w Q :
  is_Some (tbl_find fd (p_handlers (pl_get w))) ->
  (forall w', fst w' = fst w -> parked x (CONN_IO_WILL_BLOCK fd flag) w' -> forall r, Q r w') ->
  wp U (net_pull_set_handler fd flag (Some conn_epoll_handler_fn) (cxt_ptr x)) Q w.
Proof.
  intros [e He] HQ. unfold net_pull_set_handler. wp_step. rewrite He.
  apply wp_bind, wp_modify, wp_ret. apply HQ; [done|]. cbn. rewrite tbl_find_set, decide_True by done.
  cbn in He. rewrite He. eexists. split; [done|].
  destruct (Z.eqb_spec (Z.land flag EPOLLIN) 0), (Z.eqb_spec (Z.land flag EPOLLOUT) 0);
    cbn [negb h_read h_write d_read d_write]; by split_and!.
Qed.

(** After its handler the coroutine has finished and its context is freed, or it
    is parked for what it yielded. *)
Definition settled (x : positive) (r : option (conn_notice * Pc)) (w : state) : Prop :=
  match r with
  | None => cxts (fst w) !! x = None
  | Some (n, pc) => cxts (fst w) !! x = Some (AsyncCxt pc ASYNC_PAUSE (Some n)) /\ parked x n w
  end.

(** The state in which the code of the paused coroutine [x] runs. *)
Definition entered (x : positive) (c : async_cxt Pc) (v : Z) (w : state) : state :=
  (AsyncState (<[x := AsyncCxt (uc c) ASYNC_RUNNING None]> (cxts (fst w))) (Some x) v, snd w).

Lemma resume_and_final x v c w :
  cxts (fst w) !! x = Some c -> a_stat c = ASYNC_PAUSE ->
  wp safe (code (uc c) v) (fun r w2 => code_frame (fst (entered x c v w)) (fst w2) /\
    match r with Some (n, _) => can_park n w2 | None => True end) (entered x c v w) ->
  wp safe (_ ← async_resume code x v; _ ← conn_async_final x; mret 0) (fun ret w' => ret = 0 /\
    call_cxt (fst w') = None /\
    exists r w2, code (uc c) v (entered x c v w) = Ok r w2 /\ settled x r w' /\
      forall y, y <> x -> cxts (fst w') !! y = cxts (fst w2) !! y) w.
Proof.
  intros Hc Hp Hcode. destruct (wp_Ok _ _ _ Hcode) as (r&w2&Hrun&Hframe&Hcan).
  apply wp_bind. eapply (async_resume_spec code); [exact Hc|done|].
  unfold wp. change (as_put _ w) with (entered x c v w). rewrite Hrun. split; [exact Hframe|].
  apply wp_bind. unfold conn_async_final.
  set (w3 := as_put _ w2). assert (cxts (fst w3) !! x = Some (after_code (uc c) r)) as Hx
    by apply lookup_insert_eq.
  apply wp_bind, (load_cxt_wp _ _ (after_code (uc c) r)); [exact Hx|].
  assert (forall y, y <> x -> cxts (fst w3) !! y = cxts (fst w2) !! y) as Hy
    by (intros y Hne; by apply lookup_insert_ne).
  destruct r as [[[fd flag|eid] pc]|]; cbn [after_code a_stat yielded].
  - rewrite bool_decide_true by done. cbn [negb]. apply wp_bind, set_handler_parks; [exact Hcan|].
    intros w' E Hpark z. apply wp_ret, wp_ret. split_and!; [done|by rewrite E|].
    exists (Some (CONN_IO_WILL_BLOCK fd flag, pc)), w2. split; [done|].
    split; [split; [by rewrite E|exact Hpark]|]. by rewrite E.
  - rewrite bool_decide_true by done. cbn [negb]. apply wp_bind.
    eapply wp_mono; [apply (event_set_handler_spec safe)|]. intros z w' (_&s'&->&Hs'&_).
    apply wp_ret, wp_ret. split_and!; [done..|].
    exists (Some (CONN_WAIT_FOR_EVENT eid, pc)), w2. split; [done|].
    split; [by split|exact Hy].
  - rewrite bool_decide_false by done. cbn [negb]. unfold async_done.
    apply wp_bind, wp_bind, (load_cxt_wp _ _ (after_code (uc c) None)); [exact Hx|]. apply wp_modify.
    apply wp_ret, wp_ret. split_and!; [done..|]. exists None, w2. split; [done|].
    split; [apply lookup_delete_eq|]. intros y Hne. cbn. rewrite lookup_delete_ne by done. by apply Hy.
Qed.
End conn_loop.

(** C9: a coroutine is never lost between two of its steps.  When the event
    loop calls [conn_epoll_handler] or [conn_event_handler] for a paused
    coroutine, its code runs once, with -1 from [async_yield] for an error of the
    descriptor, 1 for an event posted without datum, and 0 otherwise.  Then either it has
    returned and its context is freed, or it is registered, under its own
    address, for exactly what it yielded, provided that the descriptor it waits
    for is in the registry; the other coroutines are as its code left them. *)
Theorem coroutine_settled {Pc K} `{!Kernel K}
    (code : Pc -> Z -> M (async_state Pc * world K) (option (conn_notice * Pc)))
    (x : positive) (c : async_cxt Pc) (v : Z) (w : async_state Pc * world K)
    (step : M (async_state Pc * world K) Z)
    (Hstep : (exists events, step = conn_epoll_handler code events x /\
                v = if proxy_epoll_err events then -1 else 0) \/
             (exists eid data1, step = conn_event_handler code eid x data1 /\
                v = if data1 =? 0 then 1 else 0))
    (Hc : cxts (fst w) !! x = Some c) (Hp : a_stat c = ASYNC_PAUSE)
    (Hcode : wp safe (code (uc c) v) (fun r w2 => code_frame (fst (entered x c v w)) (fst w2) /\
       match r with Some (n, _) => can_park n w2 | None => True end) (entered x c v w)) :
  exists w' r w2, step w = Ok 0 w' /\ call_cxt (fst w') = None /\
    code (uc c) v (entered x c v w) = Ok r w2 /\ settled x r w' /\
    forall y, y <> x -> cxts (fst w') !! y = cxts (fst w2) !! y.
Proof.
  destruct (wp_Ok _ _ _ (resume_and_final code x v c w Hc Hp Hcode)) as (z&w'&Hrun&->&Hcall&r&w2&H).
  exists w', r, w2. split; [|exact (conj Hcall H)]. rewrite <-Hrun.
  by destruct Hstep as [(events&->&->)|(eid&data1&->&->)].
Qed.

(** An instance: code that waits for descriptor 5, then for event 7, then
    returns. *)
Definition demo_code (pc : nat) (v : Z) :
    M (async_state nat * world dkernel) (option (conn_notice * nat)) :=
  mret (match pc with
        | 0%nat => Some (CONN_IO_WILL_BLOCK 5 EPOLLIN, 1%nat)
        | 1%nat => Some (CONN_WAIT_FOR_EVENT 7, 2%nat)
        | _ => None
        end).

Definition loop_start : async_state nat * world dkernel :=
  (AsyncState {[1%positive := AsyncCxt 0%nat ASYNC_PAUSE None]} None 0,
   put_pull (PullState [(5, NetHandler 5 None None None None None None)] 3 1) dworld).

Lemma coroutine_settled_witness :
  exists w' r w2, conn_event_handler demo_code 3 1 1 loop_start = Ok 0 w' /\ call_cxt (fst w') = None /\
    demo_code 0 0 (entered 1 (AsyncCxt 0%nat ASYNC_PAUSE None) 0 loop_start) = Ok r w2 /\ settled 1 r w' /\
    forall y, y <> 1%positive -> cxts (fst w') !! y = cxts (fst w2) !! y.
Proof.
  apply (coroutine_settled demo_code 1 (AsyncCxt 0%nat ASYNC_PAUSE None) 0 loop_start).
  - right. exists 3, 1. by split.
  - reflexivity.
  - reflexivity.
  - split; [|by eexists]. split; [done|]. split; [done|]. split; [done|]. intros y d Hy Hn. congruence.
Defined.

(** The run: woken twice more, the coroutine is gone. *)
Example coroutine_run :
  match (_ ← conn_event_handler demo_code 3 1 1; _ ← conn_epoll_handler demo_code EPOLLIN 1;
         conn_event_handler demo_code 7 1 0) loop_start with
  | Ok _ w => Some (map_to_list (co_of <$> cxts (fst w)), handlers (w_event (snd w)))
  | _ => None
  end = Some ([], [(7, (conn_event_handler_fn, 1))]).
Proof. vm_compute. reflexivity. Qed.
