(* ===== verification/ConnProps.v ===== *)
(** Properties of connections and of their pool (src/core/conn.c), in the
    assembled world. *)

From S2P Require Import Prelude CLib Outcome ConnIf Sim Table Event NetPull NetPullProps World Conn.
From S2P Require Import ConnLink ConnPool DemoKernel.

#[local] Open Scope Z_scope.

Inductive pool_op := PoolAdd (i : positive) | PoolGet (ep : conn_endpoint) | PoolDel (i : positive).

Definition refs {K} (i : positive) (w : world K) : option Z := fst <$> objs (w_conn w) !! i.

Section pool_ops.
Context {K : Type} `{!Kernel K}.

Definition pool_do (op : pool_op) : M (world K) (option positive) :=
  match op with
  | PoolAdd i => _ ← conn_addrpool_add i; mret None
  | PoolGet ep => conn_addrpool_try_get_and_del ep
  | PoolDel i => _ ← conn_addrpool_del i; mret None
  end.

(** A connection is added when it is not in the pool, and deleted when it is. *)
Definition pool_op_ok (op : pool_op) (w : world K) (T : pool_lists) : Prop :=
  match op with
  | PoolAdd i => is_Some (obj_get i w) /\ ~ listed T i
  | PoolGet ep => True
  | PoolDel i => listed T i
  end.

(** The operations on stacks of connections, and what they do to the counts. *)
Definition pool_effect (op : pool_op) (w w' : world K) (S S' : gmap conn_endpoint (list positive))
    (r : option positive) : Prop :=
  match op with
  | PoolAdd i => exists c n, obj_get i w = Some c /\ refs i w = Some n /\ r = None /\
      S' = <[c_ep c := i :: default [] (S !! c_ep c)]> S /\ refs i w' = Some (n + 1)
  | PoolGet ep =>
      match S !! ep with
      | Some (i :: l) => r = Some i /\ S' = <[ep := l]> S /\ refs i w' = refs i w
      | _ => r = None /\ S' = S /\ w' = w
      end
  | PoolDel i => exists c n, obj_get i w = Some c /\ refs i w = Some n /\ r = None /\
      S' = alter (filter (fun j => j <> i)) (c_ep c) S /\
      refs i w' = if n =? 1 then None else Some (n - 1)
  end.

Lemma stacks_insert ep h l (T : pool_lists) : stacks (<[ep := (h, l)]> T) = <[ep := l.*2]> (stacks T).
Proof. unfold stacks. by rewrite fmap_insert. Qed.

Lemma stacks_lookup ep (T : pool_lists) : stacks T !! ep = (fun hl => hl.2.*2) <$> T !! ep.
Proof. apply lookup_fmap. Qed.
End pool_ops.

(** C17: the pool of idle connections is a stack of connections for each
    endpoint: [conn_addrpool_add] pushes and takes a reference,
    [conn_addrpool_try_get_and_del] pops the connection added last and hands its
    reference over, [conn_addrpool_del] removes a connection from wherever it is
    and gives its reference up, which destroys it when it was the last.  The
    linked lists stay well formed: no operation follows a pointer to a freed
    element. *)
Theorem pool_is_stack {K} `{!Kernel K} (op : pool_op) (T : pool_lists) (w : world K)
    (Hrep : pool_rep (w_conn w) T) (Hok : pool_op_ok op w T) :
  exists r w' T', pool_do op w = Ok r w' /\ pool_rep (w_conn w') T' /\
    pool_effect op w w' (stacks T) (stacks T') r.
Proof.
  destruct op as [i|ep|i]; cbn in *.
  - destruct Hok as [[c Hc] Hnl]. pose proof Hc as ([n c']&Hi&E)%fmap_Some. cbn in E. subst c'.
    destruct (wp_Ok _ _ _ (addrpool_add_spec i n c T w Hrep Hi Hnl)) as ([]&w'&Hrun&h&a&Hrep'&Ho).
    eexists None, w', _. split; [unfold mbind, M_bind; by rewrite Hrun|]. split; [exact Hrep'|].
    exists c, n. split_and!; [done|unfold refs; by rewrite Hi|done| |unfold refs; by rewrite Ho, lookup_insert_eq].
    rewrite stacks_insert, stacks_lookup. by destruct (T !! c_ep c).
  - destruct (wp_Ok _ _ _ (try_get_spec ep T w Hrep)) as (r&w'&Hrun&H).
    rewrite stacks_lookup. destruct (T !! ep) as [[h [|[a i] l]]|] eqn:HT; cbn.
    + destruct H as [-> ->]. by exists None, w, T.
    + destruct H as (->&Hrep'&rc&c&Hi&Ho). eexists _, w', _. split; [done|]. split; [exact Hrep'|].
      split_and!; [done|by rewrite stacks_insert|]. unfold refs. by rewrite Ho, lookup_insert_eq, Hi.
    + destruct H as [-> ->]. by exists None, w, T.
  - destruct Hok as (ep&h&l&a&HT&Hin). pose proof Hrep as (_&Hl&_).
    destruct (Hl _ _ _ HT) as (_&_&Hp). destruct (Hp _ _ Hin) as (n&c&Hi&_&<-).
    destruct (wp_Ok _ _ _ (addrpool_del_spec i _ h l a n c T w Hrep HT Hin Hi)) as ([]&w'&Hrun&Hrep'&Ho).
    eexists None, w', _. split; [unfold mbind, M_bind; by rewrite Hrun|]. split; [exact Hrep'|].
    exists c, n. split_and!; [unfold obj_get; by rewrite Hi|unfold refs; by rewrite Hi|done| |].
    + rewrite stacks_insert. apply map_eq. intros ep'. destruct (decide (ep' = c_ep c)) as [->|Hne].
      * rewrite lookup_insert_eq, lookup_alter_eq, stacks_lookup, HT. cbn. f_equal.
        symmetry. by apply filter_fmap_ext.
      * by rewrite lookup_insert_ne, lookup_alter_ne.
    + unfold refs. rewrite Ho. destruct (n =? 1); by rewrite ?lookup_delete_eq, ?lookup_insert_eq.
Qed.

(** Two idle connections to the same server. *)
Definition pool_ep : conn_endpoint := Endpoint AF_INET 20480 [10; 0; 0; 1].
Definition pool_conn (f : Z) : conn := Conn f [] 0 0 0 0 0 CONN_USED pool_ep None.
Definition pool_world : world dkernel :=
  put_conns (ConnState {[1%positive := (1, pool_conn 5); 2%positive := (1, pool_conn 6)]} [] ∅) dworld.

Lemma pool_is_stack_witness :
  exists r w' T', pool_do (PoolAdd 1) pool_world = Ok r w' /\ pool_rep (w_conn w') T' /\
    pool_effect (PoolAdd 1) pool_world w' (stacks ∅) (stacks T') r.
Proof.
  apply (pool_is_stack (PoolAdd 1) ∅ pool_world).
  - apply pool_rep_empty.
  - split; [by eexists|]. intros (ep&h&l&a&HT&_). by rewrite lookup_empty in HT.
Defined.

(** A run: the connection added last is returned, the other one is deleted. *)
Example pool_run :
  match (_ ← pool_do (PoolAdd 1); _ ← pool_do (PoolAdd 2); r1 ← pool_do (PoolGet pool_ep);
         _ ← pool_do (PoolDel 1); r2 ← pool_do (PoolGet pool_ep); mret (r1, r2)) pool_world with
  | Ok r w => Some (r, refs 1 w, refs 2 w)
  | _ => None
  end = Some (Some 2%positive, None, Some 1, Some 2).
Proof. vm_compute. reflexivity. Qed.

(** ** Descriptors *)

(** [conn_done] of a connection that [conn_close] has closed already closes
    the descriptor number a second time: giving up the last reference to a
    closed connection removes its number from the registry and closes it, even
    when the number meanwhile belongs to another, open connection. *)
Theorem decref_closes_again {K} `{!Kernel K, !KernelPull K} (i : positive)
    (c : conn) (w : world K) (Hwf : pull_wf w) (Hi : objs (w_conn w) !! i = Some (1, c))
    (Hclosed : stat c = CONN_CLOSED) :
  exists w', mem_decref i conn_done w = Ok 0 w' /\ refs i w' = None /\
    (fd c ∉ interest w') /\ tbl_find (fd c) (p_handlers (pl_get w')) = None /\
    (exists w1, w_k w' = k_close (fd c) (w_k w1)) /\
    forall j, j <> i -> obj_get j w' = obj_get j w.
Proof.
  edestruct (wp_Ok (mem_decref i conn_done) (fun r w' => r = 0 /\ refs i w' = None /\
    (fd c ∉ interest w') /\ tbl_find (fd c) (p_handlers (pl_get w')) = None /\
    (exists w1, w_k w' = k_close (fd c) (w_k w1)) /\
    forall j, j <> i -> obj_get j w' = obj_get j w) w) as (r&w'&Hrun&->&H); [|by exists w'].
  unfold mem_decref. apply wp_bind. unfold load_obj. wp_step. eapply wp_demand; [exact Hi|].
  cbn [fst snd]. apply wp_bind, wp_modify. cbn [Z.sub Z.eqb Z.add Z.opp Z.pos_sub].
  set (w1 := put_conns _ w).
  assert (objs (w_conn w1) !! i = Some (0, c)) as Hi1 by apply lookup_insert_eq.
  assert (forall j, j <> i -> objs (w_conn w1) !! j = objs (w_conn w) !! j) as Hj1
    by (intros j Hj; by apply lookup_insert_ne).
  assert (pull_wf w1) as Hwf1 by exact Hwf.
  clearbody w1. apply wp_bind. unfold conn_done. apply wp_bind. eapply load_c_wp; [exact Hi1|].
  rewrite bool_decide_true by done. cbn [negb].
  assert (wp safe (net_pull_del (fd c)) (fun _ w2 => w_conn w2 = w_conn w1 /\ pull_wf w2 /\
    fd c ∉ interest w2) w1) as Hdel.
  { pose proof (net_pull_del_conns safe (fd c) w1) as H1.
    pose proof (net_pull_del_spec safe (fd c) w1 Hwf1) as H2.
    unfold wp in *. destruct (net_pull_del (fd c) w1) as [r w2| |]; [|done..].
    split; [apply H1|]. destruct H2 as [Hw2 [(_&_&->)|(_&Hn&->)]]; split; [done| |done|done].
    rewrite elem_of_difference, elem_of_singleton. tauto. }
  eapply wp_seq; [exact Hdel|]. intros r w2 (E2&Hwf2&Hn2). apply wp_modify.
  apply wp_bind. wp_step. eapply wp_demand; [cbn; rewrite E2; exact Hi1|].
  apply wp_bind, wp_modify, wp_ret. split; [done|]. split_and!.
  - unfold refs. cbn. by rewrite lookup_delete_eq.
  - change (fd c ∉ k_interest (k_close (fd c) (w_k w2))). rewrite k_close_interest.
    rewrite elem_of_difference, elem_of_singleton. tauto.
  - apply tbl_find_None. cbn. intros Hin. apply Hn2. by apply Hwf2.
  - by exists w2.
  - intros j Hj. unfold obj_get. cbn. rewrite lookup_delete_ne by done. rewrite E2. by rewrite Hj1.
Qed.

(** The scenario: connection 1 on descriptor 5 is closed, a new connection to
    another server gets the same number, and then the last reference to
    connection 1 goes away. *)
Definition other_ep : conn_endpoint := Endpoint AF_INET 20480 [10; 0; 0; 2].
Definition reuse_start : world dkernel :=
  put_k (DKernel (sim_world [] 10) [3; 4; 5] [] [] [] [] [])
    (put_conns (ConnState {[1%positive := (1, pool_conn 5)]} [] ∅) dworld).
Definition reuse_world : world dkernel :=
  match (_ ← net_pull_add 5 (Some conn_err_handler_fn) (ptr 1); _ ← conn_close 1;
         conn_get_by_endpoint suspend other_ep) reuse_start with
  | Ok _ w => w
  | _ => reuse_start
  end.

Lemma reuse_wf : pull_wf reuse_world.
Proof.
  assert (pl_get reuse_world = PullState [(5, NetHandler 5 None None (Some conn_err_handler_fn) None None (Some 2))] 3 1)
    as E by (vm_compute; reflexivity).
  assert (dk_epoll (w_k reuse_world) = [5]) as E' by (vm_compute; reflexivity).
  unfold pull_wf. rewrite E. cbn. split; [split|split; [done|]].
  - apply NoDup_singleton.
  - intros f e. cbn. case_decide; [intros; simplify_eq|done]. split_and!; cbn; [done|by intros []..|done].
  - intros f. by rewrite E', elem_of_list_to_set.
Qed.

Lemma decref_closes_again_witness :
  fd <$> obj_get 2 reuse_world = Some 5 /\ stat <$> obj_get 2 reuse_world = Some CONN_FREE /\
    5 ∈ interest reuse_world /\
  exists w', mem_decref 1 conn_done reuse_world = Ok 0 w' /\ refs 1 w' = None /\
    (5 ∉ interest w') /\ tbl_find 5 (p_handlers (pl_get w')) = None /\
    (exists w1, w_k w' = k_close 5 (w_k w1)) /\
    forall j, j <> 1%positive -> obj_get j w' = obj_get j reuse_world.
Proof.
  split; [vm_compute; reflexivity|]. split; [vm_compute; reflexivity|].
  split; [apply elem_of_list_to_set; by left|].
  apply (decref_closes_again 1 (with_stat (pool_conn 5) CONN_CLOSED) reuse_world).
  - exact reuse_wf.
  - vm_compute. reflexivity.
  - reflexivity.
Defined.
