(* ===== verification/Server.v ===== *)
(** The listening sockets of src/core/conn.c: [conn_module_init] and
    [conn_module_done], which also empties the pool of idle connections. *)

From S2P Require Import Prelude CLib Outcome ConnIf ConnIO Table Event NetPull World Conn.

#[local] Open Scope Z_scope.

Definition SERVER_MAX_FD : nat := 32.

Section server.
Context {K : Type} `{!Kernel K}.
Implicit Types (w : world K).

Definition sv_update (f : serve_state -> serve_state) : M (world K) () :=
  modify (fun w => put_serve (f (w_serve w)) w).
Definition with_sfds (s : serve_state) l n := ServeState l n (conn_req s) (conn_rsp s) (signal_fd s) (data_p s).
Definition with_signal_fd (s : serve_state) fd := ServeState (sfds s) (sfd_cnt s) (conn_req s) (conn_rsp s) fd (data_p s).
Definition with_data_p (s : serve_state) p :=
  ServeState (sfds s) (sfd_cnt s) (conn_req s) (conn_rsp s) (signal_fd s) p.

Definition conn_set_req_handler (h : conn_req_handler) : M (world K) () :=
  sv_update (fun s => ServeState (sfds s) (sfd_cnt s) (Some h) (conn_rsp s) (signal_fd s) (data_p s)).
Definition conn_set_rsp_handler (h : conn_rsp_handler) : M (world K) () :=
  sv_update (fun s => ServeState (sfds s) (sfd_cnt s) (conn_req s) (Some h) (signal_fd s) (data_p s)).

(** [sfds\[sfd_cnt++\] = fd]; behind the array is undefined. *)
Definition store_sfd (fd : Z) : M (world K) () :=
  s ← get w_serve;
  _ ← demand (sfds s !! Z.to_nat (sfd_cnt s));
  sv_update (fun s => with_sfds s (<[Z.to_nat (sfd_cnt s) := fd]> (sfds s)) (sfd_cnt s + 1)).

(** The calls on a new socket up to [listen]; [false] is [goto bind_failed]. *)
Definition listen_on (fd port : Z) (rp : addrinfo) : M (world K) bool :=
  r ← sys (lift (k_setsockopt fd));
  if r <? 0 then mret false
  else if negb (known_family (ai_family rp)) then mret false else
  r ← sys (lift (k_bind fd (Endpoint (ai_family rp) (htons port) (ai_addr rp))));
  if r <? 0 then mret false else
  nb ← net_setnonblocking fd;
  if negb (nb =? 0) then mret false else
  r ← sys (lift (k_listen fd));
  mret (negb (r <? 0)).

(** The body of the [for] in [conn_module_init].  The datum of the handler is
    the address of an element of [sfds], as its index. *)
Definition open_server (port : Z) (rp : addrinfo) : M (world K) () :=
  fd ← sys (lift (k_socket (ai_family rp)));
  if fd <? 0 then mret () else
  ok ← listen_on fd port rp;
  if negb ok then modify (sys_close fd) else
  _ ← net_pull_add fd None 0;
  s ← get w_serve;
  _ ← net_pull_set_handler fd EPOLLIN (Some conn_accept_handler_fn) (sfd_cnt s);
  store_sfd fd.

Fixpoint open_servers (port : Z) (res : list addrinfo) : M (world K) () :=
  match res with
  | [] => mret ()
  | rp :: res => _ ← open_server port rp; open_servers port res
  end.

(** [net_dns_lookup] of src/core/net_utils.c: any family, stream sockets. *)
Definition net_dns_lookup (host : list ascii) : M (world K) (Z * list addrinfo) := sys (lift (k_getaddrinfo host)).

Definition conn_module_init (host : list ascii) (port : Z) : M (world K) Z :=
  _ ← sv_update (fun s => with_sfds s (replicate SERVER_MAX_FD (-1)) 0);
  '(ret, res) ← net_dns_lookup host;
  _ ← open_servers port (if ret =? 0 then res else []);
  s ← get w_serve;
  mret (if sfd_cnt s =? 0 then -1 else 0).

(** [for (int i = 0; sfds\[i\] >= 0; ++i) close(sfds\[i\])] from an element on. *)
Fixpoint close_servers (l : list Z) : M (world K) () :=
  match l with
  | [] => undef
  | fd :: l => if fd <? 0 then mret () else _ ← modify (sys_close fd); close_servers l
  end.

(** The [while (p)] over the elements of one endpoint. *)
Fixpoint release_list (fuel : nat) (p : option positive) : M (world K) () :=
  match p with
  | None => mret ()
  | Some a =>
      match fuel with
      | O => no_fuel
      | S fuel =>
          '(_, e) ← load_ent (Some a);
          i ← demand (e_conn e);
          _ ← mem_decref i conn_done;
          _ ← free_ent (Some a);
          release_list fuel (e_next e)
      end
  end.

(** The [HASH_ITER] over [free_pool]. *)
Fixpoint release_pool (fuel : nat) (t : list (conn_endpoint * positive)) : M (world K) () :=
  match t with
  | [] => mret ()
  | (ep, h) :: t =>
      '(_, e) ← load_ent (Some h);
      _ ← release_list fuel (e_next e);
      _ ← cn_update (fun s => ConnState (objs s) (tbl_del ep (free_pool s)) (ents s));
      _ ← free_ent (Some h);
      release_pool fuel t
  end.

Definition conn_module_done (fuel : nat) : M (world K) () :=
  l ← get (fun w => sfds (w_serve w));
  _ ← close_servers l;
  t ← get (fun w => free_pool (w_conn w));
  _ ← release_pool fuel t;
  cn_update (fun s => ConnState (objs s) [] (ents s)).
End server.
