(* ===== verification/NetUtils.v ===== *)
(** src/core/net_utils.c: the descriptor that reports finished lookups, and
    [net_dns_lookup_a], resolving host names behind a cache.  The cache is a real bucket table (Uthash.v): between the lookup and
    the insertion the coroutine is suspended, so another one may have inserted
    the same name, and keys need not be distinct. *)

From S2P Require Import Prelude CLib Outcome ConnIf ConnIO Table Event NetPull Uthash NetData World.
From S2P Require Import Conn ConnLink Server.

#[local] Open Scope Z_scope.

Definition DOMAIN_MAXLEN : nat := 256.

Section net_utils.
Context {K : Type} `{!Kernel K, !Suspend K}.

Definition h_update (f : handle_state -> handle_state) : M (world K) () :=
  modify (fun w => put_handle (f (w_handle w)) w).

Definition net_utils_init : M (world K) () :=
  fd ← sys (lift k_signalfd);
  _ ← sv_update (fun s => with_signal_fd s fd);
  _ ← net_pull_add fd None 0;
  _ ← net_pull_set_handler fd EPOLLIN (Some dns_notify_handler_fn) 0;
  mret ().

(** The loop of [dns_notify_handler]: every structure read posts the event of
    its lookup. *)
Fixpoint dns_notify_loop (fuel : nat) (fd : Z) : M (world K) () :=
  match fuel with
  | O => no_fuel
  | S fuel =>
      r ← sys (lift (k_read_siginfo fd));
      match r with
      | None => mret ()
      | Some eid => _ ← event_post eid 0; dns_notify_loop fuel fd
      end
  end.

Definition dns_notify_handler (fuel : nat) : M (world K) Z :=
  fd ← get (fun w => signal_fd (w_serve w));
  _ ← net_pull_set_handler fd EPOLLIN (Some dns_notify_handler_fn) 0;
  _ ← dns_notify_loop fuel fd;
  mret 0.

(** The entry made for a resolved name: [strncpy] into the 256-byte key array,
    and [HASH_ADD_STR], which takes [strlen] of that array. *)
Definition dns_cache_add (host : list ascii) (res : list addrinfo) : M (world K) () :=
  let k := strncpy host DOMAIN_MAXLEN in
  key ← demand (cstr k);
  h_update (fun s =>
    let id := fresh (dom (dns_ents s)) in
    HandleState (methods s) (hcxts s) (reqs s) (HASH_ADD HASH_JEN (dns_cache s) id key)
      (<[id := (k, res)]> (dns_ents s))).

(** The result code and [*result]; a null result is the empty list. *)
Definition net_dns_lookup_a (host : list ascii) : M (world K) (Z * list addrinfo) :=
  s ← get w_handle;
  match HASH_FIND HASH_JEN (dns_cache s) host with
  | Some h => e ← demand (dns_ents s !! hh_id h); mret (0, e.2)
  | None =>
      eid ← event_get_id;
      ret ← sys (lift (k_getaddrinfo_a host eid));
      _ ← (if negb (ret =? 0) then mret () else
           _ ← async_yield (CONN_WAIT_FOR_EVENT eid); mret ());
      _ ← event_free_id eid;
      res ← get (fun w => if negb (ret =? 0) then None else k_ar_result eid (w_k w));
      match res with
      | Some res => _ ← dns_cache_add host res; mret (ret, res)
      | None => mret (ret, [])
      end
  end.
End net_utils.
