(* ===== verification/NetHandle.v ===== *)
(** src/core/net_handle.c: the table of methods, connecting to servers, and the
    two coroutines of a client connection; and the handlers of
    src/core/net_http.c they call.

    The coroutines share a [net_handle_cxt]; [suspend] (in [async_yield]) is
    what the rest of the program does while one of them is suspended.  Loops
    take [fuel]. *)

From S2P Require Import Prelude CLib Outcome Strbuf ConnIf ConnIO Table Event NetPull Uthash NetData.
From S2P Require Import Fetch NetHttp Relay World Conn ConnLink Server NetUtils.

#[local] Open Scope Z_scope.

Definition CONN_MAX_HANDLER_NUM : nat := 32.

(** ** Methods *)

(** The loop compares up to the end of [m0] or to the end or the first space of
    [m1]; then both must have ended.  Strings are given up to their [NUL]. *)
Fixpoint method_strcmp (m0 m1 : list ascii) : Z :=
  match m0, m1 with
  | c0 :: m0', c1 :: m1' =>
      if decide (c1 = SP) then -1
      else if decide (c0 <> c1) then -1 else method_strcmp m0' m1'
  | _, _ =>
      if xorb (bool_decide (m0 = []))
           (match m1 with [] => true | c1 :: _ => bool_decide (c1 = SP) end)
      then -1 else 0
  end.

Section net_handle.
Context {K : Type} `{!Kernel K, !Suspend K}.
Implicit Types (w : world K) (x i r : positive).

Definition with_methods (s : handle_state) m := HandleState m (hcxts s) (reqs s) (dns_cache s) (dns_ents s).
Definition with_hcxts (s : handle_state) h := HandleState (methods s) h (reqs s) (dns_cache s) (dns_ents s).
Definition with_reqs (s : handle_state) rs := HandleState (methods s) (hcxts s) rs (dns_cache s) (dns_ents s).

Definition net_handle_register (m : list ascii) rq rs : M (world K) () :=
  t ← get (fun w => methods (w_handle w));
  match list_find (fun h => h = None) t with
  | Some (i, _) => h_update (fun s => with_methods s (<[i := Some (NetHandlers m rq rs)]> t))
  | None => mret ()
  end.

(** The search stops at the first entry that is not set. *)
Fixpoint find_handler (t : list (option net_handlers)) (m : list ascii) : option net_handlers :=
  match t with
  | Some h :: t => if method_strcmp (method h) m =? 0 then Some h else find_handler t m
  | _ => None
  end.

(** [net_get_handler(data->buf.p)]. *)
Definition net_get_handler (d : net_data) : M (world K) (option net_handlers) :=
  m ← demand (cstr_at (p (buf d)) 0);
  t ← get (fun w => methods (w_handle w));
  mret (find_handler t m).

Definition net_handle_module_init : M (world K) () :=
  _ ← h_update (fun s => with_methods s (replicate CONN_MAX_HANDLER_NUM None));
  _ ← conn_set_req_handler net_req_handler_fn;
  conn_set_rsp_handler net_rsp_handler_fn.

Definition net_http_module_init : M (world K) () :=
  _ ← net_handle_register (lit "GET") net_http_req_handler_fn net_http_rsp_handler_fn;
  _ ← net_handle_register (lit "POST") net_http_req_handler_fn net_http_rsp_handler_fn;
  _ ← net_handle_register (lit "HEAD") net_http_req_handler_fn net_http_rsp_handler_fn;
  _ ← net_handle_register (lit "PUT") net_http_req_handler_fn net_http_rsp_handler_fn;
  _ ← net_handle_register (lit "DELETE") net_http_req_handler_fn net_http_rsp_handler_fn;
  net_handle_register (lit "CONNECT") net_connect_req_handler_fn net_connect_rsp_handler_fn.

(** ** Contexts and requests *)

Definition load_h x : M (world K) net_handle_cxt := s ← get w_handle; demand (hcxts s !! x).
Definition save_h x (c : net_handle_cxt) : M (world K) () :=
  h_update (fun s => with_hcxts s (<[x := c]> (hcxts s))).
Definition set_h x (f : net_handle_cxt -> net_handle_cxt) : M (world K) () :=
  c ← load_h x; save_h x (f c).

Definition with_pool (c : net_handle_cxt) pl := HandleCxt (client c) pl (hc_list c) (ev_notice_req c)
  (ev_notice_rsp c) (req_blocked c) (rsp_blocked c) (req_will_exit c) (rsp_will_exited c).
Definition with_list (c : net_handle_cxt) l := HandleCxt (client c) (hc_pool c) l (ev_notice_req c)
  (ev_notice_rsp c) (req_blocked c) (rsp_blocked c) (req_will_exit c) (rsp_will_exited c).
Definition with_req_blocked (c : net_handle_cxt) b := HandleCxt (client c) (hc_pool c) (hc_list c) (ev_notice_req c)
  (ev_notice_rsp c) b (rsp_blocked c) (req_will_exit c) (rsp_will_exited c).
Definition with_rsp_blocked (c : net_handle_cxt) b := HandleCxt (client c) (hc_pool c) (hc_list c) (ev_notice_req c)
  (ev_notice_rsp c) (req_blocked c) b (req_will_exit c) (rsp_will_exited c).
Definition with_req_will_exit (c : net_handle_cxt) b := HandleCxt (client c) (hc_pool c) (hc_list c) (ev_notice_req c)
  (ev_notice_rsp c) (req_blocked c) (rsp_blocked c) b (rsp_will_exited c).

Definition load_r r : M (world K) (Z * net_req) := s ← get w_handle; demand (reqs s !! r).
Definition save_r r o : M (world K) () := h_update (fun s => with_reqs s (<[r := o]> (reqs s))).
Definition req_alloc (q : net_req) : M (world K) positive :=
  s ← get w_handle;
  let r := fresh (dom (reqs s)) in _ ← save_r r (1, q); mret r.
Definition req_incref r : M (world K) () := o ← load_r r; save_r r (o.1 + 1, o.2).
(** [mem_decref(req, net_req_done)]; [net_req_done] only frees. *)
Definition req_decref r : M (world K) () :=
  o ← load_r r;
  if o.1 - 1 =? 0 then h_update (fun s => with_reqs s (delete r (reqs s)))
  else save_r r (o.1 - 1, o.2).
Definition set_req r (q : net_req) : M (world K) () := o ← load_r r; save_r r (o.1, q).

(** ** Connecting to a server *)

Definition server_closed i : M (world K) bool := c ← load_c i; mret (bool_decide (stat c = CONN_CLOSED)).

(** The body of the loop over the results from "Try to get from global pool"
    on; [None] is [continue]. *)
Definition connect_new x (ep : conn_endpoint) : M (world K) (option positive) :=
  server ← conn_get_by_endpoint async_yield ep;
  match server with
  | None => mret None
  | Some server =>
      closed ← server_closed server;
      _ ← (if closed : bool then _ ← mem_decref server conn_done; mret () else mret ());
      _ ← set_h x (fun c => with_pool c (tbl_add ep server (hc_pool c)));
      _ ← mem_incref server;
      mret (Some server)
  end.

Fixpoint connect_loop x (port : Z) (res : list addrinfo) (server : option positive)
    : M (world K) (option positive) :=
  match res with
  | [] => mret server
  | rp :: res =>
      m ← get w_main;
      if (match m with EXITING => true | RUNING => false end) then mret server
      else if negb (known_family (ai_family rp)) then connect_loop x port res server
      else
        let ep := Endpoint (ai_family rp) port (ai_addr rp) in
        c ← load_h x;
        match tbl_find ep (hc_pool c) with
        | Some s =>
            closed ← server_closed s;
            if negb closed then _ ← mem_incref s; mret (Some s)
            else
              _ ← set_h x (fun c => with_pool c (tbl_del ep (hc_pool c)));
              _ ← mem_decref s conn_done;
              new ← connect_new x ep;
              match new with Some s => mret (Some s) | None => connect_loop x port res None end
        | None =>
            new ← connect_new x ep;
            match new with Some s => mret (Some s) | None => connect_loop x port res None end
        end
  end.

Definition net_connect_to_server x (host : list ascii) (port : Z) : M (world K) (option positive) :=
  '(ret, res) ← net_dns_lookup_a host;
  if negb (ret =? 0) then mret None else connect_loop x port res None.

(** ** The handlers of net_http.c *)

(** Appending to the list of the context; the posts that wake the other side. *)
Definition list_append x server r : M (world K) () :=
  _ ← mem_incref server;
  _ ← req_incref r;
  set_h x (fun c => with_list c (hc_list c ++ [(server, r)])).

(** The first loop of [net_http_req_handler]: the server the header was sent
    to, or [None] after the bad gateway reply. *)
Definition forward_to_server (fuel : nat) x r : M (world K) (option positive) :=
  c ← load_h x;
  forever fuel (
    q ← load_r r;
    host ← demand (cstr_at (p (buf (data q.2))) (host q.2));
    server ← net_connect_to_server x host (htons (port q.2));
    match server with
    | None => _ ← net_bad_gateway fuel (client c); mret (Some None)
    | Some server =>
        q ← load_r r;
        h ← demand (net_data_get_ent (data q.2) (lit "Host"));
        _ ← (match h with
             | None => d ← demand (net_data_set_ent_offset (data q.2) (lit "Host") (NetData.host q.2));
                       set_req r (set_data q.2 d)
             | Some _ => mret ()
             end);
        q ← load_r r;
        ret ← net_forward_req_header fuel q.2 server;
        if ret =? 0 then mret (Some (Some server))
        else _ ← mem_decref server conn_done; mret None
    end).

Definition net_http_req_handler (fuel : nat) x r : M (world K) Z :=
  c ← load_h x;
  server ← forward_to_server fuel x r;
  match server with
  | None => mret (-1)
  | Some server =>
      _ ← list_append x server r;
      c ← load_h x;
      _ ← (if rsp_blocked c then _ ← event_post (ev_notice_rsp c) 1; mret () else mret ());
      q ← load_r r;
      ret ← net_transfer_body_HTTP_1_1 fuel server (client c) (data q.2);
      _ ← (if negb (ret =? 0) then net_bad_gateway fuel (client c) else mret ());
      _ ← mem_decref server conn_done;
      mret ret
  end.

Definition net_http_rsp_handler (fuel : nat) x server : M (world K) Z :=
  c ← load_h x;
  let client := client c in
  _ ← set_c client (fun c => with_tx c 0);
  r ← http_relay_rsp fuel client server;
  match r with
  | inl ret => mret ret
  | inr (ret, code) =>
      c ← load_h x;
      '(_, r) ← demand (head (hc_list c));
      q ← load_r r;
      _ ← demand (cstr_at (p (buf (data q.2))) (host q.2));
      _ ← demand (cstr_at (p (buf (data q.2))) (path q.2));
      mret (if ret =? 0 then code else ret)
  end.

Definition connect_ok_msg : list ascii := lit "HTTP/1.1 200 OK" ++ CRLF ++ CRLF.

Definition net_connect_req_handler (fuel : nat) x r : M (world K) Z :=
  q ← load_r r;
  _ ← set_req r (set_host q.2 (path q.2));
  q ← load_r r;
  c ← load_h x;
  host ← demand (cstr_at (p (buf (data q.2))) (host q.2));
  server ← net_connect_to_server x host (htons (port q.2));
  match server with
  | None => _ ← net_bad_gateway fuel (client c); mret (-1)
  | Some server =>
      _ ← list_append x server r;
      _ ← event_post (ev_notice_rsp c) 1;
      ret ← conn_write fuel (client c) connect_ok_msg (Z.of_nat (length connect_ok_msg));
      if negb (ret =? 0) then
        _ ← net_bad_gateway fuel (client c);
        _ ← mem_decref server conn_done;
        mret (-1)
      else
        ret ← tunnel fuel server (client c);
        _ ← mem_decref server conn_done;
        mret ret
  end.

Definition net_connect_rsp_handler (fuel : nat) x server : M (world K) Z :=
  c ← load_h x; tunnel fuel (client c) server.

(** A call through the function pointers of an entry of the method table. *)
Definition call_req_handler (h : net_handlers) (fuel : nat) x r : M (world K) Z :=
  match req_handler h with
  | net_http_req_handler_fn => net_http_req_handler fuel x r
  | net_connect_req_handler_fn => net_connect_req_handler fuel x r
  end.
Definition call_rsp_handler (h : net_handlers) (fuel : nat) x server : M (world K) Z :=
  match rsp_handler h with
  | net_http_rsp_handler_fn => net_http_rsp_handler fuel x server
  | net_connect_rsp_handler_fn => net_connect_rsp_handler fuel x server
  end.

(** ** The coroutines of a client connection *)

(** [client->stat == CONN_CLOSED || main_stat == EXITING]. *)
Definition client_gone i : M (world K) bool :=
  c ← load_c i;
  m ← get w_main;
  mret (bool_decide (stat c = CONN_CLOSED) || (match m with EXITING => true | RUNING => false end)).

(** [cxt->..._blocked = 1; async_yield(...); cxt->..._blocked = 0]. *)
Definition wait_req x : M (world K) Z :=
  c ← load_h x;
  _ ← set_h x (fun c => with_req_blocked c true);
  ret ← async_yield (CONN_WAIT_FOR_EVENT (ev_notice_req c));
  _ ← set_h x (fun c => with_req_blocked c false);
  mret ret.
Definition wait_rsp x : M (world K) Z :=
  c ← load_h x;
  _ ← set_h x (fun c => with_rsp_blocked c true);
  ret ← async_yield (CONN_WAIT_FOR_EVENT (ev_notice_rsp c));
  _ ← set_h x (fun c => with_rsp_blocked c false);
  mret ret.

(** The context on the stack of the request coroutine. *)
Definition handle_cxt_init (client : positive) : M (world K) positive :=
  rq ← event_get_id;
  rs ← event_get_id;
  s ← get w_handle;
  let x := fresh (dom (hcxts s)) in
  _ ← save_h x (HandleCxt client [] [] rq rs false false false false);
  mret x.

(** One round of the loop of [net_req_handler]; a number ends it. *)
Definition req_round (fuel : nat) x (client : positive) : M (world K) (option Z) :=
  gone ← client_gone client;
  if gone : bool then mret (Some 0) else
  d ← demand net_data_init;
  '(ret, d) ← net_fetch_http fuel client d;
  if negb (ret =? 0) then _ ← net_bad_request fuel client; mret (Some ret) else
  h ← net_get_handler d;
  match h with
  | None => _ ← net_bad_request fuel client; mret (Some (-1))
  | Some h =>
      r ← req_alloc (Req d 0 0 0 0 0 0);
      q ← load_r r;
      '(ret, q) ← demand (net_parse_req q.2);
      _ ← set_req r q;
      if negb (ret =? 0) then
        _ ← net_bad_request fuel client; _ ← req_decref r; mret (Some ret)
      else
        ret ← call_req_handler h fuel x r;
        _ ← req_decref r;
        mret (if negb (ret =? 0) then Some ret else None)
  end.

Fixpoint close_pool x (l : list (conn_endpoint * positive)) : M (world K) () :=
  match l with
  | [] => mret ()
  | (ep, s) :: l =>
      _ ← ConnIf.conn_close s;
      _ ← mem_decref s conn_done;
      _ ← set_h x (fun c => with_pool c (tbl_del ep (hc_pool c)));
      close_pool x l
  end.

Fixpoint drop_list (l : list (positive * positive)) : M (world K) () :=
  match l with
  | [] => mret ()
  | (s, r) :: l => _ ← mem_decref s conn_done; _ ← req_decref r; drop_list l
  end.

(** From the label [req_done] on; the context goes with the stack. *)
Definition req_done x (client : positive) (ret : Z) : M (world K) Z :=
  _ ← set_h x (fun c => with_req_will_exit c true);
  c ← load_h x;
  _ ← (if rsp_will_exited c then mret () else
       _ ← event_post (ev_notice_rsp c) 0; _ ← wait_req x; mret ());
  c ← load_h x;
  _ ← close_pool x (hc_pool c);
  c ← load_h x;
  _ ← drop_list (hc_list c);
  _ ← event_free_id (ev_notice_req c);
  _ ← mem_decref client conn_done;
  _ ← h_update (fun s => with_hcxts s (delete x (hcxts s)));
  mret ret.

Definition net_req_handler (fuel : nat) (client : positive) : M (world K) Z :=
  _ ← mem_incref client;
  x ← handle_cxt_init client;
  _ ← sv_update (fun s => with_data_p s (Some x));
  c ← load_h x;
  _ ← event_post (ev_notice_req c) 1;
  _ ← wait_req x;
  ret ← forever fuel (req_round fuel x client);
  req_done x client ret.

(** What [net_rsp_handler] does behind a call of the response handler. *)
Definition rsp_finish x (server r : positive) (ret : Z) : M (world K) () :=
  c ← load_c server;
  if bool_decide (stat c = CONN_CLOSED) then
    h ← load_h x;
    _ ← demand (tbl_find (c_ep c) (hc_pool h));
    _ ← set_h x (fun h => with_pool h (tbl_del (c_ep c) (hc_pool h)));
    _ ← mem_decref server conn_done;
    _ ← mem_decref server conn_done;
    _ ← req_decref r;
    set_h x (fun h => with_list h (tail (hc_list h)))
  else if ret =? 100 then mret ()
  else
    _ ← mem_decref server conn_done;
    _ ← req_decref r;
    set_h x (fun h => with_list h (tail (hc_list h))).

(** The response to the first pending request: the handler of its method is
    called with the server it was sent to. *)
Definition rsp_serve (fuel : nat) x (server r : positive) : M (world K) Z :=
  q ← load_r r;
  h0 ← net_get_handler (data q.2);
  h0 ← demand h0;
  ret ← call_rsp_handler h0 fuel x server;
  _ ← rsp_finish x server r ret;
  mret ret.

Fixpoint rsp_loop (fuel : nat) x (client : positive) (ret : Z) : M (world K) Z :=
  match fuel with
  | O => no_fuel
  | S fuel' =>
      gone ← client_gone client;
      if gone : bool then mret ret else
      c ← load_h x;
      match hc_list c with
      | [] =>
          ret ← wait_rsp x;
          if negb (ret =? 0) then mret ret else rsp_loop fuel' x client ret
      | (server, r) :: _ =>
          ret ← rsp_serve fuel x server r;
          rsp_loop fuel' x client ret
      end
  end.

Definition net_rsp_handler (fuel : nat) x : M (world K) Z :=
  c ← load_h x;
  let client := client c in
  _ ← mem_incref client;
  _ ← event_post (ev_notice_rsp c) 1;
  _ ← wait_rsp x;
  ret ← rsp_loop fuel x client 0;
  _ ← set_h x (fun c => with_req_will_exit c true);
  c ← load_h x;
  _ ← (if req_blocked c then _ ← event_post (ev_notice_req c) 0; mret () else mret ());
  _ ← event_free_id (ev_notice_rsp c);
  _ ← mem_decref client conn_done;
  mret ret.
End net_handle.
