(* ===== verification/AlwaysWorld.v ===== *)
(** Invariants of the assembled program: what the system calls, the registry and
    the other coroutines keep, every function of conn.c, net_utils.c,
    net_handle.c and net_http.c keeps, if it does not depend on the variables
    these change. *)

From S2P Require Import Prelude CLib Outcome Strbuf ConnIf ConnIO Table Event NetPull Uthash NetData.
From S2P Require Import Fetch NetHttp Relay AlwaysIO World Conn ConnLink Server NetUtils NetHandle.

#[local] Open Scope Z_scope.
#[local] Set Default Proof Using "All".

(** The contexts of [s'] that are not those of [s] have the same flag
    [rsp_will_exited] or a cleared one. *)
Definition flags_kept (s s' : handle_state) : Prop := forall x c', hcxts s' !! x = Some c' ->
  rsp_will_exited c' = false \/ exists c, hcxts s !! x = Some c /\ rsp_will_exited c' = rsp_will_exited c.

Lemma flags_kept_same s s' : hcxts s' = hcxts s -> flags_kept s s'.
Proof. intros E x c' Hc. rewrite E in Hc. eauto. Qed.

(** An invariant that depends on the registry, the kernel's epoll set and the
    flags of the contexts at most. *)
Class KeepsWorld {K} `{!Kernel K, !Suspend K} (P : world K -> Prop) := {
  kw_event s w : P w -> P (put_event s w);
  kw_conns s w : P w -> P (put_conns s w);
  kw_serve s w : P w -> P (put_serve s w);
  kw_main s w : P w -> P (put_main s w);
  kw_handle s w : flags_kept (w_handle w) s -> P w -> P (put_handle s w);
  kw_io k w : io_step (w_k w) k -> P w -> P (put_k k w);
  kw_close fd w : P w -> P (put_k (k_close fd (w_k w)) w);
  kw_add fd err derr : always P (net_pull_add fd err derr);
  kw_set fd flag h d : always P (net_pull_set_handler fd flag h d);
  kw_del fd : always P (net_pull_del fd);
  kw_suspend n : always P (suspend n)
}.

(** ** Invariants of the contexts and requests alone *)

Section handle_only.
Context {K : Type} `{!Kernel K} (P : world K -> Prop) (HP : forall w w', w_handle w' = w_handle w -> P w -> P w').

Lemma handle_modify f : (forall w, w_handle (f w) = w_handle w) -> always P (modify f).
Proof. intros Hf. apply always_modify. intros w. by apply HP. Qed.
Lemma handle_sys {A} (f : K -> A * K) : always P (sys (lift f)).
Proof. intros w. unfold sys, lift. destruct (f (w_k w)). by apply HP. Qed.
#[local] Hint Resolve handle_sys : always.
#[local] Hint Extern 1 (always _ (pl_update _)) => apply handle_modify : always.
#[local] Hint Extern 1 (always _ (modify _)) => apply handle_modify : always.
#[local] Hint Extern 1 (always _ (cn_update _)) => apply handle_modify : always.

Lemma handle_add fd err derr : always P (net_pull_add fd err derr).
Proof. unfold net_pull_add. always_tac. apply handle_sys. Qed.
Lemma handle_set fd flag h d : always P (net_pull_set_handler fd flag h d).
Proof. unfold net_pull_set_handler. always_tac. Qed.
Lemma handle_del fd : always P (net_pull_del fd).
Proof. unfold net_pull_del. always_tac. apply handle_sys. Qed.
#[local] Hint Resolve handle_add handle_set handle_del : always.

Lemma handle_close i : always P (Conn.conn_close i).
Proof. unfold Conn.conn_close, set_c, load_c, save_obj, load_obj. always_tac. Qed.
Lemma handle_decref i : always P (mem_decref i conn_done).
Proof. unfold mem_decref, conn_done, load_c, save_obj, load_obj. always_tac. apply handle_close. Qed.

Context `{!Suspend K} (Hs : forall n, always P (suspend n)).

Lemma handle_keeps_world :
  (forall s w, flags_kept (w_handle w) s -> P w -> P (put_handle s w)) -> KeepsWorld P.
Proof.
  intros Hflags. split; auto with always; intros *; try by apply HP. by intros _; apply HP.
Qed.

Lemma handle_keeps_env : KeepsEnv (world K) P.
Proof.
  split.
  - intros f n w Hw. cbn. unfold lift. destruct (k_recv f n (w_k w)). cbn. by eapply HP; [|exact Hw].
  - intros f s w Hw. cbn. unfold lift. destruct (k_send f s (w_k w)). cbn. by eapply HP; [|exact Hw].
  - intros i c w. by apply HP.
  - exact Hs.
  - exact handle_close.
Qed.
End handle_only.

Section always_world.
Context {K : Type} `{!Kernel K, !Suspend K} (P : world K -> Prop) `{!KeepsWorld P}.

#[local] Hint Resolve kw_add kw_set kw_del kw_suspend : always.

Lemma always_sys {A} (f : K -> A * K) : (forall k, io_step k (f k).2) -> always P (sys (lift f)).
Proof.
  intros Hf w Hw. unfold sys, lift. specialize (Hf (w_k w)). destruct (f (w_k w)) as [a k] eqn:E.
  by apply kw_io.
Qed.
#[local] Hint Extern 2 (always _ (sys (lift _))) => apply always_sys; intros; constructor : always.

Lemma always_close fd : always P (modify (sys_close fd)).
Proof. apply always_modify. intros w. apply kw_close. Qed.
Lemma always_cn_update f : always P (cn_update f).
Proof. apply always_modify. intros w. apply kw_conns. Qed.
Lemma always_sv_update f : always P (sv_update f).
Proof. apply always_modify. intros w. apply kw_serve. Qed.
Lemma always_ev_update f : always P (update f).
Proof. apply always_modify. intros w. apply kw_event. Qed.
Lemma always_h_update f : (forall s, flags_kept s (f s)) -> always P (h_update f).
Proof. intros Hf. apply always_modify. intros w. by apply kw_handle. Qed.
#[local] Hint Resolve always_close always_cn_update always_sv_update always_ev_update : always.

(** ** conn.c and mem.c *)

Lemma always_load_obj i : always P (load_obj i).
Proof. unfold load_obj. always_tac. Qed.
#[local] Hint Resolve always_load_obj : always.
Lemma always_load_c i : always P (load_c i).
Proof. unfold load_c. always_tac. Qed.
Lemma always_set_c i f : always P (set_c i f).
Proof. unfold set_c, save_obj. always_tac. Qed.
Lemma always_alloc c : always P (mem_alloc_auto c).
Proof. unfold mem_alloc_auto, save_obj. always_tac. Qed.
Lemma always_incref i : always P (mem_incref i).
Proof. unfold mem_incref, save_obj. always_tac. Qed.
Lemma always_decref i done : (forall i, always P (done i)) -> always P (mem_decref i done).
Proof. intros Hd. unfold mem_decref, save_obj. always_tac. Qed.
#[local] Hint Resolve always_load_c always_set_c always_alloc always_incref : always.
Lemma always_conn_close i : always P (Conn.conn_close i).
Proof. unfold Conn.conn_close. always_tac. Qed.
#[local] Hint Resolve always_conn_close : always.
Lemma always_conn_done i : always P (conn_done i).
Proof. unfold conn_done. always_tac. Qed.
#[local] Hint Resolve always_decref always_conn_done : always.

Lemma always_load_ent p : always P (load_ent p).
Proof. unfold load_ent. always_tac. Qed.
Lemma always_save_ent p e : always P (save_ent p e).
Proof. unfold save_ent. always_tac. Qed.
#[local] Hint Resolve always_load_ent always_save_ent : always.
Lemma always_set_prev p x : always P (set_prev p x).
Proof. unfold set_prev. always_tac. Qed.
Lemma always_set_next p x : always P (set_next p x).
Proof. unfold set_next. always_tac. Qed.
Lemma always_alloc_ent e : always P (alloc_ent e).
Proof. unfold alloc_ent. always_tac. Qed.
Lemma always_free_ent p : always P (free_ent p).
Proof. unfold free_ent. always_tac. Qed.
#[local] Hint Resolve always_set_prev always_set_next always_alloc_ent always_free_ent : always.

Lemma always_pool_get ep : always P (conn_addrpool_try_get_and_del ep).
Proof. unfold conn_addrpool_try_get_and_del. always_tac. Qed.
Lemma always_pool_del i : always P (conn_addrpool_del i).
Proof. unfold conn_addrpool_del. always_tac. Qed.
Lemma always_setnonblocking fd : always P (net_setnonblocking fd).
Proof. unfold net_setnonblocking. always_tac. Qed.
#[local] Hint Resolve always_pool_get always_pool_del always_setnonblocking : always.

Lemma always_err_handler ev i : always P (conn_err_handler ev i).
Proof. unfold conn_err_handler. always_tac. Qed.
Lemma always_notice_free ev i : always P (conn_notice_free_connection_closed ev i).
Proof. unfold conn_notice_free_connection_closed. always_tac. Qed.
Lemma always_get_by_endpoint yield ep :
  (forall n, always P (yield n)) -> always P (conn_get_by_endpoint yield ep).
Proof. intros Hy. unfold conn_get_by_endpoint. always_tac. Qed.

(** ** The listening sockets *)

Lemma always_listen_on fd port rp : always P (listen_on fd port rp).
Proof. unfold listen_on. always_tac. Qed.
#[local] Hint Resolve always_listen_on : always.
Lemma always_open_server port rp : always P (open_server port rp).
Proof. unfold open_server, store_sfd. always_tac. Qed.
#[local] Hint Resolve always_open_server : always.
Lemma always_open_servers port l : always P (open_servers port l).
Proof. induction l; cbn [open_servers]; always_tac. Qed.
#[local] Hint Resolve always_open_servers : always.
Lemma always_module_init host port : always P (conn_module_init host port).
Proof. unfold conn_module_init, net_dns_lookup. always_tac. Qed.

Lemma always_close_servers l : always P (close_servers l).
Proof. induction l; cbn [close_servers]; always_tac. Qed.
Lemma always_release_list fuel : forall p, always P (release_list fuel p).
Proof. induction fuel; intros [p|]; cbn [release_list]; always_tac. Qed.
#[local] Hint Resolve always_close_servers always_release_list : always.
Lemma always_release_pool fuel l : always P (release_pool fuel l).
Proof. induction l as [|[ep h] l IH]; cbn [release_pool]; always_tac. Qed.
#[local] Hint Resolve always_release_pool : always.
Lemma always_module_done fuel : always P (conn_module_done fuel).
Proof. unfold conn_module_done. always_tac. Qed.

(** ** event.c and net_utils.c *)

Lemma always_get_id : always P event_get_id.
Proof. unfold event_get_id. always_tac. Qed.
Lemma always_free_id eid : always P (event_free_id eid).
Proof. unfold event_free_id. always_tac. Qed.
Lemma always_load_event p : always P (load_event p).
Proof. unfold load_event. always_tac. Qed.
#[local] Hint Resolve always_load_event : always.
Lemma always_post eid d : always P (event_post eid d).
Proof. unfold event_post. always_tac. Qed.
#[local] Hint Resolve always_get_id always_free_id always_post : always.

Lemma always_utils_init : always P net_utils_init.
Proof. unfold net_utils_init. always_tac. Qed.
Lemma always_notify_loop fuel fd : always P (dns_notify_loop fuel fd).
Proof. induction fuel; cbn [dns_notify_loop]; always_tac. Qed.
#[local] Hint Resolve always_notify_loop : always.
Lemma always_notify fuel : always P (dns_notify_handler fuel).
Proof. unfold dns_notify_handler. always_tac. Qed.

Lemma always_dns_cache_add h res : always P (dns_cache_add h res).
Proof. unfold dns_cache_add. always_tac. apply always_h_update. intros s. by apply flags_kept_same. Qed.
#[local] Hint Resolve always_dns_cache_add : always.

(** ** The interface of ConnIf.v *)

#[export] Instance world_keeps_env : KeepsEnv (world K) P.
Proof.
  split.
  - intros f n w Hw. cbn. unfold lift. pose proof (kw_io _ w (io_recv _ f n) Hw).
    by destruct (k_recv f n (w_k w)).
  - intros f s w Hw. cbn. unfold lift. pose proof (kw_io _ w (io_send _ f s) Hw).
    by destruct (k_send f s (w_k w)).
  - intros i c w. apply kw_conns.
  - intros n. apply kw_suspend.
  - intros i. apply always_conn_close.
Qed.

Lemma always_lookup_a host : always P (net_dns_lookup_a host).
Proof. unfold net_dns_lookup_a. always_tac. Qed.
#[local] Hint Resolve always_lookup_a always_get_by_endpoint : always.

(** ** net_handle.c and net_http.c *)

Lemma always_load_h x : always P (load_h x).
Proof. unfold load_h. always_tac. Qed.
Lemma always_load_r r : always P (load_r r).
Proof. unfold load_r. always_tac. Qed.
#[local] Hint Resolve always_load_h always_load_r : always.

(** Changing members of a context other than the flag. *)
Lemma always_set_h x f : (forall c, rsp_will_exited (f c) = rsp_will_exited c) -> always P (set_h x f).
Proof.
  intros Hf w Hw. unfold set_h, load_h, save_h, h_update, mbind, M_bind, get, demand, modify.
  destruct (hcxts (w_handle w) !! x) as [c|] eqn:E; [|done]. unfold mret, M_ret.
  apply kw_handle; [|done]. intros y c'. cbn.
  intros [[<- <-]|[_ Hy]]%lookup_insert_Some; right; [by exists c|by exists c'].
Qed.
#[local] Hint Extern 1 (always _ (set_h _ _)) => apply always_set_h; reflexivity : always.

Lemma always_save_r r o : always P (save_r r o).
Proof. apply always_h_update. intros s. by apply flags_kept_same. Qed.
#[local] Hint Resolve always_save_r : always.
Lemma always_req_alloc q : always P (req_alloc q).
Proof. unfold req_alloc. always_tac. Qed.
Lemma always_req_incref r : always P (req_incref r).
Proof. unfold req_incref. always_tac. Qed.
Lemma always_req_decref r : always P (req_decref r).
Proof. unfold req_decref. always_tac. apply always_h_update. intros s. by apply flags_kept_same. Qed.
Lemma always_set_req r q : always P (set_req r q).
Proof. unfold set_req. always_tac. Qed.
#[local] Hint Resolve always_req_alloc always_req_incref always_req_decref always_set_req : always.

Lemma always_server_closed i : always P (server_closed i).
Proof. unfold server_closed. always_tac. Qed.
#[local] Hint Resolve always_server_closed : always.
Lemma always_connect_new x ep : always P (connect_new x ep).
Proof. unfold connect_new. always_tac. Qed.
#[local] Hint Resolve always_connect_new : always.
Lemma always_connect_loop x port l : forall server, always P (connect_loop x port l server).
Proof. induction l; intros server; cbn [connect_loop]; always_tac. Qed.
#[local] Hint Resolve always_connect_loop : always.
Lemma always_connect x host port : always P (net_connect_to_server x host port).
Proof. unfold net_connect_to_server. always_tac. Qed.
#[local] Hint Resolve always_connect : always.

Lemma always_list_append x i r : always P (list_append x i r).
Proof. unfold list_append. always_tac. Qed.
#[local] Hint Resolve always_list_append : always.
Lemma always_forward_to_server fuel x r : always P (forward_to_server fuel x r).
Proof. unfold forward_to_server. apply always_bind; [auto with always|]. intros c. apply always_forever. always_tac. Qed.
#[local] Hint Resolve always_forward_to_server : always.

Lemma always_http_req fuel x r : always P (net_http_req_handler fuel x r).
Proof. unfold net_http_req_handler. always_tac. Qed.
Lemma always_http_rsp fuel x i : always P (net_http_rsp_handler fuel x i).
Proof. unfold net_http_rsp_handler. always_tac. Qed.
Lemma always_connect_req fuel x r : always P (net_connect_req_handler fuel x r).
Proof. unfold net_connect_req_handler. always_tac. Qed.
Lemma always_connect_rsp fuel x i : always P (net_connect_rsp_handler fuel x i).
Proof. unfold net_connect_rsp_handler. always_tac. Qed.
#[local] Hint Resolve always_http_req always_http_rsp always_connect_req always_connect_rsp : always.

Lemma always_call_req h fuel x r : always P (call_req_handler h fuel x r).
Proof. unfold call_req_handler. always_tac. Qed.
Lemma always_call_rsp h fuel x i : always P (call_rsp_handler h fuel x i).
Proof. unfold call_rsp_handler. always_tac. Qed.
#[local] Hint Resolve always_call_req always_call_rsp : always.

Lemma always_client_gone i : always P (client_gone i).
Proof. unfold client_gone. always_tac. Qed.
Lemma always_wait_req x : always P (wait_req x).
Proof. unfold wait_req. always_tac. Qed.
Lemma always_wait_rsp x : always P (wait_rsp x).
Proof. unfold wait_rsp. always_tac. Qed.
#[local] Hint Resolve always_client_gone always_wait_req always_wait_rsp : always.

Lemma always_cxt_init i : always P (handle_cxt_init i).
Proof.
  unfold handle_cxt_init. always_tac. apply always_h_update. intros s x c'. cbn.
  intros [[_ <-]|[_ Hx]]%lookup_insert_Some; [by left|right; by exists c'].
Qed.
Lemma always_get_handler d : always P (net_get_handler d).
Proof. unfold net_get_handler. always_tac. Qed.
#[local] Hint Resolve always_cxt_init always_get_handler : always.
Lemma always_req_round fuel x i : always P (req_round fuel x i).
Proof. unfold req_round. always_tac. Qed.
#[local] Hint Resolve always_req_round : always.
Lemma always_close_pool x l : always P (close_pool x l).
Proof. induction l as [|[ep i] l IH]; cbn [close_pool]; always_tac. Qed.
Lemma always_drop_list l : always P (drop_list l).
Proof. induction l as [|[i r] l IH]; cbn [drop_list]; always_tac. Qed.
#[local] Hint Resolve always_close_pool always_drop_list : always.
Lemma always_req_done x i ret : always P (req_done x i ret).
Proof.
  unfold req_done. always_tac. apply always_h_update. intros s y c'. cbn.
  intros [_ Hy]%lookup_delete_Some. right. by exists c'.
Qed.
#[local] Hint Resolve always_req_done : always.

(** The two coroutines. *)
Lemma always_net_req_handler fuel i : always P (net_req_handler fuel i).
Proof. unfold net_req_handler. always_tac. Qed.

Lemma always_rsp_finish x i r ret : always P (rsp_finish x i r ret).
Proof. unfold rsp_finish. always_tac. Qed.
#[local] Hint Resolve always_rsp_finish : always.
Lemma always_rsp_serve fuel x i r : always P (rsp_serve fuel x i r).
Proof. unfold rsp_serve. always_tac. Qed.
#[local] Hint Resolve always_rsp_serve : always.
Lemma always_rsp_loop fuel x i : forall ret, always P (rsp_loop fuel x i ret).
Proof. induction fuel; intros ret; cbn [rsp_loop]; always_tac. Qed.
#[local] Hint Resolve always_rsp_loop : always.
Lemma always_net_rsp_handler fuel x : always P (net_rsp_handler fuel x).
Proof. unfold net_rsp_handler. always_tac. Qed.

(** Setting the modules up. *)
Lemma always_handle_init : always P (_ ← net_handle_module_init; net_http_module_init).
Proof.
  unfold net_handle_module_init, net_http_module_init, net_handle_register, conn_set_req_handler,
    conn_set_rsp_handler.
  always_tac; apply always_h_update; intros s; by apply flags_kept_same.
Qed.
End always_world.

#[export] Hint Resolve always_sv_update always_close always_alloc always_decref always_conn_done always_err_handler always_notice_free
  always_setnonblocking always_module_init always_module_done always_utils_init always_notify
  always_handle_init kw_add kw_set kw_del : always.
#[export] Hint Extern 2 (always _ (sys (lift _))) =>
  lazymatch goal with H : KeepsWorld _ |- _ => apply (@always_sys _ _ _ _ H); intros; constructor end : always.
#[export] Hint Extern 0 (KeepsWorld _) => eassumption : always.
