(* ===== verification/NetHandleProps.v ===== *)
(** Properties of src/core/net_handle.c: dispatch on the method, and the
    release of a server connection behind a response. *)

From S2P Require Import Prelude CLib Outcome Strbuf ConnIf Sim Table Event NetPull World Conn NetData.
From S2P Require Import ConnLink ConnPool DemoKernel NetUtils NetHandle.

#[local] Open Scope Z_scope.

(** ** Dispatch *)

(** The first word of a line. *)
Definition first_word (m : list ascii) : list ascii := take_while (fun c => negb (bool_decide (c = SP))) m.

Lemma method_strcmp_spec m0 m1 :
  SP ∉ m0 -> method_strcmp m0 m1 = 0 <-> m0 = first_word m1.
Proof.
  revert m1. induction m0 as [|c0 m0 IH]; intros m1 H0.
  - unfold first_word. destruct m1 as [|c1 m1]; cbn; [done|].
    destruct (bool_decide_reflect (c1 = SP)); cbn; done.
  - apply not_elem_of_cons in H0 as [Hc H0]. unfold first_word in *. destruct m1 as [|c1 m1]; cbn [method_strcmp take_while].
    { rewrite bool_decide_false by done. done. }
    case_decide as E1; [rewrite bool_decide_true by done; done|]. rewrite bool_decide_false by done. cbn [negb].
    case_decide as E2; [split; [discriminate|intros E; injection E; intros; by destruct E2]|]. rewrite IH by done.
    destruct (decide (c0 = c1)) as [->|]; [|by destruct E2].
    split; [by intros ->|by intros [= ->]].
Qed.

(** The registrations of [net_http_module_init]. *)
Definition registrations : list net_handlers :=
  ((fun m => NetHandlers (lit m) net_http_req_handler_fn net_http_rsp_handler_fn) <$>
     ["GET"; "POST"; "HEAD"; "PUT"; "DELETE"]%string) ++
  [NetHandlers (lit "CONNECT") net_connect_req_handler_fn net_connect_rsp_handler_fn].

Definition method_entry (m : list ascii) : option net_handlers :=
  snd <$> list_find (fun h => method h = m) registrations.

Lemma find_handler_spec hs t line :
  Forall (fun h => SP ∉ method h) hs ->
  find_handler ((Some <$> hs) ++ None :: t) line = snd <$> list_find (fun h => method h = first_word line) hs.
Proof.
  induction 1 as [|h hs Hh _ IH]; [done|]. cbn [fmap list_fmap app find_handler list_find].
  pose proof (method_strcmp_spec (method h) line Hh) as E. case_decide as Hd.
  - by rewrite (proj2 E Hd).
  - rewrite (proj2 (Z.eqb_neq _ _)) by tauto. rewrite IH.
    unfold fmap at 2. by destruct (list_find _ hs) as [[i x]|].
Qed.

(** [net_handle_register] and [net_get_handler] dispatch on the method: after
    [net_handle_module_init] and [net_http_module_init], the handlers found for a
    start line are those registered for exactly its first word (the HTTP ones
    for GET, POST, HEAD, PUT and DELETE, the tunnel for CONNECT); a line with
    another first word has none. *)
Theorem methods_dispatch {K} `{!Kernel K} (w : world K) :
  exists w', (_ ← net_handle_module_init; net_http_module_init) w = Ok () w' /\
    forall line, find_handler (methods (w_handle w')) line = method_entry (first_word line).
Proof.
  set (t := (Some <$> registrations) ++ None :: replicate 25 None).
  set (sv := ServeState (sfds (w_serve w)) (sfd_cnt (w_serve w)) (Some net_req_handler_fn)
    (Some net_rsp_handler_fn) (signal_fd (w_serve w)) (data_p (w_serve w))).
  exists (put_serve sv (put_handle (with_methods (w_handle w) t) w)). split; [reflexivity|].
  intros line. apply find_handler_spec. apply Forall_forall. intros h Hh.
  assert (forallb (fun h => negb (bool_decide (SP ∈ method h))) registrations = true) as Hall
    by (vm_compute; reflexivity).
  rewrite forallb_forall in Hall. apply list_elem_of_In, Hall in Hh. by bool_prop.
Qed.

(** ** After a response *)

(** The reference count of a connection, [None] when it is freed. *)
Definition refs_of {K} (w : world K) (i : positive) : option Z := fst <$> objs (w_conn w) !! i.

Section finish.
Context {K : Type} `{!Kernel K, !Suspend K}.
Implicit Types (w : world K) (x i r : positive).

Lemma load_h_wp U x c Q w : hcxts (w_handle w) !! x = Some c -> Q c w -> wp U (load_h x) Q w.
Proof. intros Hc HQ. unfold load_h. wp_step. by eapply wp_demand. Qed.

Lemma set_h_wp U x f c Q w :
  hcxts (w_handle w) !! x = Some c ->
  Q () (put_handle (with_hcxts (w_handle w) (<[x := f c]> (hcxts (w_handle w)))) w) -> wp U (set_h x f) Q w.
Proof. intros Hc HQ. unfold set_h. apply wp_bind. eapply load_h_wp; [done|]. by apply wp_modify. Qed.

(** A reference given up when there is none left is a use after free. *)
Lemma mem_decref_gone U i Q w : objs (w_conn w) !! i = None -> U w -> wp U (mem_decref i conn_done) Q w.
Proof.
  intros Hi HU. unfold mem_decref. apply wp_bind. unfold load_obj. wp_step. unfold wp, demand. by rewrite Hi.
Qed.

Lemma req_decref_spec U r m q w :
  reqs (w_handle w) !! r = Some (m, q) ->
  wp U (req_decref r) (fun _ w' => w_conn w' = w_conn w /\ hcxts (w_handle w') = hcxts (w_handle w) /\
    reqs (w_handle w') = if m =? 1 then delete r (reqs (w_handle w)) else <[r := (m - 1, q)]> (reqs (w_handle w))) w.
Proof.
  intros Hr. unfold req_decref, load_r. apply wp_bind. wp_step. eapply wp_demand; [exact Hr|]. cbn [fst].
  destruct (Z.eqb_spec (m - 1) 0); apply wp_modify.
  - by rewrite (proj2 (Z.eqb_eq m 1)) by lia.
  - by rewrite (proj2 (Z.eqb_neq m 1)) by lia.
Qed.

(** A closed server: its entry and two references go, or one was missing. *)
Lemma rsp_finish_closed_spec x server r ret n c h t m q w :
  objs (w_conn w) !! server = Some (n, c) -> stat c = CONN_CLOSED ->
  hcxts (w_handle w) !! x = Some h -> tbl_find (c_ep c) (hc_pool h) = Some t ->
  reqs (w_handle w) !! r = Some (m, q) ->
  wp (fun w' => n = 1 /\ refs_of w' server = None) (rsp_finish x server r ret) (fun _ w' =>
    n <> 1 /\ refs_of w' server = (if n =? 2 then None else Some (n - 2)) /\
    hcxts (w_handle w') !! x =
      Some (with_list (with_pool h (tbl_del (c_ep c) (hc_pool h))) (tail (hc_list h))) /\
    fst <$> reqs (w_handle w') !! r = if m =? 1 then None else Some (m - 1)) w.
Proof.
  intros Ho Hs Hx Ht Hr. unfold rsp_finish. apply wp_bind. eapply load_c_wp; [exact Ho|].
  rewrite bool_decide_true by done. apply wp_bind. eapply load_h_wp; [exact Hx|].
  apply wp_bind, (wp_demand _ _ t); [done|]. apply wp_bind. eapply set_h_wp; [exact Hx|].
  set (h1 := with_pool h _). eapply wp_seq; [apply (mem_decref_spec _ server n c); exact Ho|].
  intros ? w1 (E1&Eh1&_). cbn in E1, Eh1.
  destruct (Z.eqb_spec n 1) as [->|Hn1].
  { apply wp_bind. apply mem_decref_gone; [rewrite E1; cbn; by rewrite lookup_delete_eq|].
    split; [done|]. unfold refs_of. rewrite E1. cbn. by rewrite lookup_delete_eq. }
  eapply wp_seq; [apply (mem_decref_spec _ server (n - 1) c); rewrite E1; cbn; by rewrite lookup_insert_eq|].
  intros ? w2 (E2&Eh2&_). rewrite Eh1 in Eh2.
  eapply wp_seq; [apply (req_decref_spec _ r m q); by rewrite Eh2|].
  intros ? w3 (E3&Eh3&Er3). rewrite Eh2 in Eh3, Er3. cbn in Eh3, Er3.
  eapply set_h_wp; [rewrite Eh3; by rewrite lookup_insert_eq|]. cbn. split_and!.
  - done.
  - unfold refs_of. cbn. rewrite E3, E2, E1. cbn.
    destruct (Z.eqb_spec (n - 1) 1), (Z.eqb_spec n 2); try lia.
    + by rewrite lookup_delete_eq.
    + rewrite lookup_insert_eq. cbn. f_equal. lia.
  - by rewrite lookup_insert_eq.
  - rewrite Er3. destruct (m =? 1); by rewrite ?lookup_delete_eq, ?lookup_insert_eq.
Qed.
End finish.

(** C22: behind a response from a connection that is closed by now,
    [net_rsp_handler] removes the entry of its endpoint from the context's pool,
    whichever connection the entry holds, gives up two references of the server
    (that of the pool and that of the list) and one of the request, and takes
    the request off the list.  When only the list's reference is left (the pool's
    went away when the request side replaced the closed connection), the second
    release is a use after free. *)
Theorem closed_server_released {K} `{!Kernel K, !Suspend K} (x server r : positive) (ret n m : Z)
    (c : conn) (h : net_handle_cxt) (t : positive) (q : net_req) (w : world K)
    (Ho : objs (w_conn w) !! server = Some (n, c)) (Hs : stat c = CONN_CLOSED) (Hn : 1 <= n)
    (Hx : hcxts (w_handle w) !! x = Some h) (Ht : tbl_find (c_ep c) (hc_pool h) = Some t)
    (Hr : reqs (w_handle w) !! r = Some (m, q)) :
  (n = 1 -> exists w', rsp_finish x server r ret w = Undef w') /\
  (2 <= n -> exists w', rsp_finish x server r ret w = Ok () w' /\
    refs_of w' server = (if n =? 2 then None else Some (n - 2)) /\
    hcxts (w_handle w') !! x =
      Some (with_list (with_pool h (tbl_del (c_ep c) (hc_pool h))) (tail (hc_list h))) /\
    fst <$> reqs (w_handle w') !! r = if m =? 1 then None else Some (m - 1)).
Proof.
  pose proof (rsp_finish_closed_spec x server r ret n c h t m q w Ho Hs Hx Ht Hr) as H.
  unfold wp in H. destruct (rsp_finish x server r ret w) as [[] w'|w'|]; [| |done].
  - destruct H as (H1&H). split; [lia|]. intros _. by exists w'.
  - destruct H as [H1 _]. split; [by exists w'|lia].
Qed.

(** The scenario: connection 1 was closed while its response was awaited, and
    the request side has put connection 2 in its place. *)
Definition server_ep : conn_endpoint := Endpoint AF_INET 20480 [10; 0; 0; 1].
Definition server_conn (f : Z) (s : conn_stat) : conn := Conn f [] 0 0 0 0 0 s server_ep None.
Definition some_req : net_req :=
  Req {| buf := Strbuf.Strbuf [] 0 0; table := None; NetData.ents := ∅; ent_next := 1 |} 80 1 1 0 0 0.
Definition replaced_world : world dkernel :=
  put_handle (HandleState [] {[1%positive := HandleCxt 9 [(server_ep, 2%positive)] [(1%positive, 1%positive)]
                                               0 1 false false false false]}
                {[1%positive := (1, some_req)]} None ∅)
    (put_conns (ConnState {[1%positive := (1, server_conn 5 CONN_CLOSED);
                            2%positive := (2, server_conn 6 CONN_USED)]} [] ∅) dworld).

Lemma closed_server_released_witness :
  exists w', rsp_finish 1 1 1 0 replaced_world = Undef w'.
Proof.
  eapply (closed_server_released 1 1 1 0 1 1 (server_conn 5 CONN_CLOSED) _ 2 some_req replaced_world).
  - reflexivity.
  - reflexivity.
  - lia.
  - reflexivity.
  - reflexivity.
  - reflexivity.
  - reflexivity.
Defined.
