(* ===== verification/QueueProps.v ===== *)
(** The order of the responses of a client: the list of pending requests of
    net_handle.c and net_http.c is a queue, written by the request coroutine and
    read by the response coroutine. *)

From S2P Require Import Prelude CLib Outcome Strbuf ConnIf ConnIO ConnIOFacts Sim Table Event NetPull Uthash NetData World Conn.
From S2P Require Import ConnLink ConnPool DemoKernel Fetch NetHttp Relay AlwaysIO NetUtils NetHandle AlwaysWorld NetHandleProps.

#[local] Open Scope Z_scope.

(** The pending requests of the context [x]. *)
Definition pending {K} (x : positive) (w : world K) : option (list (positive * positive)) :=
  hc_list <$> hcxts (w_handle w) !! x.

(** They start with [l]. *)
Definition pending_first {K} (x : positive) (l : list (positive * positive)) (w : world K) : Prop :=
  exists l', pending x w = Some (l ++ l').

Section queue.
Context {K : Type} `{!Kernel K, !Suspend K}.
Implicit Types (w : world K) (x i r : positive).

Lemma pending_same x l w w' : w_handle w' = w_handle w -> pending_first x l w -> pending_first x l w'.
Proof. unfold pending_first, pending. by intros ->. Qed.

(** The response handlers change none of the contexts and requests themselves. *)
Context (x : positive) (P : world K -> Prop) (HP : forall w w', w_handle w' = w_handle w -> P w -> P w').
Context (Hs : forall n, always (W := world K) P (suspend n)).

#[local] Instance pending_env : KeepsEnv (world K) P.
Proof using HP Hs. apply handle_keeps_env; [apply HP|exact Hs]. Qed.

Lemma http_rsp_pending fuel i : always P (net_http_rsp_handler fuel x i).
Proof using HP Hs.
  unfold net_http_rsp_handler, load_h, load_r, set_c, load_obj, save_obj. always_tac.
  apply handle_modify; [apply HP|done].
Qed.

Lemma relay_pending fuel i j : always P (http_relay_rsp fuel i j).
Proof using HP Hs. apply (always_relay_rsp P). Qed.

Lemma connect_rsp_pending fuel i : always P (net_connect_rsp_handler fuel x i).
Proof using HP Hs. unfold net_connect_rsp_handler, load_h. always_tac. Qed.

Lemma call_rsp_pending h fuel i : always P (call_rsp_handler h fuel x i).
Proof using HP Hs. unfold call_rsp_handler. destruct (rsp_handler h); [apply http_rsp_pending|apply connect_rsp_pending]. Qed.
End queue.

Section finish.
Context {K : Type} `{!Kernel K, !Suspend K} (x : positive) (L : list (positive * positive)).
Implicit Types (w : world K) (i r : positive).

Abbreviation P := (fun w : world K => pending x w = Some L).

Lemma pending_handle w w' : w_handle w' = w_handle w -> P w -> P w'.
Proof using Type. unfold pending. by intros ->. Qed.

Lemma set_h_pending f : (forall c, hc_list (f c) = hc_list c) -> always P (set_h x f).
Proof using Type.
  intros Hf w Hw. unfold set_h, load_h, save_h, h_update, mbind, M_bind, get, demand, modify. cbn.
  unfold pending in *. destruct (hcxts (w_handle w) !! x) as [c|]; [|done]. cbn in *.
  by rewrite lookup_insert_eq, <-Hw, <-(Hf c).
Qed.

Lemma req_decref_pending r : always P (req_decref r).
Proof using Type. unfold req_decref, load_r, save_r. always_tac; by apply always_modify. Qed.

(** Taking the first request off the list. *)
Lemma set_tail_pending w : P w ->
  returns (set_h x (fun h => with_list h (tail (hc_list h)))) (fun _ w' => pending x w' = Some (tail L)) w.
Proof using Type.
  intros Hw. unfold returns, set_h, load_h, save_h, h_update, mbind, M_bind, get, demand, modify. cbn.
  unfold pending in *. destruct (hcxts (w_handle w) !! x) as [c|]; [|done]. cbn in *.
  rewrite lookup_insert_eq. cbn. by injection Hw as ->.
Qed.

Lemma rsp_finish_pending i r ret n c w : P w -> objs (w_conn w) !! i = Some (n, c) ->
  returns (rsp_finish x i r ret) (fun _ w' =>
    pending x w' = Some (if negb (bool_decide (stat c = CONN_CLOSED)) && (ret =? 100) then L else tail L)) w.
Proof using Type.
  intros Hw Hi. unfold rsp_finish. apply returns_bind.
  assert (load_c i w = Ok c w) as Hl.
  { unfold load_c, load_obj, mbind, M_bind, get, demand. by rewrite Hi. }
  unfold returns at 1. rewrite Hl.
  assert (always P (mem_decref i conn_done)) as Hd by apply handle_decref, pending_handle.
  destruct (bool_decide (stat c = CONN_CLOSED)); cbn [negb andb].
  - apply (returns_always P); [unfold load_h; always_tac|done|]. intros h w1 H1.
    apply (returns_always P); [auto with always|done|]. intros t w2 H2.
    apply (returns_always P); [by apply set_h_pending|done|]. intros ? w3 H3.
    do 2 (apply (returns_always P); [done|done|]; intros ? ? ?).
    apply (returns_always P); [apply req_decref_pending|done|]. intros ? ? ?. by apply set_tail_pending.
  - destruct (ret =? 100); [done|]. apply (returns_always P); [done|done|]. intros ? ? ?.
    apply (returns_always P); [apply req_decref_pending|done|]. intros ? ? ?. by apply set_tail_pending.
Qed.
End finish.

Section serve.
Context {K : Type} `{!Kernel K, !Suspend K} (x : positive).
Context (Hs : forall n l, always (W := world K) (pending_first x l) (suspend n)).
Implicit Types (w : world K) (server r : positive).

(** Whether the first request stays for another response. *)
Definition stays server (ret : Z) w : Prop :=
  ret = 100 /\ exists n c, objs (w_conn w) !! server = Some (n, c) /\ stat c <> CONN_CLOSED.

Lemma rsp_finish_first server r ret rest w : pending_first x ((server, r) :: rest) w ->
  returns (rsp_finish x server r ret) (fun _ w' =>
    pending_first x rest w' \/ (stays server ret w' /\ pending_first x ((server, r) :: rest) w')) w.
Proof using Type.
  intros [l' Hw]. destruct (objs (w_conn w) !! server) as [[n c]|] eqn:Ho.
  2: { unfold returns, rsp_finish, load_c, load_obj, mbind, M_bind, get, demand. by rewrite Ho. }
  destruct (bool_decide (stat c = CONN_CLOSED)) eqn:Ec; [|destruct (Z.eqb_spec ret 100) as [->|Hr]].
  - eapply returns_mono; [by eapply (rsp_finish_pending x _ server r ret n c w Hw Ho)|].
    intros ? w' H. rewrite Ec in H. left. by exists l'.
  - unfold returns, rsp_finish, load_c, load_obj, mbind, M_bind, get, demand. rewrite Ho. cbn. rewrite Ec. cbn.
    right. bool_prop. split; [split; [done|by exists n, c]|by exists l'].
  - eapply returns_mono; [by eapply (rsp_finish_pending x _ server r ret n c w Hw Ho)|].
    intros ? w' H. rewrite (proj2 (Z.eqb_neq _ _) Hr), andb_false_r in H. left. by exists l'.
Qed.

Lemma rsp_serve_first fuel server r rest w : pending_first x ((server, r) :: rest) w ->
  returns (rsp_serve fuel x server r) (fun ret w' =>
    pending_first x rest w' \/ (stays server ret w' /\ pending_first x ((server, r) :: rest) w')) w.
Proof using Hs.
  intros Hw. set (P := pending_first (K := K) x ((server, r) :: rest)). unfold rsp_serve.
  apply (returns_always P); [unfold load_r; always_tac|done|]. intros q w1 H1.
  apply (returns_always P); [unfold net_get_handler; always_tac|done|]. intros h0 w2 H2.
  apply (returns_always P); [auto with always|done|]. intros h w3 H3.
  apply (returns_always P); [apply call_rsp_pending; [apply pending_same|intros n; apply Hs]|done|]. intros ret w4 H4.
  apply returns_bind. eapply returns_mono; [by apply rsp_finish_first|]. by intros ? w5 H5.
Qed.

(** A new request goes to the end. *)
Lemma list_append_pending i q n c o w L :
  pending x w = Some L -> objs (w_conn w) !! i = Some (n, c) -> reqs (w_handle w) !! q = Some o ->
  exists w', list_append x i q w = Ok () w' /\ pending x w' = Some (L ++ [(i, q)]).
Proof using Type.
  intros Hw Hi Hq. unfold pending in Hw. destruct (hcxts (w_handle w) !! x) as [h|] eqn:Hx; [|done].
  unfold list_append, mem_incref, req_incref, load_obj, load_r, save_obj, save_r, cn_update, h_update, set_h, load_h,
    save_h, h_update.
  unfold mbind, M_bind, get, demand, modify. rewrite Hi. cbn. rewrite Hq. cbn. rewrite Hx. eexists. split; [done|].
  unfold pending. cbn. rewrite lookup_insert_eq. cbn. by injection Hw as ->.
Qed.
End serve.

(** ** Serving a request comes to an end *)

Section ends.
Context {K : Type} `{!Kernel K, !Suspend K}.
Implicit Types (w : world K) (x i r : positive).

(** [m] has no loop that could be cut off. *)
Definition ends {A} (m : M (world K) A) : Prop := forall w, m w <> NoFuel.

Lemma ends_bind {A B} (m : M (world K) A) (f : A -> M (world K) B) :
  ends m -> (forall a, ends (f a)) -> ends (m ≫= f).
Proof using Type.
  intros Hm Hf w. specialize (Hm w). unfold mbind, M_bind. destruct (m w) as [a w'| |]; [by apply Hf|done..].
Qed.
Lemma ends_demand {A} (o : option A) : ends (demand o).
Proof using Type. by destruct o. Qed.
Lemma ends_sys {A} (f : K -> A * K) : ends (sys (lift f)).
Proof using Type. intros w. unfold sys, lift. by destruct (f (w_k w)). Qed.

End ends.

(** Follow the structure of a computation without loops. *)
Ltac ends_tac := repeat lazymatch goal with
  | |- ends (_ ≫= _) => apply ends_bind; [|intros ?]
  | |- ends (match ?o with _ => _ end) => destruct o
  | |- ends (demand _) => apply ends_demand
  | |- ends (sys _) => apply ends_sys
  | |- ends (mret _) => by intros ?
  | |- ends (get _) => by intros ?
  | |- ends (modify _) => by intros ?
  end.

Section loop_free.
Context {K : Type} `{!Kernel K, !Suspend K}.
Implicit Types (w : world K) (x i r : positive).

Lemma ends_close i : ends (Conn.conn_close i).
Proof using Type.
  unfold Conn.conn_close, net_pull_del, pl_update, set_c, load_c, load_obj, save_obj, cn_update. ends_tac.
Qed.
Lemma ends_decref i : ends (mem_decref i conn_done).
Proof using Type.
  unfold mem_decref, conn_done, net_pull_del, pl_update, load_c, load_obj, save_obj, cn_update.
  ends_tac; apply ends_close.
Qed.
Lemma ends_set_h x f : ends (K := K) (set_h x f).
Proof using Type. unfold set_h, load_h, save_h, h_update. ends_tac. Qed.
Lemma ends_finish x i r ret : ends (rsp_finish x i r ret).
Proof using Type.
  unfold rsp_finish, req_decref, load_c, load_obj, load_r, save_r, h_update, load_h.
  ends_tac; apply ends_decref || apply ends_set_h || by intros ?.
Qed.
End loop_free.
(** With the laws of the interface and fuel enough the handlers return, or meet
    undefined behaviour. *)
Section serving.
Context {K : Type} `{!Kernel K, !KernelObs K, !KernelLaws K, !Suspend K} (rd wr : positive -> Prop).
Context `{!SuspendLaw K rd wr} (budget fuel : nat).
Implicit Types (w : world K) (x server r : positive).

Lemma set_tx_frame client server f taken o w : client <> server ->
  reading rd budget w server taken -> writing wr w client f o ->
  exists w', set_c client (fun c => with_tx c 0) w = Ok () w' /\ w_handle w' = w_handle w /\
    reading rd budget w' server taken /\ writing wr w' client f o.
Proof using Type.
  intros Hne (Hi&c&un&Hc&Hok&Hr&Hb) (Hj&d&Hd&Hf&Ho). pose proof Hd as ([n d']&Hobj&E)%fmap_Some. cbn in E. subst d'.
  destruct (wp_Ok _ _ _ (set_c_spec safe client (fun c => with_tx c 0) _ w Hobj)) as ([]&w'&Hrun&->).
  eexists. split; [exact Hrun|]. split; [done|]. split.
  - split; [done|]. exists c, un. split_and!; [|done..|exact Hb]. cbn. unfold obj_get. cbn.
    by rewrite lookup_insert_ne.
  - split; [done|]. exists (with_tx d 0). split_and!; [|done..]. cbn. unfold obj_get. cbn.
    by rewrite lookup_insert_eq.
Qed.

Lemma call_rsp_ends h x c server f taken o w : hcxts (w_handle w) !! x = Some c -> client c <> server ->
  reading rd budget w server taken -> writing wr w (client c) f o -> (relay_fuel budget < fuel)%nat ->
  call_rsp_handler h fuel x server w <> NoFuel.
Proof using KernelLaws0 SuspendLaw0.
  intros Hx Hne Hrd Hwr Hf. assert (load_h x w = Ok c w) as Hl.
  { unfold load_h, mbind, M_bind, get, demand. by rewrite Hx. }
  unfold call_rsp_handler. destruct (rsp_handler h).
  - destruct (set_tx_frame _ _ _ _ _ _ Hne Hrd Hwr) as (w1&Hset&_&Hrd1&Hwr1).
    unfold net_http_rsp_handler. unfold mbind at 1, M_bind at 1. rewrite Hl. unfold mbind at 1, M_bind at 1. rewrite Hset.
    pose proof (http_relay_rsp_spec rd wr budget fuel (client c) server f taken o w1 Hne Hrd1 Hwr1 Hf) as H.
    unfold wp in H. unfold mbind at 1, M_bind at 1.
    destruct (http_relay_rsp fuel (client c) server w1) as [[ret|[ret cd]] w2| |]; [done| |done|done].
    revert w2 H. intros w2 _. revert w2. change (ends (K := K)
      (c ← load_h x; '(_, r) ← demand (head (hc_list c)); q ← load_r r;
       _ ← demand (cstr_at (p (buf (data q.2))) (host q.2)); _ ← demand (cstr_at (p (buf (data q.2))) (path q.2));
       mret (if ret =? 0 then cd else ret))).
    unfold load_h, load_r. ends_tac.
  - unfold net_connect_rsp_handler. unfold mbind at 1, M_bind at 1. rewrite Hl.
    assert (wp safe (tunnel fuel (client c) server) (fun _ _ => True) w) as H.
    { eapply wp_mono; [eapply (copy_all_spec rd wr budget _ (-1) (client c) server f o fuel fuel taken [])|done];
        [done..|by apply accepted_start| |]; unfold relay_fuel in Hf; lia. }
    unfold wp in H. by destruct (tunnel fuel (client c) server w).
Qed.

Lemma rsp_serve_ends x c server r f taken o w : hcxts (w_handle w) !! x = Some c -> client c <> server ->
  reading rd budget w server taken -> writing wr w (client c) f o -> (relay_fuel budget < fuel)%nat ->
  rsp_serve fuel x server r w <> NoFuel.
Proof using KernelLaws0 SuspendLaw0.
  intros Hx Hne Hrd Hwr Hf. unfold rsp_serve, load_r, net_get_handler. unfold mbind, M_bind, get, demand.
  destruct (reqs (w_handle w) !! r) as [q|]; [|done]. cbn.
  match goal with |- context [match ?o with Some a => mret a | None => undef end] => destruct o as [line|] end; [|done].
  cbn. match goal with |- context [match ?o with Some a => mret a | None => undef end] => destruct o as [h|] end; [|done].
  cbn. pose proof (call_rsp_ends h x c server f taken o w Hx Hne Hrd Hwr Hf) as H.
  destruct (call_rsp_handler h fuel x server w) as [ret w1| |]; [|done..].
  pose proof (ends_finish x server r ret w1) as H1. by destruct (rsp_finish x server r ret w1).
Qed.

(** ** When serving a request is undefined *)

(** The request has its strings: the method has a handler, the host and the path are there. *)
Definition sound_request (q : net_req) w : Prop :=
  (exists line h, cstr_at (p (buf (data q))) 0 = Some line /\ find_handler (methods (w_handle w)) line = Some h) /\
  is_Some (cstr_at (p (buf (data q))) (host q)) /\ is_Some (cstr_at (p (buf (data q))) (path q)).

(** The request [r] is [q] still. *)
Definition held (r : positive) (q : net_req) w : Prop := exists m, reqs (w_handle w) !! r = Some (m, q).

(** What serving a request does not survive: the responses [fatal_rsp] describes, the
    server connection freed under it, and a closed server without an entry in the context's
    pool. *)
Definition serve_lost x server taken w : Prop :=
  fatal_rsp rd budget server taken w \/ refs_of w server = None \/
  exists n c h, objs (w_conn w) !! server = Some (n, c) /\ stat c = CONN_CLOSED /\
    hcxts (w_handle w) !! x = Some h /\ tbl_find (c_ep c) (hc_pool h) = None.

Abbreviation first_held x server r rest q := (fun w => pending_first x ((server, r%positive) :: rest) w /\ held r q w).

Lemma first_held_same x server r rest q w w' : w_handle w' = w_handle w ->
  first_held x server r rest q w -> first_held x server r rest q w'.
Proof using Type. intros E [H1 H2]. split; [by eapply pending_same|]. unfold held in *. by rewrite E. Qed.

Lemma first_held_cxt x server r rest q w : first_held x server r rest q w ->
  exists c l m, hcxts (w_handle w) !! x = Some c /\ hc_list c = (server, r) :: l /\ reqs (w_handle w) !! r = Some (m, q).
Proof using Type.
  intros [[l Hw] [m Hm]]. unfold pending in Hw. destruct (hcxts (w_handle w) !! x) as [c|]; [|done].
  injection Hw as Hw. by exists c, (rest ++ l), m.
Qed.

Lemma rsp_finish_lost x server r ret rest q taken w : first_held x server r rest q w ->
  wp (serve_lost x server taken) (rsp_finish x server r ret) (fun _ _ => True) w.
Proof using Type.
  intros (h&l&m&Hx&_&Hr)%first_held_cxt. destruct (objs (w_conn w) !! server) as [[n c]|] eqn:Ho.
  2: { unfold rsp_finish. apply wp_bind. unfold load_c, load_obj, wp, mbind, M_bind, get, demand. rewrite Ho.
       right; left. unfold refs_of. by rewrite Ho. }
  destruct (decide (stat c = CONN_CLOSED)) as [Hc|Hc].
  - destruct (tbl_find (c_ep c) (hc_pool h)) as [t|] eqn:Ht.
    + eapply wp_mono; [eapply wp_undef_mono; [by eapply (rsp_finish_closed_spec x server r ret n c h t m q)|]|done].
      intros w' [_ H]. by right; left.
    + unfold rsp_finish. apply wp_bind. eapply load_c_wp; [exact Ho|]. rewrite bool_decide_true by done.
      apply wp_bind. eapply load_h_wp; [exact Hx|]. apply wp_bind. unfold wp, demand. rewrite Ht.
      right; right. by exists n, c, h.
  - unfold rsp_finish. apply wp_bind. eapply load_c_wp; [exact Ho|]. rewrite bool_decide_false by done.
    destruct (ret =? 100); [by apply wp_ret|]. eapply wp_seq; [apply (mem_decref_spec _ server n c); exact Ho|].
    intros ? w1 (_&Eh1&_). eapply wp_seq; [apply (req_decref_spec _ r m q); by rewrite Eh1|].
    intros ? w2 (_&Eh2&_). eapply set_h_wp; [|done]. by rewrite Eh2, Eh1.
Qed.

Lemma call_rsp_lost h x c server r rest q f taken o w :
  (forall n, always (W := world K) (first_held x server r rest q) (suspend n)) ->
  hcxts (w_handle w) !! x = Some c -> first_held x server r rest q w ->
  is_Some (cstr_at (p (buf (data q))) (host q)) -> is_Some (cstr_at (p (buf (data q))) (path q)) -> client c <> server ->
  reading rd budget w server taken -> writing wr w (client c) f o -> (relay_fuel budget < fuel)%nat ->
  wp (serve_lost x server taken) (call_rsp_handler h fuel x server) (fun _ _ => True) w.
Proof using KernelLaws0 SuspendLaw0.
  intros Hs Hx HP [hs Hhost] [ps Hpath] Hne Hrd Hwr Hf. unfold call_rsp_handler. destruct (rsp_handler h).
  - destruct (set_tx_frame _ _ _ _ _ _ Hne Hrd Hwr) as (w1&Hset&Hh1&Hrd1&Hwr1).
    unfold net_http_rsp_handler. apply wp_bind. eapply load_h_wp; [exact Hx|].
    apply wp_bind. unfold wp at 1. rewrite Hset. assert (first_held x server r rest q w1) as HP1 by by eapply first_held_same.
    eapply wp_seq; [eapply (wp_and _ _ _ (fun _ => first_held x server r rest q))|].
    + eapply wp_undef_mono; [by apply (http_relay_rsp_spec rd wr budget fuel (client c) server f taken o w1)|].
      intros w' ?. by left.
    + pose proof (relay_pending (first_held x server r rest q) (first_held_same x server r rest q) Hs fuel (client c) server w1 HP1) as H.
      unfold returns. by destruct (http_relay_rsp fuel (client c) server w1).
    + intros [ret|[ret cd]] w2 [_ HP2]; [by apply wp_ret|].
      destruct (first_held_cxt _ _ _ _ _ _ HP2) as (c2&l2&m2&Hx2&Hl2&Hr2).
      apply wp_bind. eapply load_h_wp; [exact Hx2|]. rewrite Hl2. apply wp_bind, (wp_demand _ _ (server, r)); [done|].
      apply wp_bind. unfold load_r. wp_step. eapply wp_demand; [exact Hr2|].
      apply wp_bind, (wp_demand _ _ hs); [done|]. apply wp_bind, (wp_demand _ _ ps); [done|]. by apply wp_ret.
  - unfold net_connect_rsp_handler. apply wp_bind. eapply load_h_wp; [exact Hx|].
    eapply (wp_undef_mono _ safe); [|done].
    eapply wp_mono; [eapply (copy_all_spec rd wr budget _ (-1) (client c) server f o fuel fuel taken [])|done];
      [done..|by apply accepted_start| |]; unfold relay_fuel in Hf; lia.
Qed.

Lemma rsp_serve_lost x c server r rest q f taken o w :
  (forall n, always (W := world K) (first_held x server r rest q) (suspend n)) ->
  hcxts (w_handle w) !! x = Some c -> first_held x server r rest q w -> sound_request q w -> client c <> server ->
  reading rd budget w server taken -> writing wr w (client c) f o -> (relay_fuel budget < fuel)%nat ->
  wp (serve_lost x server taken) (rsp_serve fuel x server r) (fun _ _ => True) w.
Proof using KernelLaws0 SuspendLaw0.
  intros Hs Hx HP ((line&h&Hline&Hh)&Hhost&Hpath) Hne Hrd Hwr Hf.
  destruct (first_held_cxt _ _ _ _ _ _ HP) as (c'&l'&m'&_&_&Hr').
  unfold rsp_serve. apply wp_bind. unfold load_r. wp_step. eapply wp_demand; [exact Hr'|]. cbn [snd].
  apply wp_bind. unfold net_get_handler. apply wp_bind, (wp_demand _ _ line); [done|]. wp_step. wp_step.
  rewrite Hh. apply wp_bind, (wp_demand _ _ h); [done|]. eapply wp_seq; [eapply (wp_and _ _ _ (fun _ => first_held x server r rest q))|].
  - by eapply call_rsp_lost.
  - pose proof (call_rsp_pending x (first_held x server r rest q) (first_held_same x server r rest q) Hs h fuel server w HP) as H.
    unfold returns. by destruct (call_rsp_handler h fuel x server w).
  - intros ret w1 [_ HP1]. eapply wp_seq; [by eapply rsp_finish_lost|]. intros ? w2 _. by apply wp_ret.
Qed.
End serving.

(** C4: responses go to the client in the order of its requests.  A request is
    put at the end of the pending ones.  Serving the first one does not run for ever.  When the response
    coroutine comes back from it, either it is the first no
    longer and those behind it follow, in their order, whatever arrived
    meanwhile, or its server is still open and sent the code 100, and it is the
    first one still, for the response proper.  If the request is sound and kept, the
    call comes back unless the server sent a response of [fatal_rsp], its
    connection was freed when it is used again ([closed_server_released] shows when), or it is closed and the context's pool has no entry for it.  This holds as long as nothing but the appending of
    requests happens to the list while the response coroutine is suspended. *)
Theorem responses_in_order {K} `{!Kernel K, !KernelObs K, !KernelLaws K, !Suspend K} (rd wr : positive -> Prop)
    `{!SuspendLaw K rd wr} (budget fuel : nat) (x server r : positive) rest (c : net_handle_cxt) f taken o
    (w : world K) (Hs : forall n l, always (W := world K) (pending_first x l) (suspend n))
    (Hx : hcxts (w_handle w) !! x = Some c) (Hfirst : hc_list c = (server, r) :: rest)
    (Hne : client c <> server) (Hrd : reading rd budget w server taken) (Hwr : writing wr w (client c) f o)
    (Hf : (relay_fuel budget < fuel)%nat) :
  match rsp_serve fuel x server r w with
  | Ok ret w' => pending_first x rest w' \/ (stays server ret w' /\ pending_first x ((server, r) :: rest) w')
  | Undef w' => forall q, held r q w -> sound_request q w -> (forall n, always (held r q) (suspend n)) ->
      serve_lost rd budget x server taken w'
  | NoFuel => False
  end /\
  forall i q n c o (w1 : world K) L, pending x w1 = Some L -> objs (w_conn w1) !! i = Some (n, c) ->
    reqs (w_handle w1) !! q = Some o ->
    exists w2, list_append x i q w1 = Ok () w2 /\ pending x w2 = Some (L ++ [(i, q)]).
Proof.
  split; [|apply list_append_pending].
  assert (pending_first x ((server, r) :: rest) w) as Hw.
  { exists []. unfold pending. rewrite Hx. cbn. by rewrite Hfirst, app_nil_r. }
  pose proof (rsp_serve_ends rd wr budget fuel x c server r f taken o w Hx Hne Hrd Hwr Hf) as Hend.
  pose proof (rsp_serve_first x Hs fuel server r rest w Hw) as H. unfold returns in H.
  destruct (rsp_serve fuel x server r w) as [| |] eqn:E; [done| |done].
  intros q Hq Hsound Hkeep. assert (wp (serve_lost rd budget x server taken) (rsp_serve fuel x server r) (fun _ _ => True) w) as Hl.
  - eapply (rsp_serve_lost rd wr budget fuel x c server r rest q f taken o w); [|done..].
    intros n w1 [H1 H2]. pose proof (Hs n _ w1 H1). pose proof (Hkeep n w1 H2). by destruct (suspend n w1).
  - unfold wp in Hl. by rewrite E in Hl.
Qed.

(** Two requests of a client are pending; the response to the first one comes in. *)
Definition get_req : net_req :=
  Req {| buf := Strbuf.Strbuf (of_chars (lit "GET" ++ [NUL] ++ lit "h" ++ [NUL] ++ lit "/" ++ [NUL])) 8 8;
         table := None; NetData.ents := ∅; ent_next := 1 |} 80 1 1 4 0 6.
Definition pending_world : world dkernel :=
  put_k (DKernel (sim_world [lit "HTTP/1.1 200 OK" ++ CRLF ++ lit "Content-Length: 5" ++ CRLF ++ CRLF ++ lit "hello"] 100)
           [3; 4; 5; 6] [] [] [] [] [])
    (put_handle (HandleState [Some (NetHandlers (lit "GET") net_http_req_handler_fn net_http_rsp_handler_fn)]
                  {[1%positive := HandleCxt 2 [] [(1%positive, 1%positive); (1%positive, 2%positive)]
                                    0 1 false false false false]}
                  {[1%positive := (1, get_req); 2%positive := (1, get_req)]} None ∅)
      (put_conns (ConnState {[1%positive := (3, sim_conn 5 64); 2%positive := (2, sim_conn 6 64)]} [] ∅) dworld)).

Definition everyone (i : positive) : Prop := True.

Lemma responses_in_order_witness :
  match rsp_serve (Z.to_nat 200000) 1 1 1 pending_world with
  | Ok ret w' => pending_first 1 [(1%positive, 2%positive)] w' \/
      (stays 1 ret w' /\ pending_first 1 [(1%positive, 1%positive); (1%positive, 2%positive)] w')
  | Undef w' => serve_lost everyone 200 1 1 [] w'
  | NoFuel => False
  end.
Proof.
  destruct (responses_in_order everyone everyone 200 (Z.to_nat 200000) 1 1 1 [(1%positive, 2%positive)]
    (HandleCxt 2 [] [(1%positive, 1%positive); (1%positive, 2%positive)] 0 1 false false false false)
    6 [] [] pending_world) as [H _];
    [..|destruct (rsp_serve (Z.to_nat 200000) 1 1 1 pending_world); [exact H| |exact H]].
  - intros n l w Hw. exact Hw.
  - reflexivity.
  - reflexivity.
  - discriminate.
  - split; [done|]. exists (sim_conn 5 64), []. split_and!; [reflexivity| |reflexivity|].
    + by split.
    + apply Nat.leb_le. vm_compute. reflexivity.
  - split; [done|]. exists (sim_conn 6 64). by split_and!.
  - unfold relay_fuel, HEADER_FUEL, HTTP_HEADER_MAXLEN. lia.
  - apply (H get_req).
    + exists 1. reflexivity.
    + split; [|split; vm_compute; by eexists]. eexists _, _. split; [reflexivity|]. vm_compute. reflexivity.
    + intros n w1 Hw. exact Hw.
Defined.

Example pending_run :
  match rsp_serve 300 1 1 1 pending_world with
  | Ok ret w => Some (ret, pending 1 w, sim_sent (dk_io (w_k w)) 6)
  | _ => None
  end = Some (200, Some [(1%positive, 2%positive)],
    lit "HTTP/1.1 200 OK" ++ CRLF ++ lit "Content-Length: 5" ++ CRLF ++ CRLF ++ lit "hello").
Proof. vm_compute. reflexivity. Qed.
