(* ===== verification/Arg.v ===== *)
(** src/core/arg.c: the command line. *)

From S2P Require Import Prelude CLib.

#[local] Open Scope Z_scope.

Definition PROXY_LOG_LEVEL_DEBUG : Z := 2.
Definition PROXY_LOG_LEVEL_INFO : Z := 3.

(** [struct proxy_arg_t]; [log_file] is the name of the opened file. *)
Record proxy_arg_t := ProxyArg {
  arg_port : Z; arg_addr : list ascii; verbose : Z; log_file : option (list ascii)
}.

Definition arg0 : proxy_arg_t := ProxyArg (-1) (lit "127.0.0.1") PROXY_LOG_LEVEL_INFO None.

Section arg.
(** Whether [fopen(file, "w")] succeeds. *)
Context (fopen : list ascii -> bool).

Definition usage : Z := -1.

(** A null argument is [None]. *)
Definition parse_addr (a : proxy_arg_t) (addr : option (list ascii)) : Z * proxy_arg_t :=
  match addr with
  | None => (-1, a)
  | Some addr => (0, ProxyArg (arg_port a) addr (verbose a) (log_file a))
  end.

Definition parse_log_file (a : proxy_arg_t) (file : option (list ascii)) : Z * proxy_arg_t :=
  match file with
  | None => (-1, a)
  | Some file =>
      if fopen file then (0, ProxyArg (arg_port a) (arg_addr a) (verbose a) (Some file))
      else (-1, ProxyArg (arg_port a) (arg_addr a) (verbose a) None)
  end.

Definition parse_port (a : proxy_arg_t) (port : list ascii) : Z * proxy_arg_t :=
  let p := atoi port in
  (if (p <? 1) || (65535 <? p) then -1 else 0, ProxyArg p (arg_addr a) (verbose a) (log_file a)).

(** The loop, with the arguments from [argv\[x\]] on; the one after the last is
    null. *)
Fixpoint parse_loop (argv : list (list ascii)) (a : proxy_arg_t) : Z * proxy_arg_t :=
  match argv with
  | [] => if arg_port a =? -1 then (usage, a) else (0, a)
  | x :: rest =>
      if decide (x = lit "-v") then
        parse_loop rest (ProxyArg (arg_port a) (arg_addr a) PROXY_LOG_LEVEL_DEBUG (log_file a))
      else if decide (x = lit "-a") then
        let '(r, a) := parse_addr a (head rest) in
        if negb (r =? 0) then (usage, a) else
        match rest with [] => (usage, a) | _ :: rest => parse_loop rest a end
      else if decide (x = lit "-l") then
        let '(r, a) := parse_log_file a (head rest) in
        if negb (r =? 0) then (usage, a) else
        match rest with [] => (usage, a) | _ :: rest => parse_loop rest a end
      else if decide (x = lit "-h") then (-1, a)
      else
        let '(r, a) := parse_port a x in
        if negb (r =? 0) then (usage, a)
        else if arg_port a =? -1 then (usage, a) else (0, a)
  end.

(** [argv\[0\]] is the program. *)
Definition proxy_parse_arg (argv : list (list ascii)) (a : proxy_arg_t) : Z * proxy_arg_t :=
  parse_loop (tail argv) a.

(** ** Options as data *)

Inductive opt := OptV | OptA (addr : list ascii) | OptL (file : list ascii).

Definition opt_args (o : opt) : list (list ascii) :=
  match o with OptV => [lit "-v"] | OptA s => [lit "-a"; s] | OptL s => [lit "-l"; s] end.

Definition set_opt (a : proxy_arg_t) (o : opt) : proxy_arg_t :=
  match o with
  | OptV => ProxyArg (arg_port a) (arg_addr a) PROXY_LOG_LEVEL_DEBUG (log_file a)
  | OptA s => ProxyArg (arg_port a) s (verbose a) (log_file a)
  | OptL s => ProxyArg (arg_port a) (arg_addr a) (verbose a) (Some s)
  end.

Definition opens (o : opt) : Prop := match o with OptL s => fopen s = true | _ => True end.

(** Not an option. *)
Definition operand (s : list ascii) : Prop :=
  s <> lit "-v" /\ s <> lit "-a" /\ s <> lit "-l" /\ s <> lit "-h".

Lemma parse_loop_opts opts rest a :
  Forall opens opts -> parse_loop (concat (opt_args <$> opts) ++ rest) a = parse_loop rest (foldl set_opt a opts).
Proof.
  revert a. induction opts as [|o opts IH]; intros a Ho; [done|]. inv Ho.
  destruct o as [|s|s]; cbn [fmap list_fmap opt_args concat app foldl]; rewrite <-IH by done.
  - done.
  - done.
  - cbn in *. by rewrite H1.
Qed.

Lemma parse_loop_range argv a :
  (arg_port a = -1 \/ 1 <= arg_port a <= 65535) -> (parse_loop argv a).1 = 0 ->
  1 <= arg_port (parse_loop argv a).2 <= 65535.
Proof.
  revert a. induction argv as [argv IH] using (induction_ltof1 _ length). unfold ltof in IH. intros a Ha.
  destruct argv as [|x rest]; cbn [parse_loop].
  { destruct (Z.eqb_spec (arg_port a) (-1)); cbn; [done|]. intros _. lia. }
  case_decide; [apply IH; [cbn; lia|done]|].
  case_decide; [|case_decide].
  - destruct rest as [|s rest]; cbn; [done|]. apply IH; [cbn; lia|done].
  - destruct rest as [|s rest]; cbn; [done|]. destruct (fopen s); cbn; [|done]. apply IH; [cbn; lia|done].
  - case_decide; [done|]. cbn. destruct (Z.ltb_spec (atoi x) 1), (Z.ltb_spec 65535 (atoi x)); cbn; try done.
    destruct (Z.eqb_spec (atoi x) (-1)); cbn; [done|]. lia.
Qed.
End arg.

(** C36: the command line is accepted exactly with a port: options are applied in
    order up to the first operand, which must be a decimal number between 1 and
    65535; everything behind it is ignored.  Whatever the command line, when
    [proxy_parse_arg] returns 0 the port is in that range. *)
Theorem parse_arg_spec (fopen : list ascii -> bool) (exe : list ascii) (opts : list opt)
    (port : list ascii) (rest : list (list ascii))
    (Hopts : Forall (opens fopen) opts) (Hport : operand port) :
  (let a := foldl set_opt arg0 opts in
   proxy_parse_arg fopen (exe :: concat (opt_args <$> opts) ++ port :: rest) arg0 =
     (if (1 <=? atoi port) && (atoi port <=? 65535) then 0 else -1,
      ProxyArg (atoi port) (arg_addr a) (verbose a) (log_file a))) /\
  forall argv, (proxy_parse_arg fopen argv arg0).1 = 0 ->
    1 <= arg_port (proxy_parse_arg fopen argv arg0).2 <= 65535.
Proof.
  split.
  - intros a. unfold proxy_parse_arg. cbn [tail]. rewrite parse_loop_opts by done. fold a.
    destruct Hport as (H1&H2&H3&H4). cbn [parse_loop]. rewrite !decide_False by done. cbn [parse_port].
    unfold parse_port. cbn [arg_port].
    destruct (Z.ltb_spec (atoi port) 1), (Z.ltb_spec 65535 (atoi port)), (Z.leb_spec 1 (atoi port)),
      (Z.leb_spec (atoi port) 65535); cbn; try lia; try done.
    by rewrite (proj2 (Z.eqb_neq _ _)) by lia.
  - intros argv. apply parse_loop_range. by left.
Qed.

Lemma parse_arg_spec_witness :
  proxy_parse_arg (fun _ => true)
    (lit "proxy" :: concat (opt_args <$> [OptV; OptA (lit "::1")]) ++ lit "8080x" :: [lit "-h"]) arg0 =
  (0, ProxyArg 8080 (lit "::1") PROXY_LOG_LEVEL_DEBUG None).
Proof.
  refine (eq_trans (proj1 (parse_arg_spec (fun _ => true) (lit "proxy") [OptV; OptA (lit "::1")]
    (lit "8080x") [lit "-h"] _ _)) _).
  - repeat constructor.
  - repeat split; discriminate.
  - vm_compute. reflexivity.
Defined.
