(* ===== verification/Log.v ===== *)
(** src/core/log.c: the line a log message becomes, in its 4096-byte buffer.

    [snprintf] and [vsnprintf] are given the text their format produces. *)

From S2P Require Import Prelude CLib Arg.

#[local] Open Scope Z_scope.

Definition PROXY_LOG_LEN : Z := 4096.

(** [snprintf(buf + off, size, ...)] of the text [s]: at most [size - 1]
    characters and a [NUL], nothing for a size of 0; a negative size is a huge
    [size_t].  A store outside the array is undefined. *)
Definition snprintf_at (buf : cells) (off size : Z) (s : list ascii) : option cells :=
  if size =? 0 then Some buf else
  let s := if 0 <? size then take (Z.to_nat (size - 1)) s else s in
  if 0 <=? off then blit buf (Z.to_nat off) (of_chars s ++ [Some NUL]) else None.

(** [strcat(buf + off, s)]. *)
Definition strcat_at (buf : cells) (off : Z) (s : list ascii) : option cells :=
  t ← cstr_at buf off; blit buf (Z.to_nat off + length t) (of_chars s ++ [Some NUL]).

(** [gen_log_string] with the text of the date and position, and that of the
    message. *)
Definition gen_log_string (out : cells) (out_len : Z) (head msg : list ascii) : option cells :=
  out ← snprintf_at out 0 out_len head;
  let len := Z.of_nat (length head) in
  let out_len := out_len - len in
  out ← snprintf_at out len (out_len - 4) msg;
  if out_len - 4 <=? Z.of_nat (length msg) then strcat_at out (len + (out_len - 5)) (lit " ...") else Some out.

(** *** The date and position *)

(** What [localtime] fills in. *)
Record tm := Tm { tm_wday : nat; tm_mday : Z; tm_mon : nat; tm_year : Z; tm_hour : Z; tm_min : Z; tm_sec : Z }.

Definition week_str : list (list ascii) :=
  lit <$> ["Sun."; "Mon."; "Tue."; "Wed."; "Thu."; "Fri."; "Sat."]%string.
Definition month_str : list (list ascii) :=
  lit <$> ["Jan"; "Feb"; "Mar"; "Apr"; "May"; "Jun"; "Jul"; "Aug"; "Sep"; "Oct"; "Nov"; "Dec"]%string.

(** [%2d] and [%02d]. *)
Definition print_2 (pad : ascii) (n : Z) : list ascii :=
  let s := sprintf_d n in replicate (2 - length s) pad ++ s.

(** The text of ["%s %2d %s %d %02d:%02d:%02d %s %s(%d): "]. *)
Definition log_head (t : tm) (desc file : list ascii) (line : Z) : option (list ascii) :=
  week ← week_str !! tm_wday t;
  month ← month_str !! tm_mon t;
  Some (week ++ SP :: print_2 SP (tm_mday t) ++ SP :: month ++ SP :: sprintf_d (tm_year t + 1900) ++ SP ::
    print_2 "0" (tm_hour t) ++ ":"%char :: print_2 "0" (tm_min t) ++ ":"%char :: print_2 "0" (tm_sec t) ++ SP ::
    desc ++ SP :: file ++ "("%char :: sprintf_d line ++ lit "): ").

(** The line for a message, [None] when its level is filtered out. *)
Definition _PROXY_LOG (a : proxy_arg_t) (buf : cells) (level : Z) (head msg : list ascii)
    : option (option (list ascii)) :=
  if level <? verbose a then Some None else
  buf ← gen_log_string buf PROXY_LOG_LEN head msg;
  line ← cstr_at buf 0;
  Some (Some line).

Definition proxy_log_init (fopen : list ascii -> bool) (a : proxy_arg_t) : proxy_arg_t :=
  match log_file a with
  | Some _ => a
  | None => ProxyArg (arg_port a) (arg_addr a) (verbose a)
              (if fopen (lit "proxy.log") then Some (lit "proxy.log") else None)
  end.

(** [fclose] of a null pointer is undefined. *)
Definition proxy_log_done (a : proxy_arg_t) : option () := match log_file a with Some _ => Some () | None => None end.

(** ** The line *)

Lemma blit_at (a b src : cells) (i : nat) :
  i = length a -> (length src <= length b)%nat ->
  blit (a ++ b) i src = Some (a ++ src ++ drop (length src) b).
Proof.
  intros -> Hl. unfold blit. rewrite decide_True by len_lia.
  rewrite take_app_length, drop_app_ge by lia. do 4 f_equal. lia.
Qed.

Lemma snprintf_at_spec (a b : cells) (off size : Z) (s : list ascii) :
  off = Z.of_nat (length a) -> 0 < size -> size <= Z.of_nat (length b) ->
  let s' := take (Z.to_nat (size - 1)) s in
  snprintf_at (a ++ b) off size s = Some (a ++ of_chars s' ++ Some NUL :: drop (S (length s')) b).
Proof.
  intros -> H0 Hb s'. unfold snprintf_at. rewrite (proj2 (Z.eqb_neq _ _)) by lia.
  rewrite (proj2 (Z.ltb_lt _ _)) by lia. rewrite (proj2 (Z.leb_le _ _)) by lia. fold s'.
  assert (length (of_chars s' ++ [Some NUL]) = S (length s')) as El by (rewrite length_app, length_of_chars; cbn; lia).
  rewrite blit_at; [|lia|].
  - rewrite El. by rewrite <-app_assoc.
  - rewrite El. unfold s'. rewrite length_take. lia.
Qed.

Lemma cstr_at_0 (s : list ascii) (r : cells) : NUL ∉ s -> cstr_at (of_chars s ++ Some NUL :: r) 0 = Some s.
Proof. intros Hs. by apply cstr_of_chars. Qed.

(** The text of a log line whose message does not fit. *)
Definition log_line (out_len : Z) (head msg : list ascii) : list ascii :=
  let room := out_len - Z.of_nat (length head) - 5 in
  head ++ if Z.of_nat (length msg) <=? room then msg else take (Z.to_nat room) msg ++ lit " ...".

(** C35: a log line never leaves its buffer: when the date and position take at
    most all but 5 bytes of it, [gen_log_string] stores inside the buffer only,
    and leaves them followed by the message, or by as much of it as fits with
    a [" ..."] behind. *)
Theorem gen_log_string_fits (out : cells) (out_len : Z) (head msg : list ascii)
    (Hlen : Z.of_nat (length out) = out_len) (Hhead : Z.of_nat (length head) + 5 <= out_len)
    (Hn : NUL ∉ head ++ msg) :
  exists out', gen_log_string out out_len head msg = Some out' /\ length out' = length out /\
    cstr_at out' 0 = Some (log_line out_len head msg) /\
    Z.of_nat (length (log_line out_len head msg)) < out_len.
Proof.
  set (L := Z.of_nat (length head)) in *. set (N := out_len - L). unfold gen_log_string. fold L.
  pose proof (snprintf_at_spec [] out 0 out_len head eq_refl ltac:(lia) ltac:(lia)) as E1.
  cbv zeta in E1. cbn [app] in E1. rewrite E1. cbn [mbind option_bind].
  rewrite (take_ge head) by lia. set (b1 := Some NUL :: drop (S (length head)) out).
  assert (length b1 = Z.to_nat N) as Hb1 by (unfold b1, N, L; cbn; rewrite length_drop; lia).
  fold N. rewrite (snprintf_at_spec (of_chars head) b1 L (N - 4) msg) by (rewrite ?length_of_chars; unfold N; lia).
  cbn [mbind option_bind]. set (m := take (Z.to_nat (N - 4 - 1)) msg).
  assert (length m = Nat.min (Z.to_nat (N - 5)) (length msg)) as Hm by (unfold m; rewrite length_take; lia).
  assert ((NUL ∉ head) /\ NUL ∉ msg) as [Hnh Hnm] by (rewrite elem_of_app in Hn; tauto).
  assert (NUL ∉ m) as Hnm' by (unfold m; intros (i&Hi&_)%elem_of_take; by apply Hnm, (list_elem_of_lookup_2 _ i)).
  unfold log_line. fold L. replace (out_len - L - 5) with (N - 5) by (unfold N; lia).
  destruct (Z.leb_spec (N - 4) (Z.of_nat (length msg))) as [Hbig|Hsmall].
  - rewrite (proj2 (Z.leb_gt _ _)) by lia.
    set (b2 := Some NUL :: drop (S (length m)) b1).
    assert (length b2 = 5%nat) as Hb2 by (unfold b2; cbn [length]; rewrite length_drop, Hb1, Hm; lia).
    assert (L + (N - 5) = Z.of_nat (length (of_chars (head ++ m)))) as Eo
      by (rewrite length_of_chars, length_app; unfold L in *; lia).
    replace (of_chars head ++ of_chars m ++ b2) with (of_chars (head ++ m) ++ b2)
      by by rewrite of_chars_app, <-app_assoc.
    unfold strcat_at. rewrite Eo.
    assert (cstr_at (of_chars (head ++ m) ++ b2) (Z.of_nat (length (of_chars (head ++ m)))) = Some []) as ->.
    { unfold cstr_at. rewrite (proj2 (Z.leb_le _ _)) by lia. by rewrite Nat2Z.id, drop_app_length. }
    cbn [mbind option_bind length]. rewrite Nat.add_0_r, Nat2Z.id.
    set (dots := lit " ...") in *. assert (length dots = 4%nat) as Hdots by done.
    rewrite (blit_at (of_chars (head ++ m)) b2);
      [|done|rewrite length_app, length_of_chars, Hdots, Hb2; cbn; lia].
    eexists. split; [reflexivity|].
    assert (take (Z.to_nat (N - 5)) msg = m) as -> by (unfold m; f_equal; lia).
    replace (drop _ b2) with ([] : cells) by (symmetry; apply drop_ge; rewrite length_app, length_of_chars, Hdots, Hb2; cbn; lia).
    rewrite app_nil_r, app_assoc, <-of_chars_app, <-app_assoc. split_and!.
    + rewrite !length_app, length_of_chars, !length_app. cbn. unfold L, N in *. lia.
    + apply cstr_at_0. rewrite !elem_of_app. intros [?|[?|Hd]]; [done..|].
      revert Hd. by apply (bool_decide_unpack _).
    + rewrite !length_app, Hdots. unfold L, N in *. lia.
  - rewrite (proj2 (Z.leb_le _ _)) by lia. assert (m = msg) as -> by (apply take_ge; lia).
    eexists. split; [reflexivity|]. rewrite app_assoc, <-of_chars_app. split_and!.
    + rewrite length_app, length_of_chars, length_app. cbn [length]. rewrite length_drop, Hb1.
      unfold L, N in *. lia.
    + apply cstr_at_0. rewrite elem_of_app. tauto.
    + rewrite length_app. unfold L, N in *. lia.
Qed.

Lemma gen_log_string_fits_witness :
  exists out', gen_log_string (replicate 20 None) 20 (lit "D m(7): ") (lit "hello world") = Some out' /\
    length out' = 20%nat /\ cstr_at out' 0 = Some (lit "D m(7): hello w ...") /\
    Z.of_nat (length (lit "D m(7): hello w ...")) < 20.
Proof.
  apply (gen_log_string_fits (replicate 20 None) 20 (lit "D m(7): ") (lit "hello world")).
  - reflexivity.
  - vm_compute. discriminate.
  - apply (bool_decide_unpack _). vm_compute. exact I.
Defined.

(** ** The date and position *)

(** What the manual says of the fields; the year is one of four digits. *)
Definition tm_ok (t : tm) : Prop :=
  (tm_wday t <= 6)%nat /\ (tm_mon t <= 11)%nat /\ 1 <= tm_mday t <= 31 /\ 0 <= tm_year t <= 8099 /\
  0 <= tm_hour t <= 23 /\ 0 <= tm_min t <= 59 /\ 0 <= tm_sec t <= 60.

Lemma print_2_length pad n : INT_MIN <= n <= INT_MAX -> (length (print_2 pad n) <= 11)%nat.
Proof. intros Hn. unfold print_2. rewrite length_app, length_replicate. pose proof (sprintf_d_length n Hn). lia. Qed.

Lemma lookup_short (l : list (list ascii)) i n : (i < length l)%nat -> Forall (fun s => (length s <= n)%nat) l ->
  exists s, l !! i = Some s /\ (length s <= n)%nat.
Proof.
  intros Hi Hl. destruct (lookup_lt_is_Some_2 l i Hi) as [s Hs]. exists s. split; [done|].
  apply (proj1 (Forall_forall _ _) Hl). by eapply list_elem_of_lookup_2.
Qed.

(** The date and position are always there, and with a file or function name and a
    level of at most 4000 characters together they leave the room that
    [gen_log_string_fits] asks for. *)
Theorem log_head_fits (t : tm) (desc file : list ascii) (line : Z)
    (Ht : tm_ok t) (Hline : INT_MIN <= line <= INT_MAX) (Hlen : (length desc + length file <= 4000)%nat) :
  exists head, log_head t desc file line = Some head /\ Z.of_nat (length head) + 5 <= PROXY_LOG_LEN.
Proof.
  destruct Ht as (Hw&Hm&Hd&Hy&Hh&Hmi&Hs).
  destruct (lookup_short week_str (tm_wday t) 4) as (week&Ew&Hwl); [cbn; lia|repeat constructor; cbn; lia|].
  destruct (lookup_short month_str (tm_mon t) 3) as (month&Em&Hml); [cbn; lia|repeat constructor; cbn; lia|].
  unfold log_head. rewrite Ew. cbn [mbind option_bind]. rewrite Em. cbn [mbind option_bind]. eexists. split; [reflexivity|].
  pose proof (print_2_length SP (tm_mday t)). pose proof (print_2_length "0" (tm_hour t)). pose proof (print_2_length "0" (tm_min t)).
  pose proof (print_2_length "0" (tm_sec t)). pose proof (sprintf_d_length line Hline). pose proof (sprintf_d_length (tm_year t + 1900)).
  unfold INT_MIN, INT_MAX, PROXY_LOG_LEN in *. repeat (rewrite length_app || cbn [length]). change (length (lit "): ")) with 3%nat. lia.
Qed.

Lemma log_head_fits_witness : exists head,
  log_head (Tm 4 1 0 70 0 5 9) (lit "I") (lit "event_work") 42 = Some head /\ Z.of_nat (length head) + 5 <= PROXY_LOG_LEN.
Proof.
  apply (log_head_fits (Tm 4 1 0 70 0 5 9) (lit "I") (lit "event_work") 42).
  - unfold tm_ok. cbn. lia.
  - unfold INT_MIN, INT_MAX. lia.
  - vm_compute. lia.
Defined.

Example log_head_demo : log_head (Tm 4 1 0 70 0 5 9) (lit "I") (lit "event_work") 42 =
  Some (lit "Thu.  1 Jan 1970 00:05:09 I event_work(42): ").
Proof. vm_compute. reflexivity. Qed.

(** [proxy_log_init] is called before the options are parsed: it always opens the
    default file, and the file of an option replaces it without closing it. *)
Lemma log_init_opens fopen : proxy_log_init fopen arg0 =
  ProxyArg (-1) (lit "127.0.0.1") PROXY_LOG_LEVEL_INFO (if fopen (lit "proxy.log") then Some (lit "proxy.log") else None).
Proof. done. Qed.
