(* ===== verification/Proxy.v ===== *)
(** [parse_uri] of src/proxy.c.  Strings are given up to their [NUL]; a result
    [None] is undefined behaviour. *)

From S2P Require Import Prelude CLib.

#[local] Open Scope Z_scope.

Definition tolower (c : ascii) : ascii := if in_range "A" "Z" c then to_char (uchar c + 32) else c.

(** [strncasecmp(s, t, length t) == 0]. *)
Fixpoint has_prefix_nocase (t s : list ascii) : bool :=
  match t, s with
  | [], _ => true
  | a :: t, b :: s => bool_decide (tolower a = tolower b) && has_prefix_nocase t s
  | _ :: _, [] => false
  end.

(** The characters given to [strpbrk]; the [NUL] written behind them ends the
    string of characters, it is not one of them. *)
Definition uri_sep (c : ascii) : bool := bool_decide (c ∈ [SP; ":"%char; "/"%char; CR; LF]).

Definition not_slash (c : ascii) : bool := negb (bool_decide (c = "/"%char)).

(** The return value, [hostname], and [pathname] and [port] where they were
    assigned. *)
Record uri_parts := UriParts {
  uri_ret : Z; hostname : list ascii; pathname : option (list ascii); uri_port : option Z
}.

Definition parse_uri (uri : list ascii) : option uri_parts :=
  if negb (has_prefix_nocase (lit "http://") uri) then Some (UriParts (-1) [] None None) else
  let hostbegin := drop 7 uri in
  match drop_while (fun c => negb (uri_sep c)) hostbegin with
  | [] => None
  | c :: rest =>
      let hostname := take_while (fun c => negb (uri_sep c)) hostbegin in
      let port := if decide (c = ":"%char) then atoi rest else 80 in
      let path := match drop_while not_slash hostbegin with [] => [] | _ :: path => path end in
      Some (UriParts 0 hostname (Some path) (Some port))
  end.

Lemma drop_while_stop f s c t :
  Forall (fun c => f c = true) s -> f c = false -> drop_while f (s ++ c :: t) = c :: t.
Proof. induction 1 as [|x s Hx _ IH]; cbn; intros Hc; [by rewrite Hc|]. by rewrite Hx, IH. Qed.

Lemma take_while_stop f s c t :
  Forall (fun c => f c = true) s -> f c = false -> take_while f (s ++ c :: t) = s.
Proof. induction 1 as [|x s Hx _ IH]; cbn; intros Hc; [by rewrite Hc|]. by rewrite Hx, IH. Qed.

Lemma drop_while_all f s : Forall (fun c => f c = true) s -> drop_while f s = [].
Proof. induction 1 as [|x s Hx _ IH]; cbn; [done|]. by rewrite Hx. Qed.

Lemma atoi_digits_then x c t :
  0 <= x <= INT_MAX -> isdigit c = false -> atoi (sprintf_d x ++ c :: t) = x.
Proof.
  intros Hx Hc. unfold INT_MAX in Hx. unfold sprintf_d, atoi. rewrite (proj2 (Z.ltb_ge _ _)) by lia.
  destruct (digits_aux_spec 10 x []) as (ds&->&Hds&Hlen&Hv); [simpl; lia|lia|]. rewrite app_nil_r.
  rewrite strtol10_digits; [|done|done|by destruct ds; simpl in *; try lia].
  rewrite Hv. unfold LONG_MAX. rewrite wrap32_small; unfold INT_MIN, INT_MAX; lia.
Qed.

Lemma sprintf_d_not_slash x : INT_MIN <= x <= INT_MAX -> Forall (fun c => not_slash c = true) (sprintf_d x).
Proof.
  intros Hx. eapply Forall_impl; [by apply sprintf_d_chars|]. intros c [Hc| ->]; [|done].
  by destruct c as [[] [] [] [] [] [] [] []].
Qed.

Lemma no_sep_not_slash h : Forall (fun c => negb (uri_sep c) = true) h -> Forall (fun c => not_slash c = true) h.
Proof.
  intros H. eapply Forall_impl; [exact H|]. intros c Hc. unfold not_slash.
  destruct (bool_decide_reflect (c = "/"%char)) as [->|]; done.
Qed.

(** C38: [parse_uri] reads back what makes up an absolute URI: for every scheme
    spelling of [http://], host without separators, port and path, the parts of
    [http://host:port/path] and of [http://host/path] (with port 80) are
    recovered.  On [http://host] with nothing behind the host it computes with
    the null pointer [strpbrk] returns. *)
Theorem parse_uri_parts (scheme host path : list ascii) (port : Z)
    (Hscheme : tolower <$> scheme = lit "http://")
    (Hhost : Forall (fun c => negb (uri_sep c) = true) host) (Hport : 0 <= port <= INT_MAX) :
  parse_uri (scheme ++ host ++ lit ":" ++ sprintf_d port ++ lit "/" ++ path) =
    Some (UriParts 0 host (Some path) (Some port)) /\
  parse_uri (scheme ++ host ++ lit "/" ++ path) = Some (UriParts 0 host (Some path) (Some 80)) /\
  parse_uri (scheme ++ host) = None.
Proof.
  assert (length scheme = 7%nat) as Hl.
  { apply (f_equal length) in Hscheme. rewrite length_fmap in Hscheme. exact Hscheme. }
  assert (forall s, has_prefix_nocase (lit "http://") (scheme ++ s) = true) as Hpre.
  { intros s. change (lit "http://") with (tolower <$> lit "http://") in Hscheme.
    revert Hscheme. generalize (lit "http://"). clear. induction scheme as [|c scheme IH]; intros [|d t] E; try done.
    injection E as Ec Et. cbn. rewrite bool_decide_true by done. by apply IH. }
  assert (forall s, drop 7 (scheme ++ s) = s) as Hdrop by (intros s; rewrite <-Hl; apply drop_app_length).
  pose proof (no_sep_not_slash _ Hhost) as Hhost'.
  unfold parse_uri. rewrite !Hpre, !Hdrop. cbn [negb]. split_and!.
  - cbn [lit String.list_ascii_of_string app]. rewrite drop_while_stop, take_while_stop by done.
    rewrite decide_True by done. rewrite atoi_digits_then by done. do 3 f_equal.
    rewrite app_comm_cons, app_assoc, drop_while_stop; [done| |done].
    apply Forall_app. split; [done|]. constructor; [done|]. apply sprintf_d_not_slash. unfold INT_MIN. lia.
  - cbn [lit String.list_ascii_of_string app]. rewrite drop_while_stop, take_while_stop by done.
    rewrite decide_False by done. by rewrite drop_while_stop.
  - by rewrite drop_while_all.
Qed.

Lemma parse_uri_parts_witness :
  parse_uri (lit "HTTP://" ++ lit "a.b" ++ lit ":" ++ sprintf_d 81 ++ lit "/" ++ lit "x/y") =
    Some (UriParts 0 (lit "a.b") (Some (lit "x/y")) (Some 81)) /\
  parse_uri (lit "HTTP://" ++ lit "a.b" ++ lit "/" ++ lit "x/y") =
    Some (UriParts 0 (lit "a.b") (Some (lit "x/y")) (Some 80)) /\
  parse_uri (lit "HTTP://" ++ lit "a.b") = None.
Proof.
  apply (parse_uri_parts (lit "HTTP://") (lit "a.b") (lit "x/y") 81).
  - vm_compute. reflexivity.
  - repeat constructor.
  - unfold INT_MAX. lia.
Defined.
