(* ===== verification/Text.v ===== *)
(** The functions that only produce text: addresses (net_utils.c, conn.c), the
    line of a served request (log.c), and [format_log_entry] (proxy.c).

    [inet_ntop] is a parameter: the text of an address of a family, [None] when
    it knows none.  The texts of [strftime] and [strerror] are arguments. *)

From S2P Require Import Prelude CLib ConnIf World Conn Log.

#[local] Open Scope Z_scope.

Definition sprintf_at (buf : cells) (i : nat) (s : list ascii) : option cells :=
  blit buf i (of_chars s ++ [Some NUL]).

Section text.
Context (inet_ntop : Z -> list Z -> option (list ascii)).

(** [inet_ntop(family, addr, buf + off, size)]: the array afterwards and whether
    the text fits; if not, nothing is stored. *)
Definition inet_ntop_at (buf : cells) (off : nat) (size : Z) (family : Z) (addr : list Z) : option (bool * cells) :=
  match inet_ntop family addr with
  | Some s =>
      if Z.of_nat (length s) <? size then b ← sprintf_at buf off s; Some (true, b) else Some (false, buf)
  | None => Some (false, buf)
  end.

(** The result is the static array, whatever [inet_ntop] says. *)
Definition net_tostring (buf : cells) (family : Z) (addr : list Z) : option cells :=
  '(_, b) ← inet_ntop_at buf 0 256 family addr; Some b.

(** The string and the static array. *)
Definition ep_tostring (buf : cells) (error : list ascii) (ep : conn_endpoint) : option (list ascii * cells) :=
  '(ok, buf) ← inet_ntop_at buf 1 255 (family ep) (addr ep);
  if negb (ok : bool) then Some (error, buf) else
  s ← cstr_at buf 1;
  let last := (length s + 1)%nat in
  if family ep =? AF_INET6 then
    buf ← store buf 0 "["%char;
    buf ← sprintf_at buf last (lit "]:" ++ sprintf_d (htons (ep_port ep)));
    s ← cstr_at buf 0; Some (s, buf)
  else
    buf ← sprintf_at buf last (lit ":" ++ sprintf_d (htons (ep_port ep)));
    s ← cstr_at buf 1; Some (s, buf).

(** The line written to the log file; [ip_str] is static and keeps its text when
    [inet_ntop] fails. *)
Definition log_http_req (time_str : list ascii) (ip_str : cells) (ep : conn_endpoint) (host path : list ascii) (size : Z)
    : option (list ascii * cells) :=
  '(_, b) ← inet_ntop_at ip_str 0 PROXY_LOG_LEN (family ep) (addr ep);
  ip ← cstr_at b 0;
  Some (time_str ++ lit ": " ++ ip ++ lit " http://" ++ host ++ path ++ lit " " ++ sprintf_d size ++ lit (String LF ""), b).
End text.

(** [sin_addr.s_addr], whose bytes in memory are [b0] to [b3], on a little-endian
    machine, and [ntohl]. *)
Definition s_addr (b0 b1 b2 b3 : Z) : Z := b0 + 256 * b1 + 65536 * b2 + 16777216 * b3.
Definition ntohl (v : Z) : Z :=
  Z.lor (Z.lor (Z.shiftl (Z.land v 255) 24) (Z.shiftl (Z.land (Z.shiftr v 8) 255) 16))
        (Z.lor (Z.shiftl (Z.land (Z.shiftr v 16) 255) 8) (Z.land (Z.shiftr v 24) 255)).

(** [a] is an [unsigned char]; [size] is not used. *)
Definition format_log_entry (logstring : cells) (time_str : list ascii) (s_addr : Z) (uri : list ascii) (size : Z)
    : option cells :=
  let host := ntohl s_addr in
  let a := Z.land (Z.shiftr host 24) 255 in
  let b := Z.land (Z.shiftr host 16) 255 in
  let c := Z.land (Z.shiftr host 8) 255 in
  let d := Z.land host 255 in
  sprintf_at logstring 0 (time_str ++ lit ": " ++ sprintf_d a ++ lit "." ++ sprintf_d b ++ lit "." ++
    sprintf_d c ++ lit "." ++ sprintf_d d ++ lit " " ++ uri).

(** ** The texts *)

Lemma sprintf_at_spec (a b : cells) (s : list ascii) : (length s < length b)%nat ->
  sprintf_at (a ++ b) (length a) s = Some (a ++ of_chars s ++ Some NUL :: drop (S (length s)) b).
Proof.
  intros Hl. unfold sprintf_at. rewrite blit_at; [|done|rewrite length_app, length_of_chars; cbn; lia].
  rewrite length_app, length_of_chars. cbn [length]. rewrite Nat.add_1_r. by rewrite <-app_assoc.
Qed.

(** A number and one below it. *)
Lemma lor_add a b n : 0 <= n -> 0 <= b < 2 ^ n -> Z.lor (Z.shiftl a n) b = a * 2 ^ n + b.
Proof.
  intros Hn Hb. rewrite <-Z.shiftl_mul_pow2 by done. symmetry. apply Z.add_nocarry_lor. apply Z.bits_inj'. intros i Hi.
  rewrite Z.land_spec, Z.bits_0. destruct (Z.lt_ge_cases i n) as [Hin|Hin]; [by rewrite Z.shiftl_spec_low|].
  rewrite <-(Z.mod_small b (2 ^ n)), Z.mod_pow2_bits_high by lia. apply andb_false_r.
Qed.

Lemma byte_of v k : 0 <= k -> Z.land (Z.shiftr v k) 255 = (v / 2 ^ k) mod 256.
Proof. intros Hk. change 255 with (Z.ones 8). rewrite Z.land_ones, Z.shiftr_div_pow2 by lia. done. Qed.

Lemma htons_range v : 0 <= htons v <= 65535.
Proof.
  unfold htons. cbv zeta. set (u := u16 v). assert (0 <= u < 65536) as Hu by (unfold u, u16; apply Z.mod_pos_bound; lia).
  rewrite lor_add; [|lia|].
  - change 255 with (Z.ones 8). rewrite Z.land_ones, Z.shiftr_div_pow2 by lia. change (2 ^ 8) with 256. Z.to_euclidean_division_equations. lia.
  - rewrite Z.shiftr_div_pow2 by lia. change (2 ^ 8) with 256. Z.to_euclidean_division_equations. lia.
Qed.

Lemma ntohl_s_addr b0 b1 b2 b3 : 0 <= b0 < 256 -> 0 <= b1 < 256 -> 0 <= b2 < 256 -> 0 <= b3 < 256 ->
  ntohl (s_addr b0 b1 b2 b3) = b0 * 2 ^ 24 + b1 * 2 ^ 16 + b2 * 2 ^ 8 + b3.
Proof.
  intros H0 H1 H2 H3. unfold ntohl, s_addr. set (v := b0 + _ + _ + _).
  rewrite <-(Z.shiftr_0_r v) at 1. rewrite !byte_of by lia.
  assert ((v / 2 ^ 0) mod 256 = b0) as -> by (unfold v; change (2 ^ 0) with 1; Z.to_euclidean_division_equations; lia).
  assert ((v / 2 ^ 8) mod 256 = b1) as -> by (unfold v; change (2 ^ 8) with 256; Z.to_euclidean_division_equations; lia).
  assert ((v / 2 ^ 16) mod 256 = b2) as -> by (unfold v; change (2 ^ 16) with 65536; Z.to_euclidean_division_equations; lia).
  assert ((v / 2 ^ 24) mod 256 = b3) as -> by (unfold v; change (2 ^ 24) with 16777216; Z.to_euclidean_division_equations; lia).
  rewrite <-Z.lor_assoc. rewrite (lor_add b2 b3 8) by lia. rewrite (lor_add b1) by lia. rewrite lor_add by lia. lia.
Qed.

(** The text of an endpoint. *)
Definition ep_text (ep : conn_endpoint) (s : list ascii) : list ascii :=
  if family ep =? AF_INET6 then lit "[" ++ s ++ lit "]:" ++ sprintf_d (htons (ep_port ep))
  else s ++ lit ":" ++ sprintf_d (htons (ep_port ep)).

Lemma store_head b (r : cells) c : store (b :: r) 0 c = Some (Some c :: r).
Proof. unfold store. cbn [length]. rewrite (proj2 (Z.ltb_lt _ _)) by lia. done. Qed.

(** [ep_tostring] stays inside its 256 bytes and gives the address and the port in
    host order, an IPv6 address in brackets, when the text of the address has at most
    241 characters. *)
Theorem ep_tostring_text inet_ntop (buf : cells) error ep s : length buf = 256%nat ->
  inet_ntop (family ep) (addr ep) = Some s -> (length s <= 241)%nat -> NUL ∉ s ->
  exists buf', ep_tostring inet_ntop buf error ep = Some (ep_text ep s, buf') /\ length buf' = 256%nat.
Proof.
  intros Hb Hs Hl Hn. unfold ep_tostring, inet_ntop_at. rewrite Hs. rewrite (proj2 (Z.ltb_lt _ _)) by lia.
  destruct buf as [|b0 buf]; [done|]. cbn in Hb. injection Hb as Hb.
  change (sprintf_at (b0 :: buf) 1 s) with (sprintf_at ([b0] ++ buf) (length [b0]) s).
  rewrite (sprintf_at_spec [b0] buf s) by lia. cbn [mbind option_bind negb app].
  set (port := sprintf_d (htons (ep_port ep))).
  pose proof (htons_range (ep_port ep)) as Hport.
  assert ((0 < length port <= 11)%nat /\ NUL ∉ port) as [Hpl Hpn].
  { split; [apply sprintf_d_length|apply sprintf_d_no_NUL]; unfold INT_MIN, INT_MAX; lia. }
  set (tl := drop (S (length s)) buf).
  assert (length tl = 255 - S (length s))%nat as Htl by (unfold tl; rewrite length_drop; lia).
  assert (cstr_at (b0 :: of_chars s ++ Some NUL :: tl) 1 = Some s) as -> by (by apply (cstr_at_app [b0] s tl 1)).
  cbn [mbind option_bind]. unfold ep_text. fold port.
  assert (forall c t, (length t <= 13)%nat -> sprintf_at (c :: of_chars s ++ Some NUL :: tl) (length s + 1) t =
    Some (c :: of_chars (s ++ t) ++ Some NUL :: drop (S (length t)) (Some NUL :: tl))) as Hsp.
  { intros c t Ht. replace (length s + 1)%nat with (length (c :: of_chars s)) by (cbn; rewrite length_of_chars; lia).
    change (c :: of_chars s ++ ?r) with ((c :: of_chars s) ++ r). rewrite sprintf_at_spec by (cbn; lia).
    by rewrite of_chars_app, <-!app_assoc. }
  assert (forall c t, length (c :: of_chars (s ++ t) ++ Some NUL :: drop (S (length t)) (Some NUL :: tl)) =
    (2 + length s + length t + (256 - (2 + length s + length t)))%nat) as Hlen.
  { intros c t. cbn [length]. rewrite length_app, length_of_chars, length_app. cbn [length drop]. rewrite length_drop. lia. }
  destruct (Z.eqb_spec (family ep) AF_INET6) as [Hf|Hf].
  - rewrite store_head. cbn [mbind option_bind]. rewrite Hsp by (cbn; lia). cbn [mbind option_bind].
    assert (forall r, cstr_at (Some "["%char :: of_chars (s ++ lit "]:" ++ port) ++ Some NUL :: r) 0 = Some ("["%char :: s ++ lit "]:" ++ port)) as ->.
    { intros r. apply (cstr_at_app [] ("["%char :: s ++ lit "]:" ++ port) r 0 eq_refl).
      rewrite not_elem_of_cons, !not_elem_of_app. split_and!; first [done|apply (bool_decide_unpack _); vm_compute; exact I]. }
    eexists. split; [done|]. rewrite Hlen, length_app. change (length (lit "]:")) with 2%nat. lia.
  - rewrite Hsp by (cbn; lia). cbn [mbind option_bind].
    assert (forall r, cstr_at (b0 :: of_chars (s ++ lit ":" ++ port) ++ Some NUL :: r) 1 = Some (s ++ lit ":" ++ port)) as ->.
    { intros r. apply (cstr_at_app [b0] (s ++ lit ":" ++ port) r 1 eq_refl).
      rewrite !not_elem_of_app. split_and!; first [done|apply (bool_decide_unpack _); vm_compute; exact I]. }
    eexists. split; [done|]. rewrite Hlen, length_app. change (length (lit ":")) with 1%nat. lia.
Qed.

Lemma ep_tostring_text_witness :
  exists buf', ep_tostring (fun _ _ => Some (lit "::1")) (replicate 256 None) [] (Endpoint AF_INET6 20480 []) =
    Some (lit "[::1]:80", buf').
Proof.
  destruct (ep_tostring_text (fun _ _ => Some (lit "::1")) (replicate 256 None) [] (Endpoint AF_INET6 20480 []) (lit "::1"))
    as (buf'&H&_); [done|done|vm_compute; lia|apply (bool_decide_unpack _); vm_compute; exact I|].
  exists buf'. rewrite H. reflexivity.
Defined.

(** [format_log_entry] prints the bytes of the address in the order they have in
    memory, inside any string with room for the line. *)
Theorem format_log_entry_text (logstring : cells) time_str b0 b1 b2 b3 uri size :
  0 <= b0 < 256 -> 0 <= b1 < 256 -> 0 <= b2 < 256 -> 0 <= b3 < 256 -> (NUL ∉ time_str) -> NUL ∉ uri ->
  (length time_str + length uri + 50 < length logstring)%nat ->
  exists out, format_log_entry logstring time_str (s_addr b0 b1 b2 b3) uri size = Some out /\
    cstr_at out 0 = Some (time_str ++ lit ": " ++ sprintf_d b0 ++ lit "." ++ sprintf_d b1 ++ lit "." ++
      sprintf_d b2 ++ lit "." ++ sprintf_d b3 ++ lit " " ++ uri).
Proof.
  intros H0 H1 H2 H3 Ht Hu Hl. unfold format_log_entry. rewrite ntohl_s_addr by done. set (h := _ + _ + _ + _).
  cbv zeta. assert (Z.land h 255 = (h / 2 ^ 0) mod 256) as -> by (rewrite <-(Z.shiftr_0_r h) at 1; by apply byte_of).
  rewrite !byte_of by lia.
  assert ((h / 2 ^ 24) mod 256 = b0) as -> by (unfold h; change (2 ^ 24) with 16777216; change (2 ^ 16) with 65536; change (2 ^ 8) with 256; Z.to_euclidean_division_equations; lia).
  assert ((h / 2 ^ 16) mod 256 = b1) as -> by (unfold h; change (2 ^ 24) with 16777216; change (2 ^ 16) with 65536; change (2 ^ 8) with 256; Z.to_euclidean_division_equations; lia).
  assert ((h / 2 ^ 8) mod 256 = b2) as -> by (unfold h; change (2 ^ 24) with 16777216; change (2 ^ 16) with 65536; change (2 ^ 8) with 256; Z.to_euclidean_division_equations; lia).
  assert ((h / 2 ^ 0) mod 256 = b3) as -> by (unfold h; change (2 ^ 24) with 16777216; change (2 ^ 16) with 65536; change (2 ^ 8) with 256; change (2 ^ 0) with 1; Z.to_euclidean_division_equations; lia).
  set (line := time_str ++ _).
  assert (forall b, 0 <= b < 256 -> (length (sprintf_d b) <= 11)%nat /\ NUL ∉ sprintf_d b) as Hd.
  { intros b Hb. split; [apply sprintf_d_length|apply sprintf_d_no_NUL]; unfold INT_MIN, INT_MAX; lia. }
  destruct (Hd b0 H0), (Hd b1 H1), (Hd b2 H2), (Hd b3 H3).
  assert (length line < length logstring)%nat as Hll.
  { unfold line. rewrite !length_app. change (length (lit ": ")) with 2%nat. change (length (lit ".")) with 1%nat.
    change (length (lit " ")) with 1%nat. lia. }
  pose proof (sprintf_at_spec [] logstring line Hll) as E. cbn [app length] in E. rewrite E. eexists. split; [done|].
  apply (cstr_at_0 line). unfold line. rewrite !not_elem_of_app.
  split_and!; first [done|apply (bool_decide_unpack _); vm_compute; exact I].
Qed.
