(* ===== verification/Wrappers.v ===== *)
(** The functions of src/csapp.c that call one function of the C library each
    and end the process when it fails.

    The C library is a parameter: [libc c] performs the call [c] and gives its
    result as a number (of a pointer, its address).  Buffers, semaphores and the
    other objects that are handed over by address are in the world [W]. *)

From S2P Require Import Prelude CLib Outcome ConnIf.

#[local] Open Scope Z_scope.

(** ** Error-handling functions *)

(** How control can leave a function without a return. *)
Inductive stop := Exit (status : Z) | Thread_exit (retval : Z).

(** [eprint] is [fprintf(stderr, ...)] with its text formatted. *)
Class Errors (W : Type) := {
  errno : W -> Z;
  h_errno : W -> Z;
  strerror : Z -> list ascii;
  eprint : list ascii -> W -> W
}.

(** A part of the state of its own beside the world. *)
#[export] Instance errors_snd {X W : Type} `{!Errors W} : Errors (X * W) := {
  errno s := errno s.2;
  h_errno s := h_errno s.2;
  strerror := strerror;
  eprint t s := (s.1, eprint t s.2)
}.

Definition call {S A} (f : S -> A * S) : M S A := fun s => let '(a, s) := f s in Ok a s.

Section errors.
Context {W : Type} `{!Errors W}.

(** The status is 0 although it is an error. *)
Definition unix_error {A} (msg : list ascii) : M W (stop + A) :=
  e ← get errno;
  _ ← modify (eprint (msg ++ lit ": " ++ strerror e ++ [LF]));
  mret (inl (Exit 0)).

Definition posix_error {A} (code : Z) (msg : list ascii) : M W (stop + A) :=
  _ ← modify (eprint (msg ++ lit ": " ++ strerror code ++ [LF]));
  mret (inl (Exit 0)).

Definition dns_error {A} (msg : list ascii) : M W (stop + A) :=
  e ← get h_errno;
  _ ← modify (eprint (msg ++ lit ": DNS error " ++ sprintf_d e ++ [LF]));
  mret (inl (Exit 0)).

Definition app_error {A} (msg : list ascii) : M W (stop + A) :=
  _ ← modify (eprint (msg ++ [LF]));
  mret (inl (Exit 0)).
End errors.

(** ** The wrappers *)

(** The address of an object, 0 for [NULL]. *)
Abbreviation ptr := Z (only parsing).
Definition NULL : ptr := 0.
(** [(void * ) -1]. *)
Definition MAP_FAILED : ptr := 2 ^ 64 - 1.
Definition EOF : Z := -1.
Definition ETIMEDOUT : Z := 110.
Definition SA_RESTART : Z := 268435456.

(** [sa_mask] is the set of the signals that are blocked. *)
Record sigaction := Sigaction { sa_handler : ptr; sa_mask : list Z; sa_flags : Z }.

(** The calls of the C library, with their arguments. *)
Inductive libc_call :=
| c_fork | c_execve (filename argv envp : ptr) | c_wait (status : ptr) | c_waitpid (pid : Z) (iptr : ptr) (options : Z)
| c_kill (pid signum : Z) | c_pause | c_sleep (secs : Z) | c_alarm (seconds : Z) | c_setpgid (pid pgid : Z) | c_getpgrp
| c_sigprocmask (how : Z) (set oldset : ptr) | c_sigemptyset (set : ptr) | c_sigfillset (set : ptr)
| c_sigaddset (set : ptr) (signum : Z) | c_sigdelset (set : ptr) (signum : Z) | c_sigismember (set : ptr) (signum : Z)
| c_open (pathname : ptr) (flags mode : Z) | c_read (fd : Z) (buf : ptr) (count : Z) | c_write (fd : Z) (buf : ptr) (count : Z)
| c_lseek (fildes offset whence : Z) | c_close (fd : Z) | c_select (n : Z) (readfds writefds exceptfds timeout : ptr)
| c_dup2 (fd1 fd2 : Z) | c_stat (filename buf : ptr) | c_fstat (fd : Z) (buf : ptr)
| c_mmap (addr : ptr) (len prot flags fd offset : Z) | c_munmap (start : ptr) (len : Z)
| c_malloc (size : Z) | c_realloc (p : ptr) (size : Z) | c_calloc (nmemb size : Z) | c_free (p : ptr)
| c_fclose (fp : ptr) | c_fdopen (fd : Z) (type : ptr) | c_fgets (p : ptr) (n : Z) (stream : ptr) | c_ferror (stream : ptr)
| c_fopen (filename mode : ptr) | c_fputs (p stream : ptr) | c_fread (p : ptr) (size nmemb : Z) (stream : ptr)
| c_fwrite (p : ptr) (size nmemb : Z) (stream : ptr)
| c_socket (domain type protocol : Z) | c_setsockopt (s level optname : Z) (optval : ptr) (optlen : Z)
| c_bind (sockfd : Z) (my_addr : ptr) (addrlen : Z) | c_listen (s backlog : Z) | c_accept (s : Z) (addr addrlen : ptr)
| c_connect (sockfd : Z) (serv_addr : ptr) (addrlen : Z) | c_gethostbyname (name : ptr) | c_gethostbyaddr (addr : ptr) (len type : Z)
| c_pthread_create (tidp attrp routine argp : ptr) | c_pthread_cancel (tid : Z) | c_pthread_join (tid : Z) (thread_return : ptr)
| c_pthread_detach (tid : Z) | c_pthread_exit (retval : ptr) | c_pthread_self | c_pthread_once (once_control init_function : ptr)
| c_pthread_mutex_init (mutex attr : ptr) | c_pthread_mutex_lock (mutex : ptr) | c_pthread_mutex_unlock (mutex : ptr)
| c_pthread_cond_init (cond attr : ptr) | c_pthread_cond_signal (cond : ptr) | c_pthread_cond_broadcast (cond : ptr)
| c_pthread_cond_wait (cond mutex : ptr) | c_pthread_cond_timedwait (cond mutex abstime : ptr)
| c_sem_init (sem : ptr) (pshared value : Z) | c_sem_wait (sem : ptr) | c_sem_post (sem : ptr).

(** [sigaction] also gives the action that was set before. *)
Class Libc (W : Type) := {
  libc : libc_call -> W -> Z * W;
  libc_sigaction : Z -> sigaction -> W -> (Z * sigaction) * W
}.

Section wrappers.
Context {W : Type} `{!Errors W, !Libc W}.

(** [if ((rc = f(...)) ...) unix_error(name); return rc;], and without a result. *)
Definition or_exit (bad : Z -> bool) (error : Z -> M W (stop + Z)) (c : libc_call) : M W (stop + Z) :=
  rc ← call (libc c); if bad rc then error rc else mret (inr rc).
Definition or_unix (bad : Z -> bool) (name : string) : libc_call -> M W (stop + Z) :=
  or_exit bad (fun _ => unix_error (lit name)).
Definition void (m : M W (stop + Z)) : M W (stop + ()) :=
  r ← m; mret (match r with inl s => inl s | inr _ => inr () end).
(** A call whose result is not looked at. *)
Definition plain (c : libc_call) : M W (stop + Z) := rc ← call (libc c); mret (inr rc).

Abbreviation negative := (fun rc : Z => rc <? 0).
Abbreviation null := (fun p : Z => p =? NULL).
Abbreviation nonzero := (fun rc : Z => negb (rc =? 0)).

(** *** Process control *)

Definition Fork := or_unix negative "Fork error" c_fork.
Definition Execve filename argv envp := void (or_unix negative "Execve error" (c_execve filename argv envp)).
Definition Wait status := or_unix negative "Wait error" (c_wait status).
Definition Waitpid pid iptr options := or_unix negative "Waitpid error" (c_waitpid pid iptr options).
Definition Kill pid signum := void (or_unix negative "Kill error" (c_kill pid signum)).
Definition Pause := void (plain c_pause).
(** [rc] is an [unsigned]. *)
Definition Sleep secs : M W (stop + Z) :=
  r ← call (libc (c_sleep secs));
  let rc := u32 r in if rc <? 0 then unix_error (lit "Sleep error") else mret (inr rc).
Definition Alarm seconds := plain (c_alarm seconds).
Definition Setpgid pid pgid := void (or_unix negative "Setpgid error" (c_setpgid pid pgid)).
Definition Getpgrp := plain c_getpgrp.

(** *** Signals *)

Definition Signal (signum : Z) (handler : ptr) : M W (stop + ptr) :=
  let action := Sigaction handler [] SA_RESTART in
  '(rc, old_action) ← call (libc_sigaction signum action);
  if rc <? 0 then unix_error (lit "Signal error") else mret (inr (sa_handler old_action)).

Definition Sigprocmask how set oldset := void (or_unix negative "Sigprocmask error" (c_sigprocmask how set oldset)).
Definition Sigemptyset set := void (or_unix negative "Sigemptyset error" (c_sigemptyset set)).
Definition Sigfillset set := void (or_unix negative "Sigfillset error" (c_sigfillset set)).
Definition Sigaddset set signum := void (or_unix negative "Sigaddset error" (c_sigaddset set signum)).
Definition Sigdelset set signum := void (or_unix negative "Sigdelset error" (c_sigdelset set signum)).
Definition Sigismember set signum := or_unix negative "Sigismember error" (c_sigismember set signum).

(** *** Unix I/O, memory mapping and allocation *)

Definition Open pathname flags mode := or_unix negative "Open error" (c_open pathname flags mode).
Definition Read fd buf count := or_unix negative "Read error" (c_read fd buf count).
Definition Write fd buf count := or_unix negative "Write error" (c_write fd buf count).
Definition Lseek fildes offset whence := or_unix negative "Lseek error" (c_lseek fildes offset whence).
(** The test is commented out. *)
Definition Close fd := void (plain (c_close fd)).
Definition Select n readfds writefds exceptfds timeout :=
  or_unix negative "Select error" (c_select n readfds writefds exceptfds timeout).
Definition Dup2 fd1 fd2 := or_unix negative "Dup2 error" (c_dup2 fd1 fd2).
Definition Stat filename buf := void (or_unix negative "Stat error" (c_stat filename buf)).
Definition Fstat fd buf := void (or_unix negative "Fstat error" (c_fstat fd buf)).

Definition Mmap addr len prot flags fd offset :=
  or_unix (fun p => p =? MAP_FAILED) "mmap error" (c_mmap addr len prot flags fd offset).
Definition Munmap start len := void (or_unix negative "munmap error" (c_munmap start len)).

Definition Malloc size := or_unix null "Malloc error" (c_malloc size).
Definition Realloc p size := or_unix null "Realloc error" (c_realloc p size).
Definition Calloc nmemb size := or_unix null "Calloc error" (c_calloc nmemb size).
Definition Free p := void (plain (c_free p)).

(** *** Standard I/O *)

Definition Fclose fp := void (or_unix nonzero "Fclose error" (c_fclose fp)).
Definition Fdopen fd type := or_unix null "Fdopen error" (c_fdopen fd type).

(** [if (... && ferror(stream)) error]. *)
Definition if_ferror (stream : ptr) (error : M W (stop + Z)) (rc : Z) : M W (stop + Z) :=
  e ← call (libc (c_ferror stream)); if negb (e =? 0) then error else mret (inr rc).

(** The end of the file is no error. *)
Definition Fgets p n stream := or_exit null (if_ferror stream (app_error (lit "Fgets error"))) (c_fgets p n stream).
Definition Fopen filename mode := or_unix null "Fopen error" (c_fopen filename mode).
Definition Fputs p stream := void (or_unix (fun rc => rc =? EOF) "Fputs error" (c_fputs p stream)).
Definition Fread p size nmemb stream :=
  or_exit (fun n => n <? nmemb) (if_ferror stream (unix_error (lit "Fread error"))) (c_fread p size nmemb stream).
Definition Fwrite p size nmemb stream :=
  void (or_unix (fun n => n <? nmemb) "Fwrite error" (c_fwrite p size nmemb stream)).

(** *** Sockets and names *)

Definition Socket domain type protocol := or_unix negative "Socket error" (c_socket domain type protocol).
Definition Setsockopt s level optname optval optlen :=
  void (or_unix negative "Setsockopt error" (c_setsockopt s level optname optval optlen)).
Definition Bind sockfd my_addr addrlen := void (or_unix negative "Bind error" (c_bind sockfd my_addr addrlen)).
Definition Listen s backlog := void (or_unix negative "Listen error" (c_listen s backlog)).
Definition Accept s addr addrlen := or_unix negative "Accept error" (c_accept s addr addrlen).
Definition Connect sockfd serv_addr addrlen := void (or_unix negative "Connect error" (c_connect sockfd serv_addr addrlen)).

Definition Gethostbyname name := or_exit null (fun _ => dns_error (lit "Gethostbyname error")) (c_gethostbyname name).
Definition Gethostbyaddr addr len type :=
  or_exit null (fun _ => dns_error (lit "Gethostbyaddr error")) (c_gethostbyaddr addr len type).

(** *** Threads *)

Definition or_posix (name : string) (c : libc_call) : M W (stop + ()) :=
  void (or_exit nonzero (fun rc => posix_error rc (lit name)) c).

Definition Pthread_create tidp attrp routine argp := or_posix "Pthread_create error" (c_pthread_create tidp attrp routine argp).
Definition Pthread_cancel tid := or_posix "Pthread_cancel error" (c_pthread_cancel tid).
Definition Pthread_join tid thread_return := or_posix "Pthread_join error" (c_pthread_join tid thread_return).
Definition Pthread_detach tid := or_posix "Pthread_detach error" (c_pthread_detach tid).
(** [pthread_exit] does not return. *)
Definition Pthread_exit retval : M W (stop + ()) :=
  _ ← call (libc (c_pthread_exit retval)); mret (inl (Thread_exit retval)).
Definition Pthread_self := plain c_pthread_self.
Definition Pthread_once once_control init_function := void (plain (c_pthread_once once_control init_function)).

Definition Pthread_mutex_init mutex attr := or_posix "Pthread_mutex_init error" (c_pthread_mutex_init mutex attr).
Definition Pthread_mutex_lock mutex := or_posix "Pthread_mutex_lock error" (c_pthread_mutex_lock mutex).
Definition Pthread_mutex_unlock mutex := or_posix "Pthread_mutex_unlock error" (c_pthread_mutex_unlock mutex).
Definition Pthread_cond_init cond attr := or_posix "Pthread_cond_init error" (c_pthread_cond_init cond attr).
Definition Pthread_cond_signal cond := or_posix "Pthread_cond_signal error" (c_pthread_cond_signal cond).
Definition Pthread_cond_broadcast cond := or_posix "Pthread_cond_broadcast error" (c_pthread_cond_broadcast cond).
Definition Pthread_cond_wait cond mutex := or_posix "Pthread_cond_wait error" (c_pthread_cond_wait cond mutex).
Definition Pthread_cond_timedwait cond mutex abstime :=
  or_exit (fun rc => negb (rc =? 0) && negb (rc =? ETIMEDOUT))
    (fun rc => posix_error rc (lit "Pthread_cond_timedwait error")) (c_pthread_cond_timedwait cond mutex abstime).

(** *** Semaphores *)

Definition Sem_init sem pshared value := void (or_unix negative "Sem_init error" (c_sem_init sem pshared value)).
Definition P sem := void (or_unix negative "P error" (c_sem_wait sem)).
Definition V sem := void (or_unix negative "V error" (c_sem_post sem)).
End wrappers.

(** ** What the wrappers add to the calls *)

Section spec.
Context {W : Type} `{!Errors W, !Libc W}.

(** The wrapper of a call; what a wrapper without a result returns is [None]. *)
Definition value (m : M W (stop + Z)) : option (M W (stop + option Z)) :=
  Some (r ← m; mret (match r with inl s => inl s | inr rc => inr (Some rc) end)).
Definition no_value (m : M W (stop + ())) : option (M W (stop + option Z)) :=
  Some (r ← m; mret (match r with inl s => inl s | inr _ => inr None end)).

Definition wrapper (c : libc_call) : option (M W (stop + option Z)) :=
  match c with
  | c_fork => value Fork
  | c_execve f a e => no_value (Execve f a e)
  | c_wait s => value (Wait s)
  | c_waitpid p i o => value (Waitpid p i o)
  | c_kill p s => no_value (Kill p s)
  | c_pause => no_value Pause
  | c_sleep s => value (Sleep s)
  | c_alarm s => value (Alarm s)
  | c_setpgid p g => no_value (Setpgid p g)
  | c_getpgrp => value Getpgrp
  | c_sigprocmask h s o => no_value (Sigprocmask h s o)
  | c_sigemptyset s => no_value (Sigemptyset s)
  | c_sigfillset s => no_value (Sigfillset s)
  | c_sigaddset s n => no_value (Sigaddset s n)
  | c_sigdelset s n => no_value (Sigdelset s n)
  | c_sigismember s n => value (Sigismember s n)
  | c_open p f m => value (Open p f m)
  | c_read fd b n => value (Read fd b n)
  | c_write fd b n => value (Write fd b n)
  | c_lseek fd o w => value (Lseek fd o w)
  | c_close fd => no_value (Close fd)
  | c_select n r w e t => value (Select n r w e t)
  | c_dup2 a b => value (Dup2 a b)
  | c_stat f b => no_value (Stat f b)
  | c_fstat f b => no_value (Fstat f b)
  | c_mmap a l p f fd o => value (Mmap a l p f fd o)
  | c_munmap s l => no_value (Munmap s l)
  | c_malloc n => value (Malloc n)
  | c_realloc p n => value (Realloc p n)
  | c_calloc k n => value (Calloc k n)
  | c_free p => no_value (Free p)
  | c_fclose f => no_value (Fclose f)
  | c_fdopen fd t => value (Fdopen fd t)
  | c_fgets p n s => value (Fgets p n s)
  | c_fopen f m => value (Fopen f m)
  | c_fputs p s => no_value (Fputs p s)
  | c_fread p n k s => value (Fread p n k s)
  | c_fwrite p n k s => no_value (Fwrite p n k s)
  | c_socket d t p => value (Socket d t p)
  | c_setsockopt s l o v n => no_value (Setsockopt s l o v n)
  | c_bind s a l => no_value (Bind s a l)
  | c_listen s b => no_value (Listen s b)
  | c_accept s a l => value (Accept s a l)
  | c_connect s a l => no_value (Connect s a l)
  | c_gethostbyname n => value (Gethostbyname n)
  | c_gethostbyaddr a l t => value (Gethostbyaddr a l t)
  | c_pthread_create t a r p => no_value (Pthread_create t a r p)
  | c_pthread_cancel t => no_value (Pthread_cancel t)
  | c_pthread_join t r => no_value (Pthread_join t r)
  | c_pthread_detach t => no_value (Pthread_detach t)
  | c_pthread_self => value Pthread_self
  | c_pthread_once o i => no_value (Pthread_once o i)
  | c_pthread_mutex_init m a => no_value (Pthread_mutex_init m a)
  | c_pthread_mutex_lock m => no_value (Pthread_mutex_lock m)
  | c_pthread_mutex_unlock m => no_value (Pthread_mutex_unlock m)
  | c_pthread_cond_init c a => no_value (Pthread_cond_init c a)
  | c_pthread_cond_signal c => no_value (Pthread_cond_signal c)
  | c_pthread_cond_broadcast c => no_value (Pthread_cond_broadcast c)
  | c_pthread_cond_wait c m => no_value (Pthread_cond_wait c m)
  | c_pthread_cond_timedwait c m t => value (Pthread_cond_timedwait c m t)
  | c_sem_init s p v => no_value (Sem_init s p v)
  | c_sem_wait s => no_value (P s)
  | c_sem_post s => no_value (V s)
  | c_pthread_exit _ | c_ferror _ => None
  end.

(** How the manual says a call reports that it failed.  [sleep], [alarm], [getpgrp],
    [free] and [pthread_self] cannot fail, [pause] always does (interrupted by
    a signal), and a wait that timed out is a result. *)
Definition failed (c : libc_call) (rc : Z) : bool :=
  match c with
  | c_sleep _ | c_alarm _ | c_getpgrp | c_free _ | c_pthread_self | c_pthread_exit _ | c_ferror _ => false
  | c_mmap _ _ _ _ _ _ => rc =? 2 ^ 64 - 1
  | c_malloc _ | c_realloc _ _ | c_calloc _ _ | c_fdopen _ _ | c_fopen _ _ | c_fgets _ _ _
  | c_gethostbyname _ | c_gethostbyaddr _ _ _ => rc =? 0
  | c_fclose _ | c_pthread_create _ _ _ _ | c_pthread_cancel _ | c_pthread_join _ _ | c_pthread_detach _
  | c_pthread_mutex_init _ _ | c_pthread_mutex_lock _ | c_pthread_mutex_unlock _ | c_pthread_cond_init _ _
  | c_pthread_cond_signal _ | c_pthread_cond_broadcast _ | c_pthread_cond_wait _ _ | c_pthread_once _ _ => negb (rc =? 0)
  | c_pthread_cond_timedwait _ _ _ => negb (rc =? 0) && negb (rc =? 110)
  | c_fputs _ _ => rc =? -1
  | c_fread _ _ nmemb _ | c_fwrite _ _ nmemb _ => rc <? nmemb
  | _ => rc <? 0
  end.

(** The wrappers of these three do not look at the result. *)
Definition checked (c : libc_call) : bool :=
  match c with c_close _ | c_pause | c_pthread_once _ _ => false | _ => true end.

(** A read that comes back short has failed only if the stream says so. *)
Definition confirmed (c : libc_call) (w : W) : bool * W :=
  match c with
  | c_fgets _ _ stream | c_fread _ _ _ stream => let '(e, w') := libc (c_ferror stream) w in (negb (e =? 0), w')
  | _ => (true, w)
  end.

(** The function that the error line names. *)
Definition fn_name (c : libc_call) : string :=
  match c with
  | c_fork => "Fork"
  | c_execve _ _ _ => "Execve"
  | c_wait _ => "Wait"
  | c_waitpid _ _ _ => "Waitpid"
  | c_kill _ _ => "Kill"
  | c_sleep _ => "Sleep"
  | c_setpgid _ _ => "Setpgid"
  | c_sigprocmask _ _ _ => "Sigprocmask"
  | c_sigemptyset _ => "Sigemptyset"
  | c_sigfillset _ => "Sigfillset"
  | c_sigaddset _ _ => "Sigaddset"
  | c_sigdelset _ _ => "Sigdelset"
  | c_sigismember _ _ => "Sigismember"
  | c_open _ _ _ => "Open"
  | c_read _ _ _ => "Read"
  | c_write _ _ _ => "Write"
  | c_lseek _ _ _ => "Lseek"
  | c_select _ _ _ _ _ => "Select"
  | c_dup2 _ _ => "Dup2"
  | c_stat _ _ => "Stat"
  | c_fstat _ _ => "Fstat"
  | c_mmap _ _ _ _ _ _ => "mmap"
  | c_munmap _ _ => "munmap"
  | c_malloc _ => "Malloc"
  | c_realloc _ _ => "Realloc"
  | c_calloc _ _ => "Calloc"
  | c_fclose _ => "Fclose"
  | c_fdopen _ _ => "Fdopen"
  | c_fgets _ _ _ => "Fgets"
  | c_fopen _ _ => "Fopen"
  | c_fputs _ _ => "Fputs"
  | c_fread _ _ _ _ => "Fread"
  | c_fwrite _ _ _ _ => "Fwrite"
  | c_socket _ _ _ => "Socket"
  | c_setsockopt _ _ _ _ _ => "Setsockopt"
  | c_bind _ _ _ => "Bind"
  | c_listen _ _ => "Listen"
  | c_accept _ _ _ => "Accept"
  | c_connect _ _ _ => "Connect"
  | c_gethostbyname _ => "Gethostbyname"
  | c_gethostbyaddr _ _ _ => "Gethostbyaddr"
  | c_pthread_create _ _ _ _ => "Pthread_create"
  | c_pthread_cancel _ => "Pthread_cancel"
  | c_pthread_join _ _ => "Pthread_join"
  | c_pthread_detach _ => "Pthread_detach"
  | c_pthread_mutex_init _ _ => "Pthread_mutex_init"
  | c_pthread_mutex_lock _ => "Pthread_mutex_lock"
  | c_pthread_mutex_unlock _ => "Pthread_mutex_unlock"
  | c_pthread_cond_init _ _ => "Pthread_cond_init"
  | c_pthread_cond_signal _ => "Pthread_cond_signal"
  | c_pthread_cond_broadcast _ => "Pthread_cond_broadcast"
  | c_pthread_cond_wait _ _ => "Pthread_cond_wait"
  | c_pthread_cond_timedwait _ _ _ => "Pthread_cond_timedwait"
  | c_sem_init _ _ _ => "Sem_init"
  | c_sem_wait _ => "P"
  | c_sem_post _ => "V"
  | _ => EmptyString
  end.

(** The line on the error stream. *)
Definition error_line (c : libc_call) (rc : Z) (w : W) : list ascii :=
  lit (fn_name c) ++ lit " error" ++
  match c with
  | c_fgets _ _ _ => []
  | c_gethostbyname _ | c_gethostbyaddr _ _ _ => lit ": DNS error " ++ sprintf_d (h_errno w)
  | c_pthread_create _ _ _ _ | c_pthread_cancel _ | c_pthread_join _ _ | c_pthread_detach _
  | c_pthread_mutex_init _ _ | c_pthread_mutex_lock _ | c_pthread_mutex_unlock _ | c_pthread_cond_init _ _
  | c_pthread_cond_signal _ | c_pthread_cond_broadcast _ | c_pthread_cond_wait _ _
  | c_pthread_cond_timedwait _ _ _ => lit ": " ++ strerror rc
  | _ => lit ": " ++ strerror (errno w)
  end ++ [LF].

(** The functions without a result, and the one whose result is made [unsigned]. *)
Definition result (c : libc_call) (rc : Z) : option Z :=
  match c with
  | c_sleep _ => Some (u32 rc)
  | c_fork | c_wait _ | c_waitpid _ _ _ | c_alarm _ | c_getpgrp | c_sigismember _ _ | c_open _ _ _ | c_read _ _ _
  | c_write _ _ _ | c_lseek _ _ _ | c_select _ _ _ _ _ | c_dup2 _ _ | c_mmap _ _ _ _ _ _ | c_malloc _ | c_realloc _ _
  | c_calloc _ _ | c_fdopen _ _ | c_fgets _ _ _ | c_fopen _ _ | c_fread _ _ _ _ | c_socket _ _ _ | c_accept _ _ _
  | c_gethostbyname _ | c_gethostbyaddr _ _ _ | c_pthread_self | c_pthread_cond_timedwait _ _ _ => Some rc
  | _ => None
  end.

Lemma sleep_nonneg r : (u32 r <? 0) = false.
Proof. apply Z.ltb_ge. unfold u32. pose proof (Z.mod_pos_bound r 4294967296). lia. Qed.
End spec.

Create HintDb wrappers.
#[local] Hint Unfold Fork Execve Wait Waitpid Kill Pause Sleep Alarm Setpgid Getpgrp Sigprocmask Sigemptyset Sigfillset
  Sigaddset Sigdelset Sigismember Open Read Write Lseek Close Select Dup2 Stat Fstat Mmap Munmap Malloc Realloc Calloc
  Free Fclose Fdopen Fgets Fopen Fputs Fread Fwrite Socket Setsockopt Bind Listen Accept Connect Gethostbyname
  Gethostbyaddr Pthread_create Pthread_cancel Pthread_join Pthread_detach Pthread_self Pthread_once Pthread_mutex_init
  Pthread_mutex_lock Pthread_mutex_unlock Pthread_cond_init Pthread_cond_signal Pthread_cond_broadcast Pthread_cond_wait
  Pthread_cond_timedwait Sem_init P V or_posix or_unix or_exit : wrappers.

(** Run a wrapper on every result of its calls. *)
#[local] Ltac run_wrapper :=
  intros w; unfold void, plain, if_ferror, unix_error, posix_error, dns_error, app_error, get, modify, call, mbind, M_bind, mret, M_ret,
    NULL, MAP_FAILED, EOF, ETIMEDOUT; cbn [failed confirmed checked fn_name];
  destruct (libc _ w) as [rc w1]; rewrite ?sleep_nonneg;
  repeat match goal with
  | |- context [if ?b then _ else _] =>
      lazymatch b with andb _ true => fail | andb _ false => fail | _ => destruct b; cbn [andb] end
  | |- context [libc ?c ?w] => destruct (libc c w) as [e w2]
  end; try reflexivity.

Lemma wrapper_spec {W : Type} `{!Errors W, !Libc W} (c : libc_call) (m : M W (stop + option Z)) : wrapper c = Some m ->
  forall w : W,
  let '(rc, w1) := libc c w in
  let '(error, w2) := if failed c rc then confirmed c w1 else (false, w1) in
  m w = if error && checked c then Ok (inl (Exit 0)) (eprint (error_line c rc w2) w2) else Ok (inr (result c rc)) w2.
Proof.
  intros Hm. destruct c; try discriminate; injection Hm as <-; autounfold with wrappers; run_wrapper.
Qed.

(** C37: Every wrapper performs its call once, with its own arguments.  If that did
    not fail it returns what the call returned and prints nothing.  If it failed, the wrapper
    prints one line, with its own name and the cause where the library leaves it, and ends the
    process with status 0; but those of [close], [pause] and [pthread_once] ignore
    the failure and return as if there had been none.  [Fgets] and [Fread] ask the stream
    first.  [Signal] gives the handler that was set before, or ends the
    process in the same way; [Pthread_exit] ends the thread. *)
Theorem wrappers_exit {W : Type} `{!Errors W, !Libc W} :
  (forall (c : libc_call) (m : M W (stop + option Z)) (w : W), wrapper c = Some m ->
    let '(rc, w1) := libc c w in
    let '(error, w2) := if failed c rc then confirmed c w1 else (false, w1) in
    m w = if error && checked c then Ok (inl (Exit 0)) (eprint (error_line c rc w2) w2) else Ok (inr (result c rc)) w2) /\
  (forall (signum : Z) (handler : ptr) (w : W),
    let '(rc, old, w1) := libc_sigaction signum (Sigaction handler [] SA_RESTART) w in
    Signal signum handler w =
      if rc <? 0 then Ok (inl (Exit 0)) (eprint (lit "Signal error: " ++ strerror (errno w1) ++ [LF]) w1)
      else Ok (inr (sa_handler old)) w1) /\
  (forall (retval : ptr) (w : W), Pthread_exit retval w = Ok (inl (Thread_exit retval)) (libc (c_pthread_exit retval) w).2).
Proof.
  split; [intros c m w Hm; by apply wrapper_spec|split].
  - intros signum handler w. unfold Signal, call, mbind, M_bind. destruct (libc_sigaction _ _ w) as [[rc old] w1].
    by destruct (rc <? 0).
  - intros retval w. unfold Pthread_exit, call, mbind, M_bind. by destruct (libc _ w).
Qed.

(** ** A library whose calls all fail *)

(** The calls made and what was printed. *)
Record cdemo := CDemo { cd_calls : list libc_call; cd_err : list ascii }.

#[export] Instance cdemo_errors : Errors cdemo := {
  errno _ := 12;
  h_errno _ := 1;
  strerror _ := lit "Cannot allocate memory";
  eprint t w := CDemo (cd_calls w) (cd_err w ++ t)
}.
#[export] Instance cdemo_libc : Libc cdemo := {
  libc c w := (-1, CDemo (cd_calls w ++ [c]) (cd_err w));
  libc_sigaction _ a w := ((-1, a), w)
}.

Lemma wrappers_exit_witness :
  (r ← Fread 8 1 2 16; mret (match r with inl s => inl s | inr rc => inr (Some rc) end)) (CDemo [] []) =
  let '(rc, w1) := libc (c_fread 8 1 2 16) (CDemo [] []) in
  let '(error, w2) := if failed (c_fread 8 1 2 16) rc then confirmed (c_fread 8 1 2 16) w1 else (false, w1) in
  if error && true then Ok (inl (Exit 0)) (eprint (error_line (c_fread 8 1 2 16) rc w2) w2)
  else Ok (inr (result (c_fread 8 1 2 16) rc)) w2.
Proof. exact (proj1 wrappers_exit (c_fread 8 1 2 16) _ (CDemo [] []) eq_refl). Defined.

(** A failed [fork] ends the process with status 0; a failed [close] and [sleep] are not
    noticed. *)
Example fork_fails : Fork (CDemo [] []) =
  Ok (inl (Exit 0)) (CDemo [c_fork] (lit "Fork error: Cannot allocate memory" ++ [LF])).
Proof. vm_compute. reflexivity. Qed.
Example close_fails : Close 5 (CDemo [] []) = Ok (inr ()) (CDemo [c_close 5] []).
Proof. vm_compute. reflexivity. Qed.
Example sleep_fails : Sleep 5 (CDemo [] []) = Ok (inr 4294967295) (CDemo [c_sleep 5] []).
Proof. vm_compute. reflexivity. Qed.
