(* ===== verification/Rio.v ===== *)
(** The Rio package of src/csapp.c: reading and writing all of a buffer in spite
    of short counts and interrupted system calls, and reading through a buffer
    of its own.

    The user's buffer is a char array given to the function and returned by it;
    the system calls and [errno] are parameters.  The wrappers end the process by the
    error functions of Wrappers ([inl]). *)

From S2P Require Import Prelude CLib Outcome ConnIf ConnIO Wrappers.

#[local] Open Scope Z_scope.

Definition EINTR : Z := 4.
Definition EPIPE : Z := 32.
Definition RIO_BUFSIZE : nat := N.to_nat 8192.

(** [read] gives the bytes it stored and [write] their number, or [None] for -1
    with [errno] set. *)
Class RioSys (W : Type) := {
  sys_read : Z -> nat -> W -> option (list ascii) * W;
  sys_write : Z -> list ascii -> W -> option nat * W;
  rio_errors :: Errors W
}.

(** [rio_bufptr] is the offset in [rio_buf]. *)
Record rio_t := RioT { rio_fd : Z; rio_cnt : Z; rio_bufptr : Z; rio_buf : cells }.

Section rio.
Context {W : Type} `{!RioSys W}.

(** ** Without a buffer *)

(** The [while (1)] of [rio_readp] and [rio_writep]. *)
Fixpoint retry {S A} (fuel : nat) (err : S -> Z) (f : S -> option A * S) : M S (option A) :=
  match fuel with
  | O => no_fuel
  | S fuel =>
      r ← call f;
      match r with
      | Some a => mret (Some a)
      | None => e ← get err; if e =? EINTR then retry fuel err f else mret None
      end
  end.

(** The result is put in an [int] before it is returned. *)
Definition rio_readp (fuel : nat) (fd : Z) (ptr : cells) (nbytes : nat) : M W (Z * cells) :=
  r ← retry fuel errno (sys_read fd nbytes);
  match r with
  | None => mret (-1, ptr)
  | Some s => b ← demand (blit ptr 0 (of_chars s)); mret (wrap32 (Z.of_nat (length s)), b)
  end.

Definition rio_writep (fuel : nat) (fd : Z) (s : list ascii) : M W Z :=
  r ← retry fuel errno (sys_write fd s);
  mret (match r with None => -1 | Some n => wrap32 (Z.of_nat n) end).

(** The loop of [rio_readn], with [read], and of [rio_readnb], with [rio_read]:
    what is left to read, or [None] for [return -1]. *)
Fixpoint readn_loop {S} (err : S -> Z) (rd : nat -> M S (option (list ascii))) (fuel : nat)
    (usrbuf : cells) (bufp nleft : nat) : M S (option nat * cells) :=
  match fuel with
  | O => no_fuel
  | S fuel =>
      if (nleft =? 0)%nat then mret (Some nleft, usrbuf) else
      r ← rd nleft;
      match r with
      | None =>
          e ← get err;
          if e =? EINTR then readn_loop err rd fuel usrbuf bufp nleft else mret (None, usrbuf)
      | Some [] => mret (Some nleft, usrbuf)
      | Some s =>
          b ← demand (blit usrbuf bufp (of_chars s));
          readn_loop err rd fuel b (bufp + length s) (nleft - length s)
      end
  end.

Definition rio_readn (fuel : nat) (fd : Z) (usrbuf : cells) (n : nat) : M W (Z * cells) :=
  '(r, b) ← readn_loop errno (fun k => call (sys_read fd k)) fuel usrbuf 0 n;
  mret (match r with None => -1 | Some nleft => Z.of_nat n - Z.of_nat nleft end, b).

(** The bytes from [bufp] on are what is left to write.  When [write] returns 0,
    [errno] still has the value of an earlier call. *)
Fixpoint writen_loop (fuel : nat) (fd : Z) (s : list ascii) : M W bool :=
  match fuel with
  | O => no_fuel
  | S fuel =>
      if bool_decide (s = []) then mret true else
      r ← call (sys_write fd s);
      match r with
      | None | Some O =>
          e ← get errno; if e =? EINTR then writen_loop fuel fd s else mret false
      | Some n => writen_loop fuel fd (drop n s)
      end
  end.

Definition rio_writen (fuel : nat) (fd : Z) (s : list ascii) : M W Z :=
  ok ← writen_loop fuel fd s;
  mret (if ok : bool then Z.of_nat (length s) else -1).

(** ** With a buffer: [*rp] is part of the state *)

#[local] Abbreviation state := (rio_t * W)%type.

Definition rio_update (f : rio_t -> rio_t) : M state () := modify (fun s => (f s.1, s.2)).
Definition on_sys {A} (f : W -> A * W) (s : state) : A * state := let '(a, w) := f s.2 in (a, (s.1, w)).
Definition rio_errno (s : state) : Z := errno s.2.

Definition with_cnt (r : rio_t) n := RioT (rio_fd r) n (rio_bufptr r) (rio_buf r).

Definition rio_readinitb (fd : Z) : M state () := rio_update (fun r => RioT fd 0 0 (rio_buf r)).

Fixpoint rio_read (fuel : nat) (n : nat) : M state (option (list ascii)) :=
  match fuel with
  | O => no_fuel
  | S fuel =>
      rp ← get fst;
      if rio_cnt rp <=? 0 then
        r ← call (on_sys (sys_read (rio_fd rp) RIO_BUFSIZE));
        match r with
        | None =>
            _ ← rio_update (fun r => with_cnt r (-1));
            e ← get rio_errno;
            if negb (e =? EINTR) then mret None else rio_read fuel n
        | Some [] => _ ← rio_update (fun r => with_cnt r 0); mret (Some [])
        | Some s =>
            b ← demand (blit (rio_buf rp) 0 (of_chars s));
            _ ← rio_update (fun r => RioT (rio_fd r) (wrap32 (Z.of_nat (length s))) 0 b);
            rio_read fuel n
        end
      else
        let cnt := if rio_cnt rp <? Z.of_nat n then rio_cnt rp else wrap32 (Z.of_nat n) in
        s ← demand (bytes_at (rio_buf rp) (rio_bufptr rp) cnt);
        _ ← rio_update (fun r => RioT (rio_fd r) (rio_cnt r - cnt) (rio_bufptr r + cnt) (rio_buf r));
        mret (Some s)
  end.

Definition rio_readnb (fuel : nat) (usrbuf : cells) (n : nat) : M state (Z * cells) :=
  '(r, b) ← readn_loop rio_errno (rio_read fuel) fuel usrbuf 0 n;
  mret (match r with None => -1 | Some nleft => Z.of_nat n - Z.of_nat nleft end, b).

(** The [for]: [inl] is a [return], [inr] the values of [n] and [bufp] behind it. *)
Fixpoint line_loop (fuel : nat) (usrbuf : cells) (maxlen n bufp : Z) : M state ((Z + Z * Z) * cells) :=
  match fuel with
  | O => no_fuel
  | S fuel' =>
      if negb (n <? maxlen) then mret (inr (n, bufp), usrbuf) else
      rc ← rio_read fuel 1;
      match rc with
      | Some [c] =>
          b ← demand (store usrbuf bufp c);
          if decide (c = LF) then mret (inr (n, bufp + 1), b) else
          n' ← demand (if in_int (n + 1) then Some (n + 1) else None);
          line_loop fuel' b maxlen n' (bufp + 1)
      | Some [] => mret (if n =? 1 then inl 0 else inr (n, bufp), usrbuf)
      | _ => mret (inl (-1), usrbuf)
      end
  end.

Definition rio_readlineb (fuel : nat) (usrbuf : cells) (maxlen : Z) : M state (Z * cells) :=
  '(r, b) ← line_loop fuel usrbuf maxlen 1 0;
  match r with
  | inl ret => mret (ret, b)
  | inr (n, bufp) => b ← demand (store b bufp NUL); mret (n, b)
  end.
End rio.

(** ** The wrappers *)

Section wrappers.
Context {W : Type} `{!RioSys W}.

(** [if ((n = f(...)) < 0) ...] of [Rio_readp] and [Rio_readn]. *)
Definition or_pipe_closed (msg : list ascii) (r : Z * cells) : M W (stop + Z * cells) :=
  if r.1 <? 0 then
    e ← get errno; if negb (e =? EPIPE) then unix_error msg else mret (inr (-1, r.2))
  else mret (inr r).

Definition Rio_readp (fuel : nat) (fd : Z) (ptr : cells) (nbytes : nat) : M W (stop + Z * cells) :=
  r ← rio_readp fuel fd ptr nbytes; or_pipe_closed (lit "Rio_readp error") r.
Definition Rio_readn (fuel : nat) (fd : Z) (ptr : cells) (nbytes : nat) : M W (stop + Z * cells) :=
  r ← rio_readn fuel fd ptr nbytes; or_pipe_closed (lit "Rio_readn error") r.

Definition Rio_writep (fuel : nat) (fd : Z) (s : list ascii) : M W (stop + ()) :=
  n ← rio_writep fuel fd s;
  if negb (n =? Z.of_nat (length s)) then
    e ← get errno; if negb (e =? EPIPE) then unix_error (lit "Rio_writen error") else mret (inr ())
  else mret (inr ()).

(** Up to five times; nothing is returned. *)
Fixpoint writen_tries (trytimes : nat) (fuel : nat) (fd : Z) (s : list ascii) : M W () :=
  match trytimes with
  | O => mret ()
  | S trytimes =>
      result ← rio_writen fuel fd s;
      if result <? 0 then writen_tries trytimes fuel fd s else mret ()
  end.
Definition Rio_writen := writen_tries 5.

Definition Rio_readnb (fuel : nat) (usrbuf : cells) (n : nat) : M (rio_t * W) (stop + Z * cells) :=
  r ← rio_readnb fuel usrbuf n;
  if r.1 <? 0 then unix_error (lit "Rio_readnb error") else mret (inr r).
Definition Rio_readlineb (fuel : nat) (usrbuf : cells) (maxlen : Z) : M (rio_t * W) (stop + Z * cells) :=
  r ← rio_readlineb fuel usrbuf maxlen;
  if r.1 <? 0 then unix_error (lit "Rio_readlineb error") else mret (inr r).
End wrappers.
