(* ===== verification/RioProps.v ===== *)
(** What the Rio package promises: short counts, interrupted calls and the
    internal buffer cannot be seen, every byte of the stream is delivered once
    and in order. *)

From S2P Require Import Prelude CLib Outcome ConnIf ConnIO ConnIOFacts Wrappers Rio.

#[local] Open Scope Z_scope.

(** The bytes a descriptor has delivered and accepted, whether its end has been
    reported, and a bound on the interruptions still to come. *)
Class RioObs (W : Type) := {
  delivered : W -> Z -> list ascii;
  accepted : W -> Z -> list ascii;
  at_eof : W -> Z -> Prop;
  interrupts : W -> nat
}.

(** [read] delivers at most as many bytes as asked for, [write] accepts a prefix. *)
Class RioLaws (W : Type) `{!RioSys W, !RioObs W} := {
  read_law fd n w r w' : (0 < n)%nat -> sys_read fd n w = (r, w') ->
    accepted w' = accepted w /\ (interrupts w' <= interrupts w)%nat /\
    match r with
    | Some s => (length s <= n)%nat /\ delivered w' fd = delivered w fd ++ s /\ (s = [] -> at_eof w' fd)
    | None => delivered w' fd = delivered w fd /\ (errno w' = EINTR -> (interrupts w' < interrupts w)%nat)
    end;
  write_law fd s w r w' : s <> [] -> sys_write fd s w = (r, w') ->
    delivered w' = delivered w /\ (interrupts w' <= interrupts w)%nat /\
    match r with
    | Some n => (n <= length s)%nat /\ accepted w' fd = accepted w fd ++ take n s /\
        (n = 0%nat -> errno w' = EINTR -> (interrupts w' < interrupts w)%nat)
    | None => accepted w' fd = accepted w fd /\ (errno w' = EINTR -> (interrupts w' < interrupts w)%nat)
    end
}.

Section facts.
Context {W : Type} `{!RioSys W, !RioObs W, !RioLaws W}.
#[local] Set Default Proof Using "RioLaws0".

(** ** The loop of [rio_readn] and [rio_readnb] *)

(** A source of bytes: the bytes taken from it between two states, and what its
    reading function promises. *)
Section readn.
Context {S : Type} (err : S -> Z) (rd : nat -> M S (option (list ascii))).
Context (ok : S -> Prop) (taken : S -> S -> list ascii -> Prop) (eof : S -> Prop) (stalls : S -> nat) (bound : nat).
Context (taken_refl : forall s, taken s s []).
Context (taken_trans : forall s1 s2 s3 a b, taken s1 s2 a -> taken s2 s3 b -> taken s1 s3 (a ++ b)).
Context (Hrd : forall n s, (0 < n)%nat -> ok s -> (stalls s <= bound)%nat -> wp safe (rd n) (fun r s' =>
  ok s' /\ (stalls s' <= stalls s)%nat /\
  match r with
  | Some t => (length t <= n)%nat /\ taken s s' t /\ (t = [] -> eof s')
  | None => taken s s' [] /\ (err s' = EINTR -> (stalls s' < stalls s)%nat)
  end) s).

Lemma readn_loop_spec fuel : forall done room nleft s, ok s -> (stalls s <= bound)%nat ->
  (nleft + stalls s < fuel)%nat -> (nleft <= length room)%nat ->
  wp safe (readn_loop err rd fuel (of_chars done ++ room) (length done) nleft) (fun '(r, b) s' =>
    ok s' /\ (stalls s' <= stalls s)%nat /\
    exists t, taken s s' t /\ (length t <= nleft)%nat /\ b = of_chars (done ++ t) ++ drop (length t) room /\
      match r with
      | Some k => (k + length t = nleft)%nat /\ (k = 0%nat \/ eof s')
      | None => err s' <> EINTR
      end) s.
Proof using All.
  induction fuel as [|fuel IH]; intros dn room nleft s Hok Hb Hf Hroom; [lia|]. cbn [readn_loop].
  destruct (Nat.eqb_spec nleft 0) as [->|Hn].
  { apply wp_ret. split_and!; [done..|]. exists []. rewrite app_nil_r. split_and!; [done|cbn; lia|done|done|by left]. }
  apply wp_bind. eapply wp_mono; [apply Hrd; [lia|done|done]|]. intros r s1 (Hok1&Hst&Hr). destruct r as [[|c t]|].
  - apply wp_ret. destruct Hr as (_&Ht&He). split_and!; [done..|]. exists []. rewrite app_nil_r.
    split_and!; [done|cbn; lia|done|cbn; lia|]. right. by apply He.
  - destruct Hr as (Hl&Ht&_). set (t' := c :: t) in *. assert (0 < length t')%nat by (cbn; lia).
    apply wp_bind, wp_demand with (of_chars (dn ++ t') ++ drop (length t') room).
    { unfold blit. rewrite decide_True by (rewrite length_app, !length_of_chars; lia).
      rewrite take_app_length' by len_lia. rewrite of_chars_app, <-app_assoc, drop_app_ge by len_lia.
      do 4 f_equal. len_lia. }
    rewrite <-length_app. eapply wp_mono; [apply IH|].
    + done.
    + lia.
    + lia.
    + rewrite length_drop. lia.
    + intros [r b] s2 (Hok2&Hst2&t2&Ht2&Hl2&->&Hr2). split_and!; [done|lia|]. exists (t' ++ t2).
      split_and!; [by eapply taken_trans|rewrite length_app; lia|rewrite app_assoc, drop_drop, length_app; done|].
      destruct r; [|done]. rewrite length_app. split; [lia|apply Hr2].
  - destruct Hr as [Ht He]. apply wp_bind, wp_get. destruct (Z.eqb_spec (err s1) EINTR) as [E|E].
    + specialize (He E). eapply wp_mono; [apply IH|]; [done|lia|lia|done|].
      intros [r b] s2 (Hok2&Hst2&t2&Ht2&H). split_and!; [done|lia|]. exists t2.
      split; [|exact H]. by eapply (taken_trans _ _ _ []).
    + apply wp_ret. split_and!; [done..|]. exists []. rewrite app_nil_r. by split_and!; [|cbn; lia|..].
Qed.
End readn.

(** ** Without a buffer *)

Lemma rio_readn_spec fuel fd usrbuf n w : (n <= length usrbuf)%nat -> (n + interrupts w < fuel)%nat ->
  wp safe (rio_readn fuel fd usrbuf n) (fun '(r, b) w' => exists t,
    delivered w' fd = delivered w fd ++ t /\ b = of_chars t ++ drop (length t) usrbuf /\ (length t <= n)%nat /\
    ((r = Z.of_nat (length t) /\ (length t = n \/ at_eof w' fd)) \/ (r = -1 /\ errno w' <> EINTR))) w.
Proof.
  intros Hn Hf. unfold rio_readn. eapply wp_seq.
  - eapply (readn_loop_spec errno (fun k => call (sys_read fd k)) (fun _ => True)
      (fun w w' t => delivered w' fd = delivered w fd ++ t) (fun w => at_eof w fd) interrupts (interrupts w)) with (done := []);
      [by intros; rewrite app_nil_r| | |done|lia|exact Hf|exact Hn].
    + intros w1 w2 w3 a b E1 E2. by rewrite E2, E1, app_assoc.
    + intros k v Hk _ _. unfold wp, call. destruct (sys_read fd k v) as [r v'] eqn:E.
      apply read_law in E as (_&Hi&Hr); [|done]. split_and!; [done..|]. destruct r; [done|]. by rewrite app_nil_r.
  - intros [r b] w' (_&_&t&Ht&Hl&->&Hr). apply wp_ret. exists t. split_and!; [done..|].
    destruct r as [k|]; [left|right; done]. destruct Hr as [E Hr]. split; [lia|]. destruct Hr; [left; lia|by right].
Qed.

Lemma writen_loop_spec fuel fd : forall s w, (length s + interrupts w < fuel)%nat ->
  wp safe (writen_loop fuel fd s) (fun ok w' => exists t, accepted w' fd = accepted w fd ++ t /\
    (interrupts w' <= interrupts w)%nat /\
    if ok then t = s else t `prefix_of` s /\ errno w' <> EINTR) w.
Proof.
  induction fuel as [|fuel IH]; intros s w Hf; [lia|]. cbn [writen_loop].
  destruct (bool_decide_reflect (s = [])) as [->|Hs]; [apply wp_ret; exists []; by rewrite app_nil_r|].
  apply wp_bind. unfold wp at 1, call. destruct (sys_write fd s w) as [r w1] eqn:E.
  apply write_law in E as (_&Hi&Hr); [|done].
  assert (accepted w1 fd = accepted w fd -> (errno w1 = EINTR -> (interrupts w1 < interrupts w)%nat) ->
    wp safe (e ← get errno; if e =? EINTR then writen_loop fuel fd s else mret false) (fun ok w' =>
      exists t, accepted w' fd = accepted w fd ++ t /\ (interrupts w' <= interrupts w)%nat /\
      if ok then t = s else t `prefix_of` s /\ errno w' <> EINTR) w1) as Hagain.
  { intros Ea Hlt. apply wp_bind, wp_get. destruct (Z.eqb_spec (errno w1) EINTR) as [He|He].
    - specialize (Hlt He). eapply wp_mono; [apply IH; lia|]. intros ok w' (t&Et&Hi'&H). exists t.
      rewrite Et, Ea. split_and!; [done|lia|done].
    - apply wp_ret. exists []. rewrite app_nil_r. split_and!; [done..|apply prefix_nil|done]. }
  destruct r as [[|n]|].
  - destruct Hr as (_&Ea&Hlt). apply Hagain; [by rewrite Ea, app_nil_r|auto].
  - destruct Hr as (Hn&Ea&_). eapply wp_mono; [apply IH|].
    + rewrite length_drop. lia.
    + intros ok w' (t&Et&Hi'&H). exists (take (S n) s ++ t). rewrite Et, Ea, app_assoc. split_and!; [done|lia|].
      destruct ok; [subst; apply take_drop|]. destruct H as [Hp He]. split; [|done].
      rewrite <-(take_drop (S n) s) at 2. by apply prefix_app.
  - apply Hagain; [apply Hr|apply Hr].
Qed.

Lemma rio_writen_spec fuel fd s w : (length s + interrupts w < fuel)%nat ->
  wp safe (rio_writen fuel fd s) (fun r w' => exists t, accepted w' fd = accepted w fd ++ t /\
    (interrupts w' <= interrupts w)%nat /\
    ((r = Z.of_nat (length s) /\ t = s) \/ (r = -1 /\ t `prefix_of` s /\ errno w' <> EINTR))) w.
Proof.
  intros Hf. unfold rio_writen. eapply wp_seq; [by apply writen_loop_spec|].
  intros ok w' (t&Et&Hi&H). apply wp_ret. exists t. split_and!; [done..|]. destruct ok; [left|right; destruct H]; by split_and!.
Qed.

(** ** With a buffer *)

Definition unread (r : rio_t) : list ascii :=
  if 0 <? rio_cnt r then default [] (bytes_at (rio_buf r) (rio_bufptr r) (rio_cnt r)) else [].

Definition rio_ok (r : rio_t) : Prop :=
  length (rio_buf r) = RIO_BUFSIZE /\
  (0 < rio_cnt r -> is_Some (bytes_at (rio_buf r) (rio_bufptr r) (rio_cnt r))).

Section buffered.
Context (fd : Z).

Definition reader_ok (s : rio_t * W) : Prop := rio_fd s.1 = fd /\ rio_ok s.1.

(** The bytes [t] have been taken from the stream: from those in the buffer and
    those delivered since. *)
Definition took (s s' : rio_t * W) (t : list ascii) : Prop := exists new,
  delivered s'.2 fd = delivered s.2 fd ++ new /\ unread s.1 ++ new = t ++ unread s'.1.

Definition ended (s : rio_t * W) : Prop := at_eof s.2 fd /\ unread s.1 = [].

(** The last thing that happened was a [read] that failed, and not for an interruption. *)
Definition broke (s : rio_t * W) : Prop :=
  (exists w, sys_read fd RIO_BUFSIZE w = (None, s.2)) /\ errno s.2 <> EINTR.

Lemma took_refl s : took s s [].
Proof using Type. exists []. by rewrite !app_nil_r. Qed.

Lemma took_nil s s' : delivered s'.2 fd = delivered s.2 fd -> unread s'.1 = unread s.1 -> took s s' [].
Proof using Type. intros E1 E2. exists []. by rewrite !app_nil_r, E2. Qed.

Lemma took_trans s1 s2 s3 a b : took s1 s2 a -> took s2 s3 b -> took s1 s3 (a ++ b).
Proof using Type.
  intros (n1&E1&F1) (n2&E2&F2). exists (n1 ++ n2). split; [by rewrite E2, E1, app_assoc|].
  by rewrite app_assoc, F1, <-!app_assoc, F2.
Qed.

Lemma unread_empty r : rio_cnt r <= 0 -> unread r = [].
Proof using Type. intros H. unfold unread. by rewrite (proj2 (Z.ltb_ge _ _)) by lia. Qed.

Lemma unread_full b (s : list ascii) : (length s <= length b)%nat ->
  unread (RioT fd (Z.of_nat (length s)) 0 (of_chars s ++ drop (length s) b)) = s /\
  (0 < length s -> is_Some (bytes_at (of_chars s ++ drop (length s) b) 0 (Z.of_nat (length s))))%nat.
Proof using Type.
  intros Hl. assert (bytes_at (of_chars s ++ drop (length s) b) 0 (Z.of_nat (length s)) = Some s) as E.
  { apply bytes_at_Some. split_and!; [lia|done|len_lia|]. change (Z.to_nat 0) with 0%nat. rewrite drop_0. rewrite take_app_length' by len_lia. done. }
  unfold unread. cbn [rio_cnt rio_buf rio_bufptr]. rewrite E. split; [|by eexists].
  destruct (Z.ltb_spec 0 (Z.of_nat (length s))); [done|]. destruct s; [done|cbn in *; lia].
Qed.

(** Taking bytes out of the buffer. *)
Lemma bytes_at_split b i n m u : bytes_at b i n = Some u -> 0 <= m <= n ->
  exists u1 u2, u = u1 ++ u2 /\ bytes_at b i m = Some u1 /\ bytes_at b (i + m) (n - m) = Some u2.
Proof using Type.
  intros (Hi&->&Hl&E)%bytes_at_Some Hm. set (k := Z.to_nat m).
  exists (take k u), (drop k u). split; [by rewrite take_drop|]. split; apply bytes_at_Some; unfold k.
  - split_and!; [lia|rewrite length_take; lia|rewrite length_take; lia|].
    rewrite length_take, <-take_take, E. unfold of_chars. by rewrite fmap_take.
  - split_and!; [lia|rewrite length_drop; lia|rewrite length_drop; lia|].
    rewrite length_drop. replace (Z.to_nat (i + m)) with (Z.to_nat i + Z.to_nat m)%nat by lia.
    rewrite <-drop_drop, take_drop_commute. replace (Z.to_nat m + (length u - Z.to_nat m))%nat with (length u) by lia.
    rewrite E. unfold of_chars. by rewrite fmap_drop.
Qed.

Lemma rio_read_spec fuel : forall n s, (0 < n)%nat -> reader_ok s ->
  ((if (0 <? rio_cnt s.1)%Z then 1 else interrupts s.2 + 2) <= fuel)%nat ->
  wp safe (rio_read fuel n) (fun r s' => reader_ok s' /\ (interrupts s'.2 <= interrupts s.2)%nat /\
    match r with
    | Some t => (length t <= n)%nat /\ took s s' t /\ (t = [] -> ended s')
    | None => took s s' [] /\ broke s'
    end) s.
Proof.
  induction fuel as [|fuel IH]; intros n [r w] Hn [Hfd [Hlen Hbuf]] Hf.
  { exfalso. destruct (0 <? rio_cnt (r, w).1); lia. }
  cbn [fst snd] in *. cbn [rio_read]. apply wp_bind, wp_get. cbn [fst].
  destruct (Z.leb_spec (rio_cnt r) 0) as [Hc|Hc].
  - rewrite (proj2 (Z.ltb_ge _ _)) in Hf by lia. pose proof (unread_empty r Hc) as Hu.
    apply wp_bind. unfold wp at 1, call, on_sys. cbn [fst snd]. rewrite Hfd.
    destruct (sys_read fd RIO_BUFSIZE w) as [o w1] eqn:E. pose proof (read_law fd RIO_BUFSIZE w o w1 ltac:(unfold RIO_BUFSIZE; lia) E) as (_&Hi&Hr).
    destruct o as [[|c t]|].
    + apply wp_bind, wp_modify, wp_ret. destruct Hr as (_&Ed&He). rewrite app_nil_r in Ed.
      assert (unread (with_cnt r 0) = []) as Hu' by by apply unread_empty.
      split; [split; [done|split; [done|cbn; lia]]|]. split; [done|]. split; [cbn; lia|].
      split; [apply took_nil; cbn [fst snd]; congruence|]. intros _. split; [by apply He|done].
    + destruct Hr as (Hl&Ed&_). apply wp_bind, wp_demand with (of_chars (c :: t) ++ drop (length (c :: t)) (rio_buf r)).
      { unfold blit. rewrite decide_True by (rewrite length_of_chars; lia). cbn [take app]. by rewrite length_of_chars. }
      apply wp_bind, wp_modify. cbn [fst snd]. rewrite Hfd.
      destruct (unread_full (rio_buf r) (c :: t)) as [U1 U2]; [lia|].
      rewrite wrap32_small by (unfold RIO_BUFSIZE, INT_MIN, INT_MAX in *; lia).
      eapply wp_mono; [apply IH|].
      * done.
      * split; [done|]. split; cbn [fst rio_buf rio_cnt rio_bufptr]; [rewrite length_app, length_of_chars, length_drop; lia|].
        intros _. apply U2. cbn. lia.
      * cbn [fst rio_cnt]. rewrite (proj2 (Z.ltb_lt _ _)) by (cbn; lia). lia.
      * intros o [r2 w2] (Hok&Hi2&Ho). cbn [fst snd] in *. split_and!; [done|lia|].
        assert (took (r, w) (RioT fd (Z.of_nat (length (c :: t))) 0 (of_chars (c :: t) ++ drop (length (c :: t)) (rio_buf r)), w1) []) as Ht.
        { exists (c :: t). cbn [fst snd]. split; [done|]. rewrite Hu. cbn [app]. by rewrite U1. }
        destruct o as [t2|]; [destruct Ho as (?&?&?)|destruct Ho as [? ?]]; split_and!; try done;
          by eapply (took_trans _ _ _ []).
    + apply wp_bind, wp_modify. destruct Hr as [Ed He]. apply wp_bind, wp_get. unfold rio_errno. cbn [fst snd].
      assert (took (r, w) (with_cnt r (-1), w1) []) as Ht.
      { apply took_nil; cbn [fst snd]; [done|]. rewrite Hu. by apply unread_empty. }
      assert (reader_ok (with_cnt r (-1), w1)) as Hok by (split; [done|split; cbn; [done|lia]]).
      destruct (Z.eqb_spec (errno w1) EINTR) as [Ee|Ee]; cbn [negb].
      2:{ apply wp_ret. split; [done|]. split; [done|]. split; [done|]. split; [by exists w|done]. }
      specialize (He Ee). eapply wp_mono; [apply IH; [done..|]|].
      { cbn. lia. }
      intros o [r2 w2] (Hok2&Hi2&Ho). cbn [fst snd] in *. split_and!; [done|lia|].
      destruct o as [t2|]; [destruct Ho as (?&?&?)|destruct Ho as [? ?]]; split_and!; try done;
        by eapply (took_trans _ _ _ []).
  - destruct (Hbuf Hc) as [u Hu]. set (cnt := if rio_cnt r <? Z.of_nat n then _ else _).
    pose proof Hu as (Hp&Hcu&Hlu&_)%bytes_at_Some.
    assert (0 < cnt <= rio_cnt r /\ cnt <= Z.of_nat n) as [Hcnt Hcn].
    { unfold cnt. destruct (Z.ltb_spec (rio_cnt r) (Z.of_nat n)); [lia|].
      rewrite wrap32_small; [lia|]. unfold RIO_BUFSIZE, INT_MIN, INT_MAX in *. lia. }
    destruct (bytes_at_split _ _ _ cnt _ Hu ltac:(lia)) as (u1&u2&->&H1&H2).
    apply wp_bind, wp_demand with u1; [done|]. apply wp_bind, wp_modify, wp_ret. cbn [fst snd].
    pose proof H1 as (_&El&_)%bytes_at_Some.
    split; [split; [done|split; [done|intros _; by eexists]]|]. split; [done|]. split; [lia|]. split.
    + exists []. cbn [fst snd]. rewrite !app_nil_r. split; [done|]. unfold unread. cbn.
      rewrite (proj2 (Z.ltb_lt _ _)), Hu by lia. cbn. destruct (Z.ltb_spec 0 (rio_cnt r - cnt)); [by rewrite H2|].
      apply bytes_at_Some in H2 as (_&E2&_). destruct u2; [by rewrite app_nil_r|cbn in E2; lia].
    + intros ->. cbn in El. lia.
Qed.

Lemma rio_read_call fuel b n s : (0 < n)%nat -> reader_ok s -> (interrupts s.2 <= b)%nat -> (b + 2 <= fuel)%nat ->
  wp safe (rio_read fuel n) (fun r s' => reader_ok s' /\ (interrupts s'.2 <= interrupts s.2)%nat /\
    match r with
    | Some t => (length t <= n)%nat /\ took s s' t /\ (t = [] -> ended s')
    | None => took s s' [] /\ broke s'
    end) s.
Proof. intros Hn Hok Hb Hf. apply rio_read_spec; [done..|]. destruct (0 <? _); lia. Qed.

Lemma rio_readnb_spec fuel usrbuf n s : reader_ok s -> (n <= length usrbuf)%nat ->
  (n + interrupts s.2 + 2 <= fuel)%nat ->
  wp safe (rio_readnb fuel usrbuf n) (fun '(r, b) s' => reader_ok s' /\ exists t,
    took s s' t /\ b = of_chars t ++ drop (length t) usrbuf /\ (length t <= n)%nat /\
    ((r = Z.of_nat (length t) /\ (length t = n \/ ended s')) \/ (r = -1 /\ errno s'.2 <> EINTR))) s.
Proof.
  intros Hok Hn Hf. unfold rio_readnb. eapply wp_seq.
  - eapply (readn_loop_spec rio_errno (rio_read fuel) reader_ok took ended (fun s => interrupts s.2)
      (interrupts s.2)) with (done := []); [apply took_refl|apply took_trans| |done|lia|lia|exact Hn].
    intros k v Hk Hv Hb. eapply wp_mono; [by apply (rio_read_call _ (interrupts s.2)); [..|lia]|].
    intros r v' (H1&H2&H3). split_and!; [done..|]. destruct r as [t|]; [done|]. destruct H3 as [H3 H4].
    split; [done|]. intros E. by destruct H4 as [_ []].
  - intros [r b] s' (Hok'&_&t&Ht&Hl&->&Hr). apply wp_ret. split; [done|]. exists t. split_and!; [done..|].
    destruct r as [k|]; [left|right; done]. destruct Hr as [E Hr]. split; [lia|]. destruct Hr; [left; lia|by right].
Qed.

(** Storing behind what is there. *)
Lemma store_next (dn : list ascii) (room : cells) c : (0 < length room)%nat ->
  store (of_chars dn ++ room) (Z.of_nat (length dn)) c = Some (of_chars (dn ++ [c]) ++ drop 1 room).
Proof using Type.
  intros Hr. unfold store. rewrite length_app, length_of_chars.
  replace ((0 <=? _) && _) with true by (symmetry; bool_arith). f_equal.
  rewrite Nat2Z.id, insert_app_r_alt by (rewrite length_of_chars; lia). rewrite length_of_chars, Nat.sub_diag.
  destruct room as [|x room]; [cbn in Hr; lia|]. cbn. by rewrite of_chars_app, <-app_assoc.
Qed.

(** How [line_loop] ends, with [t] stored in all. *)
Definition line_end (maxlen : Z) (s' : rio_t * W) (t : list ascii) (r : Z + Z * Z) : Prop :=
  match r with
  | inl ret => (LF ∉ t) /\ ((ret = 0 /\ t = [] /\ ended s') \/ (ret = -1 /\ broke s'))
  | inr (n, bufp) => bufp = Z.of_nat (length t) /\
      ((exists l, t = l ++ [LF] /\ (LF ∉ l) /\ n = bufp) \/
       ((LF ∉ t) /\ n = bufp + 1 /\ (n = maxlen \/ (ended s' /\ t <> []))))
  end.

Lemma line_loop_spec fuel : forall maxlen dn room s, reader_ok s -> (LF ∉ dn) ->
  Z.of_nat (length dn) < maxlen <= INT_MAX -> maxlen <= Z.of_nat (length dn + length room) ->
  (Z.to_nat maxlen - length dn + interrupts s.2 + 2 <= fuel)%nat ->
  wp safe (line_loop fuel (of_chars dn ++ room) maxlen (Z.of_nat (length dn) + 1) (Z.of_nat (length dn)))
    (fun '(r, b) s' => reader_ok s' /\ exists t, took s s' t /\ b = of_chars (dn ++ t) ++ drop (length t) room /\
       Z.of_nat (length (dn ++ t)) < maxlen /\ line_end maxlen s' (dn ++ t) r) s.
Proof.
  induction fuel as [|fuel IH]; intros maxlen dn room s Hok Hdn Hmax Hroom Hf; [lia|]. cbn [line_loop].
  assert (forall r s', reader_ok s' -> took s s' [] -> line_end maxlen s' dn r -> exists t, took s s' t /\
    of_chars dn ++ room = of_chars (dn ++ t) ++ drop (length t) room /\
    Z.of_nat (length (dn ++ t)) < maxlen /\ line_end maxlen s' (dn ++ t) r) as Hstop.
  { intros r s' Hs Ht He. exists []. rewrite app_nil_r. split_and!; [done|by rewrite drop_0|lia|done]. }
  destruct (Z.ltb_spec (Z.of_nat (length dn) + 1) maxlen) as [Hlt|Hge]; cbn [negb].
  2:{ apply wp_ret. split; [done|]. apply Hstop; [done|apply took_refl|]. split; [done|].
      right. split_and!; [done..|left; lia]. }
  apply wp_bind. eapply wp_mono; [apply (rio_read_call _ (interrupts s.2)); [lia|done|lia|lia]|].
  intros r s1 (Hok1&Hi&Hr). destruct r as [[|c [|d t]]|].
  - destruct Hr as (_&Ht&He). apply wp_ret. split; [done|]. apply Hstop; [done..|].
    destruct (Z.eqb_spec (Z.of_nat (length dn) + 1) 1) as [E|E].
    + split; [done|]. left. split; [done|]. split; [destruct dn; [done|cbn in E; lia]|by apply He].
    + split; [done|]. right. split; [done|]. split; [done|]. right. split; [by apply He|]. destruct dn; [by cbn in E|done].
  - destruct Hr as (_&Ht&_). apply wp_bind, wp_demand with (of_chars (dn ++ [c]) ++ drop 1 room).
    { apply store_next. lia. }
    destruct (decide (c = LF)) as [->|Hc].
    + apply wp_ret. split; [done|]. exists [LF].
      split; [done|]. split; [done|]. split; [rewrite length_app; cbn; lia|]. split; [rewrite length_app; cbn; lia|].
      left. by exists dn.
    + apply wp_bind, wp_demand with (Z.of_nat (length (dn ++ [c])) + 1).
      { rewrite length_app. unfold in_int, INT_MIN in *. cbn [length].
        replace ((_ <=? _) && _) with true by (symmetry; bool_arith). f_equal. lia. }
      replace (Z.of_nat (length dn) + 1) with (Z.of_nat (length (dn ++ [c]))) by (rewrite length_app; cbn; lia).
      eapply wp_mono; [apply IH|].
      * done.
      * rewrite elem_of_app, list_elem_of_singleton. intros [?|?]; [done|by subst].
      * rewrite length_app; cbn. lia.
      * rewrite length_app, length_drop; cbn. lia.
      * rewrite length_app; cbn. lia.
      * intros [r b] s2 (Hok2&t&Ht2&->&Hl&He). split; [done|]. exists (c :: t).
        rewrite <-app_assoc in Hl, He |- *. cbn [app] in *. rewrite drop_drop. split_and!; try done.
        by eapply (took_trans _ _ _ [c]).
  - destruct Hr as (Hl&_). cbn in Hl. lia.
  - destruct Hr as [Ht He]. apply wp_ret. split; [done|]. apply Hstop; [done..|]. split; [done|by right].
Qed.

Lemma rio_readlineb_spec fuel usrbuf maxlen s : reader_ok s -> 1 <= maxlen <= INT_MAX ->
  maxlen <= Z.of_nat (length usrbuf) -> (Z.to_nat maxlen + interrupts s.2 + 2 <= fuel)%nat ->
  wp safe (rio_readlineb fuel usrbuf maxlen) (fun '(r, b) s' => reader_ok s' /\ exists t, took s s' t /\
    Z.of_nat (length t) < maxlen /\
    ((r = -1 /\ (LF ∉ t) /\ broke s') \/ (r = 0 /\ t = [] /\ ended s' /\ b = usrbuf) \/
     (b = of_chars t ++ Some NUL :: drop (S (length t)) usrbuf /\
      ((exists l, t = l ++ [LF] /\ (LF ∉ l) /\ r = Z.of_nat (length t)) \/
       ((LF ∉ t) /\ r = Z.of_nat (length t) + 1 /\ (r = maxlen \/ (ended s' /\ t <> []))))))) s.
Proof.
  intros Hok Hmax Hlen Hf. unfold rio_readlineb. eapply wp_seq.
  { apply (line_loop_spec fuel maxlen [] usrbuf s); [done|by apply not_elem_of_nil|cbn; lia|cbn; lia|cbn; lia]. }
  intros [r b] s' (Hok'&t&Ht&->&Hl&He). cbn [app] in *. destruct r as [ret|[n bufp]].
  - apply wp_ret. split; [done|]. exists t. split_and!; [done..|]. destruct He as [Hn [(->&->&He)|[-> Hbr]]]; [|by left].
    right. left. by split_and!.
  - destruct He as [-> He]. apply wp_bind, wp_demand with (of_chars t ++ Some NUL :: drop (S (length t)) usrbuf).
    { rewrite store_next by (rewrite length_drop; lia). rewrite of_chars_app, <-app_assoc, drop_drop.
      by replace (length t + 1)%nat with (S (length t)) by lia. }
    apply wp_ret. split; [done|]. exists t. split_and!; [done..|]. right. right. by split.
Qed.
End buffered.
End facts.

(** [rio_readn] reads until the buffer has the [n] bytes asked for: it
    returns, having stored exactly the next bytes of the descriptor, [n] of them or
    all up to the end, whatever the counts [read] returns and however often it is
    interrupted; or -1 after another error. *)
Theorem rio_readn_reads {W} `{!RioSys W, !RioObs W, !RioLaws W} (fuel : nat) (fd : Z) (usrbuf : cells) (n : nat) (w : W)
    (Hroom : (n <= length usrbuf)%nat) (Hfuel : (n + interrupts w < fuel)%nat) :
  exists r w' t, rio_readn fuel fd usrbuf n w = Ok (r, of_chars t ++ drop (length t) usrbuf) w' /\
    delivered w' fd = delivered w fd ++ t /\ (length t <= n)%nat /\
    ((r = Z.of_nat (length t) /\ (length t = n \/ at_eof w' fd)) \/ (r = -1 /\ errno w' <> EINTR)).
Proof.
  destruct (wp_Ok _ _ _ (rio_readn_spec fuel fd usrbuf n w Hroom Hfuel)) as ([r b]&w'&E&t&H1&->&H2&H3).
  by exists r, w', t.
Qed.

(** [rio_writen] writes everything and returns the number of bytes, or a
    prefix of it and returns -1 after an error that is no interruption. *)
Theorem rio_writen_writes {W} `{!RioSys W, !RioObs W, !RioLaws W} (fuel : nat) (fd : Z) (s : list ascii) (w : W)
    (Hfuel : (length s + interrupts w < fuel)%nat) :
  exists r w' t, rio_writen fuel fd s w = Ok r w' /\ accepted w' fd = accepted w fd ++ t /\
    ((r = Z.of_nat (length s) /\ t = s) \/ (r = -1 /\ t `prefix_of` s /\ errno w' <> EINTR)).
Proof.
  destruct (wp_Ok _ _ _ (rio_writen_spec fuel fd s w Hfuel)) as (r&w'&E&t&H1&_&H2). by exists r, w', t.
Qed.

Lemma writen_tries_spec {W} `{!RioSys W, !RioObs W, !RioLaws W} fuel fd s : forall k w, (length s + interrupts w < fuel)%nat ->
  wp safe (writen_tries k fuel fd s) (fun _ w' => exists ts, accepted w' fd = accepted w fd ++ concat ts /\
    (length ts <= k)%nat /\ Forall (fun t => t `prefix_of` s) ts /\
    (last ts = Some s \/ length ts = k)) w.
Proof.
  intros k. induction k as [|k IH]; intros w Hf; cbn [writen_tries].
  { apply wp_ret. exists []. rewrite app_nil_r. by split_and!; [|cbn|constructor|right]. }
  eapply wp_seq; [by apply rio_writen_spec|]. intros r w1 (t&Et&Hi&Hr).
  destruct Hr as [[-> ->]|(->&Hp&_)].
  - rewrite (proj2 (Z.ltb_ge _ _)) by lia. apply wp_ret. exists [s]. cbn. rewrite app_nil_r.
    split_and!; [done|lia|by repeat constructor|by left].
  - cbn. eapply wp_mono; [apply IH; lia|]. intros _ w2 (ts&Ets&Hl&Hts&He). exists (t :: ts).
    cbn. rewrite Ets, Et, app_assoc. split_and!; [done|lia|by constructor|].
    destruct He as [He|<-]; [left|by right]. by destruct ts.
Qed.

(** [Rio_writen] starts again from the first byte after an error, up to
    five times: what was accepted are up to five prefixes of the buffer, one behind
    the other, of which all but the last repeat bytes the receiver already has; and
    nothing tells the caller whether the last one is complete. *)
Theorem Rio_writen_repeats {W} `{!RioSys W, !RioObs W, !RioLaws W} (fuel : nat) (fd : Z) (s : list ascii) (w : W)
    (Hfuel : (length s + interrupts w < fuel)%nat) :
  exists w' ts, Rio_writen fuel fd s w = Ok () w' /\ accepted w' fd = accepted w fd ++ concat ts /\
    Forall (fun t => t `prefix_of` s) ts /\ (length ts <= 5)%nat /\ (last ts = Some s \/ length ts = 5%nat).
Proof.
  destruct (wp_Ok _ _ _ (writen_tries_spec fuel fd s 5 w Hfuel)) as ([]&w'&E&ts&H1&H2&H3&H4). by exists w', ts.
Qed.

(** A [rio_t] is a view of the stream of its descriptor: [rio_readnb] takes
    exactly the next bytes, from the buffer or from the descriptor, [n] of
    them or all up to the end of the stream, and stores them; it returns their number,
    or -1 after an error that is no interruption.  Nothing is lost or repeated: what has been taken
    and what is still in the buffer is what the descriptor delivered. *)
Theorem rio_readnb_reads {W} `{!RioSys W, !RioObs W, !RioLaws W} (fuel : nat) (fd : Z) (usrbuf : cells) (n : nat)
    (s : rio_t * W) (Hok : reader_ok fd s) (Hroom : (n <= length usrbuf)%nat)
    (Hfuel : (n + interrupts s.2 + 2 <= fuel)%nat) :
  exists r s' t, rio_readnb fuel usrbuf n s = Ok (r, of_chars t ++ drop (length t) usrbuf) s' /\
    reader_ok fd s' /\ took fd s s' t /\ (length t <= n)%nat /\
    ((r = Z.of_nat (length t) /\ (length t = n \/ ended fd s')) \/ (r = -1 /\ errno s'.2 <> EINTR)).
Proof.
  destruct (wp_Ok _ _ _ (rio_readnb_spec fd fuel usrbuf n s Hok Hroom Hfuel)) as ([r b]&s'&E&H1&t&H2&->&H3&H4).
  by exists r, s', t.
Qed.

(** C34: [rio_readlineb] takes the next line off the stream, with its line end, and
    stores it with a terminator inside the [maxlen] bytes of the buffer; a longer line is
    cut there, and the last one may lack its end.  The result is the
    length of a whole line; for a line that was cut or has no end it is one more than
    that.  At the end of the stream it is 0, and the buffer is left as it was.  It is -1 only
    where the last thing that happened was a [read] that failed for another reason than an
    interruption, before the end of the line was reached. *)
Theorem rio_readlineb_reads {W} `{!RioSys W, !RioObs W, !RioLaws W} (fuel : nat) (fd : Z) (usrbuf : cells) (maxlen : Z)
    (s : rio_t * W) (Hok : reader_ok fd s) (Hmax : 1 <= maxlen <= INT_MAX) (Hroom : maxlen <= Z.of_nat (length usrbuf))
    (Hfuel : (Z.to_nat maxlen + interrupts s.2 + 2 <= fuel)%nat) :
  exists r b s' t, rio_readlineb fuel usrbuf maxlen s = Ok (r, b) s' /\
    reader_ok fd s' /\ took fd s s' t /\ Z.of_nat (length t) < maxlen /\
    ((r = -1 /\ (LF ∉ t) /\ broke fd s') \/ (r = 0 /\ t = [] /\ ended fd s' /\ b = usrbuf) \/
     (b = of_chars t ++ Some NUL :: drop (S (length t)) usrbuf /\
      ((exists l, t = l ++ [LF] /\ (LF ∉ l) /\ r = Z.of_nat (length t)) \/
       ((LF ∉ t) /\ r = Z.of_nat (length t) + 1 /\ (r = maxlen \/ (ended fd s' /\ t <> [])))))).
Proof.
  destruct (wp_Ok _ _ _ (rio_readlineb_spec fd fuel usrbuf maxlen s Hok Hmax Hroom Hfuel)) as ([r b]&s'&E&H1&t&H2&H3&H4).
  by exists r, b, s', t.
Qed.

(** ** Scripted system calls *)

(** What [read] finds: bytes, or an interruption; what [write] accepts: a number
    of bytes, or an error. *)
Record rio_sim := RioSim {
  rs_in : list (option (list ascii)); rs_out : list (nat + Z);
  rs_delivered : list ascii; rs_accepted : list ascii; rs_eof : bool; rs_errno : Z
}.

Fixpoint interruptions {A} (l : list (option A)) : nat :=
  match l with [] => 0%nat | Some _ :: l => interruptions l | None :: l => S (interruptions l) end.

Definition rs_read (n : nat) (w : rio_sim) : option (list ascii) * rio_sim :=
  match rs_in w with
  | [] => (Some [], RioSim [] (rs_out w) (rs_delivered w) (rs_accepted w) true (rs_errno w))
  | None :: l => (None, RioSim l (rs_out w) (rs_delivered w) (rs_accepted w) (rs_eof w) EINTR)
  | Some s :: l =>
      let t := take n s in
      (Some t, RioSim (match drop n s with [] => l | s' => Some s' :: l end) (rs_out w)
                 (rs_delivered w ++ t) (rs_accepted w) (rs_eof w || bool_decide (t = [])) (rs_errno w))
  end.

Definition rs_write (s : list ascii) (w : rio_sim) : option nat * rio_sim :=
  match rs_out w with
  | [] => (Some (length s), RioSim (rs_in w) [] (rs_delivered w) (rs_accepted w ++ s) (rs_eof w) (rs_errno w))
  | inr e :: l => (None, RioSim (rs_in w) l (rs_delivered w) (rs_accepted w) (rs_eof w) e)
  | inl k :: l => (Some (Nat.min k (length s)),
      RioSim (rs_in w) l (rs_delivered w) (rs_accepted w ++ take (Nat.min k (length s)) s) (rs_eof w) (rs_errno w))
  end.

#[export] Instance rio_sim_sys : RioSys rio_sim := {
  sys_read _ := rs_read; sys_write _ := rs_write;
  rio_errors := {| errno := rs_errno; h_errno _ := 0; strerror _ := []; eprint _ w := w |}
}.
#[export] Instance rio_sim_obs : RioObs rio_sim := {
  delivered w _ := rs_delivered w; accepted w _ := rs_accepted w; at_eof w _ := rs_eof w = true;
  interrupts w := (interruptions (rs_in w) + length (rs_out w))%nat
}.
#[export] Instance rio_sim_laws : RioLaws rio_sim.
Proof.
  split.
  - intros fd n w r w' Hn. cbn. unfold rs_read. destruct (rs_in w) as [|[s|] l] eqn:E; intros [= <- <-]; cbn.
    + rewrite ?E, app_nil_r. split_and!; [done|lia|lia|done|done].
    + split_and!; [done| |rewrite length_take; lia|done|intros ->; by rewrite orb_true_r].
      rewrite ?E. destruct (drop n s); cbn; lia.
    + rewrite ?E. cbn. split_and!; [done|lia|done|lia].
  - intros fd s w r w' Hs. cbn. unfold rs_write. destruct (rs_out w) as [|[k|e] l] eqn:E; intros [= <- <-]; cbn.
    + rewrite ?E, firstn_all. split_and!; [done..|]. by destruct s.
    + rewrite ?E. cbn. split_and!; [done|lia|lia|done|lia].
    + rewrite ?E. cbn. split_and!; [done|lia|done|lia].
Qed.

Definition rio_demo : rio_sim :=
  RioSim [Some (lit "ab"); None; Some (lit "c" ++ [LF] ++ lit "de")] [inl 2%nat; inr EINTR; inl 1%nat; inr EPIPE] [] [] false 0.

Lemma rio_readn_reads_witness : exists r w' t,
  rio_readn 20 3 (replicate 4 None) 4 rio_demo = Ok (r, of_chars t ++ drop (length t) (replicate 4 None)) w' /\
  delivered w' 3 = delivered rio_demo 3 ++ t /\ (length t <= 4)%nat /\
  ((r = Z.of_nat (length t) /\ (length t = 4%nat \/ at_eof w' 3)) \/ (r = -1 /\ errno w' <> EINTR)).
Proof. apply (rio_readn_reads 20 3 (replicate 4 None) 4 rio_demo); vm_compute; lia. Defined.

Lemma rio_writen_writes_witness : exists r w' t,
  rio_writen 20 3 (lit "hello") rio_demo = Ok r w' /\ accepted w' 3 = accepted rio_demo 3 ++ t /\
  ((r = 5 /\ t = lit "hello") \/ (r = -1 /\ t `prefix_of` lit "hello" /\ errno w' <> EINTR)).
Proof. apply (rio_writen_writes 20 3 (lit "hello") rio_demo). vm_compute. lia. Defined.

(** The pipe breaks after three bytes; the second try sends them again. *)
Example Rio_writen_demo :
  match Rio_writen 20 3 (lit "hello") rio_demo with Ok _ w => Some (rs_accepted w) | _ => None end = Some (lit "helhello").
Proof. vm_compute. reflexivity. Qed.

Lemma Rio_writen_repeats_witness : exists w' ts,
  Rio_writen 20 3 (lit "hello") rio_demo = Ok () w' /\ accepted w' 3 = accepted rio_demo 3 ++ concat ts /\
  Forall (fun t => t `prefix_of` lit "hello") ts /\ (length ts <= 5)%nat /\ (last ts = Some (lit "hello") \/ length ts = 5%nat).
Proof. apply (Rio_writen_repeats 20 3 (lit "hello") rio_demo). vm_compute. lia. Defined.

(** A reader that has just been initialised. *)
Definition rio_start : rio_t * rio_sim := (RioT 3 0 0 (replicate RIO_BUFSIZE None), rio_demo).

Lemma rio_start_ok : reader_ok 3 rio_start.
Proof. split; [done|]. split; [|done]. apply length_replicate. Qed.

Lemma rio_readnb_reads_witness : exists r s' t,
  rio_readnb 20 (replicate 4 None) 3 rio_start = Ok (r, of_chars t ++ drop (length t) (replicate 4 None)) s' /\
  reader_ok 3 s' /\ took 3 rio_start s' t /\ (length t <= 3)%nat /\
  ((r = Z.of_nat (length t) /\ (length t = 3%nat \/ ended 3 s')) \/ (r = -1 /\ errno s'.2 <> EINTR)).
Proof. apply (rio_readnb_reads 20 3 (replicate 4 None) 3 rio_start); [exact rio_start_ok|cbn; lia|cbn; lia]. Defined.

(** Two lines and the end: the second line has two characters, and the result is 3. *)
Example rio_readlineb_demo :
  match ('(r1, _) ← rio_readlineb 20 (replicate 10 None) 10; '(r2, _) ← rio_readlineb 20 (replicate 10 None) 10;
         '(r3, _) ← rio_readlineb 20 (replicate 10 None) 10; mret [r1; r2; r3]) rio_start with
  | Ok l _ => Some l
  | _ => None
  end = Some [4; 3; 0].
Proof. vm_compute. reflexivity. Qed.

Lemma rio_readlineb_reads_witness : exists r b s' t,
  rio_readlineb 20 (replicate 10 None) 10 rio_start = Ok (r, b) s' /\
  reader_ok 3 s' /\ took 3 rio_start s' t /\ Z.of_nat (length t) < 10 /\
  ((r = -1 /\ (LF ∉ t) /\ broke 3 s') \/ (r = 0 /\ t = [] /\ ended 3 s' /\ b = replicate 10 None) \/
   (b = of_chars t ++ Some NUL :: drop (S (length t)) (replicate 10 None) /\
    ((exists l, t = l ++ [LF] /\ (LF ∉ l) /\ r = Z.of_nat (length t)) \/
     ((LF ∉ t) /\ r = Z.of_nat (length t) + 1 /\ (r = 10 \/ (ended 3 s' /\ t <> [])))))).
Proof.
  apply (rio_readlineb_reads 20 3 (replicate 10 None) 10 rio_start); [exact rio_start_ok|unfold INT_MAX; lia|cbn; lia|cbn; lia].
Defined.
