(* ===== verification/OpenFd.v ===== *)
(** [open_clientfd] and [open_listenfd] of src/csapp.c, and what becomes of
    their sockets.  [gethostbyname] is a parameter: the address it finds. *)

From S2P Require Import Prelude CLib Outcome ConnIf World Conn Wrappers.
From S2P Require Import Sim DemoKernel.

#[local] Open Scope Z_scope.

Definition LISTENQ : Z := 1024.
Definition INADDR_ANY : list Z := [0; 0; 0; 0].

Section open_fd.
Context {K : Type} `{!Kernel K} (gethostbyname : list ascii -> K -> option (list Z) * K).

Definition open_clientfd (hostname : list ascii) (port : Z) : M K Z :=
  clientfd ← call (k_socket AF_INET);
  if clientfd <? 0 then mret (-1) else
  hp ← call (gethostbyname hostname);
  match hp with
  | None => mret (-2)
  | Some h_addr =>
      '(r, _) ← call (k_connect clientfd (Endpoint AF_INET (htons port) h_addr));
      if r <? 0 then mret (-1) else mret clientfd
  end.

(** The backlog is not an argument of [k_listen]. *)
Definition open_listenfd (port : Z) : M K Z :=
  listenfd ← call (k_socket AF_INET);
  if listenfd <? 0 then mret (-1) else
  r ← call (k_setsockopt listenfd);
  if r <? 0 then mret (-1) else
  r ← call (k_bind listenfd (Endpoint AF_INET (htons (u16 port)) INADDR_ANY));
  if r <? 0 then mret (-1) else
  r ← call (k_listen listenfd);
  if r <? 0 then mret (-1) else mret listenfd.

Definition Open_clientfd `{!Errors K} (hostname : list ascii) (port : Z) : M K (stop + Z) :=
  rc ← open_clientfd hostname port;
  if rc <? 0 then
    if rc =? -1 then unix_error (lit "Open_clientfd Unix error") else dns_error (lit "Open_clientfd DNS error")
  else mret (inr rc).
Definition Open_listenfd `{!Errors K} (port : Z) : M K (stop + Z) :=
  rc ← open_listenfd port;
  if rc <? 0 then unix_error (lit "Open_listenfd error") else mret (inr rc).
End open_fd.

(** ** The descriptors *)

(** The open descriptors, which only [socket] and [close] change. *)
Class SocketObs (K : Type) `{!Kernel K} := {
  k_opened : K -> gset Z;
  socket_law a k : let '(fd, k') := k_socket a k in
    if fd <? 0 then k_opened k' = k_opened k else (fd ∉ k_opened k) /\ k_opened k' = {[fd]} ∪ k_opened k;
  connect_law fd ep k : k_opened (k_connect fd ep k).2 = k_opened k;
  setsockopt_law fd k : k_opened (k_setsockopt fd k).2 = k_opened k;
  bind_law fd ep k : k_opened (k_bind fd ep k).2 = k_opened k;
  listen_law fd k : k_opened (k_listen fd k).2 = k_opened k
}.

Section leaks.
Context {K : Type} `{!Kernel K, !SocketObs K}.

(** What [m] does with the socket it makes: the result is that descriptor or
    an error, and in any case it stays open. *)
Definition opens_one (m : M K Z) (k : K) : Prop :=
  let fd := (k_socket AF_INET k).1 in
  exists r k', m k = Ok r k' /\
    if fd <? 0 then r = -1 /\ k_opened k' = k_opened k
    else (r = fd \/ r < 0) /\ (fd ∉ k_opened k) /\ k_opened k' = {[fd]} ∪ k_opened k.

Lemma wp_call {A} (f : K -> A * K) Q (k : K) : Q (f k).1 (f k).2 -> wp safe (call f) Q k.
Proof. unfold wp, call. by destruct (f k). Qed.

Lemma opens_one_intro (f : Z -> M K Z) k :
  (forall fd k', 0 <= fd -> wp safe (f fd) (fun r k2 => (r = fd \/ r < 0) /\ k_opened k2 = k_opened k') k') ->
  opens_one (fd ← call (k_socket AF_INET); if fd <? 0 then mret (-1) else f fd) k.
Proof.
  intros Hf. unfold opens_one. pose proof (socket_law AF_INET k) as L. unfold mbind, M_bind, call.
  destruct (k_socket AF_INET k) as [fd k1]. cbn [fst]. destruct (Z.ltb_spec fd 0) as [Hneg|Hpos].
  - by exists (-1), k1.
  - destruct (wp_Ok _ _ _ (Hf fd k1 Hpos)) as (r&k2&E&Hr&Ho). exists r, k2. destruct L as [L1 L2].
    split; [exact E|]. split_and!; [done|done|congruence].
Qed.
End leaks.

(** [open_clientfd] and [open_listenfd] return the descriptor of the new
    socket, or -1 or -2 after an error.  Whatever fails behind [socket], the
    descriptor stays open, though the caller does not learn it. *)
Theorem open_fd_leaks {K} `{!Kernel K, !SocketObs K} (gethostbyname : list ascii -> K -> option (list Z) * K)
    (hostname : list ascii) (port : Z) (k : K)
    (Hhost : forall k', k_opened (gethostbyname hostname k').2 = k_opened k') :
  opens_one (open_clientfd gethostbyname hostname port) k /\ opens_one (open_listenfd port) k.
Proof.
  assert (forall (b : bool) fd k0 k', k_opened k' = k_opened k0 -> wp safe (if b then mret (-1) else mret fd)
    (fun r k2 => (r = fd \/ r < 0) /\ k_opened k2 = k_opened k0) k') as Hend.
  { intros b fd k0 k' E. destruct b; apply wp_ret; (split; [|done]); [right; lia|by left]. }
  split; apply opens_one_intro; intros fd k' Hfd.
  - apply wp_bind, wp_call. specialize (Hhost k'). destruct (gethostbyname hostname k') as [[a|] k1]; cbn [fst snd] in *.
    + apply wp_bind, wp_call. pose proof (connect_law fd (Endpoint AF_INET (htons port) a) k1) as E.
      destruct (k_connect fd _ k1) as [[r e] k2]. cbn [fst snd] in *. apply Hend. congruence.
    + apply wp_ret. split; [right; lia|done].
  - apply wp_bind, wp_call. pose proof (setsockopt_law fd k') as E1. destruct (k_setsockopt fd k') as [r1 k1].
    cbn [fst snd] in *. destruct (r1 <? 0); [by apply (Hend true)|].
    apply wp_bind, wp_call. set (ep := Endpoint _ _ _). pose proof (bind_law fd ep k1) as E2. destruct (k_bind fd ep k1) as [r2 k2].
    cbn [fst snd] in *. destruct (r2 <? 0); [apply (Hend true); congruence|].
    apply wp_bind, wp_call. pose proof (listen_law fd k2) as E3. destruct (k_listen fd k2) as [r3 k3].
    cbn [fst snd] in *. apply Hend. congruence.
Qed.

(** The number that is lowest of those not in use is not in use. *)
Lemma lowest_from n : forall m l, m <= lowest n m l.
Proof. induction n as [|n IH]; intros m l; cbn; [done|]. case_decide; [|done]. specialize (IH (m + 1) l). lia. Qed.

Lemma filter_from_le (m : Z) (l : list Z) :
  (length (filter (fun x => (m + 1 <= x)%Z) l) + (if decide (m ∈ l) then 1 else 0) <= length (filter (fun x => (m <= x)%Z) l))%nat.
Proof.
  induction l as [|y l IH]; [by rewrite decide_False by apply not_elem_of_nil|].
  rewrite !filter_cons. destruct (decide (m ∈ y :: l)) as [H|H], (decide (m ∈ l)) as [H'|H'];
    rewrite elem_of_cons in H; destruct (decide (m <= y)), (decide (m + 1 <= y)); cbn; try lia; exfalso;
    first [destruct H as [?|?]; [lia|done] | apply H; by right | apply H; left; lia].
Qed.

Lemma lowest_free n : forall m l, (length (filter (fun x => (m <= x)%Z) l) <= n)%nat -> lowest n m l ∉ l.
Proof.
  induction n as [|n IH]; intros m l Hn; cbn.
  - intros Hin. pose proof (filter_from_le m l) as H. rewrite decide_True in H by done. lia.
  - case_decide as Hd; [|done]. apply IH. pose proof (filter_from_le m l) as H. rewrite decide_True in H by done. lia.
Qed.

#[export] Instance demo_sockets : SocketObs dkernel.
Proof.
  refine {| k_opened := fun k => list_to_set (dk_open k) |}; try done.
  - intros a k. cbn -[lowest]. pose proof (lowest_from (length (dk_open k)) 5 (dk_open k)) as H.
    rewrite (proj2 (Z.ltb_ge _ _)) by lia. split; [|done].
    rewrite elem_of_list_to_set. apply lowest_free, length_filter.
Defined.

Lemma open_fd_leaks_witness :
  opens_one (open_clientfd (fun _ k => (None, k)) (lit "unknown") 80) (dkernel0 [] 10) /\
  opens_one (open_listenfd 80) (dkernel0 [] 10).
Proof. by apply (open_fd_leaks (fun _ k => (None, k)) (lit "unknown") 80 (dkernel0 [] 10)). Defined.

(** The host is unknown: -2, and the descriptor 5 is open. *)
Example open_clientfd_leaks :
  match open_clientfd (fun _ k => (None, k)) (lit "unknown") 80 (dkernel0 [] 10) with
  | Ok r k => Some (r, dk_open k)
  | _ => None
  end = Some (-2, [5; 3; 4]).
Proof. vm_compute. reflexivity. Qed.
