(* ===== verification/Utstring.v ===== *)
(** src/uthash/utstring.h: growing byte strings, and searching in them with the
    algorithm of Knuth, Morris and Pratt.

    A [long] array is a list whose elements may not have been written; a result
    [Undef] is an access outside an array or to such an element.  The formatting
    of [vsnprintf] is given as the text it produces. *)

From S2P Require Import Prelude CLib Outcome ConnIO Log.

#[local] Open Scope Z_scope.

(** ** Strings *)

(** [n] is the allocated size, [i] the index of the first unused byte. *)
Record UT_string := UTString { us_d : cells; us_n : Z; us_i : Z }.

(** [realloc] keeps the contents; it is taken to succeed. *)
Definition utstring_reserve (s : UT_string) (amt : Z) : UT_string :=
  if us_n s - us_i s <? amt
  then UTString (us_d s ++ replicate (Z.to_nat amt) None) (us_n s + amt) (us_i s) else s.

Definition utstring_init : option UT_string :=
  let s := utstring_reserve (UTString [] 0 0) 100 in
  d ← store (us_d s) 0 NUL; Some (UTString d (us_n s) (us_i s)).

Definition utstring_clear (s : UT_string) : option UT_string :=
  d ← store (us_d s) 0 NUL; Some (UTString d (us_n s) 0).

(** [b] points to the [l] bytes of the list. *)
Definition utstring_bincpy (s : UT_string) (b : list ascii) : option UT_string :=
  let l := Z.of_nat (length b) in
  let s := utstring_reserve s (l + 1) in
  d ← blit (us_d s) (Z.to_nat (us_i s)) (of_chars b);
  d ← store d (us_i s + l) NUL;
  Some (UTString d (us_n s) (us_i s + l)).

Definition utstring_concat (dst src : UT_string) : option UT_string :=
  let dst := utstring_reserve dst (us_i src + 1) in
  d ← blit (us_d dst) (Z.to_nat (us_i dst)) (take (Z.to_nat (us_i src)) (us_d src));
  d ← store d (us_i dst + us_i src) NUL;
  Some (UTString d (us_n dst) (us_i dst + us_i src)).

(** An [unsigned]. *)
Definition utstring_len (s : UT_string) : Z := u32 (us_i s).

(** The [while (1)], with [vsnprintf] giving the length of its text. *)
Fixpoint utstring_printf_va (fuel : nat) (s : UT_string) (text : list ascii) : M () UT_string :=
  match fuel with
  | O => no_fuel
  | S fuel =>
      let n := Z.of_nat (length text) in
      d ← demand (snprintf_at (us_d s) (us_i s) (us_n s - us_i s) text);
      let s := UTString d (us_n s) (us_i s) in
      if n <? us_n s - us_i s then mret (UTString (us_d s) (us_n s) (us_i s + n))
      else utstring_printf_va fuel (utstring_reserve s (n + 1)) text
  end.

(** ** Searching *)

(** The table is the state. *)
Abbreviation longs := (list (option Z)).

Definition char_at (s : list ascii) (i : Z) : option ascii := if 0 <=? i then s !! Z.to_nat i else None.
Definition long_at (i : Z) : M longs Z :=
  t ← get id; demand (if 0 <=? i then mjoin (t !! Z.to_nat i) else None).
Definition long_set (i v : Z) : M longs () :=
  t ← get id;
  if (0 <=? i) && (i <? Z.of_nat (length t)) then modify (fun t => <[Z.to_nat i := Some v]> t) else undef.

(** The inner [while]: [c] is the character [P_Needle\[j\]] is compared with. *)
Fixpoint kmp_fall (fuel : nat) (P_Needle : list ascii) (c : ascii) (j : Z) : M longs Z :=
  match fuel with
  | O => no_fuel
  | S fuel =>
      if negb (-1 <? j) then mret j else
      d ← demand (char_at P_Needle j);
      if decide (c <> d) then j ← long_at j; kmp_fall fuel P_Needle c j else mret j
  end.

Fixpoint build_loop (fuel : nat) (P_Needle : list ascii) (i j : Z) : M longs () :=
  match fuel with
  | O => no_fuel
  | S fuel' =>
      let P_NeedleLen := Z.of_nat (length P_Needle) in
      if negb (i <? P_NeedleLen) then mret () else
      c ← demand (char_at P_Needle i);
      j ← kmp_fall fuel P_Needle c j;
      let i := i + 1 in
      let j := j + 1 in
      _ ← (if i <? P_NeedleLen then
             c ← demand (char_at P_Needle i);
             d ← demand (char_at P_Needle j);
             if decide (c = d) then v ← long_at j; long_set i v else long_set i j
           else long_set i j);
      build_loop fuel' P_Needle i j
  end.

Definition _utstring_BuildTable (fuel : nat) (P_Needle : list ascii) : M longs () :=
  let i := 0 in
  let j := i - 1 in
  _ ← long_set i j;
  build_loop fuel P_Needle i j.

(** The length is converted to [int]. *)
Fixpoint find_loop (fuel : nat) (P_Haystack P_Needle : list ascii) (i j : Z) : M longs Z :=
  match fuel with
  | O => no_fuel
  | S fuel' =>
      let n := Z.of_nat (length P_Haystack) in
      let m := Z.of_nat (length P_Needle) in
      if negb ((j <? wrap32 n) && (m <=? n - j + i)) then mret (-1) else
      c ← demand (char_at P_Haystack j);
      i ← kmp_fall fuel P_Needle c i;
      let i := i + 1 in
      let j := j + 1 in
      if wrap32 m <=? i then mret (j - i) else find_loop fuel' P_Haystack P_Needle i j
  end.

Definition _utstring_find (fuel : nat) (P_Haystack P_Needle : list ascii) : M longs Z :=
  find_loop fuel P_Haystack P_Needle 0 0.

(** ** Searching backwards *)

(** [len] is the length of the needle, in [_utstring_findR] converted to [int]. *)
Fixpoint kmp_fallR (fuel : nat) (P_Needle : list ascii) (len : Z) (c : ascii) (j : Z) : M longs Z :=
  match fuel with
  | O => no_fuel
  | S fuel =>
      if negb (j <? len) then mret j else
      d ← demand (char_at P_Needle j);
      if decide (c <> d) then j ← long_at (j + 1); kmp_fallR fuel P_Needle len c j else mret j
  end.

Fixpoint build_loopR (fuel : nat) (P_Needle : list ascii) (i j : Z) : M longs () :=
  match fuel with
  | O => no_fuel
  | S fuel' =>
      if negb (0 <=? i) then mret () else
      c ← demand (char_at P_Needle i);
      j ← kmp_fallR fuel P_Needle (Z.of_nat (length P_Needle)) c j;
      let i := i - 1 in
      let j := j - 1 in
      _ ← (if 0 <=? i then
             c ← demand (char_at P_Needle i);
             d ← demand (char_at P_Needle j);
             if decide (c = d) then v ← long_at (j + 1); long_set (i + 1) v else long_set (i + 1) j
           else long_set (i + 1) j);
      build_loopR fuel' P_Needle i j
  end.

Definition _utstring_BuildTableR (fuel : nat) (P_Needle : list ascii) : M longs () :=
  let i := Z.of_nat (length P_Needle) - 1 in
  let j := i + 1 in
  _ ← long_set (i + 1) j;
  build_loopR fuel P_Needle i j.

Fixpoint find_loopR (fuel : nat) (P_Haystack P_Needle : list ascii) (i j : Z) : M longs Z :=
  match fuel with
  | O => no_fuel
  | S fuel' =>
      if negb ((0 <=? j) && (i <=? j)) then mret (-1) else
      c ← demand (char_at P_Haystack j);
      i ← kmp_fallR fuel P_Needle (wrap32 (Z.of_nat (length P_Needle))) c i;
      let i := i - 1 in
      let j := j - 1 in
      if i <? 0 then mret (j + 1) else find_loopR fuel' P_Haystack P_Needle i j
  end.

Definition _utstring_findR (fuel : nat) (P_Haystack P_Needle : list ascii) : M longs Z :=
  let j := Z.of_nat (length P_Haystack) - 1 in
  let i := Z.of_nat (length P_Needle) - 1 in
  find_loopR fuel P_Haystack P_Needle i j.

(** ** In a string *)

(** The table is allocated, used and freed; [memory] is whether [malloc] gives it. *)
Definition with_table {W} (memory : bool) (n : nat) (m : M longs Z) : M W Z := fun w =>
  if negb memory then Ok (-1) w else
  match m (replicate n None) with
  | Ok a _ => Ok a w
  | Undef _ => Undef w
  | NoFuel => NoFuel
  end.

Definition start_position (s : UT_string) (P_StartPosition : Z) : Z :=
  if P_StartPosition <? 0 then us_i s + P_StartPosition else P_StartPosition.

(** [a >= b] of a [long] and a [size_t]. *)
Definition ge_size (a b : Z) : bool := b <=? a mod 18446744073709551616.

(** With a negative length, which passes the test, the loop of the search ends
    at once. *)
Definition utstring_find {W} (memory : bool) (fuel : nat) (s : UT_string) (P_StartPosition : Z) (P_Needle : list ascii) : M W Z :=
  let V_StartPosition := start_position s P_StartPosition in
  let V_HaystackLen := us_i s - V_StartPosition in
  if ge_size V_HaystackLen (Z.of_nat (length P_Needle)) && (0 <? Z.of_nat (length P_Needle)) then
    with_table memory (length P_Needle + 1) (
      _ ← _utstring_BuildTable fuel P_Needle;
      if V_HaystackLen <? 0 then mret (-1) else
      h ← demand (bytes_at (us_d s) V_StartPosition V_HaystackLen);
      V_FindPosition ← _utstring_find fuel h P_Needle;
      mret (if 0 <=? V_FindPosition then V_FindPosition + V_StartPosition else V_FindPosition))
  else mret (-1).

Definition utstring_findR {W} (memory : bool) (fuel : nat) (s : UT_string) (P_StartPosition : Z) (P_Needle : list ascii) : M W Z :=
  let V_StartPosition := start_position s P_StartPosition in
  let V_HaystackLen := V_StartPosition + 1 in
  if ge_size V_HaystackLen (Z.of_nat (length P_Needle)) && (0 <? Z.of_nat (length P_Needle)) then
    with_table memory (length P_Needle + 1) (
      _ ← _utstring_BuildTableR fuel P_Needle;
      if V_HaystackLen <? 0 then mret (-1) else
      h ← demand (bytes_at (us_d s) 0 V_HaystackLen);
      _utstring_findR fuel h P_Needle)
  else mret (-1).
