(* ===== verification/Kmp.v ===== *)
(** The algorithm of Knuth, Morris and Pratt in utstring.h: the table holds the
    borders of the needle's prefixes, and with it the search finds the first
    occurrence; the backward search is the forward one in the mirror. *)

From S2P Require Import Prelude CLib Outcome Utstring.

#[local] Open Scope Z_scope.

(** ** Borders *)

Section borders.
Context (P : list ascii).
Implicit Types (X : list ascii) (i k : nat).
#[local] Abbreviation m := (length P).

(** The first [k] characters of the needle stand in [X] in front of [j]. *)
Definition ends k X (j : nat) : Prop := (k <= m)%nat /\ take k P `suffix_of` take j X.

Lemma ends_le k X (j : nat) : ends k X j -> (j <= length X)%nat -> (k <= j)%nat.
Proof. intros [Hk H%suffix_length] Hj. rewrite !length_take in H. lia. Qed.

Lemma ends_0 X (j : nat) : ends 0 X j.
Proof. split; [lia|]. apply suffix_nil. Qed.

Lemma ends_refl (j : nat) : (j <= m)%nat -> ends j P j.
Proof. by split. Qed.

Lemma ends_trans k i X j : ends k P i -> ends i X j -> ends k X j.
Proof. intros [Hk H1] [_ H2]. split; [done|]. by etrans. Qed.

Lemma ends_chain k i X j : ends k X j -> ends i X j -> (k <= i)%nat -> ends k P i.
Proof.
  intros [Hk H1] [Hi H2] Hle. split; [done|]. destruct (suffix_weak_total _ _ _ H1 H2) as [H|H]; [done|].
  pose proof (suffix_length _ _ H) as Hl. rewrite !length_take in Hl. by replace i with k by lia.
Qed.

Lemma ends_step k X (j : nat) c : (k < m)%nat -> X !! j = Some c -> ends (S k) X (S j) <-> ends k X j /\ P !! k = Some c.
Proof.
  intros Hk Hj. destruct (lookup_lt_is_Some_2 P k Hk) as [d Hd]. unfold ends.
  rewrite (take_S_r _ _ _ Hd), (take_S_r _ _ _ Hj). split.
  - intros [_ H]. destruct H as [l H]. rewrite app_assoc in H. apply app_inj_tail in H as [H ->].
    split; [split; [lia|by exists l]|done].
  - intros [[_ [l H]] E]. rewrite Hd in E. injection E as ->. split; [lia|]. exists l. by rewrite H, app_assoc.
Qed.

(** [r] is the longest of the borders of the first [i] characters, itself
    included up to [b], behind which [c] comes; -1 if there is none. *)
Definition best (good : ascii -> Prop) i (b : nat -> Prop) (r : Z) : Prop :=
  (r = -1 \/ exists k d, r = Z.of_nat k /\ b k /\ ends k P i /\ P !! k = Some d /\ good d) /\
  forall k d, b k -> ends k P i -> P !! k = Some d -> good d -> Z.of_nat k <= r.

(** The table up to [q]: the longest proper border that is followed by another
    character. *)
Definition strong q (v : Z) : Prop := forall c, P !! q = Some c -> best (fun d => d <> c) q (fun k => (k < q)%nat) v.

Definition table_ok (t : longs) (n : nat) : Prop :=
  length t = S m /\ forall q, (q < n)%nat -> exists v, t !! q = Some (Some v) /\ strong q v.

Lemma best_lt good i b v : best good i b v -> (forall k, b k -> (k < i)%nat) -> v < Z.of_nat i.
Proof. intros [[->|(k&d&->&Hk&_)] _] Hb; [lia|]. specialize (Hb k Hk). lia. Qed.

(** Falling along the table from [i] finds the longest border followed by [c]. *)
Lemma kmp_fall_spec t n c : table_ok t n -> forall fuel i, (i < n)%nat -> (n <= m)%nat -> (i + 2 <= fuel)%nat ->
  wp safe (kmp_fall fuel P c (Z.of_nat i)) (fun r t' => t' = t /\ best (fun d => d = c) i (fun k => (k <= i)%nat) r) t.
Proof.
  intros [Ht Hok] fuel i. revert fuel. induction i as [i IH] using lt_wf_ind. intros fuel Hi Hn Hf.
  destruct fuel as [|fuel]; [lia|]. cbn [kmp_fall]. rewrite (proj2 (Z.ltb_lt (-1) _)) by lia. cbn [negb].
  destruct (lookup_lt_is_Some_2 P i ltac:(lia)) as [d Hd].
  apply wp_bind, wp_demand with d. { unfold char_at. rewrite (proj2 (Z.leb_le _ _)) by lia. by rewrite Nat2Z.id. }
  destruct (decide (c <> d)) as [Hne|Heq].
  - destruct (Hok i Hi) as (v&Hv&Hs). specialize (Hs d Hd). apply wp_bind. unfold long_at. apply wp_bind, wp_get.
    apply wp_demand with v. { rewrite (proj2 (Z.leb_le _ _)) by lia. rewrite Nat2Z.id. unfold id. by rewrite Hv. }
    destruct Hs as [Hv1 Hv2]. destruct Hv1 as [->|(k&e&->&Hk&Hend&He&Hed)].
    + destruct fuel as [|fuel]; [lia|]. change (kmp_fall (S fuel) P c (-1)) with (mret (M := M longs) (-1)). apply wp_ret. split; [done|]. split; [by left|].
      intros k e Hk Hke Hpe ->. destruct (decide (k = i)) as [->|Hki]; [congruence|].
      exact (Hv2 k c ltac:(lia) Hke Hpe Hne).
    + eapply wp_mono; [apply (IH k); [lia|lia|lia|lia]|]. intros r t' [-> [Hr1 Hr2]]. split; [done|]. split.
      * destruct Hr1 as [->|(k2&e2&->&Hk2&He2&Hp2&->)]; [by left|]. right. exists k2, c.
        split_and!; [done|lia|by eapply ends_trans|done|done].
      * intros k2 e2 Hk2 Hend2 Hp2 ->. destruct (decide (k2 = i)) as [->|Hki]; [congruence|].
        pose proof (Hv2 k2 c ltac:(lia) Hend2 Hp2 Hne). apply (Hr2 k2 c); [lia| |done|done].
        eapply ends_chain; [exact Hend2|exact Hend|lia].
  - apply wp_ret. assert (c = d) as -> by (destruct (decide (c = d)); [done|by destruct Heq]). split; [done|]. split.
    + right. exists i, d. split_and!; [done|lia|apply ends_refl; lia|done|done].
    + intros k e Hk _ _ _. lia.
Qed.

(** One character more: [j] is the longest of the prefixes, shorter than [b],
    that end in front of [x]; then the same of the next position. *)
Lemma step_longest X x c i r (b : nat -> Prop) : X !! x = Some c -> ends i X x ->
  (forall k, b (S k) -> (k < m)%nat -> ends k X x -> (k <= i)%nat) ->
  best (fun d => d = c) i (fun k => (k <= i)%nat) r ->
  exists i', r + 1 = Z.of_nat i' /\ (i' <= S i)%nat /\ ends i' X (S x) /\
    forall k, b k -> ends k X (S x) -> (k <= i')%nat.
Proof.
  intros Hx Hi Hmax [Hr1 Hr2]. assert (forall i', r + 1 = Z.of_nat i' -> forall k, b k -> ends k X (S x) -> (k <= i')%nat) as Hup.
  { intros i' Ei [|k] Hb Hk; [lia|]. destruct Hk as [Hkm Hk]. assert (ends (S k) X (S x)) as Hk' by by split.
    apply (ends_step _ _ _ c) in Hk' as [Hk1 Hk2]; [|lia|done].
    assert (k <= i)%nat by (apply Hmax; [done|lia|done]).
    enough (Z.of_nat k <= r) by lia. apply (Hr2 k c); [done| |done|done]. by eapply ends_chain. }
  destruct Hr1 as [->|(k&d&->&Hk&Hend&Hd&->)].
  - exists 0%nat. split_and!; [done|lia|apply ends_0|by apply Hup].
  - exists (S k). split_and!; [lia|lia| |apply Hup; lia].
    apply (ends_step _ _ _ c); [by eapply lookup_lt_Some|done|]. split; [|done]. by eapply ends_trans.
Qed.
(** ** Building the table *)

Lemma char_at_nat X (i : nat) : char_at X (Z.of_nat i) = X !! i.
Proof. unfold char_at. rewrite (proj2 (Z.leb_le _ _)) by lia. by rewrite Nat2Z.id. Qed.

Lemma long_at_spec t (i : nat) v (Q : Z -> longs -> Prop) : t !! i = Some (Some v) -> Q v t -> wp safe (long_at (Z.of_nat i)) Q t.
Proof.
  intros Hv HQ. unfold long_at. apply wp_bind, wp_get, wp_demand with v; [|done].
  rewrite (proj2 (Z.leb_le _ _)) by lia. rewrite Nat2Z.id. unfold id. by rewrite Hv.
Qed.

Lemma long_set_spec t (i : nat) v (Q : () -> longs -> Prop) : (i < length t)%nat -> Q () (<[i := Some v]> t) ->
  wp safe (long_set (Z.of_nat i) v) Q t.
Proof.
  intros Hi HQ. unfold long_set. apply wp_bind, wp_get. unfold id.
  replace ((0 <=? _) && _) with true by (symmetry; bool_arith). apply wp_modify. by rewrite Nat2Z.id.
Qed.

(** The longest proper border of the first [i] characters. *)
Definition longest i (j : Z) : Prop :=
  (i = 0%nat /\ j = -1) \/
  exists k, j = Z.of_nat k /\ (k < i)%nat /\ ends k P i /\ forall k', (k' < i)%nat -> ends k' P i -> (k' <= k)%nat.

Lemma longest_next t i j c fuel : table_ok t (S i) -> (S i <= m)%nat -> longest i j -> P !! i = Some c -> (i + 3 <= fuel)%nat ->
  wp safe (kmp_fall fuel P c j) (fun r t' => t' = t /\ longest (S i) (r + 1)) t.
Proof.
  intros Ht Hi Hj Hc Hf. destruct Hj as [[-> ->]|(k&->&Hk&Hend&Hmax)].
  - destruct fuel as [|fuel]; [lia|]. change (kmp_fall (S fuel) P c (-1)) with (mret (M := M longs) (-1)).
    apply wp_ret. split; [done|]. right. exists 0%nat. split_and!; [done|lia|apply ends_0|lia].
  - eapply wp_mono; [eapply kmp_fall_spec; [exact Ht|lia|lia|lia]|]. intros r t' [-> Hr]. split; [done|].
    destruct (step_longest P i c k r (fun k' => (k' < S i)%nat) Hc Hend) as (k'&E&Hle&He&Hm); [|done|].
    + intros k' Hk' _ Hek. apply Hmax; [lia|done].
    + right. exists k'. split_and!; [done|lia|done|exact Hm].
Qed.

(** The entry for the next prefix. *)
Lemma strong_next i k c d v : longest (S i) (Z.of_nat k) -> P !! S i = Some c -> P !! k = Some d ->
  (if decide (c = d) then strong k v else v = Z.of_nat k) -> strong (S i) v.
Proof.
  intros [[? _]|(k0&Ek&Hk&Hend&Hmax)] Hc Hd Hv; [done|]. assert (k0 = k) as -> by lia.
  intros c0 Hc0. rewrite Hc in Hc0. injection Hc0 as <-. destruct (decide (c = d)) as [->|Hne].
  - destruct (Hv d Hd) as [Hv1 Hv2]. split.
    + destruct Hv1 as [->|(k'&e&->&Hk'&He&Hp&Hed)]; [by left|]. right. exists k', e.
      split_and!; [done|lia|by eapply ends_trans|done|done].
    + intros k' e Hk' He Hp Hed. assert (k' <= k)%nat by (by apply Hmax).
      destruct (decide (k' = k)) as [->|]; [congruence|]. apply (Hv2 k' e); [lia| |done|done]. by eapply ends_chain.
  - subst v. split.
    + right. exists k, d. split_and!; try done; congruence.
    + intros k' e Hk' He _ _. specialize (Hmax k' Hk' He). lia.
Qed.

Lemma table_ok_set t i v : table_ok t (S i) -> strong (S i) v -> (S i < m)%nat -> table_ok (<[S i := Some v]> t) (S (S i)).
Proof.
  intros [Hl Ht] Hs Hi. split; [by rewrite length_insert|]. intros q Hq. destruct (decide (q = S i)) as [->|Hne].
  - exists v. rewrite list_lookup_insert_eq by lia. done.
  - destruct (Ht q ltac:(lia)) as (w&Hw&Hsw). exists w. by rewrite list_lookup_insert_ne.
Qed.

Lemma build_loop_spec fuel : forall i j t, table_ok t (S i) -> (i < m)%nat -> longest i j -> (2 * m + 3 - i <= fuel)%nat ->
  wp safe (build_loop fuel P (Z.of_nat i) j) (fun _ t' => table_ok t' m) t.
Proof.
  induction fuel as [|fuel IH]; intros i j t Ht Hi Hj Hf; [lia|]. cbn [build_loop].
  rewrite (proj2 (Z.ltb_lt _ _)) by lia. cbn [negb]. destruct (lookup_lt_is_Some_2 P i Hi) as [c Hc].
  apply wp_bind, wp_demand with c; [by rewrite char_at_nat|].
  eapply wp_seq; [eapply longest_next; [exact Ht|lia|exact Hj|exact Hc|lia]|]. intros r t' [-> Hr].
  pose proof Hr as [[? _]|(k&Ek&Hk&_)]; [done|]. rewrite Ek in Hr |- *.
  replace (Z.of_nat i + 1) with (Z.of_nat (S i)) by lia. destruct (Z.ltb_spec (Z.of_nat (S i)) (Z.of_nat m)) as [Hlt|Hge].
  - destruct (lookup_lt_is_Some_2 P (S i) ltac:(lia)) as [c' Hc'], (lookup_lt_is_Some_2 P k ltac:(lia)) as [d Hd].
    apply wp_bind, wp_bind, wp_demand with c'; [by rewrite char_at_nat|].
    apply wp_bind, wp_demand with d; [by rewrite char_at_nat|].
    assert (forall v, (if decide (c' = d) then strong k v else v = Z.of_nat k) ->
      wp safe (build_loop fuel P (Z.of_nat (S i)) (Z.of_nat k)) (fun _ t' => table_ok t' m) (<[S i := Some v]> t)) as Hnext.
    { intros v Hv. apply IH; [|lia|done|lia]. apply table_ok_set; [done| |lia]. by eapply strong_next. }
    destruct (decide (c' = d)) as [E|E].
    + destruct (proj2 Ht k ltac:(lia)) as (v&Hv&Hs). apply wp_bind. eapply long_at_spec; [exact Hv|].
      apply long_set_spec; [destruct Ht; lia|by apply Hnext].
    + apply long_set_spec; [destruct Ht; lia|by apply Hnext].
  - assert (S i = m) as Em by lia. apply wp_bind, long_set_spec; [destruct Ht; lia|].
    destruct fuel as [|fuel]; [lia|]. cbn [build_loop]. rewrite (proj2 (Z.ltb_ge _ _)) by lia. cbn [negb]. apply wp_ret.
    destruct Ht as [Hl Ht]. split; [by rewrite length_insert|]. intros q Hq. destruct (Ht q ltac:(lia)) as (w&Hw&Hsw).
    exists w. rewrite list_lookup_insert_ne by lia. done.
Qed.

Lemma BuildTable_spec fuel t : P <> [] -> length t = S m -> (2 * m + 3 <= fuel)%nat ->
  wp safe (_utstring_BuildTable fuel P) (fun _ t' => table_ok t' m) t.
Proof.
  intros Hne Hl Hf. assert (0 < m)%nat by (destruct P; [done|cbn; lia]). unfold _utstring_BuildTable.
  apply wp_bind. change 0 with (Z.of_nat 0). apply long_set_spec; [lia|]. apply build_loop_spec; [|lia|by left|lia].
  split; [by rewrite length_insert|]. intros q Hq. assert (q = 0)%nat as -> by lia. exists (-1).
  rewrite list_lookup_insert_eq by lia. split; [done|]. intros c _. split; [by left|]. intros k d Hk. lia.
Qed.

(** ** Searching *)

(** The needle stands in [X] at [p]. *)
Definition occurs X (p : nat) : Prop := take m (drop p X) = P.

Lemma occurs_ends X p : (p + m <= length X)%nat -> occurs X p <-> ends m X (p + m).
Proof.
  intros Hp. unfold occurs, ends. rewrite firstn_all. split.
  - intros H. split; [done|]. exists (take p X). transitivity (take p X ++ take m (drop p X)); [symmetry; apply take_take_drop|by rewrite H].
  - intros [_ [l H]]. assert (length l = p) as El.
    { apply (f_equal length) in H. rewrite length_take, length_app in H. lia. }
    rewrite <-(take_drop (p + m) X), H, <-app_assoc, drop_app_length' by done. apply take_app_length.
Qed.

Lemma occurs_bound X p : occurs X p -> (m = 0 \/ p + m <= length X)%nat.
Proof. intros H. apply (f_equal length) in H. rewrite length_take, length_drop in H. lia. Qed.

(** No occurrence ends at [x] or before; [i] is the longest prefix that ends there. *)
Definition searched X (i x : nat) : Prop :=
  (x <= length X)%nat /\ (i < m)%nat /\ ends i X x /\
  (forall k, (k < m)%nat -> ends k X x -> (k <= i)%nat) /\ forall e, (e <= x)%nat -> ~ ends m X e.

Lemma find_loop_spec t X fuel : table_ok t m -> Z.of_nat m <= INT_MAX -> Z.of_nat (length X) <= INT_MAX ->
  forall i x, searched X i x -> (length X - x + m + 3 <= fuel)%nat ->
  wp safe (find_loop fuel X P (Z.of_nat i) (Z.of_nat x)) (fun r t' => t' = t /\
    ((r = -1 /\ forall p, ~ occurs X p) \/
     exists p, r = Z.of_nat p /\ occurs X p /\ forall p', occurs X p' -> (p <= p')%nat)) t.
Proof.
  intros Ht Hm32 Hx32. induction fuel as [|fuel IH]; intros i x (Hx&Him&Hend&Hmax&Hno) Hf; [lia|].
  cbn [find_loop]. rewrite !wrap32_small by (unfold INT_MIN; lia).
  assert (forall p, occurs X p -> (x < p + m)%nat) as Hlater.
  { intros p Hp. destruct (decide (p + m <= x)%nat) as [Hle|]; [|lia]. destruct (Hno (p + m)%nat Hle).
    destruct (occurs_bound X p Hp); [lia|]. by apply occurs_ends. }
  destruct (_ && _) eqn:Econd; cbn [negb].
  2:{ apply wp_ret. split; [done|]. left. split; [done|]. intros p Hp. pose proof (Hlater p Hp) as Hl.
      destruct (occurs_bound X p Hp) as [|Hb]; [lia|].
      assert (Z.of_nat (length X) - Z.of_nat x + Z.of_nat i < Z.of_nat m) as Hc.
      { apply andb_false_iff in Econd as [E%Z.ltb_ge|E%Z.leb_gt]; lia. }
      assert (p < x)%nat as Hpx by lia. enough (x - p <= i)%nat by lia. apply Hmax; [lia|].
      assert (take (x - p) P = take (x - p) (drop p X)) as E.
      { rewrite <-Hp at 1. rewrite take_take. f_equal. lia. }
      split; [lia|]. rewrite E. exists (take p X). rewrite take_take_drop. f_equal. lia. }
  apply andb_true_iff in Econd as [Hlt%Z.ltb_lt _].
  destruct (lookup_lt_is_Some_2 X x ltac:(lia)) as [c Hc]. apply wp_bind, wp_demand with c; [by rewrite char_at_nat|].
  eapply wp_seq; [eapply kmp_fall_spec; [exact Ht|done|done|lia]|]. intros r t' [-> Hr].
  destruct (step_longest X x c i r (fun _ => True) Hc Hend) as (i'&E&Hle&He&Hm); [intros k _ Hk; by apply Hmax|done|].
  rewrite E. replace (Z.of_nat x + 1) with (Z.of_nat (S x)) by lia. destruct (Z.leb_spec (Z.of_nat m) (Z.of_nat i')) as [Hf'|Hf'].
  - assert (i' = m) as -> by (destruct He; lia). apply wp_ret. split; [done|]. right. exists (S x - m)%nat.
    assert (m <= S x)%nat as Hmx by (apply (ends_le _ X); [done|lia]). split; [lia|]. split.
    + apply occurs_ends; [lia|]. by replace (S x - m + m)%nat with (S x) by lia.
    + intros p' Hp'. pose proof (Hlater p' Hp'). lia.
  - apply IH; [|lia]. split_and!; [lia|lia|done|intros k _; by apply Hm|].
    intros e He' Hend'. destruct (decide (e <= x)%nat) as [Hex|]; [by eapply Hno|].
    assert (e = S x) as -> by lia. specialize (Hm m I Hend'). lia.
Qed.

Lemma find_spec t X fuel : P <> [] -> table_ok t m -> Z.of_nat m <= INT_MAX -> Z.of_nat (length X) <= INT_MAX ->
  (length X + m + 3 <= fuel)%nat ->
  wp safe (_utstring_find fuel X P) (fun r t' => t' = t /\
    ((r = -1 /\ forall p, ~ occurs X p) \/
     exists p, r = Z.of_nat p /\ occurs X p /\ forall p', occurs X p' -> (p <= p')%nat)) t.
Proof.
  intros Hne Ht Hm Hx Hf. assert (0 < m)%nat by (destruct P; [done|cbn; lia]). unfold _utstring_find. change 0 with (Z.of_nat 0).
  apply find_loop_spec; [done..| |lia]. split_and!; [lia|done|apply ends_0| |].
  - intros k Hk He%ends_le; lia.
  - intros e He Hend%ends_le; lia.
Qed.
End borders.

(** ** Searching backwards is searching forwards in the mirror *)

Section mirror.
Context (P : list ascii).
#[local] Abbreviation m := (Z.of_nat (length P)).
#[local] Abbreviation P' := (reverse P).

Definition flip_j (v : Z) : Z := m - 1 - v.
Definition mirror (t : longs) : longs := reverse (fmap (M := list) (fmap (M := option) flip_j) t).

Definition mirrored {A B} (f : A -> B) (o : outcome longs A) : outcome longs B :=
  match o with Ok a t => Ok (f a) (mirror t) | Undef t => Undef (mirror t) | NoFuel => NoFuel end.

Lemma mirrored_bind {A A' B B'} (f : A -> A') (g : B -> B') (mm : M longs A) (k : A -> M longs B)
    (mR : M longs A') (kR : A' -> M longs B') t :
  mR (mirror t) = mirrored f (mm t) -> (forall a t', mm t = Ok a t' -> kR (f a) (mirror t') = mirrored g (k a t')) ->
  (mR ≫= kR) (mirror t) = mirrored g ((mm ≫= k) t).
Proof. intros H1 H2. unfold mbind, M_bind. rewrite H1. destruct (mm t) as [a t'|t'|]; [|done..]. by apply H2. Qed.

Lemma lookup_mirror t q : length t = S (length P) -> (q <= length P)%nat ->
  mirror t !! (length P - q)%nat = fmap (M := option) (fmap (M := option) flip_j) (t !! q).
Proof.
  intros Hl Hq. unfold mirror. rewrite reverse_lookup by (rewrite length_fmap; lia).
  rewrite length_fmap, list_lookup_fmap. f_equal. f_equal. lia.
Qed.

Lemma long_at_mirror j t : length t = S (length P) -> long_at (m - j) (mirror t) = mirrored flip_j (long_at j t).
Proof.
  intros Hl. unfold long_at, mbind, M_bind, get, id. destruct (Z.leb_spec 0 (m - j)) as [H1|H1], (Z.leb_spec 0 j) as [H2|H2].
  - replace (Z.to_nat (m - j)) with (length P - Z.to_nat j)%nat by lia. rewrite lookup_mirror by lia.
    destruct (t !! Z.to_nat j) as [[v|]|]; done.
  - rewrite lookup_ge_None_2; [done|]. unfold mirror. rewrite length_reverse, length_fmap. lia.
  - rewrite lookup_ge_None_2; [done|]. lia.
  - done.
Qed.

Lemma mirror_insert t q v : length t = S (length P) -> (q <= length P)%nat ->
  <[(length P - q)%nat := Some (flip_j v)]> (mirror t) = mirror (<[q := Some v]> t).
Proof.
  intros Hl Hq. apply list_eq. intros i. assert (length (mirror t) = S (length P)) as Hl' by (unfold mirror; by rewrite length_reverse, length_fmap).
  destruct (decide (i <= length P)%nat) as [Hi|Hi].
  - replace i with (length P - (length P - i))%nat at 2 by lia. rewrite lookup_mirror by (rewrite ?length_insert; lia).
    destruct (decide (i = length P - q)%nat) as [->|Hne].
    + replace (length P - (length P - q))%nat with q by lia. rewrite !list_lookup_insert_eq by lia. done.
    + rewrite !list_lookup_insert_ne by lia. replace i with (length P - (length P - i))%nat at 1 by lia.
      by rewrite lookup_mirror by lia.
  - rewrite !lookup_ge_None_2; [done| |rewrite length_insert; lia]. unfold mirror. rewrite length_reverse, length_fmap, length_insert. lia.
Qed.

Lemma long_set_mirror q v t : length t = S (length P) -> long_set (m - q) (flip_j v) (mirror t) = mirrored id (long_set q v t).
Proof.
  intros Hl. assert (length (mirror t) = length t) as Hl' by (unfold mirror; by rewrite length_reverse, length_fmap).
  unfold long_set, mbind, M_bind, get, id, modify, undef. rewrite Hl'.
  destruct ((0 <=? q) && (q <? Z.of_nat (length t))) eqn:E; bool_prop.
  - replace ((0 <=? m - q) && _) with true by (symmetry; bool_arith). cbn. f_equal.
    rewrite <-mirror_insert by lia. f_equal. lia.
  - replace ((0 <=? m - q) && _) with false; [done|]. symmetry. bool_arith.
Qed.

Lemma char_at_mirror X j : char_at X (Z.of_nat (length X) - 1 - j) = char_at (reverse X) j.
Proof.
  unfold char_at. destruct (Z.leb_spec 0 (Z.of_nat (length X) - 1 - j)), (Z.leb_spec 0 j).
  - rewrite reverse_lookup by lia. f_equal. lia.
  - apply lookup_ge_None_2. lia.
  - symmetry. apply lookup_ge_None_2. rewrite length_reverse. lia.
  - done.
Qed.

Lemma kmp_fall_mirror c fuel : forall j t, length t = S (length P) ->
  kmp_fallR fuel P m c (flip_j j) (mirror t) = mirrored flip_j (kmp_fall fuel P' c j t) /\
  match kmp_fall fuel P' c j t with Ok _ t' => t' = t | _ => True end.
Proof.
  induction fuel as [|fuel IH]; intros j t Hl; [done|]. cbn [kmp_fall kmp_fallR].
  replace (flip_j j <? m) with (-1 <? j) by (unfold flip_j; destruct (Z.ltb_spec (-1) j); symmetry; [apply Z.ltb_lt|apply Z.ltb_ge]; lia).
  destruct (-1 <? j); cbn [negb]; [|done].
  unfold flip_j at 1. rewrite char_at_mirror. unfold mbind, M_bind. destruct (char_at P' j) as [d|]; cbn; [|done].
  destruct (decide (c <> d)); [|done]. unfold flip_j at 1. replace (m - 1 - j + 1) with (m - j) by lia.
  rewrite long_at_mirror by done. unfold long_at, mbind, M_bind, get. destruct (if 0 <=? j then _ else _) as [v|]; cbn; [|done].
  by apply IH.
Qed.

Lemma long_set_length q v t : match long_set q v t with Ok _ t' | Undef t' => length t' = length t | NoFuel => False end.
Proof.
  unfold long_set, mbind, M_bind, get, id. destruct (_ && _); [|done]. apply length_insert.
Qed.

Lemma flip_pred j : flip_j j - 1 = flip_j (j + 1).
Proof. unfold flip_j. lia. Qed.
Lemma flip_succ j : flip_j j + 1 = m - j.
Proof. unfold flip_j. lia. Qed.
Lemma char_at_flip j : char_at P (flip_j j) = char_at P' j.
Proof. apply char_at_mirror. Qed.

(** Setting an entry and going on. *)
Lemma set_and_mirror {A B} (g : A -> B) q v (k : M longs A) kR t : length t = S (length P) ->
  (forall t', length t' = S (length P) -> kR (mirror t') = mirrored g (k t')) ->
  (_ ← long_set (m - q) (flip_j v); kR) (mirror t) = mirrored g ((_ ← long_set q v; k) t).
Proof.
  intros Hl Hk. apply mirrored_bind with (f := id); [by apply long_set_mirror|]. intros [] t' E.
  pose proof (long_set_length q v t) as H. rewrite E in H. apply Hk. congruence.
Qed.

Lemma build_loop_mirror fuel : forall i j t, length t = S (length P) ->
  build_loopR fuel P (flip_j i) (flip_j j) (mirror t) = mirrored id (build_loop fuel P' i j t).
Proof.
  induction fuel as [|fuel IH]; intros i j t Hl; [done|]. cbn [build_loop build_loopR]. rewrite length_reverse.
  replace (0 <=? flip_j i) with (i <? m) by
    (unfold flip_j; destruct (Z.ltb_spec i m); symmetry; [apply Z.leb_le|apply Z.leb_gt]; lia).
  destruct (i <? m); cbn [negb]; [|done]. rewrite char_at_flip.
  apply mirrored_bind with (f := id); [by destruct (char_at P' i)|]. intros c t1 Hc.
  assert (t1 = t) as -> by (destruct (char_at P' i); by inversion Hc).
  destruct (kmp_fall_mirror c (S fuel) j t Hl) as [E1 E2].
  apply mirrored_bind with (f := flip_j); [exact E1|]. intros r t1 Hr. rewrite Hr in E2. subst t1. cbv zeta. unfold id at 1.
  rewrite !flip_pred, !flip_succ.
  replace (0 <=? flip_j (i + 1)) with (i + 1 <? m) by
    (unfold flip_j; destruct (Z.ltb_spec (i + 1) m); symmetry; [apply Z.leb_le|apply Z.leb_gt]; lia).
  assert (forall v t', length t' = S (length P) ->
    (_ ← long_set (m - (i + 1)) (flip_j v); build_loopR fuel P (flip_j (i + 1)) (flip_j (r + 1))) (mirror t') =
    mirrored id ((_ ← long_set (i + 1) v; build_loop fuel P' (i + 1) (r + 1)) t')) as Hgo.
  { intros v t' Hl'. apply set_and_mirror; [done|]. intros t2 Hl2. by apply IH. }
  destruct (i + 1 <? m); [|by apply Hgo]. rewrite !char_at_flip.
  unfold mbind, M_bind, demand. destruct (char_at P' (i + 1)) as [c'|]; cbn; [|done].
  destruct (char_at P' (r + 1)) as [d|]; cbn; [|done]. destruct (decide (c' = d)); [|by apply Hgo].
  rewrite long_at_mirror by done. unfold long_at, mbind, M_bind, get.
  destruct (if 0 <=? r + 1 then _ else _) as [v|]; cbn; [|done]. by apply Hgo.
Qed.

Lemma BuildTable_mirror fuel t : length t = S (length P) ->
  _utstring_BuildTableR fuel P (mirror t) = mirrored id (_utstring_BuildTable fuel P' t).
Proof.
  intros Hl. unfold _utstring_BuildTableR, _utstring_BuildTable. cbv zeta.
  assert (flip_j 0 = m - 1 /\ flip_j (0 - 1) = m) as [F1 F2] by (unfold flip_j; lia).
  pose proof (set_and_mirror id 0 (0 - 1) (build_loop fuel P' 0 (0 - 1)) (build_loopR fuel P (flip_j 0) (flip_j (0 - 1))) t Hl) as H.
  rewrite F1, F2 in H. replace (m - 1 + 1) with m by lia. replace (m - 0) with m in H by lia. apply H.
  intros t' Hl'. rewrite <-F1, <-F2. by apply build_loop_mirror.
Qed.

(** The position, counted from the other end. *)
Definition flip_pos (X : list ascii) (r : Z) : Z := if r =? -1 then -1 else Z.of_nat (length X) - m - r.

Lemma find_loop_mirror X t fuel : table_ok P' t (length P) -> m <= INT_MAX -> Z.of_nat (length X) <= INT_MAX ->
  forall i x, (i < length P)%nat -> (i <= x <= length X)%nat -> (length P + (length X - x) + 3 <= fuel)%nat ->
  find_loopR fuel X P (flip_j (Z.of_nat i)) (Z.of_nat (length X) - 1 - Z.of_nat x) (mirror t) =
  mirrored (flip_pos X) (find_loop fuel (reverse X) P' (Z.of_nat i) (Z.of_nat x) t).
Proof.
  intros Ht Hm Hx32. induction fuel as [|fuel IH]; intros i x Hi Hx Hf; [lia|]. cbn [find_loop find_loopR].
  rewrite !length_reverse, !wrap32_small by (unfold INT_MIN; lia).
  replace ((0 <=? _) && _) with ((Z.of_nat x <? Z.of_nat (length X)) &&
    (m <=? Z.of_nat (length X) - Z.of_nat x + Z.of_nat i)).
  2:{ unfold flip_j. f_equal; [destruct (Z.ltb_spec (Z.of_nat x) (Z.of_nat (length X)))
       |destruct (Z.leb_spec m (Z.of_nat (length X) - Z.of_nat x + Z.of_nat i))]; symmetry; rewrite ?Z.leb_le, ?Z.leb_gt; lia. }
  destruct (_ && _) eqn:Econd; cbn [negb]; [|done]. apply andb_true_iff in Econd as [Hlt%Z.ltb_lt _].
  rewrite char_at_mirror, char_at_nat.
  destruct (lookup_lt_is_Some_2 (reverse X) x) as [c Hc]; [rewrite length_reverse; lia|]. rewrite Hc.
  assert (length P' = length P) as HP by apply length_reverse.
  destruct (wp_Ok _ _ _ (kmp_fall_spec P' t (length P') c ltac:(by rewrite HP) (S fuel) i ltac:(lia) ltac:(lia) ltac:(lia)))
    as (r&t'&Er&->&Hr1&_).
  unfold mbind, M_bind, demand. cbn [mret M_ret]. destruct Ht as [Hl Ht]. rewrite HP in Hl.
  destruct (kmp_fall_mirror c (S fuel) (Z.of_nat i) t Hl) as [E1 _]. rewrite Er in E1. rewrite E1, Er. cbn [mirrored].
  assert (exists k, r + 1 = Z.of_nat k /\ (k <= length P)%nat /\ (k <= S i)%nat) as (k&Ek&Hk&Hki).
  { destruct Hr1 as [->|(k&d&->&Hk&_)]; [exists 0%nat; lia|exists (S k); lia]. }
  rewrite flip_pred, Ek. replace (flip_j (Z.of_nat k) <? 0) with (m <=? Z.of_nat k) by
    (unfold flip_j; destruct (Z.leb_spec m (Z.of_nat k)); symmetry; [apply Z.ltb_lt|apply Z.ltb_ge]; lia).
  replace (Z.of_nat (length X) - 1 - Z.of_nat x - 1) with (Z.of_nat (length X) - 1 - Z.of_nat (S x)) by lia.
  replace (Z.of_nat x + 1) with (Z.of_nat (S x)) by lia.
  destruct (Z.leb_spec m (Z.of_nat k)) as [Hge|Hlt'].
  - assert (k = length P) as -> by lia. cbn. f_equal. unfold flip_pos.
    destruct (Z.eqb_spec (Z.of_nat (S x) - m) (-1)) as [E|E]; lia.
  - apply IH; lia.
Qed.
End mirror.
