(* ===== verification/UtstringProps.v ===== *)
(** The operations of utstring.h: strings stay terminated, and the searches find
    the first and the last occurrence. *)

From S2P Require Import Prelude CLib Outcome ConnIf ConnIO ConnIOFacts Log Utstring Kmp.

#[local] Open Scope Z_scope.

(** ** Strings *)

(** The string has the bytes [bs], and a terminator behind them. *)
Definition ut_ok (s : UT_string) (bs : list ascii) : Prop :=
  us_i s = Z.of_nat (length bs) /\ us_n s = Z.of_nat (length (us_d s)) /\
  exists r, us_d s = of_chars bs ++ Some NUL :: r.

Lemma ut_bytes s bs (i n : nat) : ut_ok s bs -> (i + n <= length bs)%nat ->
  bytes_at (us_d s) (Z.of_nat i) (Z.of_nat n) = Some (take n (drop i bs)).
Proof.
  intros (Hi&Hn&r&->) Hle. apply bytes_at_Some. rewrite length_take, length_drop, Nat2Z.id.
  split_and!; [lia|lia|len_lia|]. rewrite !Nat.min_l by lia. rewrite drop_app_le by len_lia.
  rewrite take_app_le by len_lia. unfold of_chars. by rewrite <-fmap_drop, <-fmap_take.
Qed.

Lemma with_table_wp {W} (n : nat) (m : M longs Z) (Q : Z -> longs -> Prop) (w : W) :
  wp safe m Q (replicate n None) -> exists a t, with_table true n m w = Ok a w /\ Q a t.
Proof. intros (a&t&E&HQ)%wp_Ok. exists a, t. split; [|done]. unfold with_table. by rewrite E. Qed.

Lemma ge_size_nat (a : Z) (b : nat) : 0 <= a <= INT_MAX -> ge_size a (Z.of_nat b) = (Z.of_nat b <=? a).
Proof. intros Ha. unfold ge_size. rewrite Z.mod_small; [done|]. unfold INT_MAX in Ha. lia. Qed.

Lemma occurs_drop P X st p : occurs P (drop st X) p <-> occurs P X (st + p).
Proof. unfold occurs. by rewrite drop_drop. Qed.

Lemma occurs_take P X l p : P <> [] -> (l <= length X)%nat ->
  occurs P (take l X) p <-> occurs P X p /\ (p + length P <= l)%nat.
Proof.
  intros Hne Hl. assert (0 < length P)%nat by (destruct P; [done|cbn; lia]). unfold occurs. rewrite skipn_firstn_comm, take_take. split.
  - intros H0. pose proof (f_equal length H0) as E. rewrite length_take, length_drop in E.
    assert (p + length P <= l)%nat by lia. split; [|done]. by rewrite Nat.min_l in H0 by lia.
  - intros [H0 Hle]. by rewrite Nat.min_l by lia.
Qed.

Lemma occurs_reverse P X p : (p + length P <= length X)%nat ->
  occurs (reverse P) (reverse X) p <-> occurs P X (length X - length P - p).
Proof.
  intros Hle. unfold occurs. rewrite length_reverse.
  assert (take (length P) (drop p (reverse X)) = reverse (take (length P) (drop (length X - length P - p) X))) as ->.
  { rewrite drop_reverse, take_reverse, length_take, skipn_firstn_comm. do 2 f_equal; [lia|f_equal; lia]. }
  split; [|by intros ->]. intros H%(f_equal reverse). by rewrite !reverse_involutive in H.
Qed.

(** C33: [utstring_find] finds the first occurrence of the needle from the start
    position on: it returns, and the result is the position of an
    occurrence and no earlier one exists, or it is -1 and there is none.  It is -1, too,
    when there is no memory for the table of the search. *)
Theorem utstring_find_first {W} (fuel : nat) (s : UT_string) (bs needle : list ascii) (start : Z) (st : nat) (w : W)
    (Hs : ut_ok s bs) (Hne : needle <> []) (Hst : start_position s start = Z.of_nat st)
    (Hrange : (st <= length bs)%nat) (Hlen : Z.of_nat (length bs) <= INT_MAX)
    (Hfuel : (length bs + 2 * length needle + 3 <= fuel)%nat) :
  (exists r, utstring_find true fuel s start needle w = Ok r w /\
    ((r = -1 /\ forall p, (st <= p)%nat -> ~ occurs needle bs p) \/
     exists p, r = Z.of_nat p /\ (st <= p)%nat /\ occurs needle bs p /\
       forall p', (st <= p')%nat -> occurs needle bs p' -> (p <= p')%nat)) /\
  utstring_find false fuel s start needle w = Ok (-1) w.
Proof.
  split; [|unfold utstring_find; cbn [with_table negb]; by case_match].
  assert (0 < length needle)%nat as Hpos by (destruct needle; [done|cbn; lia]).
  unfold utstring_find. rewrite Hst. pose proof Hs as (Hi&_). rewrite Hi.
  replace (Z.of_nat (length bs) - Z.of_nat st) with (Z.of_nat (length bs - st)) by lia.
  rewrite ge_size_nat by lia. destruct (Z.leb_spec (Z.of_nat (length needle)) (Z.of_nat (length bs - st))) as [Hle|Hgt]; cbn [andb].
  2:{ exists (-1). split; [done|]. left. split; [done|]. intros p Hp Ho. destruct (occurs_bound _ _ _ Ho); lia. }
  rewrite (proj2 (Z.ltb_lt _ _)) by lia.
  match goal with |- context [with_table _ _ ?m _] => edestruct (with_table_wp (W := W) (length needle + 1) m) as (r&t&E&Hr); [|exists r; split; [exact E|exact Hr]] end.
  eapply wp_seq; [apply BuildTable_spec; [done|rewrite length_replicate; lia|lia]|]. intros [] t Ht.
  rewrite (proj2 (Z.ltb_ge _ _)) by lia. apply wp_bind, wp_demand with (take (length bs - st) (drop st bs)).
  { apply ut_bytes; [done|lia]. }
  rewrite take_ge by (rewrite length_drop; lia).
  eapply wp_seq; [apply find_spec; [done|exact Ht|lia|rewrite length_drop; lia|rewrite length_drop; lia]|].
  intros r t' [-> [[-> Hno]|(p&->&Hp&Hmin)]]; apply wp_ret.
  - left. split; [done|]. intros p Hp Ho. apply (Hno (p - st)%nat), occurs_drop. by replace (st + (p - st))%nat with p by lia.
  - right. exists (st + p)%nat. rewrite (proj2 (Z.leb_le _ _)) by lia. split_and!; [lia|lia|by apply occurs_drop|].
    intros p' Hp' Ho. enough (p <= p' - st)%nat by lia. apply Hmin, occurs_drop. by replace (st + (p' - st))%nat with p' by lia.
Qed.

(** [utstring_findR] finds the last occurrence that ends at the start
    position or in front of it, or gives -1 without memory. *)
Theorem utstring_findR_last {W} (fuel : nat) (s : UT_string) (bs needle : list ascii) (start : Z) (st : nat) (w : W)
    (Hs : ut_ok s bs) (Hne : needle <> []) (Hst : start_position s start = Z.of_nat st)
    (Hrange : (st < length bs)%nat) (Hlen : Z.of_nat (length bs) <= INT_MAX)
    (Hfuel : (length bs + 2 * length needle + 3 <= fuel)%nat) :
  (exists r, utstring_findR true fuel s start needle w = Ok r w /\
    ((r = -1 /\ forall p, (p + length needle <= S st)%nat -> ~ occurs needle bs p) \/
     exists p, r = Z.of_nat p /\ (p + length needle <= S st)%nat /\ occurs needle bs p /\
       forall p', (p' + length needle <= S st)%nat -> occurs needle bs p' -> (p' <= p)%nat)) /\
  utstring_findR false fuel s start needle w = Ok (-1) w.
Proof.
  split; [|unfold utstring_findR; cbn [with_table negb]; by case_match].
  assert (0 < length needle)%nat as Hpos by (destruct needle; [done|cbn; lia]).
  unfold utstring_findR. rewrite Hst. replace (Z.of_nat st + 1) with (Z.of_nat (S st)) by lia.
  rewrite ge_size_nat by lia. destruct (Z.leb_spec (Z.of_nat (length needle)) (Z.of_nat (S st))) as [Hle|Hgt]; cbn [andb].
  2:{ exists (-1). split; [done|]. left. split; [done|]. intros p Hp Ho. lia. }
  rewrite (proj2 (Z.ltb_lt _ _)) by lia.
  match goal with |- context [with_table _ _ ?m _] => edestruct (with_table_wp (W := W) (length needle + 1) m) as (r&t&E&Hr); [|exists r; split; [exact E|exact Hr]] end.
  assert (replicate (length needle + 1) None = mirror needle (replicate (length needle + 1) None)) as ->.
  { unfold mirror. by rewrite fmap_replicate, reverse_replicate. }
  assert (length (reverse needle) = length needle) as Hrl by apply length_reverse.
  destruct (wp_Ok _ _ _ (BuildTable_spec (reverse needle) fuel (replicate (length needle + 1) None)
    ltac:(by intros E%(f_equal length); rewrite Hrl in E; cbn in E; lia) ltac:(rewrite length_replicate; lia) ltac:(lia)))
    as ([]&t&Et&Ht). rewrite Hrl in Ht.
  apply wp_bind. unfold wp at 1. rewrite BuildTable_mirror by (rewrite length_replicate; lia). rewrite Et. cbn [mirrored].
  rewrite (proj2 (Z.ltb_ge _ _)) by lia. apply wp_bind, wp_demand with (take (S st) bs).
  { change 0 with (Z.of_nat 0). by rewrite (ut_bytes s bs) by (done || lia). }
  set (X := take (S st) bs). assert (length X = S st) as HX by (unfold X; rewrite length_take; lia).
  unfold _utstring_findR. cbv zeta. replace (Z.of_nat (length needle) - 1) with (flip_j needle (Z.of_nat 0)) by (unfold flip_j; lia).
  replace (Z.of_nat (length X) - 1) with (Z.of_nat (length X) - 1 - Z.of_nat 0) by lia.
  unfold wp. rewrite find_loop_mirror by (done || lia).
  destruct (wp_Ok _ _ _ (find_spec (reverse needle) t (reverse X) fuel ltac:(by intros E%(f_equal length); rewrite Hrl in E; cbn in E; lia)
    ltac:(by rewrite Hrl) ltac:(lia) ltac:(rewrite length_reverse; lia) ltac:(rewrite length_reverse; lia))) as (r&t'&Er&->&Hr).
  unfold _utstring_find in Er. change (Z.of_nat 0) with 0. rewrite Er. cbn [mirrored].
  assert (forall p, occurs needle bs p -> (p + length needle <= S st)%nat ->
    occurs (reverse needle) (reverse X) (S st - length needle - p)) as Hback.
  { intros p Hp Hl. apply occurs_reverse; [lia|]. rewrite HX.
    replace (S st - length needle - (S st - length needle - p))%nat with p by lia. by apply occurs_take; [|lia|]. }
  destruct Hr as [[-> Hno]|(p&->&Hp&Hmin)]; [left; split; [done|]|right].
  - intros p Hp Ho. by eapply Hno, Hback.
  - destruct (occurs_bound _ _ _ Hp) as [|Hb]; [lia|]. rewrite Hrl, length_reverse, HX in Hb.
    exists (S st - length needle - p)%nat. unfold flip_pos. rewrite (proj2 (Z.eqb_neq _ _)) by lia. split_and!; [lia|lia| |].
    + apply occurs_reverse in Hp; [|lia]. rewrite HX in Hp. by apply occurs_take in Hp as [? _]; [|done|lia].
    + intros p' Hp' Ho. specialize (Hmin _ (Hback p' Ho Hp')). lia.
Qed.

(** Room is made behind the bytes. *)
Lemma utstring_grow s bs amt : ut_ok s bs -> 0 < amt -> exists room,
  utstring_reserve s amt = UTString (of_chars bs ++ room) (Z.of_nat (length bs + length room)) (Z.of_nat (length bs)) /\
  amt <= Z.of_nat (length room) /\ 0 < Z.of_nat (length room).
Proof.
  intros (Hi&Hn&r&Hd) Ha. unfold utstring_reserve. rewrite Hi, Hn, Hd, length_app, length_of_chars.
  destruct (Z.ltb_spec (Z.of_nat (length bs + length (Some NUL :: r)) - Z.of_nat (length bs)) amt) as [H|H].
  - exists (Some NUL :: r ++ replicate (Z.to_nat amt) None). rewrite <-app_assoc. cbn [length app] in *.
    rewrite length_app, length_replicate. split_and!; [|lia|lia]. f_equal. lia.
  - exists (Some NUL :: r). cbn [length app] in *. split_and!; [|lia|lia]. destruct s; cbn in *; subst. f_equal. rewrite length_app, length_of_chars. done.
Qed.

(** The bytes [b] and a terminator are stored there. *)
Lemma append_stored (bs b : list ascii) room : (length b < length room)%nat ->
  exists d d', blit (of_chars bs ++ room) (length bs) (of_chars b) = Some d /\
    store d (Z.of_nat (length bs + length b)) NUL = Some d' /\
    length d' = (length bs + length room)%nat /\ exists r, d' = of_chars (bs ++ b) ++ Some NUL :: r.
Proof.
  intros Hl. exists (of_chars bs ++ of_chars b ++ drop (length b) room).
  exists (of_chars (bs ++ b) ++ Some NUL :: drop (S (length b)) room). split_and!.
  - rewrite blit_at; [by rewrite length_of_chars|len_lia|len_lia].
  - rewrite app_assoc, <-of_chars_app, <-length_app. unfold store.
    replace ((0 <=? _) && _) with true by (symmetry; autorewrite with len; bool_arith). f_equal. rewrite Nat2Z.id, insert_app_r_alt by len_lia.
    rewrite length_of_chars, Nat.sub_diag. f_equal. destruct (lookup_lt_is_Some_2 room (length b) Hl) as [x Hx].
    by rewrite (drop_S _ _ _ Hx).
  - rewrite length_app, length_of_chars, length_app. cbn. rewrite length_drop. lia.
  - by eexists.
Qed.

Lemma appended_ok (bs b : list ascii) d' (k : nat) : length d' = k -> (exists r, d' = of_chars (bs ++ b) ++ Some NUL :: r) ->
  ut_ok (UTString d' (Z.of_nat k) (Z.of_nat (length bs + length b))) (bs ++ b).
Proof. intros <- Hr. split_and!; cbn; [rewrite length_app; lia|done|done]. Qed.

(** The operations of a [UT_string] keep it terminated within its
    allocation, and append what they are given: bytes, another string, or
    formatted text, for which [utstring_printf] needs at most two rounds. *)
Theorem utstring_appends (s : UT_string) (bs : list ascii) (Hs : ut_ok s bs) :
  (exists s0, utstring_init = Some s0 /\ ut_ok s0 []) /\
  (exists s', utstring_clear s = Some s' /\ ut_ok s' []) /\
  (forall b, exists s', utstring_bincpy s b = Some s' /\ ut_ok s' (bs ++ b)) /\
  (forall src b, ut_ok src b -> exists s', utstring_concat s src = Some s' /\ ut_ok s' (bs ++ b)) /\
  (forall fuel text, exists s', utstring_printf_va (S (S fuel)) s text () = Ok s' () /\ ut_ok s' (bs ++ text)).
Proof.
  split_and!.
  - eexists. split; [reflexivity|]. split_and!; [done|done|]. by exists (replicate 99 None).
  - destruct Hs as (Hi&Hn&r&Hd). unfold utstring_clear, store. rewrite Hd.
    replace ((0 <=? 0) && _) with true by (symmetry; rewrite length_app; cbn; bool_arith). eexists. split; [reflexivity|].
    split_and!; cbn; [done|by rewrite length_insert, <-Hd|].
    destruct bs as [|c bs]; cbn; by eexists.
  - intros b. unfold utstring_bincpy. destruct (utstring_grow s bs (Z.of_nat (length b) + 1) Hs ltac:(lia)) as (room&->&Hr&_).
    cbn [us_d us_i us_n]. rewrite Nat2Z.id. destruct (append_stored bs b room ltac:(lia)) as (d&d'&->&Hst&Hl&Hd'). cbn.
    rewrite <-Nat2Z.inj_add, Hst. cbn. eexists. split; [reflexivity|]. by apply appended_ok.
  - intros src b (Hi&Hn&r&Hd). unfold utstring_concat. rewrite Hi.
    destruct (utstring_grow s bs (Z.of_nat (length b) + 1) Hs ltac:(lia)) as (room&->&Hr&_).
    cbn [us_d us_i us_n]. rewrite Hd, !Nat2Z.id, take_app_length' by len_lia.
    destruct (append_stored bs b room ltac:(lia)) as (d&d'&->&Hst&Hl&Hd'). cbn.
    rewrite <-Nat2Z.inj_add, Hst. cbn. eexists. split; [reflexivity|]. by apply appended_ok.
  - intros fuel text. assert (forall fuel room, (length text < length room)%nat ->
      exists s', utstring_printf_va (S fuel) (UTString (of_chars bs ++ room) (Z.of_nat (length bs + length room)) (Z.of_nat (length bs))) text () = Ok s' () /\
        ut_ok s' (bs ++ text)) as Hfits.
    { intros f room Hl. cbn [utstring_printf_va us_d us_i us_n]. unfold mbind, M_bind, demand.
      replace (Z.of_nat (length bs + length room) - Z.of_nat (length bs)) with (Z.of_nat (length room)) by lia.
      rewrite (snprintf_at_spec (of_chars bs) room) by (rewrite ?length_of_chars; lia). rewrite take_ge by lia. cbn [mret M_ret us_d us_i us_n].
      replace (Z.of_nat (length bs + length room) - Z.of_nat (length bs)) with (Z.of_nat (length room)) by lia.
      rewrite (proj2 (Z.ltb_lt _ _)) by lia. rewrite <-Nat2Z.inj_add. eexists. split; [reflexivity|]. apply appended_ok.
      - rewrite !length_app, !length_of_chars. cbn. rewrite length_drop. lia.
      - eexists. rewrite of_chars_app, <-app_assoc. done. }
    pose proof Hs as (Hi&Hn&r&Hd).
    assert (s = UTString (of_chars bs ++ Some NUL :: r) (Z.of_nat (length bs + length (Some NUL :: r))) (Z.of_nat (length bs))) as Es.
    { destruct s; cbn in *; subst. f_equal. by rewrite length_app, length_of_chars. }
    destruct (decide (length text < length (Some NUL :: r))%nat) as [Hl|Hl]; [rewrite Es; by apply Hfits|].
    remember (S fuel) as fuel1 eqn:Ef. rewrite Es. cbn [utstring_printf_va us_d us_i us_n]. unfold mbind, M_bind, demand.
    set (R := Some NUL :: r) in *. assert (0 < length R)%nat by (cbn; lia).
    replace (Z.of_nat (length bs + length R) - Z.of_nat (length bs)) with (Z.of_nat (length R)) by lia.
    rewrite (snprintf_at_spec (of_chars bs) R) by (rewrite ?length_of_chars; lia). cbn [mret M_ret us_d us_i us_n].
    replace (Z.of_nat (length bs + length R) - Z.of_nat (length bs)) with (Z.of_nat (length R)) by lia.
    rewrite (proj2 (Z.ltb_ge _ _)) by lia. unfold utstring_reserve. cbn [us_d us_i us_n].
    rewrite (proj2 (Z.ltb_lt _ _)) by lia. rewrite Ef, <-!app_assoc.
    set (t := take _ text). assert (length t = length R - 1)%nat as Ht by (unfold t; rewrite length_take; lia).
    set (room := _ ++ (_ :: _) ++ _).
    assert (length room = length R + Z.to_nat (Z.of_nat (length text) + 1))%nat as Hroom.
    { unfold room. rewrite !length_app, length_of_chars, length_replicate. cbn [length]. rewrite length_drop. lia. }
    replace (Z.of_nat (length bs + length R) + (Z.of_nat (length text) + 1)) with (Z.of_nat (length bs + length room)) by lia.
    apply Hfits. lia.
Qed.

(** ** Instances *)

Definition ut_demo : UT_string := UTString (of_chars (lit "abababac") ++ replicate 4 (Some NUL)) 12 8.

Lemma ut_demo_ok : ut_ok ut_demo (lit "abababac").
Proof. split_and!; [done|done|]. by exists (replicate 3 (Some NUL)). Qed.

Lemma utstring_find_first_witness : exists r, utstring_find true 40 ut_demo 1 (lit "abac") () = Ok r () /\
  ((r = -1 /\ forall p, (1 <= p)%nat -> ~ occurs (lit "abac") (lit "abababac") p) \/
   exists p, r = Z.of_nat p /\ (1 <= p)%nat /\ occurs (lit "abac") (lit "abababac") p /\
     forall p', (1 <= p')%nat -> occurs (lit "abac") (lit "abababac") p' -> (p <= p')%nat).
Proof.
  apply (utstring_find_first 40 ut_demo (lit "abababac") (lit "abac") 1 1 ()); [exact ut_demo_ok|done|done|cbn; lia|cbn; unfold INT_MAX; lia|cbn; lia].
Defined.

Lemma utstring_findR_last_witness : exists r, utstring_findR true 40 ut_demo (-3) (lit "aba") () = Ok r () /\
  ((r = -1 /\ forall p, (p + 3 <= 6)%nat -> ~ occurs (lit "aba") (lit "abababac") p) \/
   exists p, r = Z.of_nat p /\ (p + 3 <= 6)%nat /\ occurs (lit "aba") (lit "abababac") p /\
     forall p', (p' + 3 <= 6)%nat -> occurs (lit "aba") (lit "abababac") p' -> (p' <= p)%nat).
Proof.
  apply (utstring_findR_last 40 ut_demo (lit "abababac") (lit "aba") (-3) 5 ()); [exact ut_demo_ok|done|done|cbn; lia|cbn; unfold INT_MAX; lia|cbn; lia].
Defined.

Example utstring_find_demo :
  (utstring_find true 40 ut_demo 1 (lit "abac") (), utstring_findR true 40 ut_demo (-3) (lit "aba") ()) = (Ok 4 (), Ok 2 ()).
Proof. vm_compute. reflexivity. Qed.

(** A start position before the first byte, or behind the terminator, is read from. *)
Example utstring_find_outside :
  (utstring_find true 40 ut_demo (-9) (lit "abac") (), utstring_findR true 40 ut_demo 12 (lit "aba") ()) = (Undef (), Undef ()).
Proof. vm_compute. reflexivity. Qed.

Lemma utstring_appends_witness :
  ut_ok ut_demo (lit "abababac") /\ exists s', utstring_bincpy ut_demo (lit "xyz12345") = Some s' /\ ut_ok s' (lit "abababac" ++ lit "xyz12345").
Proof.
  split; [exact ut_demo_ok|]. destruct (utstring_appends ut_demo (lit "abababac") ut_demo_ok) as (_&_&H&_). exact (H (lit "xyz12345")).
Defined.
