(* ===== verification/UtstringLife.v ===== *)
(** src/uthash/utstring.h: making, emptying and freeing a string, and what holds of a
    string from [utstring_new] to [utstring_free].  (UtarrayMore does the same for
    arrays.) *)

From S2P Require Import Prelude CLib Outcome ConnIO Log Utstring Kmp UtstringProps.

#[local] Open Scope Z_scope.

(** What a variable of type [UT_string *] points to: nothing, a string, one whose [d] has
    been freed but is not null, or a block that has been freed. *)
Inductive string_var := NoString | AString (s : UT_string) | Emptied (s : UT_string) | GoneString.
Abbreviation on_var := (M string_var).

Definition the_string : on_var UT_string := v ← get id; demand (match v with AString s => Some s | _ => None end).
Definition put_string (s : option UT_string) : on_var () := s ← demand s; modify (fun _ => AString s).

(** [calloc] is taken to succeed ([oom()] is [exit(-1)]). *)
Definition utstring_new : on_var () := put_string utstring_init.

(** The pointer [d] stays as it is, and a second call frees it again. *)
Definition utstring_done : on_var () :=
  s ← the_string; modify (fun _ => Emptied (UTString (us_d s) 0 (us_i s))).

Definition utstring_free : on_var () := _ ← utstring_done; modify (fun _ => GoneString).

Definition utstring_renew : on_var () :=
  v ← get id;
  match v with NoString => utstring_new | _ => s ← the_string; put_string (utstring_clear s) end.

(** [s->d] up to its terminator. *)
Definition utstring_body (s : UT_string) : option (list ascii) := cstr_at (us_d s) 0.

(** [text] is what the format and its arguments give. *)
Definition utstring_printf (fuel : nat) (s : UT_string) (text : list ascii) : M () UT_string := utstring_printf_va fuel s text.

(** ** From [utstring_new] to [utstring_free] *)

Inductive ut_use := Bincpy (b : list ascii) | Concat_self | Printf (text : list ascii) | Clear | Renew.

Definition use_string (fuel : nat) (op : ut_use) : on_var () :=
  match op with
  | Renew => utstring_renew
  | _ =>
      s ← the_string;
      match op with
      | Bincpy b => put_string (utstring_bincpy s b)
      | Concat_self => put_string (utstring_concat s s)
      | Printf text => match utstring_printf fuel s text () with Ok s' _ => put_string (Some s') | Undef _ => undef | NoFuel => no_fuel end
      | _ => put_string (utstring_clear s)
      end
  end.
Fixpoint use_strings (fuel : nat) (ops : list ut_use) : on_var () :=
  match ops with [] => mret () | op :: ops => _ ← use_string fuel op; use_strings fuel ops end.

Definition used (bs : list ascii) (op : ut_use) : list ascii :=
  match op with Bincpy b | Printf b => bs ++ b | Concat_self => bs ++ bs | Clear | Renew => [] end.

Definition holds (bs : list ascii) (v : string_var) : Prop := exists s, v = AString s /\ ut_ok s bs.

Lemma wp_the_string (Q : UT_string -> string_var -> Prop) s : Q s (AString s) -> wp safe the_string Q (AString s).
Proof. intros HQ. unfold the_string. by apply wp_bind, wp_get, (wp_demand _ _ s). Qed.
Lemma wp_put_string s bs v : (exists s', s = Some s' /\ ut_ok s' bs) -> wp safe (put_string s) (fun _ => holds bs) v.
Proof. intros (s'&->&Hs'). unfold put_string. apply wp_bind, (wp_demand _ _ s'); [done|]. apply wp_modify. by exists s'. Qed.

Lemma use_string_spec fuel op bs v : holds bs v -> wp safe (use_string (S (S fuel)) op) (fun _ => holds (used bs op)) v.
Proof.
  intros (s&->&Hs). destruct (utstring_appends s bs Hs) as (Hinit&Hclear&Hcpy&Hcat&Hprintf).
  destruct op; cbn [use_string used].
  1-4: apply wp_bind, wp_the_string.
  - apply wp_put_string, Hcpy.
  - by apply wp_put_string, Hcat.
  - destruct (Hprintf fuel text) as (s'&E&Hs'). unfold utstring_printf. rewrite E. apply wp_put_string. by exists s'.
  - by apply wp_put_string.
  - unfold utstring_renew. apply wp_bind, wp_get. cbn [id]. by apply wp_bind, wp_the_string, wp_put_string.
Qed.

Lemma use_strings_spec fuel ops : forall bs v, holds bs v ->
  wp safe (use_strings (S (S fuel)) ops) (fun _ => holds (foldl used bs ops)) v.
Proof.
  induction ops as [|op ops IH]; intros bs v Hv; cbn [use_strings foldl]; [by apply wp_ret|].
  apply wp_bind. eapply wp_mono; [by apply use_string_spec|]. intros [] v' Hv'. by apply IH.
Qed.


(** A string that was made is a string whatever is done with it, and holds what the
    operations have appended since it was last emptied; its body is that text when there
    is no NUL in it; its length is exact below 2^32; and [utstring_free] frees it once.
    [utstring_renew] makes a string where there is none. *)
Theorem utstring_life fuel ops : let text := foldl used [] ops in
  exists s, (_ ← utstring_new; use_strings (S (S fuel)) ops) NoString = Ok () (AString s) /\
    ut_ok s text /\ (NUL ∉ text -> utstring_body s = Some text) /\
    (Z.of_nat (length text) < 2 ^ 32 -> utstring_len s = Z.of_nat (length text)) /\
    utstring_free (AString s) = Ok () GoneString /\
    utstring_renew NoString = utstring_new NoString.
Proof.
  intros text. assert (wp safe (_ ← utstring_new; use_strings (S (S fuel)) ops) (fun _ => holds text) NoString) as H.
  { apply wp_bind. unfold utstring_new. eapply wp_mono; [apply (wp_put_string _ [])|intros [] v Hv; by apply use_strings_spec].
    eexists. split; [reflexivity|]. split_and!; [done|done|]. by exists (replicate 99 None). }
  destruct (wp_Ok _ _ _ H) as ([]&v&E&(s&->&Hs)). exists s. split; [done|]. split; [done|]. pose proof Hs as (Hi&Hn&r&Hd).
  split; [|split; [|done]].
  - intros Hnul. unfold utstring_body. rewrite Hd. by apply cstr_at_0.
  - intros Hlen. unfold utstring_len, u32. rewrite Hi. rewrite Z.mod_small; lia.
Qed.

(** [utstring_done] leaves [d] behind: calling it twice, or [utstring_free] after it, frees
    the bytes twice ([utarray_done] asks [n] first, and does nothing the second time). *)
Lemma utstring_done_twice s : exists s', utstring_done (AString s) = Ok () (Emptied s') /\
  utstring_done (Emptied s') = Undef (Emptied s') /\ utstring_free (Emptied s') = Undef (Emptied s').
Proof. eexists. split; [reflexivity|]. done. Qed.

Example utstring_life_demo : exists s,
  (_ ← utstring_new; use_strings 2 [Bincpy (lit "ab"); Concat_self; Printf (lit "12"); Concat_self]) NoString = Ok () (AString s) /\
  utstring_body s = Some (lit "abab12abab12") /\ utstring_len s = 12.
Proof. eexists. split; [vm_compute; reflexivity|]. vm_compute. done. Qed.
