(* ===== verification/Utlist.v ===== *)
(** src/uthash/utlist.h: singly, doubly and circularly linked lists, and their merge
    sort.

    The nodes are a heap from addresses to their two pointers; the macros take
    and give back the head pointer.  [assert] and a null or dangling pointer that
    is followed are undefined behaviour.  Only the next pointers of a singly
    linked list are used. *)

From S2P Require Import Prelude CLib Outcome.

#[local] Open Scope Z_scope.

Record node := Node { n_prev : option positive; n_next : option positive }.

Abbreviation heap := (gmap positive node).
Abbreviation ptr := (option positive).

(** [p->next] and the like. *)
Definition load_node (p : ptr) : M heap (positive * node) :=
  a ← demand p; h ← get id; nd ← demand (h !! a); mret (a, nd).
Definition get_next (p : ptr) : M heap ptr := '(_, nd) ← load_node p; mret (n_next nd).
Definition get_prev (p : ptr) : M heap ptr := '(_, nd) ← load_node p; mret (n_prev nd).
Definition set_next (p v : ptr) : M heap () :=
  '(a, nd) ← load_node p; modify (<[a := Node (n_prev nd) v]>).
Definition set_prev (p v : ptr) : M heap () :=
  '(a, nd) ← load_node p; modify (<[a := Node v (n_next nd)]>).

Definition assert_that (b : bool) : M heap () := if b then mret () else undef.
Definition null (p : ptr) : bool := bool_decide (p = None).

(** ** Singly linked lists *)

Definition LL_PREPEND2 (head add : ptr) : M heap ptr := _ ← set_next add head; mret add.

(** [while (_tmp->next && (_tmp->next != del)) { _tmp = _tmp->next; }]. *)
Fixpoint find_before (fuel : nat) (_tmp : ptr) (del : ptr) : M heap ptr :=
  match fuel with
  | O => no_fuel
  | S fuel =>
      n ← get_next _tmp;
      if negb (null n) && negb (bool_decide (n = del)) then find_before fuel n del else mret _tmp
  end.

(** [while (_tmp->next) { _tmp = _tmp->next; }]. *)
Definition find_last (fuel : nat) (_tmp : ptr) : M heap ptr := find_before fuel _tmp None.

Definition LL_CONCAT2 (fuel : nat) (head1 head2 : ptr) : M heap ptr :=
  if negb (null head1) then
    _tmp ← find_last fuel head1; _ ← set_next _tmp head2; mret head1
  else mret head2.

Definition LL_APPEND2 (fuel : nat) (head add : ptr) : M heap ptr :=
  _ ← set_next add None;
  if negb (null head) then
    _tmp ← find_last fuel head; _ ← set_next _tmp add; mret head
  else mret add.

Definition LL_DELETE2 (fuel : nat) (head del : ptr) : M heap ptr :=
  if bool_decide (head = del) then get_next head else
  _tmp ← find_before fuel head del;
  n ← get_next _tmp;
  if negb (null n) then n ← get_next del; _ ← set_next _tmp n; mret head else mret head.

(** The versions for compilers without [decltype]: [LL_APPEND2] goes through the list in
    [add->next], [LL_DELETE2] in [head]. *)
Fixpoint append_walk (fuel : nat) (add : ptr) : M heap () :=
  match fuel with
  | O => no_fuel
  | S fuel =>
      n ← get_next add; n ← get_next n;
      if negb (null n) then _ ← set_next add n; append_walk fuel add else mret ()
  end.
Definition LL_APPEND2_VS2008 (fuel : nat) (head add : ptr) : M heap ptr :=
  head ← (if negb (null head) then
            _ ← set_next add head;
            _ ← append_walk fuel add;
            n ← get_next add; _ ← set_next n add; mret head
          else mret add);
  _ ← set_next add None;
  mret head.
Definition LL_DELETE2_VS2008 (fuel : nat) (head del : ptr) : M heap ptr :=
  if bool_decide (head = del) then get_next head else
  let _tmp := head in
  head ← find_before fuel head del;
  n ← get_next head;
  _ ← (if negb (null n) then n ← get_next del; set_next head n else mret ());
  mret _tmp.

(** [LL_FOREACH_SAFE2] and [DL_FOREACH_SAFE2]: [body] may delete the node it is given, and
    carries on the variables it assigns. *)
Fixpoint LL_FOREACH_SAFE2 {A} (body : positive -> A -> M heap A) (fuel : nat) (el : ptr) (x : A) : M heap A :=
  match fuel with
  | O => no_fuel
  | S fuel =>
      match el with
      | None => mret x
      | Some a => tmp ← get_next el; x ← body a x; LL_FOREACH_SAFE2 body fuel tmp x
      end
  end.

(** The loop of [LL_FOREACH2], counting and searching.  The counter is a variable of the
    caller, of any type: [incr] is its [++], and [None] an overflow that is undefined, as
    that of an [int]. *)
Fixpoint LL_COUNT2 (incr : Z -> option Z) (fuel : nat) (el : ptr) (counter : Z) : M heap Z :=
  match fuel with
  | O => no_fuel
  | S fuel =>
      if null el then mret counter else
      counter ← demand (incr counter); el ← get_next el; LL_COUNT2 incr fuel el counter
  end.
Definition int_incr (counter : Z) : option Z := if counter <? INT_MAX then Some (counter + 1) else None.
Fixpoint LL_SEARCH2 (found : positive -> bool) (fuel : nat) (out : ptr) : M heap ptr :=
  match fuel with
  | O => no_fuel
  | S fuel =>
      match out with
      | None => mret None
      | Some a => if found a then mret out else out ← get_next out; LL_SEARCH2 found fuel out
      end
  end.

(** The field that is compared is a parameter. *)
Definition LL_SEARCH_SCALAR2 {F} `{!EqDecision F} (field : positive -> F) (val : F) :=
  LL_SEARCH2 (fun a => bool_decide (field a = val)).
(** The loops of doubly linked lists are the same. *)
Definition DL_COUNT2 := LL_COUNT2.

(** [head], or what precedes [el], is made to point to [add]. *)
Definition point_before (fuel : nat) (head el add : ptr) : M heap ptr :=
  if bool_decide (head = el) then mret add else
  _tmp ← find_before fuel head el;
  n ← get_next _tmp;
  if negb (null n) then _ ← set_next _tmp add; mret head else mret head.

Definition LL_REPLACE_ELEM (fuel : nat) (head el add : ptr) : M heap ptr :=
  _ ← assert_that (negb (null head) && negb (null el) && negb (null add));
  n ← get_next el;
  _ ← set_next add n;
  point_before fuel head el add.

Definition LL_PREPEND_ELEM (fuel : nat) (head el add : ptr) : M heap ptr :=
  _ ← assert_that (negb (null head) && negb (null el) && negb (null add));
  _ ← set_next add el;
  point_before fuel head el add.

(** ** Doubly linked lists *)

Definition DL_PREPEND2 (head add : ptr) : M heap ptr :=
  _ ← set_next add head;
  _ ← (if negb (null head) then
         p ← get_prev head; _ ← set_prev add p; set_prev head add
       else set_prev add add);
  mret add.

Definition DL_APPEND2 (head add : ptr) : M heap ptr :=
  if negb (null head) then
    p ← get_prev head;
    _ ← set_prev add p;
    p ← get_prev head;
    _ ← set_next p add;
    _ ← set_prev head add;
    _ ← set_next add None;
    mret head
  else
    _ ← set_prev add add;
    _ ← set_next add None;
    mret add.

Definition DL_CONCAT2 (head1 head2 : ptr) : M heap ptr :=
  if negb (null head2) then
    if negb (null head1) then
      _tmp ← get_prev head2;
      p ← get_prev head1;
      _ ← set_prev head2 p;
      p ← get_prev head1;
      _ ← set_next p head2;
      _ ← set_prev head1 _tmp;
      mret head1
    else mret head2
  else mret head1.

Definition DL_DELETE2 (head del : ptr) : M heap ptr :=
  p ← get_prev del;
  _ ← assert_that (negb (null p));
  if bool_decide (p = del) then mret None
  else if bool_decide (del = head) then
    n ← get_next del;
    _ ← set_prev n p;
    get_next del
  else
    n ← get_next del;
    _ ← set_next p n;
    n ← get_next del;
    p ← get_prev del;
    _ ← (if negb (null n) then set_prev n p else set_prev head p);
    mret head.

Definition DL_REPLACE_ELEM (head el add : ptr) : M heap ptr :=
  _ ← assert_that (negb (null head) && negb (null el) && negb (null add));
  if bool_decide (head = el) then
    n ← get_next el;
    _ ← set_next add n;
    n ← get_next el;
    _ ← (if null n then set_prev add add
         else p ← get_prev el; _ ← set_prev add p; n ← get_next add; set_prev n add);
    mret add
  else
    n ← get_next el;
    _ ← set_next add n;
    p ← get_prev el;
    _ ← set_prev add p;
    p ← get_prev add;
    _ ← set_next p add;
    n ← get_next el;
    _ ← (if null n then set_prev head add else n ← get_next add; set_prev n add);
    mret head.

Definition DL_PREPEND_ELEM (head el add : ptr) : M heap ptr :=
  _ ← assert_that (negb (null head) && negb (null el) && negb (null add));
  _ ← set_next add el;
  p ← get_prev el;
  _ ← set_prev add p;
  _ ← set_prev el add;
  if bool_decide (head = el) then mret add else
  p ← get_prev add;
  _ ← set_next p add;
  mret head.

(** ** Circular doubly linked lists *)

Definition CDL_PREPEND2 (head add : ptr) : M heap ptr :=
  _ ← (if negb (null head) then
         p ← get_prev head; _ ← set_prev add p;
         _ ← set_next add head;
         _ ← set_prev head add;
         p ← get_prev add; set_next p add
       else
         _ ← set_prev add add; set_next add add);
  mret add.

Definition CDL_DELETE2 (head del : ptr) : M heap ptr :=
  n ← (if bool_decide (head = del) then get_next head else mret None);
  if bool_decide (head = del) && bool_decide (n = head) then mret None
  else
    n ← get_next del; p ← get_prev del; _ ← set_prev n p;
    p ← get_prev del; n ← get_next del; _ ← set_next p n;
    if bool_decide (del = head) then get_next del else mret head.

(** The loop of [CDL_FOREACH2], counting and searching. *)
Fixpoint CDL_COUNT2 (incr : Z -> option Z) (fuel : nat) (head el : ptr) (counter : Z) : M heap Z :=
  match fuel with
  | O => no_fuel
  | S fuel =>
      if null el then mret counter else
      counter ← demand (incr counter);
      n ← get_next el;
      CDL_COUNT2 incr fuel head (if bool_decide (n = head) then None else n) counter
  end.
Fixpoint CDL_SEARCH2 (found : positive -> bool) (fuel : nat) (head out : ptr) : M heap ptr :=
  match fuel with
  | O => no_fuel
  | S fuel =>
      match out with
      | None => mret None
      | Some a =>
          if found a then mret out else
          n ← get_next out;
          CDL_SEARCH2 found fuel head (if bool_decide (n = head) then None else n)
      end
  end.

Definition CDL_SEARCH_SCALAR2 {F} `{!EqDecision F} (field : positive -> F) (val : F) :=
  CDL_SEARCH2 (fun a => bool_decide (field a = val)).

(** [CDL_FOREACH_SAFE2]; [tmp1] is the last node when the loop begins. *)
Fixpoint cdl_safe_loop {A} (body : positive -> A -> M heap A) (fuel : nat) (tmp1 el : ptr) (x : A) : M heap A :=
  match fuel with
  | O => no_fuel
  | S fuel =>
      match el with
      | None => mret x
      | Some a =>
          tmp2 ← get_next el;
          x ← body a x;
          cdl_safe_loop body fuel tmp1 (if bool_decide (el = tmp1) then None else tmp2) x
      end
  end.
Definition CDL_FOREACH_SAFE2 {A} (body : positive -> A -> M heap A) (fuel : nat) (head : ptr) (x : A) : M heap A :=
  tmp1 ← (if negb (null head) then get_prev head else mret None);
  cdl_safe_loop body fuel tmp1 head x.

Definition CDL_REPLACE_ELEM (head el add : ptr) : M heap ptr :=
  _ ← assert_that (negb (null head) && negb (null el) && negb (null add));
  n ← get_next el;
  if bool_decide (n = el) then
    _ ← set_next add add; _ ← set_prev add add; mret add
  else
    _ ← set_next add n;
    p ← get_prev el; _ ← set_prev add p;
    n ← get_next add; _ ← set_prev n add;
    p ← get_prev add; _ ← set_next p add;
    mret (if bool_decide (head = el) then add else head).

Definition CDL_PREPEND_ELEM (head el add : ptr) : M heap ptr :=
  _ ← assert_that (negb (null head) && negb (null el) && negb (null add));
  _ ← set_next add el;
  p ← get_prev el; _ ← set_prev add p;
  _ ← set_prev el add;
  p ← get_prev add; _ ← set_next p add;
  mret (if bool_decide (head = el) then add else head).

(** ** Merge sort *)

(** In what the sorts of the kinds of lists differ: whether there are back pointers,
    whether the list is circular, how its ends are closed behind a pass, and the
    [_insize *= 2] of the type of [_insize]. *)
Record list_kind := ListKind {
  back_links : bool;
  circular : bool;
  close_ends : ptr -> ptr -> M heap ();
  twice : nat -> option nat
}.

Section sort.
Context (cmp : positive -> positive -> Z) (kind : list_kind).

Section pass.
(** [_ls_oldhead] of a circular list, otherwise null. *)
Context (oldhead : ptr).

(** The next node of the list, null behind its end. *)
Definition next_node (p : ptr) : M heap ptr :=
  n ← get_next p; mret (if bool_decide (n = oldhead) then None else n).

(** The [for] that steps over [insize] nodes: [_ls_q] and [_ls_psize]. *)
Fixpoint sort_walk (insize : nat) (q : ptr) (psize : nat) : M heap (ptr * nat) :=
  match insize with
  | O => mret (q, psize)
  | S insize =>
      q ← next_node q;
      if null q then mret (q, S psize) else sort_walk insize q (S psize)
  end.

(** The node is taken off one of the two runs. *)
Definition take_p (p q : ptr) (psize qsize : nat) : M heap (ptr * (ptr * nat * ptr * nat)) :=
  p' ← next_node p; mret (p, (p', Nat.pred psize, q, qsize)).
Definition take_q (p q : ptr) (psize qsize : nat) : M heap (ptr * (ptr * nat * ptr * nat)) :=
  q' ← next_node q; mret (q, (p, psize, q', Nat.pred qsize)).

(** The [while] that merges two runs: [_ls_q], [list] and [_ls_tail] behind it. *)
Fixpoint sort_merge (fuel : nat) (p : ptr) (psize : nat) (q : ptr) (qsize : nat) (list tail : ptr)
    : M heap (ptr * ptr * ptr) :=
  match fuel with
  | O => no_fuel
  | S fuel =>
      if negb ((0 <? Z.of_nat psize) || ((0 <? Z.of_nat qsize) && negb (null q))) then mret (q, list, tail) else
      '(e, (p, psize, q, qsize)) ←
        (if Z.of_nat psize =? 0 then take_q p q psize qsize
         else if (Z.of_nat qsize =? 0) || null q then take_p p q psize qsize
         else
           a ← demand p;
           b ← demand q;
           if cmp a b <=? 0 then take_p p q psize qsize else take_q p q psize qsize);
      _ ← (if negb (null tail) then set_next tail e else mret ());
      let list := if negb (null tail) then list else e in
      _ ← (if back_links kind then set_prev e tail else mret ());
      sort_merge fuel p psize q qsize list e
  end.

(** One pass over the list, in pairs of runs. *)
Fixpoint sort_pass (fuel insize : nat) (p list tail : ptr) (nmerges : nat) : M heap (ptr * ptr * nat) :=
  match fuel with
  | O => no_fuel
  | S fuel' =>
      if null p then mret (list, tail, nmerges) else
      '(q, psize) ← sort_walk insize p 0;
      '(q, list, tail) ← sort_merge fuel p psize q insize list tail;
      sort_pass fuel' insize q list tail (S nmerges)
  end.
End pass.

(** The [while (_ls_looping)], and [_ls_tail] at its end. *)
Fixpoint sort_loop (fuel insize : nat) (list : ptr) : M heap (ptr * ptr) :=
  match fuel with
  | O => no_fuel
  | S fuel' =>
      '(list, tail, nmerges) ← sort_pass (if circular kind then list else None) fuel insize list None None 0;
      _ ← close_ends kind list tail;
      insize ← demand (twice kind insize);
      if (nmerges <=? 1)%nat then mret (list, tail) else sort_loop fuel' insize list
  end.

Definition list_sort (fuel : nat) (list : ptr) : M heap ptr :=
  if null list then mret list else '(list, _) ← sort_loop fuel 1 list; mret list.
End sort.

(** The size of the runs is an [int]. *)
Definition twice_int (insize : nat) : option nat :=
  if in_int (Z.of_nat (insize * 2)) then Some (insize * 2)%nat else None.

(** [if (_ls_tail) _ls_tail->next = NULL;]. *)
Definition close_next (list tail : ptr) : M heap () := if negb (null tail) then set_next tail None else mret ().

Definition LL_kind : list_kind := ListKind false false close_next twice_int.
Definition DL_kind : list_kind :=
  ListKind true false (fun list tail => _ ← set_prev list tail; set_next tail None) twice_int.
Definition CDL_kind : list_kind :=
  ListKind true true (fun list tail => _ ← set_prev list tail; set_next tail list) twice_int.

Definition LL_SORT2 (cmp : positive -> positive -> Z) := list_sort cmp LL_kind.
Definition DL_SORT2 (cmp : positive -> positive -> Z) := list_sort cmp DL_kind.
Definition CDL_SORT2 (cmp : positive -> positive -> Z) := list_sort cmp CDL_kind.

(** ** A run *)

(** The numbers 5, 1, 4, 2, 3 in a doubly linked list. *)
Definition sort_demo : M heap (list (positive * node)) :=
  h ← DL_APPEND2 None (Some 5%positive);
  h ← DL_APPEND2 h (Some 1%positive);
  h ← DL_APPEND2 h (Some 4%positive);
  h ← DL_APPEND2 h (Some 2%positive);
  h ← DL_APPEND2 h (Some 3%positive);
  h ← DL_SORT2 (fun a b => Z.pos a - Z.pos b) 20 h;
  get map_to_list.

Example sort_demo_sorted :
  match sort_demo (list_to_map ((fun a => (a, Node None None)) <$> [1; 2; 3; 4; 5]%positive)) with
  | Ok l _ => map_to_list (list_to_map (M := heap) l)
  | _ => []
  end = map_to_list (list_to_map (M := heap)
    [(1%positive, Node (Some 5%positive) (Some 2%positive)); (2%positive, Node (Some 1%positive) (Some 3%positive));
     (3%positive, Node (Some 2%positive) (Some 4%positive)); (4%positive, Node (Some 3%positive) (Some 5%positive));
     (5%positive, Node (Some 4%positive) None)]).
Proof. vm_compute. reflexivity. Qed.
