(* ===== verification/ListRep.v ===== *)
(** Lists of utlist.h nodes in the heap: what it is for a chain of nodes to
    represent a list, and the loads and stores on it. *)

From S2P Require Import Prelude CLib Outcome Utlist.

#[local] Open Scope Z_scope.

(** ** Linked nodes *)

(** The nodes [xs] are linked from [p] on, and the last one points to [r]. *)
Fixpoint seg (h : heap) (p : ptr) (xs : list positive) (r : ptr) : Prop :=
  match xs with
  | [] => p = r
  | x :: xs => p = Some x /\ exists nd, h !! x = Some nd /\ seg h (n_next nd) xs r
  end.

(** Each node has the one before it as its [prev], the first one [pr]. *)
Fixpoint prevs (h : heap) (pr : ptr) (xs : list positive) : Prop :=
  match xs with
  | [] => True
  | x :: xs => (exists nd, h !! x = Some nd /\ n_prev nd = pr) /\ prevs h (Some x) xs
  end.

Lemma seg_frame h h' xs : forall p r,
  (forall x, x ∈ xs -> n_next <$> h' !! x = n_next <$> h !! x) -> seg h p xs r -> seg h' p xs r.
Proof.
  induction xs as [|x xs IH]; intros p r Hx; [done|]. intros [-> (nd&Hnd&Hs)]. split; [done|].
  pose proof (Hx x ltac:(by left)) as E. rewrite Hnd in E. destruct (h' !! x) as [nd'|]; [|done]. cbn in E. injection E as E.
  exists nd'. split; [done|]. rewrite E. apply IH; [|done]. intros y Hy. apply Hx. by right.
Qed.

Lemma prevs_frame h h' xs : forall pr,
  (forall x, x ∈ xs -> n_prev <$> h' !! x = n_prev <$> h !! x) -> prevs h pr xs -> prevs h' pr xs.
Proof.
  induction xs as [|x xs IH]; intros pr Hx; [done|]. intros [(nd&Hnd&Hp) Hs]. split.
  - pose proof (Hx x ltac:(by left)) as E. rewrite Hnd in E. destruct (h' !! x) as [nd'|]; [|done]. cbn in E. injection E as E.
    exists nd'. split; congruence.
  - apply IH; [|done]. intros y Hy. apply Hx. by right.
Qed.

Lemma seg_app h xs ys : forall p r, seg h p (xs ++ ys) r <-> exists m, seg h p xs m /\ seg h m ys r.
Proof.
  induction xs as [|x xs IH]; intros p r; cbn [app seg].
  - split; [intros H; by exists p|by intros (m&->&H)].
  - split.
    + intros [-> (nd&Hnd&(m&H1&H2)%IH)]. exists m. split; [|done]. split; [done|]. by exists nd.
    + intros (m&[-> (nd&Hnd&H1)]&H2). split; [done|]. exists nd. split; [done|]. apply IH. by exists m.
Qed.

Lemma prevs_snoc h xs y : forall pr, prevs h pr (xs ++ [y]) <-> prevs h pr xs /\ exists nd,
  h !! y = Some nd /\ n_prev nd = match last xs with Some t => Some t | None => pr end.
Proof.
  induction xs as [|x xs IH]; intros pr; cbn [app prevs]; [cbn; tauto|]. rewrite IH, last_cons. destruct (last xs); tauto.
Qed.

Lemma seg_in h p xs r x : seg h p xs r -> x ∈ xs -> is_Some (h !! x).
Proof.
  revert p. induction xs as [|y xs IH]; intros p; [by intros _ ?%elem_of_nil|].
  intros [_ (nd&Hnd&Hs)] [->|Hx]%elem_of_cons; [by eexists|by eapply IH].
Qed.

(** A list from the pointer [p] on; with back pointers, the first node's to the last one. *)
Definition list_rep (dl : bool) (h : heap) (p : ptr) (l : list positive) : Prop :=
  NoDup l /\ seg h p l None /\ if dl then prevs h (last l) l else True.

(** Nothing but the nodes of [l] is changed. *)
Definition only (l : list positive) (h h' : heap) : Prop := forall a, a ∉ l -> h' !! a = h !! a.

Lemma only_trans l l1 l2 h1 h2 h3 :
  only l1 h1 h2 -> only l2 h2 h3 -> (forall a, a ∈ l1 \/ a ∈ l2 -> a ∈ l) -> only l h1 h3.
Proof. intros H1 H2 Hs a Ha. rewrite H2, H1; [done|..]; intros ?; apply Ha, Hs; auto. Qed.

(** Membership in appended lists. *)
Ltac elem_tac := intros ?; rewrite ?elem_of_app, ?elem_of_cons, ?elem_of_nil; tauto.

(** Stores. *)
Lemma wp_load_node (a : positive) nd h (Q : positive * node -> heap -> Prop) : h !! a = Some nd -> Q (a, nd) h -> wp safe (load_node (Some a)) Q h.
Proof. intros Ha HQ. unfold load_node. apply wp_bind, (wp_demand _ _ a); [done|]. apply wp_bind, wp_get, wp_bind, (wp_demand _ _ nd); [done|]. by apply wp_ret. Qed.
Lemma wp_get_next (a : positive) nd h (Q : ptr -> heap -> Prop) : h !! a = Some nd -> Q (n_next nd) h -> wp safe (get_next (Some a)) Q h.
Proof. intros Ha HQ. apply wp_bind. eapply wp_load_node; [done|]. by apply wp_ret. Qed.
Lemma wp_get_prev (a : positive) nd h (Q : ptr -> heap -> Prop) : h !! a = Some nd -> Q (n_prev nd) h -> wp safe (get_prev (Some a)) Q h.
Proof. intros Ha HQ. apply wp_bind. eapply wp_load_node; [done|]. by apply wp_ret. Qed.
Lemma wp_set_next (a : positive) nd v h (Q : () -> heap -> Prop) :
  h !! a = Some nd -> Q () (<[a := Node (n_prev nd) v]> h) -> wp safe (set_next (Some a) v) Q h.
Proof. intros Ha HQ. apply wp_bind. eapply wp_load_node; [done|]. by apply wp_modify. Qed.
Lemma wp_set_prev (a : positive) nd v h (Q : () -> heap -> Prop) :
  h !! a = Some nd -> Q () (<[a := Node v (n_next nd)]> h) -> wp safe (set_prev (Some a) v) Q h.
Proof. intros Ha HQ. apply wp_bind. eapply wp_load_node; [done|]. by apply wp_modify. Qed.
