(* ===== verification/UtlistSort.v ===== *)
(** The merge sort of utlist.h: on every list it returns with the nodes in
    order, equal ones as they were, all linked again. *)

From S2P Require Import Prelude CLib Outcome Utlist ListRep.
From stdpp Require Import sorting.

#[local] Open Scope Z_scope.

Lemma filter_none {A} (P : A -> Prop) `{!forall x, Decision (P x)} l : (forall x, x ∈ l -> ~ P x) -> filter P l = [].
Proof.
  induction l as [|x l IH]; intros Hl; [done|]. rewrite filter_cons, decide_False by (apply Hl; by left).
  apply IH. intros y Hy. apply Hl. by right.
Qed.

(** ** Merging *)

Lemma wp_bind_inv {W A B} U (m : M W A) (f : A -> M W B) Q w : wp U (m ≫= f) Q w -> wp U m (fun a => wp U (f a) Q) w.
Proof. unfold wp, mbind, M_bind. by destruct (m w). Qed.

Section out.
Context (dl : bool).

(** The nodes put out so far; the last one does not point to anything in particular. *)
Definition out_rep (h : heap) (ls tail : ptr) (out : list positive) : Prop :=
  tail = last out /\ match last out with
  | None => ls = None
  | Some t => exists init, out = init ++ [t] /\ seg h ls init (Some t) /\ is_Some (h !! t) /\
      if dl then prevs h None out else True
  end.

Lemma out_snoc h ls tail out e nd : NoDup (out ++ [e]) -> out_rep h ls tail out -> h !! e = Some nd ->
  wp safe (_ ← (if negb (null tail) then set_next tail (Some e) else mret ());
           if dl then set_prev (Some e) tail else mret ())
    (fun _ h' => out_rep h' (if negb (null tail) then ls else Some e) (Some e) (out ++ [e]) /\
      only (out ++ [e]) h h' /\ n_next <$> h' !! e = n_next <$> h !! e) h.
Proof.
  intros Hnd [-> Hout] He. apply NoDup_app in Hnd as (Hndo&Hdis&_).
  assert (e ∉ out) as Hne by (intros Hx; eapply Hdis; [exact Hx|by left]).
  set (h1 := match last out with Some t => match h !! t with Some x => <[t := Node (n_prev x) (Some e)]> h | None => h end | None => h end).
  assert (h1 !! e = Some nd) as He1.
  { unfold h1. destruct (last out) as [t|] eqn:Et; [|done]. destruct (h !! t); [|done]. rewrite lookup_insert_ne; [done|].
    intros ->. apply Hne. by apply last_Some_elem_of. }
  assert (only out h h1) as Honly1.
  { intros a Ha. unfold h1. destruct (last out) as [t|] eqn:Et; [|done]. destruct (h !! t); [|done]. rewrite lookup_insert_ne; [done|].
    intros ->. apply Ha. by apply last_Some_elem_of. }
  assert (seg h1 (if negb (null (last out)) then ls else Some e) out (Some e)) as Hseg.
  { unfold h1. destruct (last out) as [t|] eqn:Et; cbn; [|by apply last_None in Et as ->].
    destruct Hout as (init&->&Hs&[x Hx]&_). rewrite Hx. apply seg_app. exists (Some t). split.
    - eapply seg_frame; [|exact Hs]. intros y Hy. rewrite lookup_insert_ne; [done|]. intros ->.
      apply NoDup_app in Hndo as (_&Hd&_). eapply Hd; [exact Hy|by left].
    - split; [done|]. eexists. split; [apply lookup_insert_eq|done]. }
  assert (dl = true -> prevs h1 None out) as Hprev.
  { intros Hdl. unfold h1. destruct (last out) as [t|] eqn:Et; [|by apply last_None in Et as ->].
    destruct Hout as (init&Eo&_&[x Hx]&Hp). rewrite Hdl in Hp. rewrite Hx. eapply prevs_frame; [|exact Hp].
    intros y _. destruct (decide (y = t)) as [->|]; [by rewrite lookup_insert_eq, Hx|by rewrite lookup_insert_ne]. }
  assert (wp safe (if negb (null (last out)) then set_next (last out) (Some e) else mret ()) (fun _ h' => h' = h1) h) as Hset.
  { unfold h1. destruct (last out) as [t|] eqn:Et; [|by apply wp_ret]. destruct Hout as (init&Eo&_&[x Hx]&_).
    eapply wp_set_next; [exact Hx|]. by rewrite Hx. }
  eapply wp_seq; [exact Hset|]. intros [] h' ->. clear Hset Hout.
  assert (forall h2, (forall a, n_next <$> h2 !! a = n_next <$> h1 !! a) -> only [e] h1 h2 ->
    (dl = true -> exists nd2, h2 !! e = Some nd2 /\ n_prev nd2 = last out) ->
    out_rep h2 (if negb (null (last out)) then ls else Some e) (Some e) (out ++ [e]) /\
    only (out ++ [e]) h h2 /\ n_next <$> h2 !! e = n_next <$> h !! e) as Hend.
  { intros h2 Hn Ho Hp. split; [|split].
    - split; [by rewrite last_snoc|]. rewrite last_snoc. exists out. split_and!; [done| | |].
      + eapply seg_frame; [|exact Hseg]. intros y _. apply Hn.
      + specialize (Hn e). rewrite He1 in Hn. destruct (h2 !! e); [by eexists|done].
      + destruct dl eqn:Hdl; [|done]. apply prevs_snoc. split.
        * eapply prevs_frame; [|by apply Hprev]. intros y Hy. rewrite Ho; [done|]. intros ->%list_elem_of_singleton. done.
        * destruct (Hp eq_refl) as (nd2&H1&H2). exists nd2. rewrite H2. by destruct (last out).
    - intros a Ha. rewrite elem_of_app in Ha. rewrite Ho, Honly1; [done|tauto|tauto].
    - rewrite Hn, He1, He. done. }
  destruct dl eqn:Hdl.
  - eapply wp_set_prev; [exact He1|]. apply Hend.
    + intros a. destruct (decide (a = e)) as [->|]; [by rewrite lookup_insert_eq, He1|by rewrite lookup_insert_ne].
    + intros a Ha. rewrite lookup_insert_ne; [done|]. intros ->. apply Ha. by left.
    + intros _. eexists. split; [apply lookup_insert_eq|done].
  - apply wp_ret, Hend; [done..|discriminate].
Qed.
End out.

(** The order of the comparison function. *)
Definition cmp_le (cmp : positive -> positive -> Z) (a b : positive) : Prop := cmp a b <= 0.
#[export] Instance cmp_le_dec cmp a b : Decision (cmp_le cmp a b).
Proof. unfold cmp_le. apply _. Defined.

(** ** The list that is read *)

(** [seg] with the pointers as [next_node] gives them. *)
Definition to_end (oldhead n : ptr) : ptr := if bool_decide (n = oldhead) then None else n.
Fixpoint iseg (oldhead : ptr) (h : heap) (p : ptr) (xs : list positive) (r : ptr) : Prop :=
  match xs with
  | [] => p = r
  | x :: xs => p = Some x /\ exists nd, h !! x = Some nd /\ iseg oldhead h (to_end oldhead (n_next nd)) xs r
  end.

Lemma iseg_frame oldhead h h' xs : forall p r,
  (forall x, x ∈ xs -> n_next <$> h' !! x = n_next <$> h !! x) -> iseg oldhead h p xs r -> iseg oldhead h' p xs r.
Proof.
  induction xs as [|x xs IH]; intros p r Hx; [done|]. intros [-> (nd&Hnd&Hs)]. split; [done|].
  pose proof (Hx x ltac:(by left)) as E. rewrite Hnd in E. destruct (h' !! x) as [nd'|]; [|done]. cbn in E. injection E as E.
  exists nd'. split; [done|]. rewrite E. apply IH; [|done]. intros y Hy. apply Hx. by right.
Qed.

(** A list that ends where [oldhead] says is read to its end. *)
Lemma seg_iseg oldhead h xs : forall p, (forall x, x ∈ xs -> oldhead <> Some x) -> seg h p xs oldhead ->
  iseg oldhead h (to_end oldhead p) xs None.
Proof.
  induction xs as [|x xs IH]; intros p Hx; cbn [seg iseg].
  - intros ->. unfold to_end. by rewrite bool_decide_true.
  - intros [-> (nd&Hnd&Hs)]. split; [unfold to_end; rewrite bool_decide_false; [done|]; symmetry; apply Hx; by left|].
    exists nd. split; [done|]. apply IH; [|done]. intros y Hy. apply Hx. by right.
Qed.

Lemma seg_iseg_None h p xs : seg h p xs None -> iseg None h p xs None.
Proof. intros Hs. apply seg_iseg in Hs; [|done]. destruct p as [x|]; [|by destruct xs]. exact Hs. Qed.

Lemma seg_iseg_ring h x xs : x ∉ xs -> seg h (Some x) (x :: xs) (Some x) -> iseg (Some x) h (Some x) (x :: xs) None.
Proof.
  intros Hx [_ (nd&Hnd&Hs)]. split; [done|]. exists nd. split; [done|]. apply seg_iseg; [|done]. intros y Hy [= ->]. done.
Qed.

Lemma wp_next_node oldhead (a : positive) nd h (Q : ptr -> heap -> Prop) :
  h !! a = Some nd -> Q (to_end oldhead (n_next nd)) h -> wp safe (next_node oldhead (Some a)) Q h.
Proof. intros Ha HQ. apply wp_bind. eapply wp_get_next; [exact Ha|]. by apply wp_ret. Qed.

Section sort.
Context (cmp : positive -> positive -> Z) (kind : list_kind) (oldhead : ptr).
#[local] Abbreviation R := (cmp_le cmp).
#[local] Abbreviation dl := (back_links kind).
#[local] Abbreviation iseg := (iseg oldhead).

(** How a round of [sort_merge] goes on, once the node [e] is taken. *)
Lemma sort_merge_step fuel p psize q qsize ls tail e nd out h Q :
  NoDup (out ++ [e]) -> out_rep dl h ls tail out -> h !! e = Some nd ->
  (forall h', out_rep dl h' (if negb (null tail) then ls else Some e) (Some e) (out ++ [e]) -> only (out ++ [e]) h h' ->
    n_next <$> h' !! e = n_next <$> h !! e ->
    wp safe (sort_merge cmp kind oldhead fuel p psize q qsize (if negb (null tail) then ls else Some e) (Some e)) Q h') ->
  wp safe (_ ← (if negb (null tail) then set_next tail (Some e) else mret ());
           let ls := if negb (null tail) then ls else Some e in
           _ ← (if dl then set_prev (Some e) tail else mret ());
           sort_merge cmp kind oldhead fuel p psize q qsize ls (Some e)) Q h.
Proof.
  intros Hnd Hout He HQ. pose proof (out_snoc dl h ls tail out e nd Hnd Hout He) as H.
  apply wp_bind. eapply wp_mono; [exact (wp_bind_inv _ _ _ _ _ H)|]. intros [] h1 H'. cbv zeta. apply wp_bind.
  eapply wp_mono; [exact H'|]. intros [] h2 (H1&H2&H3). by apply HQ.
Qed.

(** What is left of a merge of [xs] with the first [qsize] of [ys] behind [out]. *)
Definition merged out xs ys qsize h : ptr * ptr * ptr -> heap -> Prop := fun '(q, ls, tail) h' =>
  out_rep dl h' ls tail (out ++ list_merge R xs (take qsize ys)) /\ iseg h' q (drop qsize ys) None /\
  only (out ++ xs ++ take qsize ys) h h'.

Definition merge_ready out xs ys p q r ls tail h : Prop :=
  NoDup (out ++ xs ++ ys) /\ iseg h p xs r /\ iseg h q ys None /\ out_rep dl h ls tail out.

Definition merges fuel : Prop := forall xs ys out p q r ls tail qsize h,
  merge_ready out xs ys p q r ls tail h -> (length xs + Nat.min qsize (length ys) < fuel)%nat ->
  wp safe (sort_merge cmp kind oldhead fuel p (length xs) q qsize ls tail) (merged out xs ys qsize h) h.

(** A round of [sort_merge], with the node it takes. *)
Definition merge_round fuel (choice : M heap (ptr * (ptr * nat * ptr * nat))) (ls tail : ptr) : M heap (ptr * ptr * ptr) :=
  '(e, (p, psize, q, qsize)) ← choice;
  _ ← (if negb (null tail) then set_next tail e else mret ());
  let list := if negb (null tail) then ls else e in
  _ ← (if dl then set_prev e tail else mret ());
  sort_merge cmp kind oldhead fuel p psize q qsize list e.

(** One more node of the first run, *)
Lemma merge_take_p fuel x xs' ys out p q r ls tail qsize h : merges fuel ->
  merge_ready out (x :: xs') ys p q r ls tail h -> (length (x :: xs') + Nat.min qsize (length ys) < S fuel)%nat ->
  (take qsize ys = [] \/ exists y ys', take qsize ys = y :: ys' /\ R x y) ->
  wp safe (merge_round fuel (take_p oldhead p q (length (x :: xs')) qsize) ls tail) (merged out (x :: xs') ys qsize h) h.
Proof.
  intros IH (Hnd&Hp&Hq&Hout) Hf Hmin. destruct Hp as [-> (nd&Hx&Hp)]. unfold merge_round. apply wp_bind. unfold take_p. apply wp_bind.
  eapply wp_next_node; [exact Hx|]. apply wp_ret. rewrite <-app_comm_cons in Hnd.
  eapply sort_merge_step; [|exact Hout|exact Hx|].
  { apply NoDup_app in Hnd as (H1&H2&H3). apply NoDup_app. split_and!; [done| |apply NoDup_singleton].
    intros y Hy ->%list_elem_of_singleton. eapply H2; [exact Hy|by left]. }
  intros h' Hout' Honly Hn.
  assert (forall y, y ∈ xs' ++ ys -> h' !! y = h !! y) as Hsame.
  { intros y Hy. apply Honly. rewrite elem_of_app, list_elem_of_singleton. apply NoDup_app in Hnd as (_&H2&H3).
    apply NoDup_cons in H3 as [H3 _]. intros [Ho| ->]; [|done]. eapply H2; [exact Ho|by right]. }
  eapply wp_mono; [eapply (IH xs' ys (out ++ [x]))|].
  - split_and!; [by rewrite <-app_assoc| | |exact Hout'].
    + eapply iseg_frame; [|exact Hp]. intros y Hy. rewrite Hsame; [done|]. apply elem_of_app. by left.
    + eapply iseg_frame; [|exact Hq]. intros y Hy. rewrite Hsame; [done|]. apply elem_of_app. by right.
  - cbn in Hf. lia.
  - intros [[q' ls'] tail'] h2 (H1&H2&H3). split; [|split; [exact H2|]].
    + rewrite <-app_assoc in H1. cbn [app] in H1. destruct Hmin as [E|(y&ys'&E&Hxy)]; rewrite E in H1 |- *.
      * rewrite list_merge_nil_r in H1 |- *. exact H1.
      * rewrite list_merge_cons, decide_True by done. exact H1.
    + eapply only_trans; [exact Honly|exact H3|]. elem_tac.
Qed.

(** and one more of the second. *)
Lemma merge_take_q fuel xs y ys' out p q r ls tail k h : merges fuel ->
  merge_ready out xs (y :: ys') p q r ls tail h -> (length xs + Nat.min (S k) (length (y :: ys')) < S fuel)%nat ->
  (xs = [] \/ exists x xs', xs = x :: xs' /\ ~ R x y) ->
  wp safe (merge_round fuel (take_q oldhead p q (length xs) (S k)) ls tail) (merged out xs (y :: ys') (S k) h) h.
Proof.
  intros IH (Hnd&Hp&Hq&Hout) Hf Hmin. destruct Hq as [-> (nd&Hy&Hq)]. unfold merge_round. apply wp_bind. unfold take_q. apply wp_bind.
  eapply wp_next_node; [exact Hy|]. apply wp_ret.
  assert ((y ∉ out ++ xs ++ ys') /\ NoDup (out ++ xs ++ ys')) as [Hyn Hnd'].
  { apply NoDup_cons. by rewrite !Permutation_middle. }
  eapply sort_merge_step; [|exact Hout|exact Hy|].
  { apply NoDup_app in Hnd as (H1&H2&H3). apply NoDup_app. split_and!; [done| |apply NoDup_singleton].
    intros z Hz ->%list_elem_of_singleton. apply Hyn, elem_of_app. by left. }
  intros h' Hout' Honly Hn.
  assert (forall z, z ∈ xs ++ ys' -> h' !! z = h !! z) as Hsame.
  { intros z Hz. apply Honly. rewrite elem_of_app, list_elem_of_singleton. intros [Ho| ->].
    - apply NoDup_app in Hnd' as (_&H2&_). by eapply H2.
    - apply Hyn, elem_of_app. by right. }
  eapply wp_mono; [eapply (IH xs ys' (out ++ [y]))|].
  - split_and!; [rewrite <-app_assoc; cbn [app]; by rewrite (Permutation_middle xs)| | |exact Hout'].
    + eapply iseg_frame; [|exact Hp]. intros z Hz. rewrite Hsame; [done|]. apply elem_of_app. by left.
    + eapply iseg_frame; [|exact Hq]. intros z Hz. rewrite Hsame; [done|]. apply elem_of_app. by right.
  - cbn in Hf |- *. lia.
  - intros [[q' ls'] tail'] h2 (H1&H2&H3). unfold merged. cbn [take drop]. split; [|split; [exact H2|]].
    + rewrite <-app_assoc in H1. cbn [app] in H1. destruct Hmin as [->|(x&xs'&->&Hxy)].
      * rewrite list_merge_nil_l in H1 |- *. exact H1.
      * rewrite list_merge_cons, decide_False by done. exact H1.
    + eapply only_trans; [exact Honly|exact H3|]. elem_tac.
Qed.

Lemma sort_merge_spec fuel : merges fuel.
Proof.
  induction fuel as [|fuel IH]; intros xs ys out p q r ls tail qsize h Hready Hf; [lia|]. cbn [sort_merge].
  pose proof Hready as (Hnd&Hp&Hq&Hout).
  destruct xs as [|x xs'].
  - cbn [length] in *. destruct (decide (qsize = 0 \/ ys = [])%nat) as [Hstop|Hgo].
    + unfold merged. assert (take qsize ys = [] /\ drop qsize ys = ys) as [-> ->] by (destruct Hstop as [E|E]; rewrite E; by rewrite ?take_nil, ?drop_nil).
      assert (((0 <? Z.of_nat 0) || ((0 <? Z.of_nat qsize) && negb (null q))) = false) as ->.
      { destruct Hstop as [-> | ->]; [done|]. cbn in Hq. subst q. by rewrite andb_false_r. }
      apply wp_ret. rewrite list_merge_nil_r, app_nil_r. split; [exact Hout|split; [exact Hq|done]].
    + destruct ys as [|y ys']; [tauto|]. destruct qsize as [|k]; [tauto|]. pose proof Hq as [Eq _].
      assert (null q = false) as -> by (rewrite Eq; done).
      rewrite (proj2 (Z.ltb_lt 0 (Z.of_nat (S k)))) by lia. change (Z.of_nat 0 =? 0) with true. rewrite orb_true_r. cbn [negb].
      apply (merge_take_q fuel [] y ys' out p q r ls tail k h); [done|exact Hready|cbn in *; lia|by left].
  - rewrite (proj2 (Z.ltb_lt 0 (Z.of_nat (length (x :: xs'))))) by (cbn; lia). cbn [orb negb].
    rewrite (proj2 (Z.eqb_neq (Z.of_nat (length (x :: xs'))) 0)) by (cbn; lia).
    destruct ys as [|y ys'].
    + cbn in Hq. subst q. rewrite orb_true_r by done. apply (merge_take_p fuel x xs' [] out p None r ls tail qsize h); [done|exact Hready|exact Hf|]. left. apply take_nil.
    + destruct qsize as [|k]; [apply (merge_take_p fuel x xs' (y :: ys') out p q r ls tail 0 h); [done|exact Hready|exact Hf|by left]|]. pose proof Hq as [Eq _]. pose proof Hp as [Ep _].
      rewrite (proj2 (Z.eqb_neq (Z.of_nat (S k)) 0)) by lia.
      assert (null q = false) as -> by (rewrite Eq; done). cbn [orb].
      apply wp_bind, wp_bind, (wp_demand _ _ x); [exact Ep|]. apply wp_bind, (wp_demand _ _ y); [exact Eq|].
      destruct (Z.leb_spec (cmp x y) 0) as [Hle|Hgt]; refine (wp_bind_inv _ _ _ _ _ _).
      * apply (merge_take_p fuel x xs' (y :: ys') out p q r ls tail (S k) h); [done|exact Hready|done|]. right. by exists y, (take k ys').
      * apply (merge_take_q fuel (x :: xs') y ys' out p q r ls tail k h); [done|exact Hready|done|]. right. exists x, xs'. split; [done|]. unfold cmp_le. lia.
Qed.

(** ** Passes *)

Lemma sort_walk_spec h : forall k q l n, iseg h q l None -> l <> [] -> (0 < k)%nat ->
  wp safe (sort_walk oldhead k q n) (fun '(q', n') h' => h' = h /\ n' = (n + length (take k l))%nat /\
    iseg h q' (drop k l) None /\ iseg h q (take k l) q') h.
Proof using Type.
  intros k. induction k as [|k IH]; intros q l n Hs Hne Hk; [lia|]. destruct l as [|x l]; [done|].
  destruct Hs as [-> (nd&Hx&Hs)]. cbn [sort_walk]. apply wp_bind. eapply wp_next_node; [exact Hx|].
  destruct l as [|y l].
  - cbn in Hs. rewrite Hs. apply wp_ret. rewrite (take_ge [x]), (drop_ge [x]) by (cbn; lia).
    split; [done|]. split; [cbn; lia|]. split; [done|]. split; [done|]. by exists nd.
  - pose proof Hs as [E _]. rewrite E. change (null (Some y)) with false. cbv iota. rewrite <-E.
    destruct k as [|k].
    + apply wp_ret. split; [done|]. split; [cbn; lia|]. split; [exact Hs|]. split; [done|]. by exists nd.
    + eapply wp_mono; [apply IH; [exact Hs|done|lia]|]. intros [q' n'] h' (->&->&H1&H2). split; [done|]. split; [cbn [take length]; lia|].
      split; [done|]. split; [done|]. by exists nd.
Qed.

(** What a pass makes of the list, in so many merges. *)
Inductive run_pass (k : nat) : list positive -> list positive -> nat -> Prop :=
| run_pass_nil : run_pass k [] [] 0
| run_pass_cons l l' n : l <> [] -> run_pass k (drop k (drop k l)) l' n ->
    run_pass k l (list_merge R (take k l) (take k (drop k l)) ++ l') (S n).

Lemma sort_pass_spec fuel : forall k p ls tail nm l out h, NoDup (out ++ l) -> iseg h p l None -> out_rep dl h ls tail out ->
  (0 < k)%nat -> (length l + 1 < fuel)%nat ->
  wp safe (sort_pass cmp kind oldhead fuel k p ls tail nm) (fun '(ls', tail', nm') h' => exists l' n, run_pass k l l' n /\
    nm' = (nm + n)%nat /\ out_rep dl h' ls' tail' (out ++ l') /\ only (out ++ l) h h') h.
Proof using Type.
  induction fuel as [|fuel IH]; intros k p ls tail nm l out h Hnd Hs Hout Hk Hf; [lia|]. cbn [sort_pass].
  destruct l as [|x l].
  { cbn in Hs. subst p. apply wp_ret. exists [], 0%nat. rewrite app_nil_r. split; [constructor|]. split; [lia|]. split; [exact Hout|done]. }
  set (L := x :: l) in *. assert (L <> []) as HL by done. assert (null p = false) as -> by (by destruct Hs as [-> _]).
  eapply wp_seq; [by apply sort_walk_spec|]. intros [q psize] h1 (->&->&Hq&Hp). rewrite Nat.add_0_l.
  eapply wp_seq.
  { eapply (sort_merge_spec (S fuel) (take k L) (drop k L) out); [split_and!; [by rewrite take_drop|exact Hp|exact Hq|exact Hout]|].
    rewrite length_take, length_drop. lia. }
  intros [[q' ls'] tail'] h1 (Hout1&Hq1&Honly1).
  set (ys := take k (drop k L)) in *. set (m := list_merge R (take k L) ys) in *.
  assert (m ≡ₚ take k L ++ ys) as Hm by apply merge_Permutation.
  assert (L = take k L ++ ys ++ drop k (drop k L)) as HLs by (unfold ys; by rewrite !take_drop).
  eapply wp_mono; [apply (IH k q' ls' tail' (S nm) (drop k (drop k L)) (out ++ m)); [|exact Hq1|exact Hout1|exact Hk|]|].
  - rewrite <-app_assoc, Hm, <-app_assoc, <-HLs. done.
  - rewrite !length_drop. subst L. cbn [length] in *. lia.
  - intros [[ls2 tail2] nm'] h2 (l'&n&Hrun&->&Hout2&Honly2). exists (m ++ l'), (S n). split; [by constructor|].
    split; [lia|]. split; [by rewrite app_assoc|].
    eapply only_trans; [exact Honly1|exact Honly2|]. intros a. rewrite HLs at 3. rewrite !elem_of_app.
    assert (a ∈ m <-> a ∈ take k L \/ a ∈ ys) as Ha by (rewrite Hm; apply elem_of_app). tauto.
Qed.

End sort.

(** ** Order *)

Section order.
Context (cmp : positive -> positive -> Z).
#[local] Abbreviation R := (cmp_le cmp).
#[local] Abbreviation run_pass := (run_pass cmp).

Inductive runs (k : nat) : list positive -> Prop :=
| runs_nil : runs k []
| runs_cons l : Sorted R (take k l) -> runs k (drop k l) -> runs k l.

Lemma runs_one l : runs 1 l.
Proof using Type.
  induction l as [|x l IH]; [constructor|]. apply runs_cons; [|exact IH]. cbn. by repeat constructor.
Qed.

Lemma run_pass_perm k l l' n : run_pass k l l' n -> l' ≡ₚ l.
Proof using Type.
  induction 1 as [|l l' n Hne _ IH]; [done|]. rewrite IH, merge_Permutation, <-app_assoc, !take_drop. done.
Qed.

Lemma run_pass_count k l l' n : run_pass k l l' n -> (length l <= n * (2 * k))%nat.
Proof using Type. induction 1 as [|l l' n Hne _ IH]; [cbn; lia|]. rewrite !length_drop in IH. lia. Qed.

Lemma run_pass_many k l l' n : run_pass k l l' n -> (1 < n)%nat -> (2 * k < length l)%nat.
Proof using Type.
  inversion 1 as [|l0 l1 n1 Hl Hrun]; subst; [lia|]. inversion Hrun as [|l0 l2 n2 Hd]; subst; [lia|]. intros _.
  destruct (decide (2 * k < length l)%nat); [done|]. destruct Hd. apply nil_length_inv. rewrite !length_drop. lia.
Qed.

Context (Htotal : forall a b, R a b \/ R b a) (Htrans : forall a b c, R a b -> R b c -> R a c).
#[local] Set Default Proof Using "All".

#[local] Instance R_total : Total R.
Proof. intros a b. apply Htotal. Qed.

Lemma runs_tail k l : runs k l -> runs k (drop k l).
Proof. destruct 1 as [|l _ H]; [by rewrite drop_nil; constructor|done]. Qed.
Lemma runs_head k l : runs k l -> Sorted R (take k l).
Proof. destruct 1 as [|l H _]; [by rewrite take_nil; constructor|done]. Qed.

Lemma run_pass_runs k l l' n : (0 < k)%nat -> run_pass k l l' n -> runs k l -> runs (2 * k) l'.
Proof.
  intros Hk. induction 1 as [|l l' n Hne Hrun IH]; intros Hr; [constructor|].
  set (m := list_merge R (take k l) (take k (drop k l))).
  assert (Sorted R m) as Hm by (apply Sorted_list_merge; [apply R_total|by apply runs_head|by apply runs_head, runs_tail]).
  assert (length m = length (take k l) + length (take k (drop k l)))%nat as Hl.
  { unfold m. rewrite merge_Permutation, length_app. done. }
  specialize (IH (runs_tail _ _ (runs_tail _ _ Hr))). destruct (decide (drop k (drop k l) = [])) as [E|E].
  - rewrite E in Hrun. inversion Hrun; subst; [|done]. rewrite app_nil_r. apply runs_cons.
    + rewrite take_ge; [done|]. rewrite Hl, !length_take. lia.
    + rewrite drop_ge; [constructor|]. rewrite Hl, !length_take. lia.
  - assert (length m = 2 * k)%nat as Hm2.
    { assert (k + k < length l)%nat.
      { destruct (decide (k + k < length l)%nat); [done|]. destruct E. apply nil_length_inv. rewrite !length_drop. lia. }
      rewrite Hl, !length_take, length_drop. lia. }
    apply runs_cons; [rewrite take_app_length' by lia; done|by rewrite drop_app_length' by lia].
Qed.

Lemma sorted_strongly l : Sorted R l -> StronglySorted R l.
Proof. apply Sorted_StronglySorted. intros a b c. apply Htrans. Qed.

(** Nodes that compare equal to [a] keep their order. *)
Definition same_class (a x : positive) : Prop := R a x /\ R x a.
#[local] Instance same_class_dec a x : Decision (same_class a x).
Proof using Type. unfold same_class. apply _. Defined.

Lemma merge_stable a xs ys : Sorted R xs ->
  filter (same_class a) (list_merge R xs ys) = filter (same_class a) xs ++ filter (same_class a) ys.
Proof.
  revert ys. induction xs as [|x xs IHx]; intros ys Hs; [by rewrite list_merge_nil_l|].
  induction ys as [|y ys IHy]; [by rewrite list_merge_nil_r, app_nil_r|].
  rewrite list_merge_cons. destruct (decide (R x y)) as [Hxy|Hxy].
  - rewrite !(filter_cons _ x), IHx by (by inversion Hs). by destruct (decide (same_class a x)).
  - rewrite (filter_cons _ y (list_merge _ _ _)), IHy, (filter_cons _ y ys).
    destruct (decide (same_class a y)) as [Hy|Hy]; [|done].
    assert (filter (same_class a) (x :: xs) = []) as ->; [|done].
    apply filter_none. intros z Hz [H1 H2]. apply Hxy.
    apply sorted_strongly in Hs. inversion Hs as [|? ? Hss Hall]; subst.
    assert (R x z) as Hxz. { apply elem_of_cons in Hz as [->|Hz]; [destruct (Htotal x x); done|]. by apply (proj1 (Forall_forall _ _) Hall). }
    destruct Hy as [Hy1 Hy2]. eapply Htrans; [exact Hxz|]. eapply Htrans; [exact H2|done].
Qed.

Lemma run_pass_stable k l l' n a : run_pass k l l' n -> runs k l -> filter (same_class a) l' = filter (same_class a) l.
Proof.
  induction 1 as [|l l' n Hne Hrun IH]; intros Hr; [done|].
  rewrite filter_app, merge_stable by (by apply runs_head). rewrite IH by (by apply runs_tail, runs_tail).
  rewrite <-!filter_app, <-app_assoc, !take_drop. done.
Qed.

(** The same elements in order, equal ones as they were. *)
Definition sorted_from (l l' : list positive) : Prop :=
  l' ≡ₚ l /\ Sorted R l' /\ forall a, filter (same_class a) l' = filter (same_class a) l.
End order.

(** ** The ends *)

Lemma close_seg dl h ls tail l v : NoDup l -> l <> [] -> out_rep dl h ls tail l ->
  wp safe (set_next tail v) (fun _ h' => seg h' ls l v /\ only l h h' /\
    forall a, n_prev <$> h' !! a = n_prev <$> h !! a) h.
Proof.
  intros Hnd Hne [-> Hout]. destruct (last l) as [t|] eqn:Et; [|by apply last_None in Et].
  destruct Hout as (init&->&Hs&[nt Ht]&_). eapply wp_set_next; [exact Ht|]. split; [|split].
  - apply seg_app. exists (Some t). split; [|split; [done|]; eexists; split; [apply lookup_insert_eq|done]].
    eapply seg_frame; [|exact Hs]. intros a Ha. rewrite lookup_insert_ne; [done|]. intros ->.
    apply NoDup_app in Hnd as (_&Hd&_). eapply Hd; [exact Ha|by left].
  - intros a Ha. rewrite lookup_insert_ne; [done|]. intros ->. apply Ha, elem_of_app. right. by left.
  - intros a. destruct (decide (a = t)) as [->|]; [by rewrite lookup_insert_eq, Ht|by rewrite lookup_insert_ne].
Qed.

Lemma out_prevs h ls tail l : l <> [] -> out_rep true h ls tail l -> prevs h None l.
Proof. intros Hne [_ H]. destruct (last l) eqn:E; [by destruct H as (?&?&?&?&?)|by apply last_None in E]. Qed.

(** Without back pointers, or with none at the first node. *)
Lemma close_next_spec dl h ls tail l : NoDup l -> l <> [] -> out_rep dl h ls tail l ->
  wp safe (close_next ls tail) (fun _ h' => (seg h' ls l None /\ if dl then prevs h' None l else True) /\ only l h h') h.
Proof.
  intros Hnd Hne Hout. unfold close_next. assert (null tail = false) as ->.
  { destruct Hout as [-> _]. destruct (last l) eqn:E; [done|by apply last_None in E]. }
  cbn [negb]. eapply wp_mono; [by eapply close_seg|]. intros [] h' (Hs&Ho&Hp). split; [|done]. split; [done|].
  destruct dl; [|done]. eapply prevs_frame; [intros a _; apply Hp|by eapply out_prevs].
Qed.

(** With a back pointer from the first node to the last one. *)
Lemma close_both_spec h ls tail l v : NoDup l -> l <> [] -> out_rep true h ls tail l ->
  wp safe (_ ← set_prev ls tail; set_next tail v) (fun _ h' => (seg h' ls l v /\ prevs h' (last l) l) /\ only l h h') h.
Proof.
  intros Hnd Hne Hout. pose proof (out_prevs _ _ _ _ Hne Hout) as Hp. destruct Hout as [-> Hout].
  destruct (last l) as [t|] eqn:Et; [|by apply last_None in Et]. destruct Hout as (init&El&Hs&[nt Ht]&_).
  destruct l as [|x l']; [done|]. destruct Hp as [(nx&Hx&_) Hp].
  assert (ls = Some x) as ->. { destruct init as [|y init]; injection El as <- El; [done|by destruct Hs as [-> _]]. }
  apply wp_bind. eapply wp_set_prev; [exact Hx|]. set (h1 := <[x:=_]> h). apply NoDup_cons in Hnd as Hnd'. destruct Hnd' as [Hxl _].
  eapply wp_mono; [apply (close_seg false h1 (Some x) (Some t) (x :: l') v Hnd Hne)|].
  - split; [done|]. rewrite Et. exists init. split; [done|]. split; [|split; [|done]].
    + eapply seg_frame; [|exact Hs]. intros a _. unfold h1.
      destruct (decide (a = x)) as [->|]; [by rewrite lookup_insert_eq, Hx|by rewrite lookup_insert_ne].
    + unfold h1. destruct (decide (t = x)) as [->|]; [rewrite lookup_insert_eq|rewrite lookup_insert_ne by done]; by eexists.
  - intros [] h2 (H1&H2&H3). split; [split; [exact H1|]|].
    + apply (prevs_frame h1); [intros a _; apply H3|]. split.
      * eexists. split; [apply lookup_insert_eq|done].
      * eapply prevs_frame; [|exact Hp]. intros a Ha. unfold h1. rewrite lookup_insert_ne; [done|]. by intros ->.
    + intros a Ha. rewrite (H2 a Ha). unfold h1. rewrite lookup_insert_ne; [done|]. intros ->. apply Ha. by left.
Qed.

(** ** The whole sort *)

(** What a kind of list has to satisfy: [rep] is what holds of the list, with its
    head and its last node, behind a pass. *)
Class KindLaws (kind : list_kind) (rep : heap -> ptr -> ptr -> list positive -> Prop) := {
  close_law h ls tail l : NoDup l -> l <> [] -> out_rep (back_links kind) h ls tail l ->
    wp safe (close_ends kind ls tail) (fun _ h' => rep h' ls tail l /\ only l h h') h;
  read_law h p tail l : NoDup l -> l <> [] -> rep h p tail l -> iseg (if circular kind then p else None) h p l None;
  twice_law k : 2 * Z.of_nat k <= INT_MAX -> twice kind k = Some (k * 2)%nat
}.

Lemma twice_int_law k : 2 * Z.of_nat k <= INT_MAX -> twice_int k = Some (k * 2)%nat.
Proof.
  intros Hk. unfold twice_int. replace (CLib.in_int (Z.of_nat (k * 2))) with true; [done|]. symmetry.
  unfold CLib.in_int, INT_MIN, INT_MAX in *. apply andb_true_iff. split; apply Z.leb_le; lia.
Qed.

(** What the last pass has left of a singly linked list, a doubly linked one and a circular one. *)
Definition ll_rep (h : heap) (p tail : ptr) (l : list positive) : Prop := seg h p l None.
Definition dl_rep (h : heap) (p tail : ptr) (l : list positive) : Prop := seg h p l None /\ prevs h (last l) l.
Definition cdl_rep (h : heap) (p tail : ptr) (l : list positive) : Prop :=
  p = head l /\ seg h p l p /\ prevs h (last l) l.

#[export] Instance LL_laws : KindLaws LL_kind ll_rep.
Proof.
  split; [|intros; by apply seg_iseg_None|exact twice_int_law].
  intros h ls tail l Hnd Hne Hout. eapply wp_mono; [by apply (close_next_spec false)|]. by intros [] h' [[? _] ?].
Qed.
#[export] Instance DL_laws : KindLaws DL_kind dl_rep.
Proof.
  split; [|intros h p tail l _ _ [Hs _]; by apply seg_iseg_None|exact twice_int_law].
  intros h ls tail l Hnd Hne Hout. by apply close_both_spec.
Qed.
#[export] Instance CDL_laws : KindLaws CDL_kind cdl_rep.
Proof.
  split; [| |exact twice_int_law].
  - intros h ls tail l Hnd Hne Hout. assert (ls = head l) as E.
    { destruct Hout as [_ H]. destruct (last l) eqn:El; [|by apply last_None in El]. destruct H as (init&->&Hs&_).
      destruct init; [exact Hs|by destruct Hs as [-> _]]. }
    eapply wp_mono; [by apply (close_both_spec h ls tail l ls)|]. by intros [] h' [[H1 H2] H3].
  - intros h p tail l Hnd Hne (->&Hs&_). destruct l as [|x l]; [done|]. cbn [head] in *.
    apply NoDup_cons in Hnd as [Hx _]. by apply seg_iseg_ring.
Qed.

Section loop.
Context (cmp : positive -> positive -> Z) (kind : list_kind) {rep : heap -> ptr -> ptr -> list positive -> Prop} `{!KindLaws kind rep}.
Context (Htotal : forall a b, cmp_le cmp a b \/ cmp_le cmp b a) (Htrans : forall a b c, cmp_le cmp a b -> cmp_le cmp b c -> cmp_le cmp a c).
#[local] Set Default Proof Using "All".

Lemma sort_loop_spec fuel : forall k p l h, NoDup l -> l <> [] -> iseg (if circular kind then p else None) h p l None ->
  runs cmp k l -> (0 < k <= length l)%nat -> (2 * length l + 3 <= fuel + k)%nat -> 2 * Z.of_nat (length l) <= INT_MAX ->
  wp safe (sort_loop cmp kind fuel k p) (fun '(p', tail') h' => exists l', sorted_from cmp l l' /\ rep h' p' tail' l' /\
    tail' = last l' /\ only l h h') h.
Proof.
  induction fuel as [|fuel IH]; intros k p l h Hnd Hne Hs Hr Hk Hf Hmax; [lia|]. cbn [sort_loop].
  eapply wp_seq.
  { eapply (sort_pass_spec cmp kind _ (S fuel) k p None None 0 l []); [done|exact Hs|by split|lia|lia]. }
  intros [[ls tail] nm] h1 (l'&n&Hrun&->&Hout&Honly). cbn [app Nat.add] in *.
  pose proof (run_pass_perm _ _ _ _ _ Hrun) as Hperm.
  assert (runs cmp (2 * k) l') as Hr' by (eapply run_pass_runs; [done..|apply Hk|exact Hrun|done]).
  pose proof (Permutation_length Hperm) as Hlen.
  assert (l' <> []) as Hne' by (intros ->; by destruct l).
  assert (NoDup l') as Hnd' by by rewrite Hperm.
  assert (sorted_from cmp l l' \/ (1 < n)%nat) as Hsort.
  { destruct (Nat.le_gt_cases n 1) as [Hn|Hn]; [left|by right]. split; [done|]. split; [|intros a; by eapply run_pass_stable].
    pose proof (run_pass_count _ _ _ _ _ Hrun) as Hc. apply (runs_head cmp) in Hr'; [|done..]. rewrite take_ge in Hr' by nia. exact Hr'. }
  assert (tail = last l') as Htail by apply Hout.
  eapply wp_seq; [by apply close_law|]. intros [] h2 [Hrep Honly2].
  assert (only l h h2) as Honly3.
  { eapply only_trans; [exact Honly|exact Honly2|]. intros a [Ha|Ha]; [done|by rewrite <-Hperm]. }
  apply wp_bind, (wp_demand _ _ (k * 2)%nat); [apply twice_law; lia|].
  destruct (Nat.leb_spec n 1) as [Hn|Hn].
  - apply wp_ret. exists l'. split_and!; [|done..]. destruct Hsort; [done|lia].
  - pose proof (run_pass_many _ _ _ _ _ Hrun Hn) as Hk2.
    eapply wp_mono; [apply (IH (k * 2)%nat ls l' h2)|].
    + done.
    + done.
    + by eapply read_law.
    + by rewrite Nat.mul_comm.
    + lia.
    + lia.
    + by rewrite Hlen.
    + intros [p' tail'] h3 (l3&(H1&H2&H3)&H4&H5&H6). exists l3. split; [|split; [done|split; [done|]]].
      * split; [by rewrite H1|]. split; [done|]. intros a. rewrite H3. eapply run_pass_stable; [done..|exact Hrun|done].
      * eapply only_trans; [exact Honly3|exact H6|]. intros a [Ha|Ha]; [done|by rewrite <-Hperm].
Qed.

(** A list that can be read is sorted. *)
Lemma list_sort_spec fuel p l h : NoDup l -> iseg (if circular kind then p else None) h p l None ->
  2 * Z.of_nat (length l) <= INT_MAX -> (2 * length l + 3 <= fuel)%nat ->
  wp safe (list_sort cmp kind fuel p) (fun p' h' => exists l' tail', sorted_from cmp l l' /\
    (l' = [] /\ p' = None \/ l' <> [] /\ rep h' p' tail' l') /\ only l h h') h.
Proof.
  intros Hnd Hs Hmax Hf. unfold list_sort. destruct l as [|x l].
  - cbn in Hs. subst p. apply wp_ret. exists [], None. split; [by split|]. split; [by left|done].
  - assert (null p = false) as -> by (by destruct Hs as [-> _]). eapply wp_seq.
    { apply (sort_loop_spec fuel 1 p (x :: l)); [done|done|done|apply runs_one|cbn; lia|cbn in *; lia|done]. }
    intros [p' tail'] h' (l'&H1&H2&H3&H4). apply wp_ret. exists l', tail'. split; [done|]. split; [|done]. right. split; [|done].
    intros ->. destruct H1 as [H1 _]. by apply Permutation_nil_cons in H1.
Qed.
End loop.

(** C32: sorting a singly or doubly linked list with a comparison that is a
    total preorder always ends; the list that is left has the same nodes in
    ascending order, nodes that compare equal stay in the order they had, it is
    well formed (with its back pointers, when it is doubly linked) and no other
    node is touched.  The run length stays within [int] for lists of up to 2^30 - 1 nodes. *)
Theorem utlist_sorts cmp (dl : bool) fuel l p h :
  (forall a b, cmp_le cmp a b \/ cmp_le cmp b a) -> (forall a b c, cmp_le cmp a b -> cmp_le cmp b c -> cmp_le cmp a c) ->
  list_rep dl h p l -> 2 * Z.of_nat (length l) <= INT_MAX -> (2 * length l + 3 <= fuel)%nat ->
  wp safe (if dl then DL_SORT2 cmp fuel p else LL_SORT2 cmp fuel p) (fun p' h' => exists l',
    l' ≡ₚ l /\ StronglySorted (cmp_le cmp) l' /\
    (forall a, filter (same_class cmp a) l' = filter (same_class cmp a) l) /\
    list_rep dl h' p' l' /\ forall a, a ∉ l -> h' !! a = h !! a) h.
Proof.
  intros Htot Htr Hrep Hmax Hf.
  assert (wp safe (if dl then DL_SORT2 cmp fuel p else LL_SORT2 cmp fuel p)
    (fun p' h' => exists l', sorted_from cmp l l' /\ list_rep dl h' p' l' /\ only l h h') h) as H'.
  { destruct Hrep as (Hnd&Hs&_). assert (forall l', sorted_from cmp l l' -> NoDup l') as Hnd' by by (intros l' [E _]; by rewrite E).
    destruct dl; (eapply wp_mono; [first [apply (list_sort_spec cmp DL_kind Htot Htr fuel p l)|apply (list_sort_spec cmp LL_kind Htot Htr fuel p l)];
      [done|by apply seg_iseg_None|done|done]|]);
      intros p' h' (l'&tail'&H1&H2&H3); exists l'; (split; [done|split; [|done]]); split; try (by apply Hnd');
      (destruct H2 as [[-> ->]|[_ H2]]; [done|]); [exact H2|by split]. }
  eapply wp_mono; [exact H'|]. intros p' h' (l'&(H1&H2&H3)&H4&H5). exists l'. split_and!; [done| |done..].
  by eapply sorted_strongly.
Qed.

Lemma utlist_sorts_witness :
  let h : heap := list_to_map [(2%positive, Node (Some 1%positive) (Some 1%positive)); (1%positive, Node (Some 2%positive) None)] in
  wp safe (DL_SORT2 (fun a b => Z.pos a - Z.pos b) 7 (Some 2%positive)) (fun p' h' => exists l',
    l' ≡ₚ [2; 1]%positive /\ list_rep true h' p' l') h.
Proof.
  intros h. eapply wp_mono; [apply (utlist_sorts (fun a b => Z.pos a - Z.pos b) true 7 [2; 1]%positive)|].
  - unfold cmp_le. lia.
  - unfold cmp_le. lia.
  - split; [apply (bool_decide_unpack _); vm_compute; exact I|]. split.
    + split; [done|]. eexists. split; [reflexivity|]. split; [done|]. by eexists.
    + split; [by eexists|]. split; [by eexists|done].
  - vm_compute. discriminate.
  - vm_compute. lia.
  - intros p' h' (l'&H1&_&_&H2&_). by exists l'.
Defined.
