(* ===== verification/UtlistProps.v ===== *)
(** The operations of utlist.h do to the linked nodes what they should do to
    the list these represent. *)

From S2P Require Import Prelude CLib Outcome Utlist ListRep.

#[local] Open Scope Z_scope.

(** ** The two fields of a node *)

Definition nx (h : heap) (a : positive) : option ptr := n_next <$> h !! a.
Definition pv (h : heap) (a : positive) : option ptr := n_prev <$> h !! a.

Lemma nx_pv h a : is_Some (pv h a) <-> is_Some (nx h a).
Proof. unfold nx, pv. by rewrite !fmap_is_Some. Qed.

Lemma wp_nx (a : positive) v h (Q : ptr -> heap -> Prop) : nx h a = Some v -> Q v h -> wp safe (get_next (Some a)) Q h.
Proof. unfold nx. destruct (h !! a) as [nd|] eqn:E; [|done]. cbn. intros [= <-]. by apply wp_get_next. Qed.
Lemma wp_pv (a : positive) v h (Q : ptr -> heap -> Prop) : pv h a = Some v -> Q v h -> wp safe (get_prev (Some a)) Q h.
Proof. unfold pv. destruct (h !! a) as [nd|] eqn:E; [|done]. cbn. intros [= <-]. by apply wp_get_prev. Qed.

Lemma wp_nx_set (a : positive) v h (Q : () -> heap -> Prop) : is_Some (nx h a) ->
  (forall h', (forall b, nx h' b = if decide (b = a) then Some v else nx h b) -> (forall b, pv h' b = pv h b) -> only [a] h h' -> Q () h') ->
  wp safe (set_next (Some a) v) Q h.
Proof.
  unfold nx, pv. intros [nd E]%fmap_is_Some HQ. eapply wp_set_next; [exact E|]. apply HQ.
  - intros b. case_decide as Hb; [by rewrite Hb, lookup_insert_eq|by rewrite lookup_insert_ne].
  - intros b. destruct (decide (b = a)) as [->|]; [by rewrite lookup_insert_eq, E|by rewrite lookup_insert_ne].
  - intros b Hb. rewrite lookup_insert_ne; [done|]. intros ->. apply Hb. by left.
Qed.
Lemma wp_pv_set (a : positive) v h (Q : () -> heap -> Prop) : is_Some (nx h a) ->
  (forall h', (forall b, pv h' b = if decide (b = a) then Some v else pv h b) -> (forall b, nx h' b = nx h b) -> only [a] h h' -> Q () h') ->
  wp safe (set_prev (Some a) v) Q h.
Proof.
  unfold nx, pv. intros [nd E]%fmap_is_Some HQ. eapply wp_set_prev; [exact E|]. apply HQ.
  - intros b. case_decide as Hb; [by rewrite Hb, lookup_insert_eq|by rewrite lookup_insert_ne].
  - intros b. destruct (decide (b = a)) as [->|]; [by rewrite lookup_insert_eq, E|by rewrite lookup_insert_ne].
  - intros b Hb. rewrite lookup_insert_ne; [done|]. intros ->. apply Hb. by left.
Qed.

(** ** Parts of a list *)

(** The pointer to the first node of [xs], or else [r]. *)
Definition first_or (xs : list positive) (r : ptr) : ptr := match xs with [] => r | x :: _ => Some x end.
Definition last_or (xs : list positive) (r : ptr) : ptr := match last xs with Some t => Some t | None => r end.

Lemma seg_first h p xs r : seg h p xs r -> p = first_or xs r.
Proof. destruct xs; [done|]. by intros [-> _]. Qed.

Lemma seg_cons h p x xs r : seg h p (x :: xs) r <-> p = Some x /\ nx h x = Some (first_or xs r) /\ seg h (first_or xs r) xs r.
Proof.
  unfold nx. cbn [seg]. split.
  - intros [-> (nd&->&Hs)]. cbn. pose proof (seg_first _ _ _ _ Hs) as E. rewrite E in Hs |- *. done.
  - intros (->&Hx&Hs). split; [done|]. destruct (h !! x) as [nd|]; [|done]. injection Hx as E. exists nd. by rewrite E.
Qed.
Lemma prevs_cons h pr x xs : prevs h pr (x :: xs) <-> pv h x = Some pr /\ prevs h (Some x) xs.
Proof.
  unfold pv. cbn [prevs]. split; intros [H Hs]; (split; [|done]).
  - by destruct H as (nd&->&<-).
  - destruct (h !! x) as [nd|]; [|done]. injection H as E. by exists nd.
Qed.

Lemma prevs_app h xs ys : forall pr, prevs h pr (xs ++ ys) <->
  prevs h pr xs /\ prevs h (last_or xs pr) ys.
Proof.
  unfold last_or. induction xs as [|x xs IH]; intros pr; cbn [app prevs]; [cbn; tauto|]. rewrite IH, last_cons. destruct (last xs); tauto.
Qed.

Lemma seg_at h p xs y ys r : seg h p (xs ++ y :: ys) r -> nx h y = Some (first_or ys r).
Proof. intros H. apply seg_app in H as (m&_&H). by apply seg_cons in H as (_&H&_). Qed.
Lemma prevs_at h pr xs y ys : prevs h pr (xs ++ y :: ys) -> pv h y = Some (last_or xs pr).
Proof. intros H. apply prevs_app in H as [_ H]. by apply prevs_cons in H as [H _]. Qed.
Lemma seg_alloc h p xs r x : seg h p xs r -> x ∈ xs -> is_Some (nx h x).
Proof. intros Hs Hx. unfold nx. rewrite fmap_is_Some. by eapply seg_in. Qed.

Lemma null_Some (a : positive) : null (Some a) = false. Proof. done. Qed.
Ltac nulls := repeat first [rewrite null_Some | change (null None) with true]; cbv beta iota delta [negb andb orb].

(** Two pointers of distinct nodes. *)
Lemma ptr_neq (a b : positive) : a <> b -> bool_decide (Some a = Some b) = false.
Proof. intros H. apply bool_decide_eq_false. congruence. Qed.
Lemma ptr_eq (a : ptr) : bool_decide (a = a) = true.
Proof. by apply bool_decide_eq_true. Qed.

(** ** Walking to the node before another *)

Lemma find_before_spec fuel : forall xs x t h p, (length xs < fuel)%nat -> seg h p (xs ++ [t]) (Some x) ->
  x ∉ xs ++ [t] ->
  wp safe (find_before fuel p (Some x)) (fun q h' => q = Some t /\ h' = h) h.
Proof.
  induction fuel as [|fuel IH]; intros xs x t h p Hf Hs Hx; [lia|]. cbn [find_before]. apply wp_bind.
  destruct xs as [|y xs].
  - destruct Hs as [-> (nd&Ht&Hs)]. eapply wp_get_next; [exact Ht|]. cbn in Hs. rewrite Hs, ptr_eq, andb_false_r. by apply wp_ret.
  - destruct Hs as [-> (nd&Hy&Hs)]. eapply wp_get_next; [exact Hy|]. change (y :: xs) with ([y] ++ xs) in Hx.
    assert (exists z, n_next nd = Some z /\ z ∈ xs ++ [t]) as (z&Ez&Hz).
    { destruct xs as [|z xs]; destruct Hs as [-> _]; (eexists; split; [done|by left]). }
    rewrite Ez, null_Some, ptr_neq.
    + cbv beta iota delta [negb andb]. rewrite <-Ez. apply (IH xs); [cbn in Hf; lia|exact Hs|]. intros H. apply Hx. by right.
    + intros ->. apply Hx. by right.
Qed.

Lemma find_last_spec fuel : forall xs t h p, (length xs < fuel)%nat -> seg h p (xs ++ [t]) None ->
  wp safe (find_last fuel p) (fun q h' => q = Some t /\ h' = h) h.
Proof.
  unfold find_last. induction fuel as [|fuel IH]; intros xs t h p Hf Hs; [lia|]. cbn [find_before]. apply wp_bind.
  destruct xs as [|y xs].
  - destruct Hs as [-> (nd&Ht&Hs)]. eapply wp_get_next; [exact Ht|]. cbn in Hs. rewrite Hs. by apply wp_ret.
  - destruct Hs as [-> (nd&Hy&Hs)]. eapply wp_get_next; [exact Hy|].
    assert (exists z, n_next nd = Some z) as (z&Ez) by (destruct xs; destruct Hs as [-> _]; by eexists).
    rewrite Ez, null_Some, (bool_decide_eq_false_2 (Some z = None)) by done. cbv beta iota delta [negb andb]. rewrite <-Ez. apply (IH xs); [cbn in Hf; lia|exact Hs].
Qed.

(** ** The operations *)

Inductive list_op :=
| Prepend (a : positive)
| Append (a : positive)
| Delete (a : positive)
| Concat (p2 : ptr) (l2 : list positive)
| Prepend_elem (el a : positive)
| Replace_elem (el a : positive).

Section run.
Context (dl : bool) (fuel : nat).

Definition run_op (op : list_op) (p : ptr) : M heap ptr :=
  match op with
  | Prepend a => if dl then DL_PREPEND2 p (Some a) else LL_PREPEND2 p (Some a)
  | Append a => if dl then DL_APPEND2 p (Some a) else LL_APPEND2 fuel p (Some a)
  | Delete a => if dl then DL_DELETE2 p (Some a) else LL_DELETE2 fuel p (Some a)
  | Concat p2 _ => if dl then DL_CONCAT2 p p2 else LL_CONCAT2 fuel p p2
  | Prepend_elem el a => if dl then DL_PREPEND_ELEM p (Some el) (Some a) else LL_PREPEND_ELEM fuel p (Some el) (Some a)
  | Replace_elem el a => if dl then DL_REPLACE_ELEM p (Some el) (Some a) else LL_REPLACE_ELEM fuel p (Some el) (Some a)
  end.

(** What each of them is to do to the list. *)
Definition abs_op (op : list_op) (l : list positive) : list positive :=
  match op with
  | Prepend a => a :: l
  | Append a => l ++ [a]
  | Delete a => filter (fun b => b <> a) l
  | Concat _ l2 => l ++ l2
  | Prepend_elem el a => l ≫= (fun b => if decide (b = el) then [a; b] else [b])
  | Replace_elem el a => (fun b => if decide (b = el) then a else b) <$> l
  end.

Definition new_node (h : heap) (l : list positive) (a : positive) : Prop := (a ∉ l) /\ is_Some (h !! a).

Definition can_op (h : heap) (l : list positive) (op : list_op) : Prop :=
  match op with
  | Prepend a | Append a => new_node h l a
  | Delete a => a ∈ l
  | Concat p2 l2 => list_rep dl h p2 l2 /\ forall a, a ∈ l -> a ∉ l2
  | Prepend_elem el a | Replace_elem el a => el ∈ l /\ new_node h l a
  end.

(** The nodes of the list and of the operation. *)
Definition op_nodes (op : list_op) : list positive :=
  match op with
  | Prepend a | Append a | Prepend_elem _ a | Replace_elem _ a => [a]
  | Delete _ => []
  | Concat _ l2 => l2
  end.
End run.

(** Fields after the stores so far. *)
Ltac fields := repeat match goal with H : forall b, nx ?h b = _ |- context [nx ?h _] => rewrite H
  | H : forall b, pv ?h b = _ |- context [pv ?h _] => rewrite H end;
  repeat (first [rewrite decide_True by congruence|rewrite decide_False by congruence]).
Ltac field := fields; repeat case_decide; first [eassumption | done | by eexists].

(** One load or store. *)
Ltac node_step := lazymatch goal with
  | |- wp _ (_ ≫= _) _ _ => apply wp_bind; node_step
  | |- wp _ (get_next (Some _)) _ _ => eapply wp_nx; [field|]
  | |- wp _ (get_prev (Some _)) _ _ => eapply wp_pv; [field|]
  | |- wp _ (set_next (Some _) _) _ _ => eapply wp_nx_set; [field|intros]
  | |- wp _ (set_prev (Some _) _) _ _ => eapply wp_pv_set; [field|intros]
  | |- wp _ (mret _) _ _ => apply wp_ret
  end.

(** Nodes not in a list. *)
Lemma only_in l l' h h' : only l h h' -> (forall a, a ∈ l -> a ∈ l') -> only l' h h'.
Proof. intros H Hs a Ha. apply H. intros Hx. by apply Ha, Hs. Qed.

Lemma seg_nx h h' p xs r : (forall x, x ∈ xs -> nx h' x = nx h x) -> seg h p xs r -> seg h' p xs r.
Proof. apply seg_frame. Qed.
Lemma prevs_pv h h' pr xs : (forall x, x ∈ xs -> pv h' x = pv h x) -> prevs h pr xs -> prevs h' pr xs.
Proof. apply prevs_frame. Qed.

(** A node apart from those of a list. *)
Ltac apart := let z := fresh "z" in let Hz := fresh "Hz" in
  intros z Hz; repeat match goal with
  | |- context [decide (z = ?a)] => rewrite (decide_False (P := z = a)) by (intros ->; rewrite ?elem_of_app, ?elem_of_cons in *; tauto)
  | H : forall b, nx ?h b = _ |- context [nx ?h z] => rewrite H
  | H : forall b, pv ?h b = _ |- context [pv ?h z] => rewrite H end; try done.
Ltac only_tac := let b := fresh "b" in let Hb := fresh "Hb" in
  intros b Hb; rewrite ?elem_of_app, ?elem_of_cons in Hb;
  repeat match goal with H : only ?l _ ?h' |- ?h' !! b = _ => rewrite (H b) by (intros ->%list_elem_of_singleton; rewrite ?elem_of_app, ?elem_of_cons in *; tauto) end; done.

Lemma prepend_refines dl a p l h : list_rep dl h p l -> new_node h l a ->
  wp safe (if dl then DL_PREPEND2 p (Some a) else LL_PREPEND2 p (Some a)) (fun p' h' => list_rep dl h' p' (a :: l) /\
    only (l ++ [a]) h h') h.
Proof.
  intros (Hnd&Hs&Hp) [Ha [na Hna]]. pose proof (seg_first _ _ _ _ Hs) as Ep.
  assert (is_Some (nx h a)) as Ha' by (unfold nx; rewrite Hna; by eexists).
  assert (NoDup (a :: l)) as Hnd' by (by apply NoDup_cons).
  destruct dl.
  - unfold DL_PREPEND2. node_step. destruct l as [|x l]; cbn [first_or] in Ep; subst p.
    + nulls. do 2 node_step.
      split; [|only_tac]. split; [done|]. split.
      * apply seg_cons. split; [done|]. by split; [field|].
      * apply prevs_cons. by split; [field|].
    + apply prevs_cons in Hp as [Hx Hp]. assert (x <> a) by (intros ->; apply Ha; by left).
      assert (is_Some (nx h x)) by (eapply seg_alloc; [exact Hs|by left]).
      nulls. do 4 node_step.
      apply NoDup_cons in Hnd as [Hx' Hnd].
      split; [|only_tac]. split; [done|]. split.
      * apply seg_cons. split; [done|]. split; [field|]. eapply seg_nx; [|exact Hs]. apart.
      * apply prevs_cons. split; [field|]. apply prevs_cons. split; [field|]. eapply prevs_pv; [|exact Hp]. apart.
  - unfold LL_PREPEND2. do 2 node_step. split; [|only_tac]. split; [done|]. split; [|done].
    apply seg_cons. split; [done|]. split; [fields; by rewrite Ep|]. rewrite <-Ep. eapply seg_nx; [|exact Hs]. apart.
Qed.

Lemma last_or_cons x l : last_or l (Some x) = last (x :: l).
Proof. unfold last_or. rewrite last_cons. by destruct (last l). Qed.

Lemma NoDup_snoc (l : list positive) a : NoDup l -> a ∉ l -> NoDup (l ++ [a]).
Proof. intros Hl Ha. apply NoDup_app. split; [done|]. split; [|apply NoDup_singleton]. by intros x Hx ->%list_elem_of_singleton. Qed.

Lemma seg_snoc h p l t r : seg h p (l ++ [t]) r <-> seg h p l (Some t) /\ nx h t = Some r.
Proof.
  rewrite seg_app. split.
  - intros (m&H1&H2). apply seg_cons in H2 as (->&H2&_). done.
  - intros [H1 H2]. exists (Some t). split; [done|]. by apply seg_cons.
Qed.

Lemma append_refines dl fuel a p l h : (length l <= fuel)%nat -> list_rep dl h p l -> new_node h l a ->
  wp safe (if dl then DL_APPEND2 p (Some a) else LL_APPEND2 fuel p (Some a)) (fun p' h' => list_rep dl h' p' (l ++ [a]) /\
    only (l ++ [a]) h h') h.
Proof.
  intros Hf (Hnd&Hs&Hp) [Ha [na Hna]]. pose proof (seg_first _ _ _ _ Hs) as Ep.
  assert (is_Some (nx h a)) as Ha' by (unfold nx; rewrite Hna; by eexists).
  pose proof (NoDup_snoc l a Hnd Ha) as Hnd'.
  destruct l as [|x l0]; cbn [first_or] in Ep; subst p.
  { assert (forall h', nx h' a = Some None -> (dl = true -> pv h' a = Some (Some a)) -> list_rep dl h' (Some a) [a]) as Hone.
    { intros h' H1 H2. split; [done|]. split; [by apply seg_cons|]. destruct dl; [|done]. apply prevs_cons. by rewrite H2. }
    destruct dl; [unfold DL_APPEND2|unfold LL_APPEND2]; nulls.
    - do 3 node_step. split; [|only_tac]. apply Hone; [field|intros _; field].
    - do 1 node_step. nulls. node_step. split; [|only_tac]. apply Hone; [field|done]. }
  assert (exists init t, x :: l0 = init ++ [t]) as (init&t&El).
  { destruct (exists_last (l := x :: l0)) as (init&t&E); [done|]. by exists init, t. }
  assert (x <> a) by (intros ->; apply Ha; by left).
  assert (t ∈ x :: l0) as Ht by (rewrite El; apply elem_of_app; right; by left).
  assert (t <> a) by (intros ->; done).
  assert (is_Some (nx h x)) by (eapply seg_alloc; [exact Hs|by left]).
  assert (is_Some (nx h t)) by (by eapply seg_alloc).
  assert ((t ∉ init) /\ a ∉ init) as [Hti Hai].
  { clear Hs Hp. rewrite El in Hnd, Ha. apply NoDup_app in Hnd as (_&Hd&_). split.
    - intros Hx'. apply (Hd t Hx'). by left.
    - intros Hx'. apply Ha, elem_of_app. by left. }
  assert (seg h (Some x) init (Some t)) as Hs1 by (rewrite El in Hs; by apply seg_snoc in Hs as [Hs _]).
  assert (forall h', (forall z, nx h' z = if decide (z = a) then Some None else if decide (z = t) then Some (Some a) else nx h z) ->
    seg h' (Some x) ((x :: l0) ++ [a]) None) as Hseg.
  { intros h' Hn. rewrite El. apply seg_snoc. split; [|field]. apply seg_snoc. split; [|field].
    eapply seg_nx; [|exact Hs1]. apart. }
  destruct dl; [unfold DL_APPEND2|unfold LL_APPEND2]; nulls.
  - apply prevs_cons in Hp as [Hx Hp]. rewrite El, last_snoc in Hx.
    apply NoDup_cons in Hnd as [Hx' Hnd].
    do 7 node_step. split; [|only_tac]. split; [done|]. split.
    + apply Hseg. intros z. fields. by repeat case_decide.
    + rewrite last_snoc. cbn [app]. apply prevs_cons. split; [field|]. apply prevs_app. split.
      * eapply prevs_pv; [|exact Hp]. apart.
      * apply prevs_cons. rewrite last_or_cons, El, last_snoc. split; [field|done].
  - do 1 node_step. nulls. eapply wp_seq.
    { apply (find_last_spec fuel init t); [apply (f_equal length) in El; rewrite length_app in El; cbn in *; lia|].
      apply seg_snoc. rewrite El in Hs. apply seg_snoc in Hs as [_ Hs]. split; [|field]. eapply seg_nx; [|exact Hs1]. apart. }
    intros q h2 [-> ->]. do 2 node_step. split; [|only_tac]. split; [done|]. split; [|done].
    apply Hseg. intros z. fields. by repeat case_decide; try congruence.
Qed.

(** The node [a] of a list, with those before and behind it. *)
Lemma nodup_parts (l1 : list positive) a l2 : NoDup (l1 ++ a :: l2) ->
  NoDup l1 /\ NoDup l2 /\ (a ∉ l1) /\ (a ∉ l2) /\ forall x, x ∈ l1 -> x ∉ l2.
Proof.
  intros (H1&H2&[H3 H4]%NoDup_cons)%NoDup_app. split; [done|]. split; [done|]. split; [|split; [done|]].
  - intros Hx. apply (H2 a Hx). by left.
  - intros x Hx Hx2. apply (H2 x Hx). by right.
Qed.

Lemma filter_delete (l1 : list positive) a l2 : NoDup (l1 ++ a :: l2) ->
  filter (fun b => b <> a) (l1 ++ a :: l2) = l1 ++ l2.
Proof.
  intros (_&_&H1&H2&_)%nodup_parts. rewrite filter_app, filter_cons_False by tauto.
  f_equal; apply filter_all, Forall_forall; by intros x Hx ->.
Qed.

Lemma snoc_head (init : list positive) t : exists x rest, init ++ [t] = x :: rest.
Proof. destruct init as [|x init]; [by exists t, []|by exists x, (init ++ [t])]. Qed.

(** What precedes [a] and what follows it, for a node [a] that is not the first. *)
Record around (dl : bool) (h : heap) (p : ptr) (x : positive) (rest init : list positive) (t : positive) (ys : list positive) : Prop := {
  ar_eq : init ++ [t] = x :: rest;
  ar_head : p = Some x;
  ar_nodup : NoDup init /\ NoDup ys /\ NoDup (x :: rest) /\ (t ∉ init);
  ar_apart : forall z, z ∈ init ++ [t] -> z ∉ ys;
  ar_seg : seg h p init (Some t);
  ar_next : nx h t = Some (first_or ys None);
  ar_rest : seg h (first_or ys None) ys None;
  ar_prev : dl = true -> pv h x = Some (last (init ++ [t] ++ ys)) /\ prevs h (Some x) rest /\ prevs h (Some t) ys }.

Lemma around_rep dl h p init t ys :
  list_rep dl h p ((init ++ [t]) ++ ys) <-> exists x rest, around dl h p x rest init t ys.
Proof.
  unfold list_rep. rewrite seg_app. split.
  - intros (Hnd&(m&Hs&Hs2)&Hp). destruct (snoc_head init t) as (x&rest&E). exists x, rest.
    apply NoDup_app in Hnd as (Hnd1&Hd&Hnd2). pose proof (seg_first _ _ _ _ Hs) as Ep. rewrite E in Ep.
    pose proof Hs as Hs'. apply seg_snoc in Hs as [Hs Ht]. pose proof (seg_first _ _ _ _ Hs2) as Em. rewrite Em in Ht, Hs2.
    constructor; [done..| |done|done|done|done|].
    + apply NoDup_app in Hnd1 as H. destruct H as (H1&H2&_). split; [done|]. split; [done|]. split; [by rewrite <-E|].
      intros Hx. apply (H2 t Hx). by left.
    + intros ->. apply prevs_app in Hp as [Hp1 Hp2]. unfold last_or in Hp2. rewrite last_snoc in Hp2. rewrite E in Hp1.
      apply prevs_cons in Hp1 as [H1 H2]. by rewrite app_assoc, E.
  - intros (x&rest&[E Ep (H1&H2&H3&H4) Hd Hs Ht Hs2 Hp]). split; [|split].
    + apply NoDup_app. rewrite E at 1. done.
    + exists (first_or ys None). split; [|done]. by apply seg_snoc.
    + destruct dl; [|done]. destruct (Hp eq_refl) as (Hp1&Hp2&Hp3). apply prevs_app. split.
      * rewrite E at 2. apply prevs_cons. by rewrite <-app_assoc.
      * unfold last_or. by rewrite last_snoc.
Qed.

(** Of a node in [l]. *)
Ltac in_parts := rewrite ?elem_of_app, ?elem_of_cons in *; tauto.

Lemma first_rep dl h p a l2 : list_rep dl h p (a :: l2) <-> NoDup (a :: l2) /\ p = Some a /\ nx h a = Some (first_or l2 None) /\
  seg h (first_or l2 None) l2 None /\ (dl = true -> pv h a = Some (last (a :: l2)) /\ prevs h (Some a) l2).
Proof.
  unfold list_rep. rewrite seg_cons. destruct dl; rewrite ?prevs_cons.
  - assert (true = true) by done. tauto.
  - assert (false <> true) by done. tauto.
Qed.

Lemma delete_head_refines dl fuel a p l2 h : list_rep dl h p (a :: l2) ->
  wp safe (if dl then DL_DELETE2 p (Some a) else LL_DELETE2 fuel p (Some a)) (fun p' h' => list_rep dl h' p' l2 /\
    only (a :: l2) h h') h.
Proof.
  intros (Hnd&->&Ha&Hs&Hp)%first_rep. apply NoDup_cons in Hnd as [Ha2 Hnd].
  destruct dl; [unfold DL_DELETE2|unfold LL_DELETE2; rewrite ptr_eq; node_step; done].
  destruct (Hp eq_refl) as [Hpa Hp2]. node_step. rewrite last_cons.
  destruct l2 as [|y l2].
  - cbn [last]. unfold assert_that. nulls. node_step. rewrite ptr_eq. by apply wp_ret.
  - destruct (last (y :: l2)) as [t|] eqn:Et; [|by apply last_None in Et]. pose proof (last_Some_elem_of _ _ Et) as Ht.
    assert (t <> a) by (intros ->; done). assert (y <> a) by (intros ->; apply Ha2; by left).
    assert (is_Some (nx h y)) by (eapply seg_alloc; [exact Hs|by left]).
    unfold assert_that. nulls. node_step. rewrite ptr_neq, ptr_eq by done. cbn [first_or] in *. do 3 node_step.
    apply prevs_cons in Hp2 as [Hpy Hp2]. apply NoDup_cons in Hnd as [Hy Hnd].
    split; [|only_tac]. apply first_rep. split; [by apply NoDup_cons|]. split; [done|]. apply seg_cons in Hs as (_&Hy2&Hs).
    split; [field|]. split; [eapply seg_nx; [|exact Hs]; apart|]. intros _. rewrite Et. split; [field|].
    eapply prevs_pv; [|exact Hp2]. apart.
Qed.

Lemma delete_refines dl fuel a p init t l2 h : (length init < fuel)%nat -> list_rep dl h p ((init ++ [t]) ++ a :: l2) ->
  wp safe (if dl then DL_DELETE2 p (Some a) else LL_DELETE2 fuel p (Some a))
    (fun p' h' => list_rep dl h' p' ((init ++ [t]) ++ l2) /\ only ((init ++ [t]) ++ a :: l2) h h') h.
Proof.
  intros Hf H. apply around_rep in H as (x&rest&[E -> (Hn1&Hn2&Hn3&Hti) Hd Hs Ht Hs2 Hp]).
  apply seg_cons in Hs2 as (_&Ha&Hs2). apply NoDup_cons in Hn2 as [Ha2 Hn2].
  assert (a ∉ init ++ [t]) as Hai by (intros Hx; eapply Hd; [exact Hx|by left]).
  assert (x ∈ init ++ [t]) as Hxi by (rewrite E; by left).
  assert (t <> a) by (intros ->; in_parts). assert (x <> a) by (by intros ->).
  assert (forall z, z ∈ init ++ [t] -> z ∉ l2) as Hd2 by (intros z Hz Hz2; eapply Hd; [exact Hz|by right]).
  assert (t ∉ l2) as Ht2 by (apply Hd2; in_parts).
  assert (is_Some (nx h x)) as Hx.
  { eapply (seg_alloc h (Some x) (init ++ [t])); [apply seg_snoc; split; [exact Hs|exact Ht]|done]. }
  destruct dl; [unfold DL_DELETE2|unfold LL_DELETE2].
  - destruct (Hp eq_refl) as (Hpx&Hpr&Hp2). apply prevs_cons in Hp2 as [Hpa Hp2]. node_step.
    unfold assert_that. nulls. node_step. rewrite !ptr_neq by done. do 4 node_step.
    destruct l2 as [|y l2]; cbn [first_or]; nulls.
    + do 2 node_step. split; [|only_tac].
      apply around_rep. exists x, rest. split; try done.
      * eapply seg_nx; [|exact Hs]. apart.
      * field.
      * intros _. rewrite app_nil_r, last_snoc. split; [field|]. split; [|done].
        eapply prevs_pv; [|exact Hpr]. apply NoDup_cons in Hn3 as [? ?]. apart.
    + assert (is_Some (nx h y)) by (eapply seg_alloc; [exact Hs2|by left]).
      assert (y ∉ init ++ [t]) as Hyi by (intros Hz; apply (Hd2 y Hz); by left).
      assert (y <> x) by (by intros ->). assert (y <> t) by (intros ->; in_parts).
      do 2 node_step. split; [|only_tac].
      apply prevs_cons in Hp2 as [Hpy Hp2]. rewrite E in Hyi. apply NoDup_cons in Hn2 as Hn2'. destruct Hn2' as [Hy2 _].
      apply around_rep. exists x, rest. split; [done..| | | | | | ].
      * done.
      * done.
      * eapply seg_nx; [|exact Hs]. apart.
      * field.
      * eapply seg_nx; [|exact Hs2]. apart.
      * intros _. split; [fields; rewrite Hpx; by rewrite !(app_assoc init [t]), !last_app_cons|]. split.
        -- eapply prevs_pv; [|exact Hpr]. apart.
        -- apply prevs_cons. split; [field|]. eapply prevs_pv; [|exact Hp2]. apart.
  - rewrite ptr_neq by done. eapply wp_seq; [apply (find_before_spec fuel init a t); [done| |done]|].
    { apply seg_snoc. split; [exact Hs|done]. }
    intros q h' [-> ->]. cbn [first_or] in Ht. node_step. nulls. do 3 node_step. split; [|only_tac].
    apply around_rep. exists x, rest. split; try done.
    + eapply seg_nx; [|exact Hs]. apart.
    + field.
    + eapply seg_nx; [|exact Hs2]. apart.
Qed.

(** Whichever node is deleted. *)
Lemma delete_any_refines dl fuel a p l1 l2 h : (length l1 <= fuel)%nat -> list_rep dl h p (l1 ++ a :: l2) ->
  wp safe (if dl then DL_DELETE2 p (Some a) else LL_DELETE2 fuel p (Some a))
    (fun p' h' => list_rep dl h' p' (l1 ++ l2) /\ only (l1 ++ a :: l2) h h') h.
Proof.
  intros Hf. destruct l1 as [|t init _] using rev_ind; [by apply delete_head_refines|]. apply delete_refines.
  rewrite length_app in Hf. cbn in Hf. lia.
Qed.

(** ** Before and in the place of a node *)

Lemma prepend_head_refines dl fuel a el p l2 h : list_rep dl h p (el :: l2) -> new_node h (el :: l2) a ->
  wp safe (if dl then DL_PREPEND_ELEM p (Some el) (Some a) else LL_PREPEND_ELEM fuel p (Some el) (Some a))
    (fun p' h' => list_rep dl h' p' (a :: el :: l2) /\ only ((el :: l2) ++ [a]) h h') h.
Proof.
  intros (Hnd&->&He&Hs&Hp)%first_rep [Ha [na Hna]].
  assert (is_Some (nx h a)) as Ha' by (unfold nx; rewrite Hna; by eexists).
  assert (el <> a) by (intros ->; in_parts). assert (is_Some (nx h el)) by (by eexists).
  destruct dl; [unfold DL_PREPEND_ELEM|unfold LL_PREPEND_ELEM]; unfold assert_that; nulls; node_step.
  - destruct (Hp eq_refl) as [Hpe Hp2]. do 4 node_step. rewrite ptr_eq. node_step. split; [|only_tac].
    apply first_rep. split; [by apply NoDup_cons|]. apply NoDup_cons in Hnd as [Hel Hnd].
    split; [done|]. split; [field|]. split.
    + apply seg_cons. split; [done|]. split; [field|]. eapply seg_nx; [|exact Hs]. apart.
    + intros _. split; [field|]. apply prevs_cons. split; [field|]. eapply prevs_pv; [|exact Hp2]. apart.
  - node_step. unfold point_before. rewrite ptr_eq. node_step. split; [|only_tac].
    apply first_rep. split; [by apply NoDup_cons|]. split; [done|]. split; [field|]. split; [|discriminate].
    apply seg_cons. split; [done|]. split; [field|]. eapply seg_nx; [|exact Hs]. apart.
Qed.

Lemma replace_head_refines dl fuel a el p l2 h : list_rep dl h p (el :: l2) -> new_node h (el :: l2) a ->
  wp safe (if dl then DL_REPLACE_ELEM p (Some el) (Some a) else LL_REPLACE_ELEM fuel p (Some el) (Some a))
    (fun p' h' => list_rep dl h' p' (a :: l2) /\ only ((el :: l2) ++ [a]) h h') h.
Proof.
  intros (Hnd&->&He&Hs&Hp)%first_rep [Ha [na Hna]].
  assert (is_Some (nx h a)) as Ha' by (unfold nx; rewrite Hna; by eexists).
  assert (el <> a) by (intros ->; in_parts). assert (is_Some (nx h el)) by (by eexists).
  apply NoDup_cons in Hnd as [Hel Hnd].
  assert (NoDup (a :: l2)) as Hnd' by (apply NoDup_cons; split; [in_parts|done]).
  destruct dl; [unfold DL_REPLACE_ELEM|unfold LL_REPLACE_ELEM]; unfold assert_that; nulls; node_step.
  - destruct (Hp eq_refl) as [Hpe Hp2]. rewrite ptr_eq. do 3 node_step.
    destruct l2 as [|y l2]; cbn [first_or] in *; nulls.
    + do 2 node_step. split; [|only_tac]. apply first_rep. split; [done|]. split; [done|]. split; [field|].
      split; [done|]. intros _. split; [field|done].
    + assert (is_Some (nx h y)) by (eapply seg_alloc; [exact Hs|by left]).
      assert (y <> a) by (intros ->; in_parts). assert (y <> el) by (intros ->; in_parts).
      do 5 node_step. split; [|only_tac]. apply first_rep. split; [done|]. split; [done|]. split; [field|].
      split; [eapply seg_nx; [|exact Hs]; apart|]. intros _. split; [fields; by rewrite !last_cons_cons|].
      apply prevs_cons in Hp2 as [_ Hp2]. apply prevs_cons. split; [field|]. apply NoDup_cons in Hnd as [Hy Hnd].
      eapply prevs_pv; [|exact Hp2]. apart.
  - do 2 node_step. unfold point_before. rewrite ptr_eq. node_step. split; [|only_tac].
    apply first_rep. split; [done|]. split; [done|]. split; [field|]. split; [|discriminate].
    eapply seg_nx; [|exact Hs]. apart.
Qed.

(** The new node [a] and the node [el] that [t] precedes. *)
Record middle (dl : bool) (h : heap) (x : positive) (rest init : list positive) (t el : positive) (l2 : list positive) (a : positive) : Prop := {
  mi_around : around dl h (Some x) x rest init t (el :: l2);
  mi_head : (x ∈ init ++ [t]) /\ x <> a /\ x <> el;
  mi_last : t <> a /\ t <> el /\ t ∉ l2;
  mi_elem : el <> a /\ (el ∉ init ++ [t]) /\ el ∉ l2;
  mi_new : (a ∉ init ++ [t]) /\ a ∉ l2;
  mi_alloc : is_Some (nx h x) /\ is_Some (nx h a) /\ is_Some (nx h el) }.

Lemma middle_of dl h p init t el l2 a : list_rep dl h p ((init ++ [t]) ++ el :: l2) ->
  new_node h ((init ++ [t]) ++ el :: l2) a -> exists x rest, p = Some x /\ middle dl h x rest init t el l2 a.
Proof.
  intros H [Ha [na Hna]]. apply around_rep in H as (x&rest&H). pose proof H as [E -> (Hn1&Hn2&Hn3&Hti) Hd Hs Ht Hs2 Hp].
  exists x, rest. split; [done|].
  assert (x ∈ init ++ [t]) as Hx by (rewrite E; by left).
  assert (el ∉ init ++ [t]) as Hel by (intros Hz; apply (Hd el Hz); by left).
  assert (t ∉ el :: l2) as [Htel Htl2]%not_elem_of_cons by (apply Hd; in_parts).
  constructor; [done| | | | |].
  - split; [done|]. split; [intros ->; apply Ha, elem_of_app; by left|by intros ->].
  - split; [intros ->; in_parts|done].
  - apply NoDup_cons in Hn2 as [Hel2 _]. split; [intros ->; in_parts|done].
  - split; in_parts.
  - split; [|split].
    + eapply (seg_alloc h (Some x) (init ++ [t])); [by apply seg_snoc|done].
    + unfold nx. rewrite Hna. by eexists.
    + apply seg_cons in Hs2 as (_&Hs2&_). by eexists.
Qed.

Lemma around_new dl h h' x rest init t el l2 a : middle dl h x rest init t el l2 a ->
  (forall z, nx h' z = if decide (z = t) then Some (Some a) else if decide (z = a) then Some (Some el) else nx h z) ->
  (dl = true -> forall z, pv h' z = if decide (z = el) then Some (Some a) else if decide (z = a) then Some (Some t) else pv h z) ->
  list_rep dl h' (Some x) ((init ++ [t]) ++ a :: el :: l2).
Proof.
  intros [[E _ (Hn1&Hn2&Hn3&Hti) Hd Hs Ht Hs2 Hp] (Hx1&Hx2&Hx3) (Ht1&Ht2&Ht3) (He1&He2&He3) (Ha1&Ha2) _] Hn Hv.
  apply seg_cons in Hs2 as (_&He&Hs2). cbn [first_or] in *.
  apply around_rep. exists x, rest. split; [done..| | | | | |].
  - split; [done|]. split; [|done]. apply NoDup_cons. split; [by apply not_elem_of_cons|done].
  - intros z Hz [->|Hz2]%elem_of_cons; [done|by eapply Hd].
  - eapply seg_nx; [|exact Hs]. apart.
  - field.
  - cbn [first_or]. apply seg_cons. split; [done|]. split; [field|]. apply seg_cons. split; [done|]. split; [field|].
    eapply seg_nx; [|exact Hs2]. apart.
  - intros ->. destruct (Hp eq_refl) as (Hpx&Hpr&(Hpe&Hp2)%prevs_cons). specialize (Hv eq_refl). split; [|split].
    + fields. rewrite Hpx. by rewrite !(app_assoc init [t]), !last_app_cons.
    + rewrite E in He2, Ha1. eapply prevs_pv; [|exact Hpr]. apart.
    + apply prevs_cons. split; [field|]. apply prevs_cons. split; [field|]. eapply prevs_pv; [|exact Hp2]. apart.
Qed.

Lemma prepend_mid_refines dl fuel a el p init t l2 h : (length init < fuel)%nat ->
  list_rep dl h p ((init ++ [t]) ++ el :: l2) -> new_node h ((init ++ [t]) ++ el :: l2) a ->
  wp safe (if dl then DL_PREPEND_ELEM p (Some el) (Some a) else LL_PREPEND_ELEM fuel p (Some el) (Some a))
    (fun p' h' => list_rep dl h' p' ((init ++ [t]) ++ a :: el :: l2) /\ only (((init ++ [t]) ++ el :: l2) ++ [a]) h h') h.
Proof.
  intros Hf H Hnew. destruct (middle_of _ _ _ _ _ _ _ _ H Hnew) as (x&rest&->&Hm). clear H Hnew.
  pose proof Hm as [[E _ _ Hd Hs Ht Hs2 Hp] (Hx1&Hx2&Hx3) (Ht1&Ht2&Ht3) (He1&He2&He3) (Ha1&Ha2) (Hxa&Haa&Hea)].
  cbn [first_or] in Ht. assert (is_Some (nx h t)) by (by eexists).
  destruct dl; [unfold DL_PREPEND_ELEM|unfold LL_PREPEND_ELEM]; unfold assert_that; nulls; node_step.
  - destruct (Hp eq_refl) as (_&_&(Hpe&_)%prevs_cons). do 4 node_step. rewrite ptr_neq by done. do 3 node_step.
    split; [|only_tac]. eapply around_new; [exact Hm| |intros _]; intros z; fields; repeat case_decide; congruence.
  - node_step. unfold point_before. rewrite ptr_neq by done.
    eapply wp_seq; [apply (find_before_spec fuel init el t); [done| |done]|].
    { apply seg_snoc. split; [|field]. eapply seg_nx; [|exact Hs]. apart. }
    intros q h2 [-> ->]. node_step. nulls. do 2 node_step. split; [|only_tac].
    eapply around_new; [exact Hm| |discriminate]; intros z; fields; repeat case_decide; congruence.
Qed.

Lemma around_replaced dl h h' x rest init t el l2 a : middle dl h x rest init t el l2 a ->
  (forall z, nx h' z = if decide (z = t) then Some (Some a) else if decide (z = a) then Some (first_or l2 None) else nx h z) ->
  (dl = true -> forall z, pv h' z = if decide (Some z = first_or l2 (Some x)) then Some (Some a)
    else if decide (z = a) then Some (Some t) else pv h z) ->
  list_rep dl h' (Some x) ((init ++ [t]) ++ a :: l2).
Proof.
  intros [[E _ (Hn1&Hn2&Hn3&Hti) Hd Hs Ht Hs2 Hp] (Hx1&Hx2&Hx3) (Ht1&Ht2&Ht3) (He1&He2&He3) (Ha1&Ha2) _] Hn Hv.
  apply seg_cons in Hs2 as (_&He&Hs2). cbn [first_or] in *. apply NoDup_cons in Hn2 as [_ Hn2].
  assert (forall z, z ∈ init ++ [t] -> z ∉ l2) as Hd2 by (intros z Hz Hz2; eapply Hd; [exact Hz|by right]).
  apply around_rep. exists x, rest. split; [done..| | | | | |].
  - split; [done|]. split; [|done]. by apply NoDup_cons.
  - intros z Hz [->|Hz2]%elem_of_cons; [done|by eapply Hd2].
  - eapply seg_nx; [|exact Hs]. apart.
  - field.
  - cbn [first_or]. apply seg_cons. split; [done|]. split; [field|]. eapply seg_nx; [|exact Hs2]. apart.
  - intros ->. destruct (Hp eq_refl) as (Hpx&Hpr&(Hpe&Hp2)%prevs_cons). specialize (Hv eq_refl).
    pose proof Hx1 as Hx1'. rewrite E in Hd2, Ha1. apply NoDup_cons in Hn3 as [Hxr Hn3]. split; [|split].
    + rewrite Hv. destruct l2 as [|y l2]; cbn [first_or]; [rewrite decide_True by done; by rewrite (app_assoc init), last_snoc|].
      rewrite decide_False, decide_False; [|done|]; [rewrite Hpx; by rewrite !(app_assoc init [t]), !last_app_cons, !last_cons_cons|].
      intros [= ->]. eapply Hd2; by left.
    + eapply prevs_pv; [|exact Hpr]. intros z Hz. rewrite Hv, decide_False, decide_False; [done| |].
      * intros ->. apply Ha1. by right.
      * destruct l2 as [|y l2]; intros [= ->]; [done|]. eapply (Hd2 y); [by right|by left].
    + apply prevs_cons. split.
      * rewrite Hv, decide_False, decide_True; [done..|]. destruct l2 as [|y l2]; intros [= ->]; [done|]. apply Ha2. by left.
      * destruct l2 as [|y l2]; [done|]. apply prevs_cons in Hp2 as [_ Hp2]. apply prevs_cons. split; [rewrite Hv; by rewrite decide_True|].
        eapply prevs_pv; [|exact Hp2]. apply NoDup_cons in Hn2 as [Hy Hn2]. intros z Hz.
        rewrite Hv, decide_False, decide_False; [done| |]; [intros ->; apply Ha2; by right|by intros [= ->]].
Qed.

Lemma replace_mid_refines dl fuel a el p init t l2 h : (length init < fuel)%nat ->
  list_rep dl h p ((init ++ [t]) ++ el :: l2) -> new_node h ((init ++ [t]) ++ el :: l2) a ->
  wp safe (if dl then DL_REPLACE_ELEM p (Some el) (Some a) else LL_REPLACE_ELEM fuel p (Some el) (Some a))
    (fun p' h' => list_rep dl h' p' ((init ++ [t]) ++ a :: l2) /\ only (((init ++ [t]) ++ el :: l2) ++ [a]) h h') h.
Proof.
  intros Hf H Hnew. destruct (middle_of _ _ _ _ _ _ _ _ H Hnew) as (x&rest&->&Hm). clear H Hnew.
  pose proof Hm as [[E _ (_&Hn2&_) Hd Hs Ht Hs2 Hp] (Hx1&Hx2&Hx3) (Ht1&Ht2&Ht3) (He1&He2&He3) (Ha1&Ha2) (Hxa&Haa&Hea)].
  cbn [first_or] in Ht. assert (is_Some (nx h t)) by (by eexists). apply seg_cons in Hs2 as (_&He&Hs2).
  destruct dl; [unfold DL_REPLACE_ELEM|unfold LL_REPLACE_ELEM]; unfold assert_that; nulls; node_step.
  - destruct (Hp eq_refl) as (_&_&(Hpe&_)%prevs_cons). rewrite ptr_neq by done. do 7 node_step.
    destruct l2 as [|y l2]; cbn [first_or]; nulls.
    + do 2 node_step. split; [|only_tac].
      eapply around_replaced; [exact Hm| |intros _]; intros z; fields; repeat case_decide; cbn [first_or] in *; congruence.
    + assert (is_Some (nx h y)) by (eapply seg_alloc; [exact Hs2|by left]). cbn [first_or] in *.
      apply not_elem_of_cons in Ha2 as [Hay Ha2].
      apply not_elem_of_cons in Ht3 as [Hty Ht3].
      apply not_elem_of_cons in He3 as [Hey He3].
      do 3 node_step. split; [|only_tac].
      eapply around_replaced; [exact Hm| |intros _]; intros z; fields; repeat case_decide; cbn [first_or] in *; congruence.
  - do 2 node_step. unfold point_before. rewrite ptr_neq by done.
    eapply wp_seq; [apply (find_before_spec fuel init el t); [done| |done]|].
    { apply seg_snoc. split; [|field]. eapply seg_nx; [|exact Hs]. apart. }
    intros q h2 [-> ->]. node_step. nulls. do 2 node_step. split; [|only_tac].
    eapply around_replaced; [exact Hm| |discriminate]; intros z; fields; repeat case_decide; congruence.
Qed.

(** ** Joining *)

Lemma nil_rep dl h p : list_rep dl h p [] -> p = None.
Proof. by intros (_&H&_). Qed.


Lemma concat_refines dl fuel p1 l1 p2 l2 h : (length l1 <= fuel)%nat -> list_rep dl h p1 l1 -> list_rep dl h p2 l2 ->
  (forall a, a ∈ l1 -> a ∉ l2) ->
  wp safe (if dl then DL_CONCAT2 p1 p2 else LL_CONCAT2 fuel p1 p2) (fun p' h' => list_rep dl h' p' (l1 ++ l2) /\
    only (l1 ++ l2) h h') h.
Proof.
  intros Hf H1 H2 Hd.
  destruct l1 as [|x0 l0].
  { apply nil_rep in H1 as ->. destruct dl; [unfold DL_CONCAT2|unfold LL_CONCAT2]; nulls; [|by apply wp_ret].
    destruct l2; [pose proof H2 as ->%nil_rep|pose proof H2 as (_&->&_)%first_rep]; nulls;
      by apply wp_ret. }
  destruct (exists_last (l := x0 :: l0)) as (init&t&El); [done|]. rewrite El in *. clear El x0 l0.
  rewrite <-(app_nil_r (init ++ [t])) in H1. pose proof H1 as Hrep.
  apply around_rep in H1 as (x&rest&[E -> (Hn1&_&Hn3&Hti) _ Hs Ht _ Hp]).
  assert (is_Some (nx h t)) by (by eexists). assert (x ∈ init ++ [t]) as Hx by (rewrite E; by left).
  assert (is_Some (nx h x)) as Hx' by (eapply (seg_alloc h (Some x) (init ++ [t])); [by apply seg_snoc|done]).
  assert (t ∉ l2) as Ht2 by (apply Hd; in_parts). cbn [first_or] in Ht.
  destruct l2 as [|y l2].
  { apply nil_rep in H2 as ->. destruct dl; [unfold DL_CONCAT2|unfold LL_CONCAT2]; nulls.
    - apply wp_ret. split; [exact Hrep|done].
    - eapply wp_seq; [apply (find_last_spec fuel init t); [rewrite length_app in Hf; cbn in Hf; lia|by apply seg_snoc]|].
      intros q h2 [-> ->]. do 2 node_step. split; [|only_tac]. apply around_rep. exists x, rest.
      split; [done..| | | | | |discriminate].
      + split; [done|]. by split; [constructor|].
      + by intros z _ ?%elem_of_nil.
      + eapply seg_nx; [|exact Hs]. apart.
      + field.
      + done. }
  apply first_rep in H2 as (Hn2&->&Hy&Hs2&Hp2).
  apply not_elem_of_cons in Ht2 as [Hty Ht2].
  assert (is_Some (nx h y)) by (by eexists). assert (x <> y) by (intros ->; apply (Hd y Hx); by left).
  destruct dl; [unfold DL_CONCAT2|unfold LL_CONCAT2]; nulls.
  - destruct (Hp eq_refl) as (Hpx&Hpr&_). destruct (Hp2 eq_refl) as (Hpy&Hpl2). rewrite app_nil_r, last_snoc in Hpx.
    do 7 node_step. split; [|only_tac]. apply around_rep. exists x, rest. apply NoDup_cons in Hn3 as Hn3'. destruct Hn3' as [Hxr _].
    apply NoDup_cons in Hn2 as Hn2'. destruct Hn2' as [Hyl _]. split; [done..| | | | |].
    + exact Hd.
    + eapply seg_nx; [|exact Hs]. apart.
    + field.
    + cbn [first_or]. apply seg_cons. split; [done|]. split; [field|]. eapply seg_nx; [|exact Hs2]. apart.
    + intros _. rewrite (app_assoc init [t]), last_app_cons. rewrite E in Hd. split; [field|]. split.
      * eapply prevs_pv; [|exact Hpr]. intros z Hz. assert (z <> y) as Hzy by (intros ->; apply (Hd y); [by right|by left]).
        assert (z <> x) as Hzx by (by intros ->). field.
      * apply prevs_cons. split; [field|]. eapply prevs_pv; [|exact Hpl2]. intros z Hz.
        assert (z <> y) as Hzy by (by intros ->). assert (z <> x) as Hzx by (intros ->; eapply Hd; [by left|by right]). field.
  - eapply wp_seq; [apply (find_last_spec fuel init t); [rewrite length_app in Hf; cbn in Hf; lia|by apply seg_snoc]|].
    intros q h2 [-> ->]. do 2 node_step. split; [|only_tac]. apply NoDup_cons in Hn2 as Hn2'. destruct Hn2' as [Hyl Hn2'].
    apply around_rep. exists x, rest. split; [done..| | | | |discriminate].
    + exact Hd.
    + eapply seg_nx; [|exact Hs]. apart.
    + field.
    + cbn [first_or]. apply seg_cons. split; [done|].
      split; [field|]. eapply seg_nx; [|exact Hs2]. apart.
Qed.

(** ** Walking the list *)

Lemma get_next_eq (x : positive) nd h : h !! x = Some nd -> get_next (Some x) h = Ok (n_next nd) h.
Proof. intros Hx. unfold get_next, load_node. unfold mbind, M_bind, demand, get, mret, M_ret. cbv beta iota delta [id]. by rewrite Hx. Qed.

(** The counter behind [n] steps. *)
Fixpoint count_up (incr : Z -> option Z) (n : nat) (c : Z) : option Z :=
  match n with O => Some c | S n => incr c ≫= count_up incr n end.

Lemma count_up_exact incr n : forall c, (forall k, c <= k < c + Z.of_nat n -> incr k = Some (k + 1)) ->
  count_up incr n c = Some (c + Z.of_nat n).
Proof.
  induction n as [|n IH]; intros c Hi; cbn [count_up]; [f_equal; lia|]. rewrite Hi by lia. cbn [mbind option_bind].
  rewrite IH; [f_equal; lia|]. intros k Hk. apply Hi. lia.
Qed.

Lemma count_up_int n : count_up int_incr n 0 = if Z.of_nat n <=? INT_MAX then Some (Z.of_nat n) else None.
Proof.
  assert (forall c, 0 <= c <= INT_MAX -> count_up int_incr n c = if c + Z.of_nat n <=? INT_MAX then Some (c + Z.of_nat n) else None) as H.
  { induction n as [|n IH]; intros c Hc; cbn [count_up].
    - rewrite (proj2 (Z.leb_le _ _)) by lia. f_equal. lia.
    - change (int_incr c) with (if c <? INT_MAX then Some (c + 1) else None). destruct (Z.ltb_spec c INT_MAX); cbn [mbind option_bind].
      + rewrite IH by lia. replace (c + 1 + Z.of_nat n) with (c + Z.of_nat (S n)) by lia. done.
      + by rewrite (proj2 (Z.leb_gt _ _)) by lia. }
  apply H. unfold INT_MAX. lia.
Qed.

(** What counting the nodes of a list gives. *)
Definition counted (incr : Z -> option Z) (n : nat) (c : Z) (h : heap) : outcome heap Z :=
  match count_up incr n c with Some c => Ok c h | None => Undef h end.

Lemma count_spec incr fuel : forall l p c h, (length l < fuel)%nat -> seg h p l None ->
  LL_COUNT2 incr fuel p c h = counted incr (length l) c h.
Proof.
  induction fuel as [|fuel IH]; intros l p c h Hf Hs; [lia|]. cbn [LL_COUNT2]. destruct l as [|x l].
  - cbn in Hs. by subst p.
  - destruct Hs as [-> (nd&Hx&Hs)]. rewrite null_Some. unfold counted. cbn [length count_up]. unfold mbind, M_bind, demand.
    destruct (incr c) as [c'|]; [|done]. cbn [option_bind mret M_ret]. rewrite (get_next_eq _ _ _ Hx).
    cbn in Hf. by rewrite (IH l) by (done || lia).
Qed.

Lemma counted_exact incr n h : (forall k, 0 <= k < Z.of_nat n -> incr k = Some (k + 1)) -> counted incr n 0 h = Ok (Z.of_nat n) h.
Proof. intros Hi. unfold counted. by rewrite count_up_exact by (intros; apply Hi; lia). Qed.
Lemma counted_int n h : counted int_incr n 0 h = if Z.of_nat n <=? INT_MAX then Ok (Z.of_nat n) h else Undef h.
Proof. unfold counted. rewrite count_up_int. by destruct (_ <=? _). Qed.

Lemma search_spec found fuel : forall l p h, (length l < fuel)%nat -> seg h p l None ->
  LL_SEARCH2 found fuel p h = Ok (head (filter (fun a => found a = true) l)) h.
Proof.
  induction fuel as [|fuel IH]; intros l p h Hf Hs; [lia|]. cbn [LL_SEARCH2]. destruct l as [|x l].
  - cbn in Hs. by subst p.
  - destruct Hs as [-> (nd&Hx&Hs)]. rewrite filter_cons. destruct (found x) eqn:E; [by rewrite decide_True|].
    rewrite decide_False by done.
    unfold mbind, M_bind. rewrite (get_next_eq _ _ _ Hx). cbn in Hf. apply IH; [lia|done].
Qed.

(** ** What the operations do to the list *)

Lemma bind_single (l : list positive) (f : positive -> list positive) : (forall b, b ∈ l -> f b = [b]) -> l ≫= f = l.
Proof.
  intros Hf. induction l as [|b l IH]; [done|]. rewrite bind_cons, Hf by (by left). cbn. f_equal. apply IH.
  intros c Hc. apply Hf. by right.
Qed.

Lemma fmap_same (l : list positive) (f : positive -> positive) : (forall b, b ∈ l -> f b = b) -> f <$> l = l.
Proof.
  intros Hf. induction l as [|b l IH]; [done|]. rewrite fmap_cons, Hf by (by left). f_equal. apply IH.
  intros c Hc. apply Hf. by right.
Qed.

Lemma prepend_elem_abs (l1 : list positive) el a l2 : NoDup (l1 ++ el :: l2) ->
  abs_op (Prepend_elem el a) (l1 ++ el :: l2) = l1 ++ a :: el :: l2.
Proof.
  intros (_&_&H1&H2&_)%nodup_parts. cbn [abs_op]. rewrite bind_app, bind_cons, decide_True by done.
  rewrite !bind_single; [done|..]; intros b Hb; rewrite decide_False; [done| |done|]; by intros ->.
Qed.

Lemma replace_elem_abs (l1 : list positive) el a l2 : NoDup (l1 ++ el :: l2) ->
  abs_op (Replace_elem el a) (l1 ++ el :: l2) = l1 ++ a :: l2.
Proof.
  intros (_&_&H1&H2&_)%nodup_parts. cbn [abs_op]. rewrite fmap_app, fmap_cons, decide_True by done.
  rewrite !fmap_same; [done|..]; intros b Hb; rewrite decide_False; [done| |done|]; by intros ->.
Qed.

(** C31: every operation of utlist.h on a well-formed singly or doubly linked
    list leaves a well-formed list of the nodes it should have, in that order:
    the new node first, last, before or in the place of another; the deleted one
    gone; the other list behind this one.  No node is touched but those of the
    lists and the new one.  Counting gives the number of the nodes if the type of the
    counter holds it, and with an [int] is undefined if not; searching gives
    the first node that matches. *)
Theorem utlist_refines dl fuel op found p l h : list_rep dl h p l -> can_op dl h l op -> (length l < fuel)%nat ->
  wp safe (run_op dl fuel op p) (fun p' h' => list_rep dl h' p' (abs_op op l) /\
    forall a, a ∉ l ++ op_nodes op -> h' !! a = h !! a) h /\
  (forall incr, (forall k, 0 <= k < Z.of_nat (length l) -> incr k = Some (k + 1)) ->
     LL_COUNT2 incr fuel p 0 h = Ok (Z.of_nat (length l)) h) /\
  LL_COUNT2 int_incr fuel p 0 h = (if Z.of_nat (length l) <=? INT_MAX then Ok (Z.of_nat (length l)) h else Undef h) /\
  LL_SEARCH2 found fuel p h = Ok (head (filter (fun a => found a = true) l)) h.
Proof.
  intros Hrep Hcan Hf. pose proof Hrep as (_&Hs&_). split; [|split; [|split; [|by apply search_spec]]].
  2:{ intros incr Hi. rewrite (count_spec incr fuel l) by done. by apply counted_exact. }
  2:{ rewrite (count_spec _ fuel l) by done. apply counted_int. }
  assert (forall el, el ∈ l -> exists l1 l2, l = l1 ++ el :: l2) as Hsplit by apply list_elem_of_split.
  pose proof (proj1 Hrep) as Hnd.
  destruct op as [a|a|a|p2 l2|el a|el a]; cbn [can_op run_op op_nodes] in *.
  - by apply prepend_refines.
  - apply append_refines; [lia|done..].
  - destruct (Hsplit a Hcan) as (l1&l2&->). cbn [abs_op]. rewrite filter_delete, app_nil_r by done.
    apply delete_any_refines; [|done]. rewrite length_app in Hf. lia.
  - destruct Hcan as [H2 Hd]. apply concat_refines; [lia|done..].
  - destruct Hcan as [Hin Hnew]. destruct (Hsplit el Hin) as (l1&l2&->). rewrite prepend_elem_abs by done.
    destruct l1 as [|t init _] using rev_ind; [by apply prepend_head_refines|]. apply prepend_mid_refines; [|done..].
    rewrite !length_app in Hf. lia.
  - destruct Hcan as [Hin Hnew]. destruct (Hsplit el Hin) as (l1&l2&->). rewrite replace_elem_abs by done.
    destruct l1 as [|t init _] using rev_ind; [by apply replace_head_refines|]. apply replace_mid_refines; [|done..].
    rewrite !length_app in Hf. lia.
Qed.

Lemma utlist_refines_witness :
  let h : heap := list_to_map [(2%positive, Node (Some 1%positive) (Some 1%positive)); (1%positive, Node (Some 2%positive) None);
    (3%positive, Node None None)] in
  wp safe (run_op true 3 (Replace_elem 1 3) (Some 2%positive)) (fun p' h' => list_rep true h' p' [2; 3]%positive) h /\
  LL_COUNT2 int_incr 3 (Some 2%positive) 0 h = Ok 2 h.
Proof.
  intros h. destruct (utlist_refines true 3 (Replace_elem 1 3) (fun _ => true) (Some 2%positive) [2; 1]%positive h) as (H1&_&H2&_).
  - split; [apply (bool_decide_unpack _); vm_compute; exact I|]. split.
    + split; [done|]. eexists. split; [reflexivity|]. split; [done|]. by eexists.
    + split; [by eexists|]. split; [by eexists|done].
  - split; [right; left|]. split; [apply (bool_decide_unpack _); vm_compute; exact I|by eexists].
  - cbn. lia.
  - split; [|exact H2]. eapply wp_mono; [exact H1|]. intros p' h' [H _]. exact H.
Defined.
