(* ===== verification/CdlProps.v ===== *)
(** The circular lists of utlist.h: what each operation does to the ring of nodes
    does the corresponding thing to the list that is read off from its head. *)

From stdpp Require Import sorting.
From S2P Require Import Prelude CLib Outcome Utlist ListRep UtlistSort UtlistProps.

#[local] Open Scope Z_scope.

(** ** Rings *)

(** [b] comes next behind [a]. *)
Definition link (h : heap) (a b : positive) : Prop := nx h a = Some (Some b) /\ pv h b = Some (Some a).

(** [a] and the nodes of [l] are linked one to the next. *)
Fixpoint links (h : heap) (a : positive) (l : list positive) : Prop :=
  match l with
  | [] => True
  | b :: l => link h a b /\ links h b l
  end.

(** The nodes of [l] are linked in a ring. *)
Definition ring (h : heap) (l : list positive) : Prop :=
  NoDup l /\ match l with [] => True | x :: l => links h x (l ++ [x]) end.

Lemma links_app h l1 b l2 : forall a, links h a (l1 ++ b :: l2) <-> links h a (l1 ++ [b]) /\ links h b l2.
Proof. induction l1 as [|c l1 IH]; intros a; cbn [app links]; [tauto|]. rewrite IH. tauto. Qed.

(** A ring may be entered at any of its nodes. *)
Lemma ring_rotate h l1 l2 : ring h (l1 ++ l2) <-> ring h (l2 ++ l1).
Proof.
  assert (forall l1 l2, ring h (l1 ++ l2) -> ring h (l2 ++ l1)) as H; [|by split; apply H].
  clear l1 l2. intros l1 l2 [Hnd Hl]. split; [by rewrite Permutation_app_comm in Hnd|].
  destruct l1 as [|x l1]; [by rewrite app_nil_r|]. destruct l2 as [|y l2]; [by rewrite app_nil_r in Hl|].
  cbn [app] in *. rewrite <-app_assoc in *. cbn [app] in *. apply links_app in Hl as [H1 H2].
  apply links_app. by split.
Qed.

(** The head of a list in a ring. *)
Definition ring_rep (h : heap) (p : ptr) (l : list positive) : Prop := p = head l /\ ring h l.

(** The last node of a list, or [x]. *)
Definition end_of (x : positive) (l : list positive) : positive := default x (last l).

Lemma end_of_cons x c l : end_of x (c :: l) = end_of c l.
Proof. unfold end_of. rewrite last_cons. by destruct (last l). Qed.
Lemma end_of_snoc x l a : end_of x (l ++ [a]) = a.
Proof. unfold end_of. by rewrite last_snoc. Qed.
Lemma end_of_in x l : end_of x l ∈ x :: l.
Proof.
  revert x. induction l as [|c l IH]; intros x; [by left|]. rewrite end_of_cons. right. apply IH.
Qed.

Lemma links_snoc h b l : forall x, links h x (l ++ [b]) <-> links h x l /\ link h (end_of x l) b.
Proof. induction l as [|c l IH]; intros x; [cbn; tauto|]. cbn [app links]. rewrite IH, end_of_cons. tauto. Qed.

Lemma ring_path h x l : ring h (x :: l) <-> NoDup (x :: l) /\ links h x l /\ link h (end_of x l) x.
Proof. unfold ring. by rewrite links_snoc. Qed.

(** Linked nodes but for the last [nx] and the first [pv]. *)
Lemma path_frame h h' x l : NoDup (x :: l) ->
  (forall b, b ∈ x :: l -> b <> end_of x l -> nx h' b = nx h b) -> (forall b, b ∈ l -> pv h' b = pv h b) ->
  links h x l -> links h' x l.
Proof.
  revert x. induction l as [|c l IH]; intros x Hnd Hn Hp; [done|]. intros [[H1 H2] Hl]. rewrite end_of_cons in Hn.
  apply NoDup_cons in Hnd as [Hx Hnd]. split; [split|].
  - rewrite Hn; [done|by left|]. intros E. apply Hx. rewrite E. apply end_of_in.
  - rewrite Hp; [done|by left].
  - apply IH; [done|..|done]; intros b Hb; [intros Hne; apply Hn; [by right|done]|apply Hp; by right].
Qed.

(** ** The three changes of a ring *)

(** The stores of a change: the next of [t] and of [a], the previous of [x] and of [a]. *)
Definition relinked (h h' : heap) (t a : positive) (nt na : ptr) (x : positive) (px pa : ptr) : Prop :=
  (forall b, nx h' b = if decide (b = t) then Some nt else if decide (b = a) then Some na else nx h b) /\
  (forall b, pv h' b = if decide (b = x) then Some px else if decide (b = a) then Some pa else pv h b).

Lemma ring_insert h h' x l a : ring h (x :: l) -> a ∉ x :: l ->
  relinked h h' (end_of x l) a (Some a) (Some x) x (Some a) (Some (end_of x l)) -> ring h' (a :: x :: l).
Proof.
  intros (Hnd&Hl&_)%ring_path Ha [Hn Hp]. pose proof (end_of_in x l) as Ht.
  assert (end_of x l <> a) by (by intros <-). assert (x <> a) by (intros ->; apply Ha; by left).
  apply (ring_rotate h' [a] (x :: l)). cbn [app]. apply ring_path. split; [|rewrite links_snoc, end_of_snoc; split; [split|]].
  - apply (NoDup_snoc (x :: l)); done.
  - apply NoDup_cons in Hnd as Hnd'. destruct Hnd' as [Hx _].
    eapply path_frame; [done|..|exact Hl]; intros b Hb.
    + intros Hne. rewrite Hn, !decide_False; [done|by intros ->|done].
    + rewrite Hp, !decide_False; [done| |by intros ->]. intros ->. apply Ha. by right.
  - split; [rewrite Hn, decide_True by done|rewrite Hp, decide_False, decide_True by done]; done.
  - split; [rewrite Hn, decide_False, decide_True by done|rewrite Hp, decide_True by done]; done.
Qed.

Lemma ring_delete h h' x y l : ring h (x :: y :: l) ->
  (forall b, nx h' b = if decide (b = end_of y l) then Some (Some y) else nx h b) ->
  (forall b, pv h' b = if decide (b = y) then Some (Some (end_of y l)) else pv h b) -> ring h' (y :: l).
Proof.
  intros ([_ Hnd]%NoDup_cons&[_ Hl]&_)%ring_path Hn Hp. apply ring_path. split; [done|].
  apply NoDup_cons in Hnd as Hnd'. destruct Hnd' as [Hy _]. split.
  - eapply path_frame; [done|..|exact Hl]; intros b Hb.
    + intros Hne. by rewrite Hn, decide_False.
    + rewrite Hp, decide_False; [done|]. by intros ->.
  - split; [rewrite Hn, decide_True by done|rewrite Hp, decide_True by done]; done.
Qed.

Lemma ring_replace h h' x y l a : ring h (x :: y :: l) -> a ∉ x :: y :: l ->
  relinked h h' (end_of y l) a (Some a) (Some y) y (Some a) (Some (end_of y l)) -> ring h' (a :: y :: l).
Proof.
  intros ([_ Hnd]%NoDup_cons&[_ Hl]&_)%ring_path [_ Ha]%not_elem_of_cons [Hn Hp]. apply ring_path.
  pose proof (end_of_in y l) as Ht. assert (end_of y l <> a) by (by intros <-). assert (y <> a) by (intros ->; apply Ha; by left).
  apply NoDup_cons in Hnd as Hnd'. destruct Hnd' as [Hy _]. rewrite end_of_cons. split; [by apply NoDup_cons|]. split; [split|].
  - split; [rewrite Hn, decide_False, decide_True by done|rewrite Hp, decide_True by done]; done.
  - eapply path_frame; [done|..|exact Hl]; intros b Hb.
    + intros Hne. rewrite Hn, !decide_False; [done|by intros ->|done].
    + rewrite Hp, !decide_False; [done| |by intros ->]. intros ->. apply Ha. by right.
  - split; [rewrite Hn, decide_True by done|rewrite Hp, decide_False, decide_True by done]; done.
Qed.

(** ** The operations *)

Inductive ring_op :=
| Ring_prepend (a : positive)
| Ring_delete (a : positive)
| Ring_prepend_elem (el a : positive)
| Ring_replace_elem (el a : positive).

Definition run_ring (op : ring_op) (p : ptr) : M heap ptr :=
  match op with
  | Ring_prepend a => CDL_PREPEND2 p (Some a)
  | Ring_delete a => CDL_DELETE2 p (Some a)
  | Ring_prepend_elem el a => CDL_PREPEND_ELEM p (Some el) (Some a)
  | Ring_replace_elem el a => CDL_REPLACE_ELEM p (Some el) (Some a)
  end.

(** The same operation on a list. *)
Definition list_of (op : ring_op) : list_op :=
  match op with
  | Ring_prepend a => Prepend a
  | Ring_delete a => Delete a
  | Ring_prepend_elem el a => Prepend_elem el a
  | Ring_replace_elem el a => Replace_elem el a
  end.

(** A node of a ring with its neighbours. *)
Lemma ring_at h l1 x l2 : ring h (l1 ++ x :: l2) ->
  ring h (x :: l2 ++ l1) /\ link h (end_of x (l2 ++ l1)) x /\
  is_Some (nx h x) /\ is_Some (nx h (end_of x (l2 ++ l1))).
Proof.
  intros Hr. apply ring_rotate in Hr. cbn [app] in Hr. split; [done|]. apply ring_path in Hr as (_&_&[H1 H2]).
  split; [done|]. split; [|by eexists]. apply nx_pv. by eexists.
Qed.

(** Whether a node is the first one. *)
Lemma head_is (l1 : list positive) x l2 : NoDup (l1 ++ x :: l2) ->
  bool_decide (head (l1 ++ x :: l2) = Some x) = bool_decide (l1 = []).
Proof.
  intros (_&_&Hx&_&_)%nodup_parts. destruct l1 as [|y l1]; cbn; [by rewrite !bool_decide_eq_true_2|].
  rewrite !bool_decide_eq_false_2; [done..|]. intros [= ->]. apply Hx. by left.
Qed.

Lemma not_in_rotated (a : positive) l1 x l2 : a ∉ l1 ++ x :: l2 -> a ∉ x :: l2 ++ l1.
Proof. intros Ha Hin. apply Ha. revert Hin. rewrite !elem_of_app, !elem_of_cons, elem_of_app. tauto. Qed.

Ltac ring_steps := repeat node_step.

Lemma ring_prepend_elem l1 el l2 a h : ring h (l1 ++ el :: l2) -> a ∉ l1 ++ el :: l2 -> is_Some (nx h a) ->
  wp safe (CDL_PREPEND_ELEM (head (l1 ++ el :: l2)) (Some el) (Some a)) (fun p' h' => ring_rep h' p' (l1 ++ a :: el :: l2) /\
    only ((l1 ++ el :: l2) ++ [a]) h h') h.
Proof.
  intros Hr Ha Hal. pose proof (proj1 Hr) as Hnd. destruct (ring_at _ _ _ _ Hr) as (Hr'&[Hn Hp]&Hex&Het).
  pose proof (not_in_rotated _ _ _ _ Ha) as Ha'. pose proof (end_of_in el (l2 ++ l1)) as Ht.
  remember (end_of el (l2 ++ l1)) as t eqn:Et. assert (t <> a) by (by intros ->). assert (el <> a) by (intros ->; apply Ha'; by left).
  unfold CDL_PREPEND_ELEM, assert_that. assert (null (head (l1 ++ el :: l2)) = false) as -> by (by destruct l1). nulls.
  ring_steps. split.
  - split.
    + rewrite head_is by done. destruct l1; [by rewrite bool_decide_eq_true_2|by rewrite bool_decide_eq_false_2].
    + apply (ring_rotate _ l1 (a :: el :: l2)). cbn [app]. apply (ring_insert h _ el (l2 ++ l1) a); [done..|]. rewrite <-Et.
      split; intros z; fields; repeat case_decide; congruence.
  - rewrite elem_of_cons, elem_of_app in Ht. only_tac.
Qed.

Lemma ring_prepend l a h : ring h l -> a ∉ l -> is_Some (nx h a) ->
  wp safe (CDL_PREPEND2 (head l) (Some a)) (fun p' h' => ring_rep h' p' (a :: l) /\ only (l ++ [a]) h h') h.
Proof.
  intros Hr Ha Hal. unfold CDL_PREPEND2. destruct l as [|x l]; cbn [head]; nulls.
  - ring_steps. split; [|only_tac]. split; [done|]. split; [apply NoDup_singleton|]. split; [|done]. split; fields; done.
  - destruct (ring_at h [] x l Hr) as (_&[Hn Hp]&Hex&Het). rewrite app_nil_r in *.
    pose proof (end_of_in x l) as Ht. remember (end_of x l) as t eqn:Et.
    assert (t <> a) by (by intros ->). assert (x <> a) by (intros ->; apply Ha; by left).
    ring_steps. split.
    + split; [done|]. apply (ring_insert h); [done..|]. rewrite <-Et. split; intros z; fields; repeat case_decide; congruence.
    + rewrite elem_of_cons in Ht. only_tac.
Qed.

(** Only nodes were stored to that are known to be in the list. *)
Ltac known_only := let b := fresh "b" in let Hb := fresh "Hb" in
  intros b Hb; repeat match goal with H : only _ _ ?h1 |- ?h1 !! b = _ =>
    rewrite (H b) by (intros ->%list_elem_of_singleton; contradiction) end; done.

Lemma ring_delete_op l1 x l2 h : ring h (l1 ++ x :: l2) ->
  wp safe (CDL_DELETE2 (head (l1 ++ x :: l2)) (Some x)) (fun p' h' => ring_rep h' p' (l1 ++ l2) /\
    only (l1 ++ x :: l2) h h') h.
Proof.
  intros Hr. pose proof (proj1 Hr) as Hnd. destruct (ring_at _ _ _ _ Hr) as (Hr'&[Hn Hp]&Hex&Het).
  pose proof Hr' as (Hnd'&Hl&_)%ring_path. unfold CDL_DELETE2. rewrite head_is by done.
  destruct (l2 ++ l1) as [|y rest] eqn:El.
  - apply app_eq_nil in El as [-> ->]. cbn [app head]. rewrite bool_decide_eq_true_2 by done. cbn in Hn.
    node_step. ring_steps. rewrite bool_decide_eq_true_2 by done. cbn [andb]. apply wp_ret. split; [|done].
    split; [done|]. by split; [constructor|].
  - destruct Hl as [[Hxy Hyx] Hl]. rewrite end_of_cons in *. pose proof (end_of_in y rest) as Ht.
    apply NoDup_cons in Hnd' as [Hx _]. remember (end_of y rest) as t eqn:Et.
    assert (t <> x) by (by intros ->). assert (y <> x) by (intros ->; apply Hx; by left).
    assert (is_Some (nx h y)) by (apply nx_pv; by eexists).
    assert (forall b, b ∈ y :: rest -> b ∈ l1 ++ x :: l2) as Hsub.
    { intros b. rewrite <-El, !elem_of_app, elem_of_cons. tauto. }
    assert (forall h1, ring h1 (y :: rest) -> ring h1 (l1 ++ l2)) as Hback by (intros h1; rewrite <-El; by apply ring_rotate).
    assert (y ∈ l1 ++ x :: l2) as Hyl by (apply Hsub; by left). assert (t ∈ l1 ++ x :: l2) as Htl by by apply Hsub.
    apply wp_bind. destruct l1 as [|z l1].
    + rewrite bool_decide_eq_true_2 by done. cbn [app head]. ring_steps. rewrite ptr_neq by done. cbn [andb].
      rewrite app_nil_r in El. subst l2. rewrite (bool_decide_eq_true_2 (Some x = Some x)) by done.
      ring_steps. split.
      * split; [done|]. apply Hback, (ring_delete h _ x); [done|..]; rewrite <-?Et; intros z; fields; repeat case_decide; congruence.
      * known_only.
    + rewrite bool_decide_eq_false_2 by done. ring_steps. cbn [andb]. ring_steps.
      rewrite (bool_decide_eq_false_2 (Some x = head _)).
      2: { cbn. intros [= ->]. apply nodup_parts in Hnd as (_&_&Hx1&_). apply Hx1. by left. }
      ring_steps. split.
      * split; [done|]. apply Hback, (ring_delete h _ x); [done|..]; rewrite <-?Et; intros b; fields; repeat case_decide; congruence.
      * known_only.
Qed.

Lemma ring_replace_op l1 x l2 a h : ring h (l1 ++ x :: l2) -> a ∉ l1 ++ x :: l2 -> is_Some (nx h a) ->
  wp safe (CDL_REPLACE_ELEM (head (l1 ++ x :: l2)) (Some x) (Some a)) (fun p' h' => ring_rep h' p' (l1 ++ a :: l2) /\
    only ((l1 ++ x :: l2) ++ [a]) h h') h.
Proof.
  intros Hr Ha Hal. pose proof (proj1 Hr) as Hnd. destruct (ring_at _ _ _ _ Hr) as (Hr'&[Hn Hp]&Hex&Het).
  pose proof Hr' as (Hnd'&Hl&_)%ring_path. pose proof (not_in_rotated _ _ _ _ Ha) as Ha'.
  unfold CDL_REPLACE_ELEM, assert_that. assert (null (head (l1 ++ x :: l2)) = false) as -> by (by destruct l1). nulls.
  assert (a ∈ (l1 ++ x :: l2) ++ [a]) as Hain by (apply elem_of_app; right; by left).
  destruct (l2 ++ l1) as [|y rest] eqn:El.
  - apply app_eq_nil in El as [-> ->]. cbn [app head] in *. cbn in Hn. ring_steps. rewrite bool_decide_eq_true_2 by done.
    ring_steps. split; [|known_only]. split; [done|]. split; [apply NoDup_singleton|]. split; [|done]. split; fields; done.
  - destruct Hl as [[Hxy Hyx] Hl]. rewrite end_of_cons in *. pose proof (end_of_in y rest) as Ht.
    apply NoDup_cons in Hnd' as [Hx _]. remember (end_of y rest) as t eqn:Et.
    apply not_elem_of_cons in Ha' as Ha2. destruct Ha2 as [Hax Ha2].
    assert (t <> x) by (by intros ->). assert (y <> x) by (intros ->; apply Hx; by left).
    assert (t <> a) by (by intros ->). assert (y <> a) by (intros ->; apply Ha2; by left).
    assert (is_Some (nx h y)) by (apply nx_pv; by eexists).
    assert (forall b, b ∈ y :: rest -> b ∈ (l1 ++ x :: l2) ++ [a]) as Hsub.
    { intros b. rewrite <-El, !elem_of_app, elem_of_cons. tauto. }
    assert (y ∈ (l1 ++ x :: l2) ++ [a]) as Hyl by (apply Hsub; by left). assert (t ∈ (l1 ++ x :: l2) ++ [a]) as Htl by by apply Hsub.
    ring_steps. rewrite ptr_neq by done. ring_steps. split; [|known_only]. split.
    + rewrite head_is by done. destruct l1; [by rewrite bool_decide_eq_true_2|by rewrite bool_decide_eq_false_2].
    + apply (ring_rotate _ l1 (a :: l2)). cbn [app]. rewrite El. apply (ring_replace h _ x); [done..|]. rewrite <-Et.
      split; intros z; fields; repeat case_decide; congruence.
Qed.

(** ** Walking the ring *)

Lemma get_next_nx x v h : nx h x = Some v -> get_next (Some x) h = Ok v h.
Proof. unfold nx. destruct (h !! x) as [nd|] eqn:E; [|done]. intros [= <-]. by apply get_next_eq. Qed.

(** The successor of [x] as the loops take it: null behind the last node. *)
Lemma ring_next h hd x l : links h x (l ++ [hd]) -> hd ∉ l ->
  exists v, nx h x = Some v /\ (if bool_decide (v = Some hd) then None else v) = head l /\
    (forall y l', l = y :: l' -> links h y (l' ++ [hd]) /\ hd ∉ l').
Proof.
  destruct l as [|y l]; cbn [app links]; intros [[Hx _] Hl] Hd.
  - exists (Some hd). by rewrite ptr_eq.
  - exists (Some y). apply not_elem_of_cons in Hd as [Hne Hd]. rewrite ptr_neq by done. split; [done|]. split; [done|].
    by intros ? ? [= <- <-].
Qed.

Lemma cdl_count incr fuel : forall l x c h hd, (S (length l) < fuel)%nat -> links h x (l ++ [hd]) -> hd ∉ l ->
  CDL_COUNT2 incr fuel (Some hd) (Some x) c h = counted incr (S (length l)) c h.
Proof.
  induction fuel as [|fuel IH]; intros l x c h hd Hf Hl Hd; [lia|]. cbn [CDL_COUNT2]. nulls.
  destruct (ring_next _ _ _ _ Hl Hd) as (v&Hx&Ev&Hrest). unfold counted. cbn [count_up]. unfold mbind, M_bind, demand.
  destruct (incr c) as [c'|]; [|done]. cbn [option_bind mret M_ret]. rewrite (get_next_nx _ _ _ Hx), Ev.
  destruct l as [|y l]; cbn [head].
  - destruct fuel as [|fuel]; [cbn in Hf; lia|]. cbn [CDL_COUNT2]. by nulls.
  - destruct (Hrest y l eq_refl) as [H1 H2]. by rewrite (IH l y) by (cbn in *; done || lia).
Qed.

Lemma cdl_search found fuel : forall l x h hd, (S (length l) < fuel)%nat -> links h x (l ++ [hd]) -> hd ∉ l ->
  CDL_SEARCH2 found fuel (Some hd) (Some x) h = Ok (head (filter (fun a => found a = true) (x :: l))) h.
Proof.
  induction fuel as [|fuel IH]; intros l x h hd Hf Hl Hd; [lia|]. cbn [CDL_SEARCH2]. rewrite filter_cons.
  destruct (found x) eqn:E; [by rewrite decide_True|]. rewrite decide_False by done.
  destruct (ring_next _ _ _ _ Hl Hd) as (v&Hx&Ev&Hrest). unfold mbind, M_bind. rewrite (get_next_nx _ _ _ Hx), Ev.
  destruct l as [|y l]; cbn [head].
  - destruct fuel as [|fuel]; [cbn in Hf; lia|]. done.
  - destruct (Hrest y l eq_refl) as [H1 H2]. apply IH; [cbn in Hf; lia|done..].
Qed.

(** The operation is given a node of the ring, or a new one. *)
Definition can_ring (h : heap) (l : list positive) (op : ring_op) : Prop :=
  match op with
  | Ring_prepend a => new_node h l a
  | Ring_delete a => a ∈ l
  | Ring_prepend_elem el a | Ring_replace_elem el a => el ∈ l /\ new_node h l a
  end.

(** Every operation of utlist.h on a circular list leaves the ring of the
    nodes it should have, in the order in which they should be read off from the head it
    gives; no other node is touched.  Counting gives the number of nodes if the counter holds it, and searching
    the first one from the head on that matches: both come round exactly once. *)
Theorem cdl_refines fuel op found p l h : ring_rep h p l -> can_ring h l op -> (length l < fuel)%nat ->
  wp safe (run_ring op p) (fun p' h' => ring_rep h' p' (abs_op (list_of op) l) /\
    forall a, a ∉ l ++ op_nodes (list_of op) -> h' !! a = h !! a) h /\
  (forall incr, (forall k, 0 <= k < Z.of_nat (length l) -> incr k = Some (k + 1)) ->
     CDL_COUNT2 incr fuel p p 0 h = Ok (Z.of_nat (length l)) h) /\
  CDL_SEARCH2 found fuel p p h = Ok (head (filter (fun a => found a = true) l)) h.
Proof.
  intros [-> Hr] Hcan Hf. pose proof (proj1 Hr) as Hnd. split.
  - assert (forall el, el ∈ l -> exists l1 l2, l = l1 ++ el :: l2) as Hsplit by apply list_elem_of_split.
    destruct op as [a|a|el a|el a]; cbn [can_ring run_ring list_of op_nodes] in *.
    + destruct Hcan as [Ha Hal]. apply ring_prepend; [done..|]. unfold nx. by rewrite fmap_is_Some.
    + destruct (Hsplit a Hcan) as (l1&l2&->). cbn [abs_op]. rewrite filter_delete, app_nil_r by done. by apply ring_delete_op.
    + destruct Hcan as [Hin [Ha Hal]]. destruct (Hsplit el Hin) as (l1&l2&->). rewrite prepend_elem_abs by done.
      apply ring_prepend_elem; [done..|]. unfold nx. by rewrite fmap_is_Some.
    + destruct Hcan as [Hin [Ha Hal]]. destruct (Hsplit el Hin) as (l1&l2&->). rewrite replace_elem_abs by done.
      apply ring_replace_op; [done..|]. unfold nx. by rewrite fmap_is_Some.
  - destruct l as [|x l]; [destruct fuel; [cbn in Hf; lia|by split]|]. destruct Hr as [_ Hl].
    apply NoDup_cons in Hnd as [Hx _]. cbn [head]. cbn in Hf. split; [|by apply cdl_search].
    intros incr Hi. rewrite (cdl_count incr fuel l x) by done. exact (counted_exact incr (S (length l)) h Hi).
Qed.

Lemma cdl_refines_witness :
  let h : heap := list_to_map [(2%positive, Node (Some 1%positive) (Some 1%positive)); (1%positive, Node (Some 2%positive) (Some 2%positive));
    (3%positive, Node None None)] in
  wp safe (run_ring (Ring_prepend_elem 1 3) (Some 2%positive)) (fun p' h' => ring_rep h' p' [2; 3; 1]%positive) h.
Proof.
  intros h. eapply wp_mono; [apply (cdl_refines 3 (Ring_prepend_elem 1 3) (fun _ => true) (Some 2%positive) [2; 1]%positive h)|].
  - split; [reflexivity|]. split; [apply (bool_decide_unpack _); vm_compute; exact I|].
    split; [split; reflexivity|]. split; [split; reflexivity|exact I].
  - split; [right; left|]. split; [apply (bool_decide_unpack _); vm_compute; exact I|by eexists].
  - auto.
  - intros p' h' [H _]. exact H.
Defined.

(** ** Sorting *)

Lemma links_seg h l : forall x r,
  links h x l /\ nx h (end_of x l) = Some r <-> seg h (Some x) (x :: l) r /\ prevs h (Some x) l.
Proof.
  induction l as [|c l IH]; intros x r; rewrite seg_cons.
  - cbn. unfold end_of. cbn. tauto.
  - rewrite end_of_cons, prevs_cons. cbn [links first_or]. unfold link. specialize (IH c r). tauto.
Qed.

(** A ring is a list that ends at its head and begins with a back pointer to its end. *)
Lemma ring_cdl h p l : ring_rep h p l <-> NoDup l /\ cdl_rep h p (last l) l.
Proof.
  unfold ring_rep, cdl_rep. destruct l as [|x l]; [cbn; unfold ring; intuition congruence|].
  rewrite ring_path. cbn [head]. pose proof (links_seg h l x (Some x)) as H. rewrite prevs_cons.
  assert (last (x :: l) = Some (end_of x l)) as -> by (rewrite last_cons; unfold end_of; by destruct (last l)).
  unfold link. split.
  - intros (->&Hnd&Hl&Hn&Hp). destruct (proj1 H (conj Hl Hn)). tauto.
  - intros (Hnd&->&Hs&Hp&Hps). destruct (proj2 H (conj Hs Hps)). tauto.
Qed.

(** Sorting a circular list with a comparison that is a total preorder always ends
    and leaves a ring of the same nodes, in ascending order from the head it
    gives, with those that compare equal in the order they had; no other node is touched. *)
Theorem cdl_sorts cmp fuel l p h :
  (forall a b, cmp_le cmp a b \/ cmp_le cmp b a) -> (forall a b c, cmp_le cmp a b -> cmp_le cmp b c -> cmp_le cmp a c) ->
  ring_rep h p l -> 2 * Z.of_nat (length l) <= INT_MAX -> (2 * length l + 3 <= fuel)%nat ->
  wp safe (CDL_SORT2 cmp fuel p) (fun p' h' => exists l',
    l' ≡ₚ l /\ StronglySorted (cmp_le cmp) l' /\
    (forall a, filter (same_class cmp a) l' = filter (same_class cmp a) l) /\
    ring_rep h' p' l' /\ forall a, a ∉ l -> h' !! a = h !! a) h.
Proof.
  intros Htot Htr [Hnd Hr]%ring_cdl Hmax Hf. eapply wp_mono.
  { apply (list_sort_spec cmp CDL_kind Htot Htr fuel p l); [done| |done|done].
    destruct l as [|x l]; [by destruct Hr as [-> _]|]. by eapply (read_law (kind := CDL_kind)). }
  intros p' h' (l'&tail'&Hl&H2&H3). assert (NoDup l') as Hnd' by (destruct Hl as [E _]; by rewrite E).
  exists l'. pose proof Hl as (H4&H5&H6). split_and!; [done|by eapply sorted_strongly|done| |done].
  destruct H2 as [[-> ->]|[_ H2]]; apply ring_cdl; by split.
Qed.

Lemma cdl_sorts_witness :
  let h : heap := list_to_map [(2%positive, Node (Some 1%positive) (Some 1%positive)); (1%positive, Node (Some 2%positive) (Some 2%positive))] in
  wp safe (CDL_SORT2 (fun a b => Z.pos a - Z.pos b) 7 (Some 2%positive)) (fun p' h' => exists l',
    l' ≡ₚ [2; 1]%positive /\ ring_rep h' p' l') h.
Proof.
  intros h. eapply wp_mono; [apply (cdl_sorts (fun a b => Z.pos a - Z.pos b) 7 [2; 1]%positive)|].
  - unfold cmp_le. lia.
  - unfold cmp_le. lia.
  - split; [reflexivity|]. split; [apply (bool_decide_unpack _); vm_compute; exact I|].
    split; [split; reflexivity|]. split; [split; reflexivity|exact I].
  - vm_compute. discriminate.
  - vm_compute. lia.
  - intros p' h' (l'&H1&_&_&H2&_). by exists l'.
Defined.
