(* ===== verification/UtlistLoops.v ===== *)
(** The loops of utlist.h that are safe for deletion, and [LL_APPEND2] without
    [decltype]. *)

From S2P Require Import Prelude CLib Outcome Utlist ListRep UtlistSort UtlistProps CdlProps.

#[local] Open Scope Z_scope.

(** ** Loops *)

(** What holds behind the nodes [l1] of a loop over [l]: [inv l1 x h].  The body is
    given the next node and may do as it likes with those it has seen. *)
Section loops.
Context {A : Type} (body : positive -> A -> M heap A) (inv : list positive -> list positive -> A -> heap -> Prop).

Lemma foreach_safe_spec
    (Hnext : forall l1 a l2 x h, inv l1 (a :: l2) x h -> nx h a = Some (first_or l2 None))
    (Hbody : forall l1 a l2 x h, inv l1 (a :: l2) x h -> wp safe (body a x) (inv (l1 ++ [a]) l2) h) :
  forall fuel l2 l1 x h, (length l2 < fuel)%nat -> inv l1 l2 x h ->
    wp safe (LL_FOREACH_SAFE2 body fuel (first_or l2 None) x) (inv (l1 ++ l2) []) h.
Proof.
  induction fuel as [|fuel IH]; intros l2 l1 x h Hf Hi; [lia|]. destruct l2 as [|a l2]; cbn [first_or LL_FOREACH_SAFE2].
  - rewrite app_nil_r. by apply wp_ret.
  - apply wp_bind. eapply wp_nx; [by eapply Hnext|]. apply wp_bind. eapply wp_mono; [by apply Hbody|].
    intros x' h' Hi'. rewrite cons_middle, app_assoc. apply IH; [cbn in Hf; lia|done].
Qed.

Lemma cdl_safe_spec last_node
    (Hnext : forall l1 a b l2 x h, inv l1 (a :: b :: l2) x h -> nx h a = Some (Some b) /\ a <> last_node)
    (Hlast : forall l1 a x h, inv l1 [a] x h -> is_Some (nx h a) /\ a = last_node)
    (Hbody : forall l1 a l2 x h, inv l1 (a :: l2) x h -> wp safe (body a x) (inv (l1 ++ [a]) l2) h) :
  forall fuel l2 l1 x h, (length l2 < fuel)%nat -> inv l1 l2 x h ->
    wp safe (cdl_safe_loop body fuel (Some last_node) (first_or l2 None) x) (inv (l1 ++ l2) []) h.
Proof.
  induction fuel as [|fuel IH]; intros l2 l1 x h Hf Hi; [lia|]. destruct l2 as [|a l2]; cbn [first_or cdl_safe_loop].
  - rewrite app_nil_r. by apply wp_ret.
  - assert (exists n, nx h a = Some n /\ (if bool_decide (Some a = Some last_node) then None else n) = first_or l2 None) as (n&Hn&E).
    { destruct l2 as [|b l2].
      - destruct (Hlast _ _ _ _ Hi) as [[n Hn] ->]. exists n. by rewrite bool_decide_true.
      - destruct (Hnext _ _ _ _ _ _ Hi) as [Hn Hne]. exists (Some b). by rewrite bool_decide_false by congruence. }
    apply wp_bind. eapply wp_nx; [exact Hn|]. apply wp_bind. eapply wp_mono; [by apply Hbody|].
    intros x' h' Hi'. rewrite E, cons_middle, app_assoc. apply IH; [cbn in Hf; lia|done].
Qed.
End loops.

(** ** Deleting in a loop *)

Section deleting.
Context (del : positive -> bool).

Definition keep (a : positive) : Prop := del a = false.
#[export] Instance keep_dec a : Decision (keep a).
Proof. unfold keep. apply _. Defined.

Lemma filter_snoc l1 a : filter keep (l1 ++ [a]) = filter keep l1 ++ (if del a then [] else [a]).
Proof.
  rewrite filter_app. f_equal. rewrite filter_cons. destruct (decide (keep a)) as [Hk|Hk]; unfold keep in Hk.
  - by rewrite Hk.
  - by destruct (del a).
Qed.

Lemma length_filter_le l : (length (filter keep l) <= length l)%nat.
Proof. apply length_filter. Qed.

(** The body of a loop that deletes the nodes [del] is true of. *)
Definition del_body (DELETE : ptr -> ptr -> M heap ptr) (a : positive) (head : ptr) : M heap ptr :=
  if del a then DELETE head (Some a) else mret head.

(** What is kept of a deletion in the loop. *)
Lemma del_body_spec (rep : heap -> ptr -> list positive -> Prop) DELETE l h0 :
  (forall l1 a l2 p h, (length l1 <= length l)%nat -> rep h p (l1 ++ a :: l2) -> wp safe (DELETE p (Some a)) (fun p' h' =>
     rep h' p' (l1 ++ l2) /\ only (l1 ++ a :: l2) h h') h) ->
  let inv l1 l2 p h := l1 ++ l2 = l /\ rep h p (filter keep l1 ++ l2) /\ only l h0 h in
  forall l1 a l2 p h, inv l1 (a :: l2) p h -> wp safe (del_body DELETE a p) (inv (l1 ++ [a]) l2) h.
Proof.
  intros HD inv l1 a l2 p h (El&Hrep&Ho). unfold del_body, inv. rewrite <-app_assoc, filter_snoc.
  destruct (del a) eqn:Ed.
  - rewrite app_nil_r. eapply wp_mono; [apply (HD (filter keep l1)); [|exact Hrep]|].
    + pose proof (length_filter_le l1). rewrite <-El, length_app. lia.
    + intros p' h' [H1 H2]. split_and!; [done..|]. eapply only_trans; [exact Ho|exact H2|]. intros b [Hb|Hb]; [done|].
      rewrite <-El, elem_of_app. apply elem_of_app in Hb as [[_ Hb]%list_elem_of_filter|Hb]; tauto.
  - apply wp_ret. rewrite <-app_assoc. by split_and!.
Qed.
End deleting.

(** A loop that is safe for deletion visits every node of a singly or doubly linked
    list once and in order, although its body deletes the nodes it is given: it
    always ends, and the list that is left has exactly the nodes that were not to be
    deleted, in their order, well formed. *)
Theorem foreach_safe_deletes dl (del : positive -> bool) fuel l p h : list_rep dl h p l -> (length l < fuel)%nat ->
  wp safe (LL_FOREACH_SAFE2 (del_body del (fun head a => if dl then DL_DELETE2 head a else LL_DELETE2 fuel head a)) fuel p p)
    (fun p' h' => list_rep dl h' p' (filter (fun a => del a = false) l) /\ forall a, a ∉ l -> h' !! a = h !! a) h.
Proof.
  intros Hrep Hf. set (DELETE := fun head a => _).
  set (inv := fun l1 l2 p' h' => l1 ++ l2 = l /\ list_rep dl h' p' (filter (keep del) l1 ++ l2) /\ only l h h').
  assert (p = first_or l None) as Ep by (eapply seg_first, Hrep).
  assert (wp safe (LL_FOREACH_SAFE2 (del_body del DELETE) fuel (first_or l None) p) (inv ([] ++ l) []) h) as H.
  { apply (foreach_safe_spec (del_body del DELETE) inv); [| |done|by split_and!].
    - intros l1 a l2 p' h' (_&(_&Hs&_)&_). by eapply seg_at.
    - eapply (del_body_spec del (fun h' p' l' => list_rep dl h' p' l')). intros l1 a l2 p' h' Hl1 Hr.
      apply delete_any_refines; [lia|done]. }
  rewrite <-Ep in H. eapply wp_mono; [exact H|]. intros p' h' (_&Hr&Ho). rewrite app_nil_r in Hr. by split.
Qed.

Lemma foreach_safe_deletes_witness :
  let h : heap := list_to_map [(2%positive, Node (Some 1%positive) (Some 1%positive)); (1%positive, Node (Some 2%positive) None)] in
  wp safe (LL_FOREACH_SAFE2 (del_body (fun _ => true) (fun head a => DL_DELETE2 head a)) 3 (Some 2%positive) (Some 2%positive))
    (fun p' h' => list_rep true h' p' []) h.
Proof.
  intros h. eapply wp_mono; [apply (foreach_safe_deletes true (fun _ => true) 3 [2; 1]%positive (Some 2%positive) h)|].
  - split; [apply (bool_decide_unpack _); vm_compute; exact I|]. split.
    + split; [done|]. eexists. split; [reflexivity|]. split; [done|]. by eexists.
    + split; [by eexists|]. split; [by eexists|done].
  - vm_compute. lia.
  - intros p' h' [H _]. exact H.
Defined.

(** The same of a circular list: the loop ends although the head, at which it would
    come round, may have been deleted. *)
Theorem cdl_foreach_safe_deletes (del : positive -> bool) fuel l p h : ring_rep h p l -> (length l < fuel)%nat ->
  wp safe (CDL_FOREACH_SAFE2 (del_body del CDL_DELETE2) fuel p p)
    (fun p' h' => ring_rep h' p' (filter (fun a => del a = false) l) /\ forall a, a ∉ l -> h' !! a = h !! a) h.
Proof.
  intros [-> Hr] Hf. unfold CDL_FOREACH_SAFE2. destruct l as [|x l].
  { destruct fuel; [lia|]. cbn. by apply wp_ret. }
  cbn [head null]. change (negb (null (Some x))) with true. cbv iota.
  pose proof (ring_at h [] x l Hr) as (_&_&Hx&_). pose proof Hr as (Hnd&_&[_ Hp])%ring_path.
  apply wp_bind. eapply wp_pv; [exact Hp|].
  set (L := x :: l) in *. set (z := end_of x l) in *. assert (last L = Some z) as Hz.
  { unfold L, z. rewrite last_cons. unfold end_of. by destruct (last l). }
  set (inv := fun l1 l2 p' h' => l1 ++ l2 = L /\ ring_rep h' p' (filter (keep del) l1 ++ l2) /\ only L h h').
  assert (wp safe (cdl_safe_loop (del_body del CDL_DELETE2) fuel (Some z) (first_or L None) (Some x)) (inv ([] ++ L) []) h) as H.
  { apply (cdl_safe_spec (del_body del CDL_DELETE2) inv z); [| | |done|by split_and!].
    - intros l1 a b l2 p' h' (El&[_ Hr']&_). split.
      + destruct (ring_at _ _ _ _ Hr') as (Hr2&_). cbn [app] in Hr2. apply ring_path in Hr2 as (_&[[Hn _] _]&_). exact Hn.
      + intros ->. rewrite <-El in Hz, Hnd. rewrite cons_middle, app_assoc, last_app in Hz.
        rewrite cons_middle, app_assoc in Hnd. apply NoDup_app in Hnd as (_&Hd&_). apply (Hd z); [apply elem_of_app; right; by left|].
        destruct (last (b :: l2)) as [c|] eqn:Ec; [|by apply last_None in Ec]. injection Hz as ->. by apply last_Some_elem_of.
    - intros l1 a p' h' (El&[_ Hr']&_). split; [by destruct (ring_at _ _ _ _ Hr') as (_&_&?&_)|].
      rewrite <-El, last_snoc in Hz. congruence.
    - eapply (del_body_spec del ring_rep). intros l1 a l2 p' h' _ [-> Hr']. by apply ring_delete_op. }
  eapply wp_mono; [exact H|]. intros p' h' (_&Hr'&Ho). rewrite app_nil_r in Hr'. by split.
Qed.

Lemma cdl_foreach_safe_deletes_witness :
  let h : heap := list_to_map [(2%positive, Node (Some 1%positive) (Some 1%positive)); (1%positive, Node (Some 2%positive) (Some 2%positive))] in
  wp safe (CDL_FOREACH_SAFE2 (del_body (Pos.eqb 2) CDL_DELETE2) 3 (Some 2%positive) (Some 2%positive))
    (fun p' h' => ring_rep h' p' [1%positive]) h.
Proof.
  intros h. eapply wp_mono; [apply (cdl_foreach_safe_deletes (Pos.eqb 2) 3 [2; 1]%positive (Some 2%positive) h)|].
  - split; [reflexivity|]. split; [apply (bool_decide_unpack _); vm_compute; exact I|].
    split; [split; reflexivity|]. split; [split; reflexivity|exact I].
  - vm_compute. lia.
  - intros p' h' [H _]. exact H.
Defined.

(** ** Without [decltype] *)

(** [LL_DELETE2] is the same with [head] as the pointer that walks. *)
Lemma delete_vs2008_same fuel head del h : LL_DELETE2_VS2008 fuel head del h = LL_DELETE2 fuel head del h.
Proof.
  unfold LL_DELETE2_VS2008, LL_DELETE2, mbind, M_bind. case_bool_decide; [done|].
  destruct (find_before fuel head del h) as [t h1| |]; [|done..]. destruct (get_next t h1) as [n h2| |]; [|done..].
  destruct (negb (null n)); [|done]. by destruct (get_next del h2).
Qed.

(** The walk leaves the last node in [a->next]. *)
Lemma append_walk_spec a fuel : forall l x h, (length l < fuel)%nat -> a ∉ x :: l -> seg h (Some x) (x :: l) None ->
  nx h a = Some (Some x) ->
  wp safe (append_walk fuel (Some a)) (fun _ h' => nx h' a = Some (last (x :: l)) /\
    (forall b, b <> a -> nx h' b = nx h b) /\ only [a] h h') h.
Proof.
  induction fuel as [|fuel IH]; intros l x h Hf Ha Hs Hn; [lia|]. cbn [append_walk].
  pose proof Hs as (_&Hx&Hs')%seg_cons. assert (x <> a) by (intros ->; apply Ha; by left).
  node_step. node_step. destruct l as [|y l]; cbn [first_or] in *; nulls.
  - by apply wp_ret.
  - apply wp_bind. eapply wp_nx_set; [by eexists|]. intros h1 H1 _ Ho1.
    eapply wp_mono; [apply (IH l y h1); [cbn in Hf; lia|by intros ?; apply Ha; right| |]|].
    + eapply seg_nx; [|exact Hs']. intros z Hz. rewrite H1, decide_False; [done|]. intros ->. apply Ha. by right.
    + by rewrite H1, decide_True.
    + intros [] h2 (H2&H3&Ho2). split; [by rewrite last_cons_cons|]. split.
      * intros b Hb. by rewrite H3, H1, decide_False.
      * intros b Hb. by rewrite (Ho2 b Hb), Ho1.
Qed.

(** [LL_APPEND2] without [decltype], which goes through the list in the next pointer of
    the new node, always ends and appends that node, like the other version. *)
Theorem append_vs2008 fuel a p l h : (length l <= fuel)%nat -> list_rep false h p l -> new_node h l a ->
  wp safe (LL_APPEND2_VS2008 fuel p (Some a)) (fun p' h' => list_rep false h' p' (l ++ [a]) /\
    forall b, b ∉ l ++ [a] -> h' !! b = h !! b) h.
Proof.
  intros Hf (Hnd&Hs&_) [Ha [na Hna]]. assert (is_Some (nx h a)) as Ha' by (unfold nx; rewrite Hna; by eexists).
  pose proof (NoDup_snoc l a Hnd Ha) as Hnd'. pose proof (seg_first _ _ _ _ Hs) as ->. unfold LL_APPEND2_VS2008.
  destruct l as [|x l]; cbn [first_or] in *; nulls.
  { do 3 node_step. split; [|only_tac]. split; [done|]. split; [|done]. apply seg_cons. split; [done|]. split; [field|done]. }
  destruct (exists_last (l := x :: l)) as (init&t&El); [done|].
  assert (t ∈ x :: l) as Ht by (rewrite El; apply elem_of_app; right; by left).
  assert (t <> a) by (intros ->; done). assert (is_Some (nx h t)) by (by eapply seg_alloc).
  assert (forall b, b ∈ init -> b ∈ x :: l) as Hinit by (intros b Hb; rewrite El; apply elem_of_app; by left).
  apply wp_bind. node_step. apply wp_bind. eapply wp_mono; [apply (append_walk_spec a fuel l x)|].
  - cbn in Hf. lia.
  - done.
  - eapply seg_nx; [|exact Hs]. apart.
  - field.
  - intros [] h2 (Hw&Hk&Ho2). rewrite El, last_snoc in Hw.
    assert (is_Some (nx h2 t)) by (rewrite Hk by done; field).
    node_step. node_step. node_step. node_step. node_step. split.
    + split; [done|]. split; [|done]. rewrite El. apply seg_snoc. split; [|field]. rewrite El in Hs, Hnd. apply seg_snoc in Hs as [Hs _].
      apply seg_snoc. split; [|field]. apply NoDup_app in Hnd as (_&Hd&_). eapply seg_nx; [|exact Hs]. intros z Hz.
      assert (z <> t) by (intros ->; apply (Hd t Hz); by left). assert (z <> a) by (intros ->; by apply Ha, Hinit).
      fields. rewrite Hk by done. fields. done.
    + only_tac.
Qed.

Lemma append_vs2008_witness :
  let h : heap := list_to_map [(2%positive, Node None (Some 1%positive)); (1%positive, Node None None); (3%positive, Node None None)] in
  wp safe (LL_APPEND2_VS2008 2 (Some 2%positive) (Some 3%positive)) (fun p' h' => list_rep false h' p' [2; 1; 3]%positive) h.
Proof.
  intros h. eapply wp_mono; [apply (append_vs2008 2 3 (Some 2%positive) [2; 1]%positive h)|].
  - auto.
  - split; [apply (bool_decide_unpack _); vm_compute; exact I|]. split; [|exact I].
    split; [done|]. eexists. split; [reflexivity|]. split; [done|]. by eexists.
  - split; [apply (bool_decide_unpack _); vm_compute; exact I|by eexists].
  - intros p' h' [H _]. exact H.
Defined.
