(* ===== verification/UthashLinks.v ===== *)
(** The links of a hash table of src/uthash/uthash.h: the list in insertion order
    ([prev], [next]) and the chains of its buckets ([hh_prev], [hh_next]), which are
    lists in Uthash; and [HASH_SORT], which relinks the former.

    The handles are the nodes of Utlist, one heap for each pair of links.  A pointer to
    an element and one to its handle, which lies at the same offset in every element,
    are the same here. *)

From stdpp Require Import sorting.
From S2P Require Import Prelude CLib Outcome Utlist ListRep UtlistSort UtlistProps Uthash.

#[local] Open Scope Z_scope.

(** ** The links in insertion order *)

(** What [HASH_ADD_KEYPTR] does to them: the head and [tbl->tail].  A new table has its
    tail set by [HASH_MAKE_TABLE]. *)
Definition app_add (head tail add : ptr) : M heap (ptr * ptr) :=
  _ ← set_next add None;
  if null head then _ ← set_prev add None; mret (add, add)
  else
    _ ← set_next tail add;
    _ ← set_prev add tail;
    mret (head, add).

(** What [HASH_DELETE] does to them; with the only element the table is freed. *)
Definition app_delete (head tail delptr : ptr) : M heap (ptr * ptr) :=
  p ← get_prev delptr; n ← get_next delptr;
  if null p && null n then mret (None, None) else
  tail ← (if bool_decide (delptr = tail) then get_prev delptr else mret tail);
  p ← get_prev delptr;
  head ← (if negb (null p) then n ← get_next delptr; _ ← set_next p n; mret head else get_next delptr);
  n ← get_next delptr;
  _ ← (if negb (null n) then p ← get_prev delptr; set_prev n p else mret ());
  mret (head, tail).

(** ** The chain of a bucket *)

Definition chain_add (hh_head addhh : ptr) : M heap ptr :=
  _ ← set_next addhh hh_head;
  _ ← set_prev addhh None;
  _ ← (if negb (null hh_head) then set_prev hh_head addhh else mret ());
  mret addhh.

Definition chain_delete (hh_head hh_del : ptr) : M heap ptr :=
  hh_head ← (if bool_decide (hh_head = hh_del) then get_next hh_del else mret hh_head);
  p ← get_prev hh_del;
  _ ← (if negb (null p) then n ← get_next hh_del; set_next p n else mret ());
  n ← get_next hh_del;
  _ ← (if negb (null n) then p ← get_prev hh_del; set_prev n p else mret ());
  mret hh_head.

(** [HASH_FIND_IN_BKT]; [key] gives the key of a handle. *)
Fixpoint find_in_bkt (key : positive -> list ascii) (keyptr : list ascii) (fuel : nat) (out : ptr) : M heap ptr :=
  match fuel with
  | O => no_fuel
  | S fuel =>
      match out with
      | None => mret None
      | Some a =>
          if (length (key a) =? length keyptr)%nat && bool_decide (key a = keyptr) then mret out else
          out ← get_next out; find_in_bkt key keyptr fuel out
      end
  end.

(** The two walks of [HASH_FSCK]: the number of handles, an [unsigned], or [None] for [HASH_OOPS]. *)
Fixpoint fsck_walk (fuel : nat) (prev thh : ptr) (count : Z) : M heap (option Z) :=
  match fuel with
  | O => no_fuel
  | S fuel =>
      if null thh then mret (Some count) else
      p ← get_prev thh;
      if negb (bool_decide (prev = p)) then mret None else
      n ← get_next thh;
      fsck_walk fuel thh n (u32 (count + 1))
  end.

(** ** [HASH_SORT] *)

(** [_hs_insize] is an [unsigned]. *)
Definition twice_unsigned (insize : nat) : option nat := Some (Z.to_nat (u32 (Z.of_nat (insize * 2)))).

(** The merge sort of Utlist; the first handle gets no previous one. *)
Definition HASH_kind : list_kind := ListKind true false close_next twice_unsigned.

Definition HASH_SRT (cmpfcn : positive -> positive -> Z) (fuel : nat) (head tail : ptr) : M heap (ptr * ptr) :=
  if negb (null head) then sort_loop cmpfcn HASH_kind fuel 1 head else mret (head, tail).

(** ** The lists *)

(** Handles linked both ways, from one without a previous to one without a next. *)
Definition chained (h : heap) (p : ptr) (l : list positive) : Prop := NoDup l /\ seg h p l None /\ prevs h None l.
(** The same with the tail of the table. *)
Definition app_rep (h : heap) (p tail : ptr) (l : list positive) : Prop := chained h p l /\ tail = last l.

Lemma chained_cons h p x l : chained h p (x :: l) <->
  NoDup (x :: l) /\ p = Some x /\ nx h x = Some (first_or l None) /\ pv h x = Some None /\
  seg h (first_or l None) l None /\ prevs h (Some x) l.
Proof. unfold chained. rewrite seg_cons, prevs_cons. tauto. Qed.

(** The handles before and behind one of a chain. *)
Lemma chained_at h p l1 a l2 : chained h p (l1 ++ a :: l2) <->
  NoDup (l1 ++ a :: l2) /\ seg h p l1 (Some a) /\ prevs h None l1 /\
  pv h a = Some (last l1) /\ nx h a = Some (first_or l2 None) /\
  seg h (first_or l2 None) l2 None /\ prevs h (Some a) l2.
Proof.
  unfold chained. rewrite seg_app, prevs_app. split.
  - intros (Hnd&(m&H1&H2)&H3&H4). apply seg_cons in H2 as (->&H5&H6). apply prevs_cons in H4 as [H7 H8].
    split_and!; try done. rewrite H7. unfold last_or. by destruct (last l1).
  - intros (Hnd&H1&H2&H3&H4&H5&H6). split; [done|]. split; [|split; [done|]].
    + exists (Some a). split; [done|]. by apply seg_cons.
    + apply prevs_cons. split; [|done]. rewrite H3. unfold last_or. by destruct (last l1).
Qed.

(** A handle is taken out. *)
Lemma chained_unlink h h' p l1 a l2 : chained h p (l1 ++ a :: l2) ->
  (forall b, b <> a -> nx h' b = if decide (Some b = last l1) then Some (first_or l2 None) else nx h b) ->
  (forall b, b <> a -> pv h' b = if decide (Some b = first_or l2 None) then Some (last l1) else pv h b) ->
  chained h' (first_or (l1 ++ l2) None) (l1 ++ l2).
Proof.
  intros (Hnd&Hs1&Hp1&_&_&Hs2&Hp2)%chained_at Hn Hp. pose proof Hnd as (H1&H2&H3&H4&H5)%nodup_parts.
  split; [by apply NoDup_app; split_and!|]. split.
  - apply seg_app. exists (first_or l2 None). split.
    + destruct l1 as [|t init _] using rev_ind; [done|]. apply seg_snoc in Hs1 as [Hs1 Ht].
      apply NoDup_app in H1 as (_&Hd&_). rewrite elem_of_app, list_elem_of_singleton in H3.
      assert (first_or ((init ++ [t]) ++ l2) None = p) as ->.
      { apply seg_first in Hs1. rewrite Hs1. by destruct init. }
      apply seg_snoc. split.
      * eapply seg_nx; [|exact Hs1]. intros x Hx. rewrite last_snoc in Hn. rewrite Hn, decide_False; [done| |by intros ->; apply H3; left].
        intros [= ->]. apply (Hd t Hx). by left.
      * rewrite last_snoc in Hn. rewrite Hn, decide_True; [done|done|]. intros ->. apply H3. by right.
    + eapply seg_nx; [|exact Hs2]. intros x Hx. rewrite Hn, decide_False; [done| |by intros ->].
      intros E. symmetry in E. apply last_Some_elem_of in E. by apply (H5 x).
  - apply prevs_app. split.
    + eapply prevs_pv; [|exact Hp1]. intros x Hx. rewrite Hp, decide_False; [done| |by intros ->].
      destruct l2 as [|y l2]; [done|]. intros [= ->]. apply (H5 y Hx). by left.
    + destruct l2 as [|y l2]; [done|]. apply prevs_cons in Hp2 as [Hy Hp2]. apply NoDup_cons in H2 as [Hy2 _]. apply prevs_cons. split.
      * rewrite Hp by (intros ->; apply H4; by left). rewrite decide_True by done. unfold last_or. by destruct (last l1).
      * eapply prevs_pv; [|exact Hp2]. intros x Hx. rewrite Hp, decide_False; [done| |intros ->; apply H4; by right].
        intros [= ->]. done.
Qed.

(** The last node of the part in front and the first one behind. *)
Lemma chained_around h p l1 a l2 : chained h p (l1 ++ a :: l2) ->
  pv h a = Some (last l1) /\ nx h a = Some (first_or l2 None) /\
  (forall t, last l1 = Some t -> t <> a /\ is_Some (nx h t) /\ t ∈ l1) /\
  (forall y, first_or l2 None = Some y -> y <> a /\ is_Some (nx h y) /\ y ∈ l2).
Proof.
  intros Hc. pose proof Hc as (Hnd&Hs1&_&Hpa&Hna&Hs2&_)%chained_at. apply nodup_parts in Hnd as (_&_&H3&H4&_).
  split_and!; [done..| |].
  - intros t Ht. apply last_Some_elem_of in Ht. split; [by intros ->|]. split; [|done]. eapply seg_alloc; [exact Hs1|done].
  - intros y Hy. assert (y ∈ l2) as Hin by (destruct l2; [done|]; injection Hy as ->; by left).
    split; [by intros ->|]. split; [|done]. eapply seg_alloc; [exact Hs2|done].
Qed.

Lemma chain_add_spec h p l a : chained h p l -> new_node h l a ->
  wp safe (chain_add p (Some a)) (fun p' h' => chained h' p' (a :: l) /\ only (a :: l) h h') h.
Proof.
  intros (Hnd&Hs&Hp) [Ha [na Hna]]. assert (is_Some (nx h a)) by (unfold nx; rewrite Hna; by eexists).
  pose proof (seg_first _ _ _ _ Hs) as ->. unfold chain_add. node_step. node_step. destruct l as [|x l]; cbn [first_or] in *; nulls.
  - do 2 node_step. split; [|only_tac]. apply chained_cons. split; [by apply NoDup_cons|]. split; [done|]. split; [field|]. split; [field|]. done.
  - assert (x <> a) by (intros ->; apply Ha; by left). pose proof Hp as [Hpx Hpl]%prevs_cons.
    assert (is_Some (nx h x)) by (eapply seg_alloc; [exact Hs|by left]).
    do 2 node_step. split; [|only_tac]. apply chained_cons. cbn [first_or]. split; [by apply NoDup_cons|]. split; [done|].
    split; [field|]. split; [field|]. split; [eapply seg_nx; [|exact Hs]; apart|]. apply prevs_cons. split; [field|].
    apply NoDup_cons in Hnd as [Hx _]. eapply prevs_pv; [|exact Hpl]. apart.
Qed.

Lemma chain_delete_spec h p l1 a l2 : chained h p (l1 ++ a :: l2) ->
  wp safe (chain_delete p (Some a)) (fun p' h' => chained h' p' (l1 ++ l2) /\ only (l1 ++ a :: l2) h h') h.
Proof.
  intros Hc. pose proof (chained_around _ _ _ _ _ Hc) as (Hpa&Hna&Ht&Hy). pose proof (chained_unlink h) as Hun.
  assert (p = first_or (l1 ++ a :: l2) None) as Ep by (by eapply seg_first, Hc). unfold chain_delete.
  assert (forall x, is_Some (nx h x) -> is_Some (pv h x)) as Halloc by (intros x; apply nx_pv).
  apply wp_bind. eapply (wp_mono _ _ (fun q h1 => h1 = h /\ q = first_or (l1 ++ l2) None)).
  { rewrite Ep. destruct l1 as [|x l1]; cbn [app first_or]; [rewrite ptr_eq; node_step; done|].
    rewrite ptr_neq; [by apply wp_ret|]. pose proof (proj1 Hc) as [Hx _]%NoDup_cons. intros ->. apply Hx, elem_of_app. right. by left. }
  intros q h1 [-> ->]. node_step. destruct (last l1) as [t|] eqn:Et.
  - destruct (Ht t eq_refl) as (Hta&Hnt&Hin). nulls. do 2 node_step. node_step. destruct (first_or l2 None) as [y|] eqn:Ey.
    + destruct (Hy y eq_refl) as (Hya&Hny&Hiny). nulls. do 3 node_step. split; [|only_tac].
      eapply Hun; [exact Hc|..]; rewrite ?Et, ?Ey; intros b Hb; fields; repeat case_decide; congruence.
    + nulls. do 2 node_step. split; [|only_tac].
      eapply Hun; [exact Hc|..]; rewrite ?Et, ?Ey; intros b Hb; fields; repeat case_decide; congruence.
  - nulls. do 2 node_step. destruct (first_or l2 None) as [y|] eqn:Ey.
    + destruct (Hy y eq_refl) as (Hya&Hny&Hiny). nulls. do 3 node_step. split; [|only_tac].
      eapply Hun; [exact Hc|..]; rewrite ?Et, ?Ey; intros b Hb; fields; repeat case_decide; congruence.
    + nulls. do 2 node_step. split; [|done].
      eapply Hun; [exact Hc|..]; rewrite ?Et, ?Ey; intros b Hb; fields; repeat case_decide; congruence.
Qed.

(** A handle is added at the end. *)
Lemma chained_snoc h h' p l a : chained h p l -> a ∉ l ->
  (forall b, nx h' b = if decide (b = a) then Some None else if decide (Some b = last l) then Some (Some a) else nx h b) ->
  (forall b, pv h' b = if decide (b = a) then Some (last l) else pv h b) ->
  chained h' (first_or l (Some a)) (l ++ [a]).
Proof.
  intros (Hnd&Hs&Hp) Ha Hn Hpv. pose proof (NoDup_snoc l a Hnd Ha) as Hnd'. pose proof (seg_first _ _ _ _ Hs) as ->.
  assert (forall b, b ∈ l -> b <> a) as Hba by (by intros b Hb ->).
  split; [exact Hnd'|]. split.
  - apply seg_snoc. split; [|by rewrite Hn, decide_True]. destruct l as [|t l _] using rev_ind; [done|].
    rewrite last_snoc in Hn. apply seg_snoc in Hs as [Hs _]. apply NoDup_app in Hnd as (_&Hd&_). apply seg_snoc. split.
    + replace (first_or (l ++ [t]) (Some a)) with (first_or (l ++ [t]) None) by (by destruct l). eapply seg_nx; [|exact Hs].
      intros b Hb. rewrite Hn, !decide_False; [done| |apply Hba, elem_of_app; by left]. intros [= ->]. apply (Hd t Hb). by left.
    + rewrite Hn, decide_False, decide_True; [done..|]. apply Hba, elem_of_app. right. by left.
  - apply prevs_app. split.
    + eapply prevs_pv; [|exact Hp]. intros b Hb. rewrite Hpv, decide_False; [done|]. by apply Hba.
    + apply prevs_cons. split; [|done]. rewrite Hpv, decide_True by done. unfold last_or. by destruct (last l).
Qed.

(** The last handle of a chain can be written to. *)
Lemma chained_last h p l t : chained h p l -> last l = Some t -> is_Some (nx h t) /\ t ∈ l.
Proof. intros (_&Hs&_) Ht. apply last_Some_elem_of in Ht. split; [|done]. by eapply seg_alloc. Qed.

Lemma app_add_spec h p tail l a : app_rep h p tail l -> new_node h l a ->
  wp safe (app_add p tail (Some a)) (fun '(p', tail') h' => app_rep h' p' tail' (l ++ [a]) /\ only (l ++ [a]) h h') h.
Proof.
  intros [Hc ->] [Ha [na Hna]]. assert (is_Some (nx h a)) by (unfold nx; rewrite Hna; by eexists).
  assert (p = first_or l None) as Ep by (by eapply seg_first, Hc).
  unfold app_add, app_rep. rewrite last_snoc. pose proof (chained_snoc h) as Hsn.
  destruct (last l) as [t|] eqn:Et.
  - destruct (chained_last _ _ _ _ Hc Et) as [Hnt Hin]. assert (t <> a) by (by intros ->).
    assert (first_or l None = first_or l (Some a)) as Ef by (by destruct l). destruct l as [|x l0] eqn:El; [done|]. cbn [first_or] in *. subst p.
    nulls. do 4 node_step. rewrite <-El in *. split; [|only_tac]. split; [|done].
    replace (Some x) with (first_or l (Some a)) by (by rewrite El). eapply Hsn; [exact Hc|done|..]; rewrite Et; intros b; fields; repeat case_decide; congruence.
  - apply last_None in Et as ->. cbn [first_or] in Ep. subst p. nulls. do 3 node_step. split; [|only_tac]. split; [|done].
    eapply (Hsn _ None []); [exact Hc|done|..]; intros b; cbn [last]; fields; repeat case_decide; congruence.
Qed.

Lemma app_delete_spec h p tail l1 a l2 : app_rep h p tail (l1 ++ a :: l2) ->
  wp safe (app_delete p tail (Some a)) (fun '(p', tail') h' => app_rep h' p' tail' (l1 ++ l2) /\ only (l1 ++ a :: l2) h h') h.
Proof.
  intros [Hc ->]. pose proof (chained_around _ _ _ _ _ Hc) as (Hpa&Hna&Ht&Hy). pose proof (chained_unlink h) as Hun.
  assert (p = first_or (l1 ++ a :: l2) None) as Ep by (by eapply seg_first, Hc). unfold app_delete, app_rep.
  assert (forall x, is_Some (nx h x) -> is_Some (pv h x)) as Halloc by (intros x; apply nx_pv).
  node_step. node_step. destruct l1 as [|x l1 _] using rev_ind; destruct l2 as [|y l2].
  - nulls. apply wp_ret. split; [|done]. split; [|done]. split; [constructor|done].
  - cbn [last first_or] in *. nulls. destruct (Hy y eq_refl) as (Hya&Hny&Hiny).
    assert (bool_decide (Some a = last (a :: y :: l2)) = false) as Eb.
    { apply bool_decide_eq_false. rewrite last_cons_cons. intros E. symmetry in E. apply last_Some_elem_of in E.
      destruct Hc as [[Hx _]%NoDup_cons _]. done. }
    cbn [app] in *. rewrite Eb. nulls. do 2 node_step. nulls. do 2 node_step. nulls. do 3 node_step. split; [|only_tac]. split; [|by rewrite last_cons_cons].
    eapply (Hun _ _ [] a (y :: l2)); [exact Hc|..]; cbn [last first_or]; intros b Hb; fields; repeat case_decide; congruence.
  - rewrite last_snoc in *. cbn [first_or] in *. nulls. destruct (Ht x eq_refl) as (Hta&Hnt&Hin).
    rewrite last_snoc, ptr_eq, app_nil_r. nulls. do 2 node_step. nulls. do 4 node_step. nulls. do 2 node_step. split; [|only_tac].
    split; [|by rewrite last_snoc]. subst p. replace (first_or ((l1 ++ [x]) ++ [a]) None) with (first_or ((l1 ++ [x]) ++ []) None) by (by destruct l1).
    rewrite <-(app_nil_r (l1 ++ [x])) at 2.
    eapply Hun; [exact Hc|..]; rewrite last_snoc; cbn [first_or]; intros b Hb; fields; repeat case_decide; congruence.
  - rewrite last_snoc in *. cbn [first_or] in *. nulls. destruct (Ht x eq_refl) as (Hta&Hnt&Hin). destruct (Hy y eq_refl) as (Hya&Hny&Hiny).
    assert (last ((l1 ++ [x]) ++ a :: y :: l2) = last ((l1 ++ [x]) ++ y :: l2)) as El by by rewrite !last_app, last_cons_cons.
    assert (bool_decide (Some a = last ((l1 ++ [x]) ++ a :: y :: l2)) = false) as Eb.
    { apply bool_decide_eq_false. rewrite El, last_app. destruct (last (y :: l2)) as [z|] eqn:Ez; [|by apply last_None in Ez].
      intros [= <-]. apply last_Some_elem_of in Ez. destruct Hc as [(_&_&[Hx _]%NoDup_cons)%NoDup_app _]. done. }
    rewrite Eb. nulls. do 2 node_step. nulls. do 4 node_step. nulls. do 3 node_step. split; [|only_tac].
    split; [|exact El]. subst p. replace (first_or ((l1 ++ [x]) ++ a :: y :: l2) None) with (first_or ((l1 ++ [x]) ++ y :: l2) None) by (by destruct l1).
    eapply Hun; [exact Hc|..]; rewrite last_snoc; cbn [first_or]; intros b Hb; fields; repeat case_decide; congruence.
Qed.

(** The walk checks every back pointer and counts the handles. *)
Lemma fsck_walk_spec fuel : forall l pr p c h, (length l < fuel)%nat -> seg h p l None -> prevs h pr l ->
  fsck_walk fuel pr p (u32 c) h = Ok (Some (u32 (c + Z.of_nat (length l)))) h.
Proof.
  induction fuel as [|fuel IH]; intros l pr p c h Hf Hs Hp; [lia|]. destruct l as [|x l]; cbn [fsck_walk].
  - cbn in Hs. subst p. cbn. by rewrite Z.add_0_r.
  - apply seg_cons in Hs as (->&Hx&Hs). apply prevs_cons in Hp as [Hpx Hp]. nulls.
    assert (get_prev (Some x) h = Ok pr h) as E1.
    { unfold pv in Hpx. destruct (h !! x) as [nd|] eqn:Ex; [|done]. injection Hpx as <-.
      unfold get_prev, load_node, mbind, M_bind, get. cbn. by rewrite Ex. }
    assert (get_next (Some x) h = Ok (first_or l None) h) as E2.
    { unfold nx in Hx. destruct (h !! x) as [nd|] eqn:Ex; [|done]. injection Hx as E. by rewrite (get_next_eq x nd) by done; rewrite E. }
    unfold mbind, M_bind. rewrite E1, ptr_eq. cbn [negb]. rewrite E2. rewrite (u32_succ _ c) by done. rewrite IH with (l := l); [|cbn in Hf; lia|done|done].
    do 3 f_equal. cbn [length]. lia.
Qed.

Lemma find_in_bkt_search key keyptr fuel : forall p h,
  find_in_bkt key keyptr fuel p h = LL_SEARCH2 (fun a => bool_decide (key a = keyptr)) fuel p h.
Proof.
  induction fuel as [|fuel IH]; intros p h; [done|]. cbn [find_in_bkt LL_SEARCH2]. destruct p as [a|]; [|done].
  assert ((length (key a) =? length keyptr)%nat && bool_decide (key a = keyptr) = bool_decide (key a = keyptr)) as ->.
  { destruct (bool_decide_reflect (key a = keyptr)) as [->|]; [by rewrite Nat.eqb_refl|by rewrite andb_false_r]. }
  case_bool_decide; [done|]. unfold mbind, M_bind. destruct (get_next (Some a) h); [|done..]. apply IH.
Qed.

(** ** Properties *)

Inductive link_op := Link_add (a : positive) | Link_delete (a : positive).
Definition link_node (op : link_op) : positive := match op with Link_add a | Link_delete a => a end.
Definition can_link (h : heap) (l : list positive) (op : link_op) : Prop :=
  match op with Link_add a => new_node h l a | Link_delete a => a ∈ l end.

Definition run_app (op : link_op) (p tail : ptr) : M heap (ptr * ptr) :=
  match op with Link_add a => app_add p tail (Some a) | Link_delete a => app_delete p tail (Some a) end.
Definition run_chain (op : link_op) (p : ptr) : M heap ptr :=
  match op with Link_add a => chain_add p (Some a) | Link_delete a => chain_delete p (Some a) end.

(** What Uthash makes of the two lists. *)
Definition items_op (op : link_op) (l : list positive) : list positive :=
  match op with Link_add a => l ++ [a] | Link_delete a => filter (fun b => b <> a) l end.
Definition chain_op (op : link_op) (l : list positive) : list positive :=
  match op with Link_add a => a :: l | Link_delete a => filter (fun b => b <> a) l end.

(** The links of a table do what Uthash does with lists: adding and deleting an
    element leaves a doubly linked list of the right handles in the right order, in
    the insertion order (with the tail of the table at its last handle) as in the chain
    of a bucket, and touches no other handle.  The checks of [HASH_FSCK] on both then succeed
    and count all handles, and [HASH_FIND_IN_BKT] finds the first handle of its key. *)
Theorem links_refine op h p tail l fuel (key : positive -> list ascii) keyptr :
  app_rep h p tail l -> can_link h l op -> (length l < fuel)%nat ->
  wp safe (run_app op p tail) (fun '(p', tail') h' => app_rep h' p' tail' (items_op op l) /\
    forall a, a ∉ link_node op :: l -> h' !! a = h !! a) h /\
  wp safe (run_chain op p) (fun p' h' => chained h' p' (chain_op op l) /\
    forall a, a ∉ link_node op :: l -> h' !! a = h !! a) h /\
  fsck_walk fuel None p 0 h = Ok (Some (u32 (Z.of_nat (length l)))) h /\
  find_in_bkt key keyptr fuel p h = Ok (head (filter (fun a => key a = keyptr) l)) h.
Proof.
  intros Hrep Hcan Hf. pose proof Hrep as [Hc Htail]. pose proof Hc as (Hnd&Hs&Hp). split_and!.
  - destruct op as [a|a]; cbn [can_link run_app items_op link_node] in *.
    + eapply wp_mono; [by apply app_add_spec|]. intros [p' tail'] h' [H1 H2]. split; [done|]. intros b Hb. apply H2.
      rewrite elem_of_app, list_elem_of_singleton. rewrite elem_of_cons in Hb. tauto.
    + apply list_elem_of_split in Hcan as (l1&l2&->). rewrite filter_delete by done.
      eapply wp_mono; [by apply app_delete_spec|]. intros [p' tail'] h' [H1 H2]. split; [done|]. intros b Hb. apply H2.
      rewrite elem_of_cons in Hb. tauto.
  - destruct op as [a|a]; cbn [can_link run_chain chain_op link_node] in *.
    + by apply chain_add_spec.
    + apply list_elem_of_split in Hcan as (l1&l2&->). rewrite filter_delete by done.
      eapply wp_mono; [by apply chain_delete_spec|]. intros p' h' [H1 H2]. split; [done|]. intros b Hb. apply H2.
      rewrite elem_of_cons in Hb. tauto.
  - by apply (fsck_walk_spec fuel l None p 0).
  - rewrite find_in_bkt_search. rewrite (search_spec _ fuel l) by done. do 2 f_equal. apply list_filter_iff. intros a. by rewrite bool_decide_eq_true.
Qed.

Lemma links_refine_witness :
  let h : heap := list_to_map [(1%positive, Node None (Some 2%positive)); (2%positive, Node (Some 1%positive) None); (3%positive, Node None None)] in
  wp safe (run_app (Link_add 3) (Some 1%positive) (Some 2%positive)) (fun '(p', tail') h' => app_rep h' p' tail' [1; 2; 3]%positive) h.
Proof.
  intros h. eapply wp_mono; [apply (links_refine (Link_add 3) h (Some 1%positive) (Some 2%positive) [1; 2]%positive 3 (fun _ => []) [])|].
  - split; [|reflexivity]. split; [apply (bool_decide_unpack _); vm_compute; exact I|]. split.
    + split; [done|]. eexists. split; [reflexivity|]. split; [done|]. by eexists.
    + split; [by eexists|]. split; [by eexists|done].
  - split; [apply (bool_decide_unpack _); vm_compute; exact I|by eexists].
  - vm_compute. lia.
  - intros [p' tail'] h' [H _]. exact H.
Defined.

(** *** Sorting *)

Definition hash_rep (h : heap) (p tail : ptr) (l : list positive) : Prop := seg h p l None /\ prevs h None l.

#[export] Instance HASH_laws : KindLaws HASH_kind hash_rep.
Proof.
  split.
  - intros h ls tail l Hnd Hne Hout. exact (close_next_spec true h ls tail l Hnd Hne Hout).
  - intros h p tail l _ _ [Hs _]. by apply seg_iseg_None.
  - intros k Hk. cbn. unfold twice_unsigned, u32, INT_MAX in *. f_equal. rewrite Z.mod_small by lia. by rewrite Nat2Z.id.
Qed.

(** The table with its items in another order. *)
Definition with_items (t : UT_hash_table) (l : list UT_hash_handle) : UT_hash_table :=
  {| items := l; buckets := buckets t; log2_num_buckets := log2_num_buckets t; num_items := num_items t;
     ineff_expands := ineff_expands t; noexpand := noexpand t |}.

Lemma with_items_wf HASH_FCN t l : l ≡ₚ items t -> ut_wf HASH_FCN (Some t) -> ut_wf HASH_FCN (Some (with_items t l)).
Proof.
  intros Hl (Hne&Hnd&Hn&Hh&Hb). unfold with_items. split_and!; cbn.
  - intros ->. by apply Permutation_nil in Hl.
  - by rewrite Hl.
  - by rewrite Hl.
  - by rewrite Hl.
  - eapply buckets_wf_perm; [|exact Hb]. intros x. by rewrite Hl.
Qed.

(** C39: [HASH_SORT] with a comparison that is a total preorder always ends.  It gives the
    table another insertion order: the same elements, ascending, equal ones as they
    were, with the head and the tail of the table at the first and the last.  The
    table stays well formed and every key is found as before, since the buckets
    are not touched. *)
Theorem hash_srt_sorts (HASH_FCN : list ascii -> Z) cmp fuel (t : UT_hash_table) p tail h :
  (forall a b, cmp_le cmp a b \/ cmp_le cmp b a) -> (forall a b c, cmp_le cmp a b -> cmp_le cmp b c -> cmp_le cmp a c) ->
  ut_wf HASH_FCN (Some t) -> app_rep h p tail (hh_id <$> items t) ->
  2 * Z.of_nat (length (items t)) <= INT_MAX -> (2 * length (items t) + 3 <= fuel)%nat ->
  wp safe (HASH_SRT cmp fuel p tail) (fun '(p', tail') h' => exists l', l' ≡ₚ items t /\
    app_rep h' p' tail' (hh_id <$> l') /\ StronglySorted (cmp_le cmp) (hh_id <$> l') /\
    (forall a, filter (same_class cmp a) (hh_id <$> l') = filter (same_class cmp a) (hh_id <$> items t)) /\
    ut_wf HASH_FCN (Some (with_items t l')) /\
    (forall key, HASH_FIND HASH_FCN (Some (with_items t l')) key = HASH_FIND HASH_FCN (Some t) key) /\
    forall a, a ∉ (hh_id <$> items t) -> h' !! a = h !! a) h.
Proof.
  intros Htot Htr Hwf [(Hnd&Hs&Hp) ->] Hmax Hf. pose proof Hwf as (Hne&_). set (L := hh_id <$> items t) in *.
  assert (length L = length (items t)) as El by apply length_fmap. assert (L <> []) as HL by (unfold L; by destruct (items t)).
  unfold HASH_SRT. assert (null p = false) as -> by (destruct L; [done|by destruct Hs as [-> _]]). cbn [negb].
  eapply wp_mono.
  { apply (sort_loop_spec cmp HASH_kind Htot Htr fuel 1 p L); [done|done|by apply seg_iseg_None|apply runs_one| |lia|by rewrite El].
    destruct L; [done|cbn; lia]. }
  intros [p' tail'] h' (L'&Hsort&[Hs' Hp']&->&Honly). pose proof Hsort as (Hperm&H1&H2).
  destruct (Permutation_map_inv hh_id (items t) Hperm) as (l'&EL&Hl'). change (map hh_id l') with (hh_id <$> l') in EL. rewrite EL in *.
  exists l'. split; [by symmetry|]. split; [split; [split; [by rewrite Hperm|by split]|done]|].
  split; [by eapply sorted_strongly|]. split; [done|]. split; [by apply with_items_wf|]. split; [done|exact Honly].
Qed.

Lemma hash_srt_sorts_witness :
  let t := default HASH_MAKE_TABLE (HASH_ADD HASH_JEN (HASH_ADD HASH_JEN None 2 (lit "b")) 1 (lit "a")) in
  let h : heap := list_to_map [(2%positive, Node None (Some 1%positive)); (1%positive, Node (Some 2%positive) None)] in
  wp safe (HASH_SRT (fun a b => Z.pos a - Z.pos b) 7 (Some 2%positive) (Some 1%positive)) (fun '(p', tail') h' => exists l',
    l' ≡ₚ items t /\ app_rep h' p' tail' (hh_id <$> l')) h.
Proof.
  intros t h. eapply wp_mono; [apply (hash_srt_sorts HASH_JEN (fun a b => Z.pos a - Z.pos b) 7 t)|].
  - unfold cmp_le. lia.
  - unfold cmp_le. lia.
  - apply (HASH_ADD_spec HASH_JEN (HASH_ADD HASH_JEN None 2 (lit "b")) 1 (lit "a")).
    + apply (HASH_ADD_spec HASH_JEN None 2 (lit "b")); [exact I|apply (bool_decide_unpack _); vm_compute; exact I].
    + apply (bool_decide_unpack _). vm_compute. exact I.
  - change (hh_id <$> items t) with [2; 1]%positive. split; [|reflexivity]. split; [apply (bool_decide_unpack _); vm_compute; exact I|]. split.
    + split; [done|]. eexists. split; [reflexivity|]. split; [done|]. by eexists.
    + split; [by eexists|]. split; [by eexists|done].
  - vm_compute. discriminate.
  - vm_compute. lia.
  - intros [p' tail'] h' (l'&H1&H2&_). by exists l'.
Defined.
