(* ===== verification/UthashFsck.v ===== *)
(** The hash tables of src/uthash/uthash.h on real links: [HASH_ADD], [HASH_DEL],
    [HASH_FIND], bucket expansion, and the integrity check [HASH_FSCK] of debugging
    builds with its comparisons of the back pointers.

    The handles of the elements are in three heaps: their links in insertion order,
    their links in the buckets (both as in UthashLinks), and their keys and hash
    values. *)

From S2P Require Import Prelude CLib Outcome Utlist ListRep UtlistProps Uthash UthashLinks.

#[local] Open Scope Z_scope.

(** ** Memory *)

Record memory := Memory { app : heap; hhs : heap; handles : gmap positive (list ascii * Z) }.

Definition on_app {A} (m : M heap A) : M memory A := fun w =>
  match m (app w) with
  | Ok a h => Ok a (Memory h (hhs w) (handles w))
  | Undef h => Undef (Memory h (hhs w) (handles w))
  | NoFuel => NoFuel
  end.
Definition on_hh {A} (m : M heap A) : M memory A := fun w =>
  match m (hhs w) with
  | Ok a h => Ok a (Memory (app w) h (handles w))
  | Undef h => Undef (Memory (app w) h (handles w))
  | NoFuel => NoFuel
  end.

(** [hashv] of a handle. *)
Definition get_hashv (a : positive) : M memory Z := hs ← get handles; kv ← demand (hs !! a); mret kv.2.
Definition set_key (a : positive) (key : list ascii) (hashv : Z) : M memory () :=
  modify (fun w => Memory (app w) (hhs w) (<[a := (key, hashv)]> (handles w))).

(** ** Tables *)

Record link_bucket := LinkBucket { hh_head : ptr; b_count : Z; b_expand_mult : Z }.

Record link_table := LinkTable {
  t_buckets : list link_bucket;
  t_log2_num_buckets : Z;
  t_num_items : Z;
  t_tail : ptr;
  t_ineff_expands : Z;
  t_noexpand : bool
}.

(** The pointer to the first element, and the table its handle points to. *)
Abbreviation link_head := (option (ptr * link_table)).

Definition make_table (tail : ptr) : link_table :=
  {| t_buckets := replicate (2 ^ Z.to_nat HASH_INITIAL_NUM_BUCKETS_LOG2) (LinkBucket None 0 0);
     t_log2_num_buckets := HASH_INITIAL_NUM_BUCKETS_LOG2;
     t_num_items := 0; t_tail := tail; t_ineff_expands := 0; t_noexpand := false |}.

(** What the expansion does to the links of one handle. *)
Definition push_moved (newbkt_head _he_thh : ptr) : M heap ptr :=
  _ ← set_prev _he_thh None;
  _ ← set_next _he_thh newbkt_head;
  _ ← (if negb (null newbkt_head) then set_prev newbkt_head _he_thh else mret ());
  mret _he_thh.

(** [while (_he_thh)]: one old bucket.  A division by zero is undefined. *)
Fixpoint expand_walk (nb ideal : Z) (fuel : nat) (_he_thh : ptr) (bs : list link_bucket) (nonideal : Z)
    : M memory (list link_bucket * Z) :=
  match fuel with
  | O => no_fuel
  | S fuel =>
      match _he_thh with
      | None => mret (bs, nonideal)
      | Some a =>
          _he_hh_nxt ← on_hh (get_next _he_thh);
          hashv ← get_hashv a;
          let i := HASH_TO_BKT hashv nb in
          b ← demand (bs !! i);
          let c := u32 (b_count b + 1) in
          let over := ideal <? c in
          mult ← (if over then if ideal =? 0 then undef else mret (c / ideal) else mret (b_expand_mult b));
          hd ← on_hh (push_moved (hh_head b) _he_thh);
          expand_walk nb ideal fuel _he_hh_nxt (<[i := LinkBucket hd c mult]> bs)
            (if over then u32 (nonideal + 1) else nonideal)
      end
  end.

Fixpoint expand_loop (nb ideal : Z) (fuel : nat) (old : list link_bucket) (bs : list link_bucket) (nonideal : Z)
    : M memory (list link_bucket * Z) :=
  match old with
  | [] => mret (bs, nonideal)
  | b :: old =>
      '(bs, nonideal) ← expand_walk nb ideal fuel (hh_head b) bs nonideal;
      expand_loop nb ideal fuel old bs nonideal
  end.

(** With 2^31 buckets the shift is by 32 bits, and undefined. *)
Definition expand_buckets (fuel : nat) (t : link_table) : M memory link_table :=
  if 31 <=? t_log2_num_buckets t then undef else
  let nb := Z.of_nat (length (t_buckets t)) * 2 in
  let ideal := Z.shiftr (t_num_items t) (t_log2_num_buckets t + 1) +
               (if Z.land (t_num_items t) (nb - 1) =? 0 then 0 else 1) in
  '(bs, nonideal) ← expand_loop nb ideal fuel (t_buckets t) (replicate (2 * length (t_buckets t)) (LinkBucket None 0 0)) 0;
  let ineff := if Z.shiftr (t_num_items t) 1 <? nonideal then u32 (t_ineff_expands t + 1) else 0 in
  mret {| t_buckets := bs; t_log2_num_buckets := t_log2_num_buckets t + 1; t_num_items := t_num_items t;
          t_tail := t_tail t; t_ineff_expands := ineff; t_noexpand := t_noexpand t || (1 <? ineff) |}.

Definition add_to_bkt (fuel : nat) (t : link_table) (i : nat) (addhh : ptr) : M memory link_table :=
  b ← demand (t_buckets t !! i);
  hd ← on_hh (chain_add (hh_head b) addhh);
  let c := u32 (b_count b + 1) in
  let t' := {| t_buckets := <[i := LinkBucket hd c (b_expand_mult b)]> (t_buckets t);
               t_log2_num_buckets := t_log2_num_buckets t; t_num_items := t_num_items t;
               t_tail := t_tail t; t_ineff_expands := t_ineff_expands t; t_noexpand := t_noexpand t |} in
  if (u32 ((b_expand_mult b + 1) * HASH_BKT_CAPACITY_THRESH) <=? c) && negb (t_noexpand t)
  then expand_buckets fuel t' else mret t'.

Section links.
Variable HASH_FCN : list ascii -> Z.

Definition HASH_ADD_KEYPTR (fuel : nat) (head : link_head) (add : positive) (keyptr : list ascii) : M memory link_head :=
  '(p, tail) ← on_app (app_add (default None (fst <$> head)) (default None (t_tail ∘ snd <$> head)) (Some add));
  let t := default (make_table tail) (snd <$> head) in
  let hashv := HASH_FCN keyptr in
  _ ← set_key add keyptr hashv;
  let t := {| t_buckets := t_buckets t; t_log2_num_buckets := t_log2_num_buckets t;
              t_num_items := u32 (t_num_items t + 1); t_tail := tail;
              t_ineff_expands := t_ineff_expands t; t_noexpand := t_noexpand t |} in
  t ← add_to_bkt fuel t (HASH_TO_BKT hashv (Z.of_nat (length (t_buckets t)))) (Some add);
  mret (Some (p, t)).

(** [HASH_FIND]: the address of the element. *)
Definition find_elt (fuel : nat) (head : link_head) (keyptr : list ascii) : M memory ptr :=
  match head with
  | None => mret None
  | Some (_, t) =>
      b ← demand (t_buckets t !! HASH_TO_BKT (HASH_FCN keyptr) (Z.of_nat (length (t_buckets t))));
      hs ← get handles;
      on_hh (find_in_bkt (fun a => default [] (fst <$> hs !! a)) keyptr fuel (hh_head b))
  end.
End links.

(** The head must not be [NULL]; the test for the only element is made again in
    [app_delete]. *)
Definition HASH_DELETE (head : link_head) (delptr : positive) : M memory link_head :=
  '(p, t) ← demand head;
  pr ← on_app (get_prev (Some delptr)); n ← on_app (get_next (Some delptr));
  if null pr && null n then mret None else
  '(p, tail) ← on_app (app_delete p (t_tail t) (Some delptr));
  hashv ← get_hashv delptr;
  let i := HASH_TO_BKT hashv (Z.of_nat (length (t_buckets t))) in
  b ← demand (t_buckets t !! i);
  hd ← on_hh (chain_delete (hh_head b) (Some delptr));
  mret (Some (p, {| t_buckets := <[i := LinkBucket hd (u32 (b_count b - 1)) (b_expand_mult b)]> (t_buckets t);
                    t_log2_num_buckets := t_log2_num_buckets t; t_num_items := u32 (t_num_items t - 1);
                    t_tail := tail; t_ineff_expands := t_ineff_expands t; t_noexpand := t_noexpand t |})).

(** ** [HASH_FSCK] *)

(** The buckets: their back pointers ([hh_prev]), each count, and the sum of the counts; [None]
    for [HASH_OOPS]. *)
Fixpoint fsck_buckets (fuel : nat) (bs : list link_bucket) (_count : Z) : M memory (option Z) :=
  match bs with
  | [] => mret (Some _count)
  | b :: bs =>
      r ← on_hh (fsck_walk fuel None (hh_head b) 0);
      match r with
      | None => mret None
      | Some _bkt_count =>
          if b_count b =? _bkt_count then fsck_buckets fuel bs (u32 (_count + _bkt_count)) else mret None
      end
  end.

(** [false] for [HASH_OOPS]. *)
Definition HASH_FSCK (fuel : nat) (head : link_head) : M memory bool :=
  match head with
  | None => mret true
  | Some (p, t) =>
      r ← fsck_buckets fuel (t_buckets t) 0;
      match r with
      | None => mret false
      | Some _count =>
          if negb (_count =? t_num_items t) then mret false else
          r ← on_app (fsck_walk fuel None p 0);
          match r with
          | None => mret false
          | Some _count => mret (_count =? t_num_items t)
          end
      end
  end.

(** The calls of Uthash, with the check that debugging builds make behind each one. *)
Definition link_step (HASH_FCN : list ascii -> Z) (fuel : nat) (head : link_head) (op : ut_op) : M memory link_head :=
  match op with
  | OpAdd key id =>
      f ← find_elt HASH_FCN fuel head key;
      match f with None => HASH_ADD_KEYPTR HASH_FCN fuel head id key | Some _ => mret head end
  | OpDel key =>
      f ← find_elt HASH_FCN fuel head key;
      match f with None => mret head | Some a => HASH_DELETE head a end
  end.

Fixpoint link_run (HASH_FCN : list ascii -> Z) (fuel : nat) (ops : list ut_op) (head : link_head) : M memory (link_head * bool) :=
  match ops with
  | [] => mret (head, true)
  | op :: ops =>
      head ← link_step HASH_FCN fuel head op;
      ok ← HASH_FSCK fuel head;
      if ok : bool then link_run HASH_FCN fuel ops head else mret (head, false)
  end.

(** ** Lifting *)

Lemma wp_on_app {A} U (m : M heap A) Q w :
  wp safe m (fun a h => Q a (Memory h (hhs w) (handles w))) (app w) -> wp U (on_app m) Q w.
Proof. unfold wp, on_app. by destruct (m (app w)). Qed.
Lemma wp_on_hh {A} U (m : M heap A) Q w :
  wp safe m (fun a h => Q a (Memory (app w) h (handles w))) (hhs w) -> wp U (on_hh m) Q w.
Proof. unfold wp, on_hh. by destruct (m (hhs w)). Qed.
Lemma wp_get_hashv U a key hashv Q w : handles w !! a = Some (key, hashv) -> Q hashv w -> wp U (get_hashv a) Q w.
Proof. intros E HQ. unfold get_hashv. apply wp_bind, wp_get, wp_bind, (wp_demand _ _ (key, hashv)); done. Qed.

Lemma memory_eta w : Memory (app w) (hhs w) (handles w) = w.
Proof. by destruct w. Qed.

(** ** The representation *)

Abbreviation ids := (fmap (M:=list) hh_id).

Definition bucket_rep (h : heap) (lb : link_bucket) (b : UT_hash_bucket) : Prop :=
  chained h (hh_head lb) (ids (chain b)) /\ b_count lb = count b /\ b_expand_mult lb = expand_mult b.
Definition buckets_rep (h : heap) : list link_bucket -> list UT_hash_bucket -> Prop := Forall2 (bucket_rep h).

(** Each handle has its key and hash value. *)
Definition keyed (w : memory) (l : list UT_hash_handle) : Prop :=
  forall x, x ∈ l -> handles w !! hh_id x = Some (hh_key x, hh_hashv x).

(** The buckets and the counters of a table. *)
Definition tbl_rep (h : heap) (lt : link_table) (t : UT_hash_table) : Prop :=
  buckets_rep h (t_buckets lt) (buckets t) /\ t_log2_num_buckets lt = log2_num_buckets t /\
  t_num_items lt = num_items t /\ t_ineff_expands lt = ineff_expands t /\ t_noexpand lt = noexpand t.

Definition table_rep (w : memory) (lh : link_head) (head : ut_head) : Prop :=
  match lh, head with
  | None, None => True
  | Some (p, lt), Some t =>
      app_rep (app w) p (t_tail lt) (ids (items t)) /\ keyed w (items t) /\ tbl_rep (hhs w) lt t
  | _, _ => False
  end.

Lemma chained_frame h h' p l : (forall a, a ∈ l -> h' !! a = h !! a) -> chained h p l -> chained h' p l.
Proof.
  intros Hf (Hnd&Hs&Hp). split; [done|]. split.
  - eapply seg_nx; [|exact Hs]. intros x Hx. unfold nx. by rewrite Hf.
  - eapply prevs_pv; [|exact Hp]. intros x Hx. unfold pv. by rewrite Hf.
Qed.

(** One bucket changes; the others keep their handles. *)
Lemma buckets_rep_insert h h' lbs bs i lb b : buckets_rep h lbs bs -> bucket_rep h' lb b ->
  (forall j c, j <> i -> bs !! j = Some c -> forall x, x ∈ chain c -> h' !! hh_id x = h !! hh_id x) ->
  buckets_rep h' (<[i := lb]> lbs) (<[i := b]> bs).
Proof.
  intros Hrep Hb Hf. apply Forall2_same_length_lookup. rewrite !length_insert. split; [by eapply Forall2_length|].
  intros j lc c Hlc Hc. apply list_lookup_insert_Some in Hc as [(<-&<-&Hlt)|[Hne Hc]].
  - rewrite list_lookup_insert_eq in Hlc; [by injection Hlc as <-|]. by rewrite (Forall2_length _ _ _ Hrep).
  - rewrite list_lookup_insert_ne in Hlc by done. destruct (Forall2_lookup_lr _ _ _ _ _ _ Hrep Hlc Hc) as (H1&H2).
    split; [|done]. eapply chained_frame; [|exact H1]. intros a (x&->&Hx)%list_elem_of_fmap. by eapply (Hf j).
Qed.

Lemma buckets_rep_lookup h lbs bs i b : buckets_rep h lbs bs -> bs !! i = Some b ->
  exists lb, lbs !! i = Some lb /\ bucket_rep h lb b.
Proof. intros Hrep Hb. by apply (Forall2_lookup_r _ _ _ _ _ Hrep Hb). Qed.

(** Different buckets have no handle in common. *)
Lemma buckets_apart bs k l i j b c x : buckets_wf bs k l -> NoDup (ids l) -> bs !! i = Some b -> bs !! j = Some c ->
  j <> i -> x ∈ chain c -> hh_id x ∉ ids (chain b).
Proof.
  intros (_&_&Hb) Hnd Ei Ej Hne Hx (y&E&Hy)%list_elem_of_fmap.
  apply (Hb _ _ Ej) in Hx as [Hx Hxj]. apply (Hb _ _ Ei) in Hy as [Hy Hyi].
  assert (x = y) as -> by (by eapply (NoDup_fmap_inj hh_id l)). congruence.
Qed.

Lemma bucket_sub bs k l i b x : buckets_wf bs k l -> bs !! i = Some b -> x ∈ chain b -> x ∈ l.
Proof. intros (_&_&Hb) Ei Hx. by apply (Hb _ _ Ei) in Hx as [? _]. Qed.

(** ** Expansion *)

Lemma push_moved_spec h p l a : chained h p l -> new_node h l a ->
  wp safe (push_moved p (Some a)) (fun p' h' => chained h' p' (a :: l) /\ only (a :: l) h h') h.
Proof.
  intros (Hnd&Hs&Hp) [Ha [na Hna]]. assert (is_Some (nx h a)) by (unfold nx; rewrite Hna; by eexists).
  pose proof (seg_first _ _ _ _ Hs) as ->. unfold push_moved. node_step. node_step. destruct l as [|x l]; cbn [first_or] in *; nulls.
  - do 2 node_step. split; [|only_tac]. apply chained_cons. split; [by apply NoDup_cons|]. split; [done|]. split; [field|]. split; [field|]. done.
  - assert (x <> a) by (intros ->; apply Ha; by left). pose proof Hp as [Hpx Hpl]%prevs_cons.
    assert (is_Some (nx h x)) by (eapply seg_alloc; [exact Hs|by left]).
    do 2 node_step. split; [|only_tac]. apply chained_cons. cbn [first_or]. split; [by apply NoDup_cons|]. split; [done|].
    split; [field|]. split; [field|]. split; [eapply seg_nx; [|exact Hs]; apart|]. apply prevs_cons. split; [field|].
    apply NoDup_cons in Hnd as [Hx _]. eapply prevs_pv; [|exact Hpl]. apart.
Qed.

Lemma expand_walk_spec k ideal fuel : ideal <> 0 -> forall l p lbs bs n l0 w,
  buckets_wf bs k l0 -> NoDup (ids (l0 ++ l)) -> buckets_rep (hhs w) lbs bs -> seg (hhs w) p (ids l) None ->
  keyed w l -> (length l < fuel)%nat ->
  wp safe (expand_walk (2 ^ k) ideal fuel p lbs n) (fun r w' =>
    buckets_rep (hhs w') r.1 (foldl (expand_one (2 ^ k) ideal) (bs, n) l).1 /\
    r.2 = (foldl (expand_one (2 ^ k) ideal) (bs, n) l).2 /\
    app w' = app w /\ handles w' = handles w /\ only (ids (l0 ++ l)) (hhs w) (hhs w')) w.
Proof.
  intros Hi. induction fuel as [|fuel IH]; intros l p lbs bs n l0 w Hwf Hnd Hrep Hs Hk Hf; [lia|].
  cbn [expand_walk]. destruct l as [|x l].
  { cbn in Hs. subst p. by apply wp_ret. }
  cbn [fmap list_fmap] in Hs. apply seg_cons in Hs as (->&Hx&Hs).
  destruct (buckets_wf_lookup bs k l0 (hh_hashv x) Hwf) as [b Eb].
  destruct (buckets_rep_lookup _ _ _ _ _ Hrep Eb) as (lb&Elb&Hc&Ec&Em).
  assert (hh_id x ∉ ids l0) as Hx0.
  { rewrite fmap_app in Hnd. apply NoDup_app in Hnd as (_&Hd&_). intros Hin. apply (Hd _ Hin). by left. }
  assert (x ∉ l0) as Hx1 by (intros Hin; apply Hx0, list_elem_of_fmap; by exists x).
  assert (NoDup (ids l0)) as Hnd0 by (rewrite fmap_app in Hnd; by apply NoDup_app in Hnd as [? _]).
  assert (forall y, y ∈ chain b -> y ∈ l0) as Hsub by (intros y; by eapply bucket_sub).
  apply wp_bind, wp_on_hh. eapply wp_nx; [exact Hx|]. rewrite memory_eta.
  apply wp_bind. eapply wp_get_hashv; [by apply Hk; left|]. cbv zeta.
  apply wp_bind, (wp_demand _ _ lb); [exact Elb|]. rewrite Ec, Em.
  set (c := u32 (count b + 1)). set (over := ideal <? c). set (m := if over then c / ideal else expand_mult b).
  apply wp_bind. apply (wp_mono _ _ (fun mult w' => mult = m /\ w' = w)).
  { unfold m. destruct over; [|by apply wp_ret]. destruct (Z.eqb_spec ideal 0); [done|by apply wp_ret]. }
  intros ? ? [-> ->]. apply wp_bind, wp_on_hh.
  eapply wp_mono; [apply (push_moved_spec (hhs w) (hh_head lb) (ids (chain b)) (hh_id x)); [exact Hc|]|].
  { split; [|destruct (hhs w !! hh_id x) eqn:E; [by eexists|unfold nx in Hx; by rewrite E in Hx]].
    intros (y&Ey&Hy)%list_elem_of_fmap. apply Hx0. rewrite Ey. apply list_elem_of_fmap. eauto. }
  intros hd h' [Hc' Ho]. rewrite fmap_app in Hnd. cbn [fmap list_fmap] in Hnd.
  assert (forall y, y ∈ l -> h' !! hh_id y = hhs w !! hh_id y) as Hl.
  { intros y Hy. apply Ho. apply NoDup_app in Hnd as (_&Hd&[Hxl _]%NoDup_cons). rewrite elem_of_cons. intros [E|(z&Ez&Hz)%list_elem_of_fmap].
    - apply Hxl. rewrite <-E. by apply list_elem_of_fmap_2.
    - apply (Hd (hh_id y)); [rewrite Ez; by apply list_elem_of_fmap_2, Hsub|]. right. by apply list_elem_of_fmap_2. }
  eapply wp_mono; [apply (IH l _ _ (<[HASH_TO_BKT (hh_hashv x) (2 ^ k) := Bucket (x :: chain b) c m]> bs) _ (l0 ++ [x]))|]; cbn [hhs app handles].
  - by apply buckets_wf_push.
  - by rewrite <-app_assoc, fmap_app.
  - eapply buckets_rep_insert; [exact Hrep|by split|]. intros j e Hj Ej y Hy. apply Ho. rewrite elem_of_cons. intros [E|Hin].
    + apply Hx0. rewrite <-E. apply list_elem_of_fmap_2. by eapply bucket_sub.
    + by eapply (buckets_apart bs k l0 _ j b e y).
  - eapply seg_nx; [|exact Hs]. intros a (y&->&Hy)%list_elem_of_fmap. unfold nx. by rewrite Hl.
  - intros y Hy. apply Hk. by right.
  - cbn in Hf. lia.
  - intros r w' (H1&H2&H3&H4&H5). cbn [foldl expand_one]. rewrite Eb. fold c over m. rewrite <-app_assoc in H5.
    split_and!; [exact H1|exact H2|done..|]. intros a Ha. rewrite H5 by done. apply Ho. intros Hin. apply Ha.
    rewrite fmap_app, elem_of_app. apply elem_of_cons in Hin as [->|(y&->&Hy)%list_elem_of_fmap]; [right; by left|].
    left. by apply list_elem_of_fmap_2, Hsub.
Qed.

(** The old buckets, of which only the next links still matter. *)
Definition old_rep (h : heap) : list link_bucket -> list UT_hash_bucket -> Prop :=
  Forall2 (fun lb b => seg h (hh_head lb) (ids (chain b)) None).

Lemma old_rep_frame h h' lold : forall old, (forall x, x ∈ mjoin (chain <$> old) -> h' !! hh_id x = h !! hh_id x) ->
  old_rep h lold old -> old_rep h' lold old.
Proof.
  induction lold as [|lb lold IH]; intros old Hf Ho.
  { apply Forall2_nil_inv_l in Ho as ->. constructor. }
  apply Forall2_cons_inv_l in Ho as (b&old'&Hb&Ho&->). constructor.
  - eapply seg_nx; [|exact Hb]. intros a (x&->&Hx)%list_elem_of_fmap. unfold nx. rewrite Hf; [done|].
    apply elem_of_app. by left.
  - apply IH; [|done]. intros x Hx. apply Hf, elem_of_app. by right.
Qed.

Lemma expand_loop_spec k ideal fuel : ideal <> 0 -> forall old lold lbs bs n l0 w,
  buckets_wf bs k l0 -> NoDup (ids (l0 ++ mjoin (chain <$> old))) -> buckets_rep (hhs w) lbs bs ->
  old_rep (hhs w) lold old ->
  keyed w (mjoin (chain <$> old)) -> (length (mjoin (chain <$> old)) < fuel)%nat ->
  wp safe (expand_loop (2 ^ k) ideal fuel lold lbs n) (fun r w' =>
    buckets_rep (hhs w') r.1 (foldl (expand_one (2 ^ k) ideal) (bs, n) (mjoin (chain <$> old))).1 /\
    r.2 = (foldl (expand_one (2 ^ k) ideal) (bs, n) (mjoin (chain <$> old))).2 /\
    app w' = app w /\ handles w' = handles w /\ only (ids (l0 ++ mjoin (chain <$> old))) (hhs w) (hhs w')) w.
Proof.
  intros Hi. induction old as [|b old IH]; intros lold lbs bs n l0 w Hwf Hnd Hrep Hold Hk Hf.
  { apply Forall2_nil_inv_r in Hold as ->. by apply wp_ret. }
  apply Forall2_cons_inv_r in Hold as (lb&lold'&Hb&Hold&->). cbn [expand_loop].
  change (mjoin (chain <$> b :: old)) with (chain b ++ mjoin (chain <$> old)) in *.
  set (L := chain b) in *. set (rest := mjoin (chain <$> old)) in *.
  rewrite app_assoc in Hnd. assert (NoDup (ids (l0 ++ L))) as Hnd1 by (rewrite fmap_app in Hnd; by apply NoDup_app in Hnd as [? _]).
  rewrite length_app in Hf. rewrite foldl_app. apply wp_bind.
  eapply wp_mono.
  { apply (expand_walk_spec k ideal fuel Hi L); [exact Hwf|done|done|done| |lia]. intros y Hy. apply Hk, elem_of_app. by left. }
  intros [lbs1 n1] w1 (H1&H2&H3&H4&H5). cbn [fst snd] in *.
  pose proof (expand_fold_wf k ideal L bs n l0 Hwf) as Hwf1.
  destruct (foldl (expand_one (2 ^ k) ideal) (bs, n) L) as [bs1 n1'] eqn:Ef. cbn [fst snd] in *. subst n1'.
  eapply wp_mono.
  { apply (IH _ lbs1 bs1 n1 (l0 ++ L)).
    - apply Hwf1; [rewrite fmap_app in Hnd1; apply NoDup_app in Hnd1 as (_&_&H); by apply NoDup_fmap_1 in H|].
      intros x Hx Hx0. rewrite fmap_app in Hnd1. apply NoDup_app in Hnd1 as (_&Hd&_).
      by apply (Hd (hh_id x)); apply list_elem_of_fmap_2.
    - exact Hnd.
    - exact H1.
    - eapply old_rep_frame; [|exact Hold]. intros y Hy. apply H5. intros Hin. rewrite fmap_app in Hnd.
      apply NoDup_app in Hnd as (_&Hd&_). by apply (Hd _ Hin), list_elem_of_fmap_2.
    - intros y Hy. rewrite H4. apply Hk, elem_of_app. by right.
    - fold rest. lia. }
  intros [lbs2 n2] w2 (G1&G2&G3&G4&G5). rewrite <-app_assoc in G5. split_and!; [done|done|congruence..|].
  intros a Ha. rewrite G5 by done. apply H5. intros Hin. apply Ha. rewrite app_assoc, fmap_app, elem_of_app. by left.
Qed.

Lemma ideal_nonzero n k : 0 < n -> 0 <= k -> Z.shiftr n k + (if Z.land n (2 ^ k - 1) =? 0 then 0 else 1) <> 0.
Proof.
  intros Hn Hk. rewrite Z.sub_1_r, <-Z.ones_equiv, Z.land_ones, Z.shiftr_div_pow2 by done.
  assert (0 < 2 ^ k) by (apply Z.pow_pos_nonneg; lia). pose proof (Z.div_pos n (2 ^ k)).
  pose proof (Z.div_mod n (2 ^ k)). destruct (Z.eqb_spec (n mod 2 ^ k) 0); nia.
Qed.

Lemma expand_buckets_spec fuel lt t l w : tbl_rep (hhs w) lt t -> buckets_wf (buckets t) (log2_num_buckets t) l ->
  NoDup (ids l) -> keyed w l -> 0 < num_items t -> (length l < fuel)%nat ->
  wp (fun _ => 31 <= log2_num_buckets t) (expand_buckets fuel lt) (fun lt' w' =>
    tbl_rep (hhs w') lt' (HASH_EXPAND_BUCKETS t) /\ t_tail lt' = t_tail lt /\
    app w' = app w /\ handles w' = handles w /\ only (ids l) (hhs w) (hhs w')) w.
Proof.
  intros (Hb&Hlog&Hnum&Hin&Hno) Hwf Hnd Hk Hpos Hf. destruct (buckets_wf_join _ _ _ Hwf) as [Hj1 Hj2].
  pose proof Hwf as (Hk0&Hlen&_). pose proof (Forall2_length _ _ _ Hb) as Hl.
  assert (mjoin (chain <$> buckets t) ≡ₚ l) as Hperm.
  { apply NoDup_Permutation; [done|by eapply NoDup_fmap_1|done]. }
  unfold expand_buckets, HASH_EXPAND_BUCKETS, num_buckets. rewrite Hlog, Hnum, Hin, Hno, Hl, Hlen.
  destruct (Z.leb_spec 31 (log2_num_buckets t)) as [H31|H31]; [exact H31|]. cbv zeta.
  set (k := log2_num_buckets t) in *. replace (2 ^ k * 2) with (2 ^ (k + 1)) by (rewrite Z.pow_add_r by lia; lia).
  pose proof (ideal_nonzero (num_items t) (k + 1) Hpos ltac:(lia)) as Hi. set (ideal := _ + _) in *.
  apply wp_bind. apply (wp_undef_mono _ safe); [|done].
  eapply wp_mono.
  { apply (expand_loop_spec (k + 1) ideal fuel Hi (buckets t) _ _ (replicate (2 * length (buckets t)) empty_bucket) 0 []).
    - replace (2 * length (buckets t))%nat with (Z.to_nat (2 ^ (k + 1))) by (rewrite Z.pow_add_r by lia; lia).
      apply buckets_wf_empty. lia.
    - cbn [app]. by rewrite Hperm.
    - apply Forall2_replicate. by split; [split; [constructor|]|].
    - eapply Forall2_impl; [exact Hb|]. intros lb b [(_&Hs&_) _]. exact Hs.
    - intros x Hx. by apply Hk, Hj2.
    - by rewrite Hperm. }
  intros [lbs n] w' (H1&H2&H3&H4&H5). cbn [fst snd app] in *.
  destruct (foldl _ _ _) as [bs n'] eqn:Ef. cbn [fst snd] in *. subst n'. apply wp_ret.
  split; [by split_and!|]. split; [done|]. split; [done|]. split; [done|]. intros a Ha. apply H5. by rewrite Hperm.
Qed.

Lemma add_to_bkt_spec fuel lt t l x w : tbl_rep (hhs w) lt t -> buckets_wf (buckets t) (log2_num_buckets t) l ->
  NoDup (ids (l ++ [x])) -> keyed w (l ++ [x]) -> is_Some (hhs w !! hh_id x) -> 0 < num_items t -> (S (length l) < fuel)%nat ->
  let i := HASH_TO_BKT (hh_hashv x) (num_buckets t) in
  wp (fun _ => 31 <= log2_num_buckets t) (add_to_bkt fuel lt i (Some (hh_id x))) (fun lt' w' =>
    tbl_rep (hhs w') lt' (HASH_ADD_TO_BKT t i x) /\ t_tail lt' = t_tail lt /\
    app w' = app w /\ handles w' = handles w /\ only (ids (l ++ [x])) (hhs w) (hhs w')) w.
Proof.
  intros (Hb&Hlog&Hnum&Hin&Hno) Hwf Hnd Hk Hal Hpos Hf i. pose proof Hnd as Hnd'. rewrite fmap_app in Hnd'.
  apply NoDup_app in Hnd' as (Hnd0&Hd&_). assert (hh_id x ∉ ids l) as Hx by (intros H; apply (Hd _ H); by left).
  assert (x ∉ l) as Hx' by (intros H; by apply Hx, list_elem_of_fmap_2).
  unfold i. rewrite (num_buckets_wf t _ _ Hwf). destruct (buckets_wf_lookup _ _ _ (hh_hashv x) Hwf) as [b Eb].
  destruct (buckets_rep_lookup _ _ _ _ _ Hb Eb) as (lb&Elb&Hc&Ec&Em). unfold add_to_bkt, HASH_ADD_TO_BKT. rewrite Eb.
  apply wp_bind, (wp_demand _ _ lb); [exact Elb|]. rewrite Ec, Em, Hno, Hlog, Hnum, Hin. apply wp_bind, wp_on_hh.
  eapply wp_mono; [apply (chain_add_spec (hhs w) (hh_head lb) (ids (chain b)) (hh_id x)); [exact Hc|]|].
  { split; [|done]. intros (y&Ey&Hy)%list_elem_of_fmap. apply Hx. rewrite Ey. apply list_elem_of_fmap_2. by eapply bucket_sub. }
  intros hd h' [Hc' Ho]. cbv zeta. set (lt1 := LinkTable _ _ _ _ _ _). cbn [count expand_mult].
  set (t1 := Table _ (<[_:=_]> _) _ _ _ _).
  assert (only (ids (l ++ [x])) (hhs w) h') as Ho'.
  { intros a Ha. apply Ho. intros Hin'. apply Ha. rewrite fmap_app, elem_of_app.
    apply elem_of_cons in Hin' as [->|(y&->&Hy)%list_elem_of_fmap]; [right; by left|left].
    apply list_elem_of_fmap_2. by eapply bucket_sub. }
  assert (tbl_rep h' lt1 t1) as Hrep1.
  { split_and!; try done. eapply buckets_rep_insert; [exact Hb|by split|]. intros j e Hj Ej y Hy. apply Ho.
    rewrite elem_of_cons. intros [E|H].
    - apply Hx. rewrite <-E. apply list_elem_of_fmap_2. by eapply bucket_sub.
    - by eapply (buckets_apart _ _ l _ j b e y). }
  case_match.
  - eapply wp_mono; [apply (expand_buckets_spec fuel lt1 t1 (l ++ [x])); cbn [hhs handles app]; try done|].
    + by apply buckets_wf_push.
    + rewrite length_app. cbn. lia.
    + intros lt' w' (H1&H2&H3&H4&H5). cbn [hhs handles app] in *. split_and!; try done. intros a Ha. rewrite H5 by done. by apply Ho'.
  - apply wp_ret. by split_and!.
Qed.

(** ** The operations *)

(** [2^31] buckets, where the expansion is undefined. *)
Definition full (head : ut_head) : Prop := match head with Some t => 31 <= log2_num_buckets t | None => False end.

(** Only the handles of [l] are changed. *)
Definition frame (l : list positive) (w w' : memory) : Prop := only l (app w) (app w') /\ only l (hhs w) (hhs w').

Lemma HASH_ADD_TO_BKT_items t i x : items (HASH_ADD_TO_BKT t i x) = items t.
Proof. unfold HASH_ADD_TO_BKT. destruct (buckets t !! i); [|done]. case_match; [by rewrite HASH_EXPAND_BUCKETS_items|done]. Qed.

Section laws.
Context (HASH_FCN : list ascii -> Z).
Local Abbreviation wf := (ut_wf HASH_FCN).
Local Abbreviation nitems head := (length (HASH_ITER head)).

Lemma add_keyptr_spec fuel lh head id key w : table_rep w lh head -> wf head -> id ∉ ids (HASH_ITER head) ->
  is_Some (app w !! id) -> is_Some (hhs w !! id) -> (S (nitems head) < fuel)%nat -> Z.of_nat (nitems head) + 1 < 4294967296 ->
  wp (fun _ => full head) (HASH_ADD_KEYPTR HASH_FCN fuel lh id key) (fun lh' w' =>
    table_rep w' lh' (HASH_ADD HASH_FCN head id key) /\ frame (ids (HASH_ITER head) ++ [id]) w w') w.
Proof.
  intros Hrep Hwf Hid Ha Hh Hf Hmax. pose proof (ut_wf_default HASH_FCN head Hwf) as (Hnd&Hn&Hhv&Hb).
  set (x := Handle id key (HASH_FCN key)). set (t := default HASH_MAKE_TABLE head) in *.
  assert (HASH_ITER head = items t) as Hit by (by destruct head). rewrite Hit in *.
  assert (app_rep (app w) (default None (fst <$> lh)) (default None (t_tail ∘ snd <$> lh)) (ids (items t)) /\ keyed w (items t) /\
    forall tail, tbl_rep (hhs w) (default (make_table tail) (snd <$> lh)) t) as (Happ&Hk&Htbl).
  { destruct lh as [[p lt]|], head as [t0|]; cbn in Hrep |- *; try done.
    - destruct Hrep as (H1&H2&H3). by split_and!.
    - split; [by split; [split; [constructor|]|]|]. split; [by intros y ?%elem_of_nil|]. intros tail. split; [|done].
      apply Forall2_replicate. by split; [split; [constructor|]|]. }
  unfold HASH_ADD_KEYPTR. apply wp_bind, wp_on_app.
  eapply wp_mono; [by apply app_add_spec|]. intros [p' tail'] ha [Hr Ho].
  apply wp_bind, wp_modify. cbn [app hhs handles]. cbv zeta. specialize (Htbl tail').
  set (lt := default (make_table tail') (snd <$> lh)) in *. pose proof Htbl as (Hbk&_&Hnum&_). cbn [t_buckets].
  rewrite (Forall2_length _ _ _ Hbk). unfold HASH_ADD. fold t x. cbv zeta. cbn [hh_hashv].
  set (t1 := Table (items t ++ [x]) _ _ _ _ _). set (lt1 := LinkTable _ _ _ _ _ _).
  assert (keyed (Memory ha (hhs w) (<[id:=(key, HASH_FCN key)]> (handles w))) (items t ++ [x])) as Hk'.
  { intros y [Hy|Hy%list_elem_of_singleton]%elem_of_app; cbn [handles].
    - rewrite lookup_insert_ne; [by apply Hk|]. intros ->. by apply Hid, list_elem_of_fmap_2.
    - subst y. by rewrite lookup_insert_eq. }
  apply wp_bind. eapply wp_mono.
  { apply (wp_undef_mono _ (fun _ => 31 <= log2_num_buckets t)).
    - apply (add_to_bkt_spec fuel lt1 t1 (items t) x); cbn [hhs].
      + destruct Htbl as (?&?&E&?&?). split_and!; try done. cbn. by rewrite E.
      + exact Hb.
      + rewrite fmap_app. by apply NoDup_snoc.
      + exact Hk'.
      + exact Hh.
      + cbn. rewrite (u32_succ _ _ Hn). unfold u32. rewrite Z.mod_small; lia.
      + lia.
    - intros _ Hfull. unfold full, t in *. destruct head; [done|]. by vm_compute in Hfull. }
  intros lt' w' (H1&H2&H3&H4&H5). apply wp_ret. cbn [hhs app handles] in *. split.
  - cbn [table_rep]. rewrite HASH_ADD_TO_BKT_items. cbn [items t1]. rewrite fmap_app, H2, H3. split; [exact Hr|]. split; [|exact H1].
    intros y Hy. rewrite H4. by apply Hk'.
  - rewrite fmap_app in H5. split; [rewrite H3; exact Ho|exact H5].
Qed.

(** The first handle of a key is that of the first element. *)
Lemma find_ids (ks : positive -> list ascii) key l : (forall x, x ∈ l -> ks (hh_id x) = hh_key x) ->
  head (filter (fun a => ks a = key) (ids l)) = hh_id ∘ snd <$> list_find (fun x => hh_key x = key) l.
Proof.
  induction l as [|x l IH]; intros Hk; [done|]. cbn [fmap list_fmap list_find]. rewrite filter_cons.
  rewrite (Hk x) by by left. case_decide; [done|]. rewrite IH by (intros y Hy; apply Hk; by right).
  by destruct (list_find _ l) as [[]|].
Qed.

Lemma find_elt_spec fuel lh head key w : table_rep w lh head -> wf head -> (nitems head < fuel)%nat ->
  find_elt HASH_FCN fuel lh key w = Ok (hh_id <$> HASH_FIND HASH_FCN head key) w.
Proof.
  intros Hrep Hwf Hf. destruct lh as [[p lt]|], head as [t|]; try done. destruct Hrep as (_&Hk&Hbk&_). destruct Hwf as (_&Hnd&_&_&Hb).
  unfold find_elt, HASH_FIND. rewrite (Forall2_length _ _ _ Hbk). fold (num_buckets t). cbn [mbind option_bind].
  rewrite (num_buckets_wf t _ _ Hb). destruct (buckets_wf_lookup _ _ _ (HASH_FCN key) Hb) as [b Eb].
  destruct (buckets_rep_lookup _ _ _ _ _ Hbk Eb) as (lb&Elb&(Hnc&Hs&_)&_). rewrite Elb, Eb.
  unfold mbind, M_bind, demand, get, mret, M_ret, on_hh. rewrite find_in_bkt_search.
  assert (forall x, x ∈ chain b -> x ∈ items t) as Hsub by (intros x; by eapply bucket_sub).
  rewrite (search_spec _ fuel (ids (chain b))); [|rewrite length_fmap|exact Hs].
  - rewrite memory_eta. f_equal.
    rewrite (list_filter_iff _ (fun a => default [] (fst <$> handles w !! a) = key)) by (intros a; by rewrite bool_decide_eq_true).
    rewrite find_ids; [cbn [option_bind]; by destruct (list_find _ (chain b)) as [[]|]|].
    intros x Hx. by rewrite (Hk x) by by apply Hsub.
  - apply Nat.le_lt_trans with (nitems (Some t)); [|done]. cbn [HASH_ITER]. apply submseteq_length, NoDup_submseteq; [|done].
    by eapply NoDup_fmap_1.
Qed.

Lemma filter_ids l1 x l2 : NoDup (ids (l1 ++ x :: l2)) -> filter (fun y => hh_id y <> hh_id x) (l1 ++ x :: l2) = l1 ++ l2.
Proof.
  rewrite fmap_app. intros (_&H1&[H2 _]%NoDup_cons)%NoDup_app. rewrite filter_app, filter_cons_False by (intros H; by apply H).
  rewrite !filter_all; [done|apply Forall_forall..].
  - intros y Hy E. apply H2. rewrite <-E. by apply list_elem_of_fmap_2.
  - intros y Hy E. apply (H1 (hh_id y)); [by apply list_elem_of_fmap_2|]. rewrite E. by left.
Qed.

Lemma alter_insert (g : UT_hash_bucket -> UT_hash_bucket) (i : nat) (bs : list UT_hash_bucket) b : bs !! i = Some b -> alter g i bs = <[i := g b]> bs.
Proof.
  intros E. apply list_eq. intros j. destruct (decide (j = i)) as [->|].
  - rewrite list_lookup_alter_eq, E, list_lookup_insert_eq; [done|]. by eapply lookup_lt_Some.
  - by rewrite list_lookup_alter_ne, list_lookup_insert_ne.
Qed.

Lemma delete_spec lh head x w : table_rep w lh head -> wf head -> x ∈ HASH_ITER head ->
  wp safe (HASH_DELETE lh (hh_id x)) (fun lh' w' =>
    table_rep w' lh' (HASH_DEL head x) /\ frame (ids (HASH_ITER head)) w w') w.
Proof.
  destruct head as [t|]; [|by intros _ _ ?%elem_of_nil]. destruct lh as [[p lt]|]; [|done].
  intros (Happ&Hk&Hbk&Hlog&Hnum&Hin&Hno) (_&Hnd&_&_&Hb) Hx. cbn [HASH_ITER] in *. unfold HASH_DELETE. cbn [demand].
  apply wp_bind, wp_ret. pose proof Hx as (l1&l2&El)%list_elem_of_split. rewrite El, fmap_app in Happ. cbn [fmap list_fmap] in Happ.
  destruct (chained_around _ _ _ _ _ (proj1 Happ)) as (Hpv&Hnx&_).
  apply wp_bind, wp_on_app. eapply wp_pv; [exact Hpv|]. rewrite memory_eta.
  apply wp_bind, wp_on_app. eapply wp_nx; [exact Hnx|]. rewrite memory_eta.
  unfold HASH_DEL. cbn [mbind option_bind].
  assert (null (last (ids l1)) && null (first_or (ids l2) None) = bool_decide (length (items t) = 1%nat)) as ->.
  { rewrite El, length_app. destruct l1 as [|y l1 _] using rev_ind; [by destruct l2|].
    rewrite fmap_app. cbn [fmap list_fmap]. rewrite last_snoc, null_Some, length_app. cbn. symmetry. apply bool_decide_eq_false. lia. }
  case_bool_decide as E1; [rewrite decide_True by done; by apply wp_ret|rewrite decide_False by done].
  apply wp_bind, wp_on_app. eapply wp_mono; [by apply app_delete_spec|]. intros [p' tail'] ha [Hr Ho].
  apply wp_bind. eapply wp_get_hashv; [by apply Hk|]. cbv zeta. rewrite (Forall2_length _ _ _ Hbk). fold (num_buckets t).
  rewrite (num_buckets_wf t _ _ Hb). destruct (buckets_wf_lookup _ _ _ (hh_hashv x) Hb) as [b Eb].
  destruct (buckets_rep_lookup _ _ _ _ _ Hbk Eb) as (lb&Elb&Hc&Ec&Em). pose proof Hb as (_&_&Hbs).
  destruct (Hbs _ _ Eb) as (_&_&Hcin). assert (x ∈ chain b) as Hxb by (by apply Hcin).
  apply wp_bind, (wp_demand _ _ lb); [exact Elb|]. apply wp_bind, wp_on_hh. cbn [hhs].
  pose proof Hxb as (c1&c2&Ecl)%list_elem_of_split. pose proof Hc as Hc1. rewrite Ecl, fmap_app in Hc1. cbn [fmap list_fmap] in Hc1.
  eapply wp_mono; [by apply chain_delete_spec|]. intros hd hh' [Hc' Hoh]. apply wp_ret. cbn [app handles].
  assert (forall y, y ∈ chain b -> y ∈ items t) as Hsub by (intros y; by eapply bucket_sub).
  split; [|split].
  - cbn [table_rep items app hhs handles]. rewrite El, filter_ids, fmap_app by by rewrite <-El. split; [exact Hr|].
    split; [intros y Hy; apply Hk; rewrite El; revert Hy; rewrite !elem_of_app, elem_of_cons; tauto|].
    split; [|split; [exact Hlog|split; [cbn; by rewrite Hnum|done]]]. cbn [t_buckets buckets].
    rewrite (alter_insert _ _ _ b) by done. eapply buckets_rep_insert; [exact Hbk| |].
    + unfold HASH_DEL_IN_BKT. split; [|cbn; by rewrite Ec, Em]. cbn [hh_head chain]. rewrite Ecl, filter_ids, fmap_app; [done|].
      rewrite <-Ecl. apply Hc.
    + intros j e Hj Ej y Hy. apply Hoh.
      change (hh_id x :: ids c2) with (ids (x :: c2)). rewrite <-fmap_app, <-Ecl. by eapply (buckets_apart _ _ _ _ j b e y).
  - change (hh_id x :: ids l2) with (ids (x :: l2)) in Ho. by rewrite <-fmap_app, <-El in Ho.
  - change (hh_id x :: ids c2) with (ids (x :: c2)) in Hoh. rewrite <-fmap_app, <-Ecl in Hoh.
    intros a Ha. apply Hoh. intros (y&->&Hy)%list_elem_of_fmap. by apply Ha, list_elem_of_fmap_2, Hsub.
Qed.

Lemma on_hh_Ok {A} (m : M heap A) a w : m (hhs w) = Ok a (hhs w) -> on_hh m w = Ok a w.
Proof. intros E. unfold on_hh. by rewrite E, memory_eta. Qed.
Lemma on_app_Ok {A} (m : M heap A) a w : m (app w) = Ok a (app w) -> on_app m w = Ok a w.
Proof. intros E. unfold on_app. by rewrite E, memory_eta. Qed.

Lemma fsck_buckets_spec fuel bs : forall lbs c w, buckets_rep (hhs w) lbs bs ->
  (forall b, b ∈ bs -> count b = u32 (Z.of_nat (length (chain b))) /\ (length (chain b) < fuel)%nat) ->
  fsck_buckets fuel lbs (u32 c) w = Ok (Some (u32 (c + Z.of_nat (length (mjoin (chain <$> bs)))))) w.
Proof.
  induction bs as [|b bs IH]; intros lbs c w Hrep Hb.
  { apply Forall2_nil_inv_r in Hrep as ->. cbn. by rewrite Z.add_0_r. }
  apply Forall2_cons_inv_r in Hrep as (lb&lbs'&((_&Hs&Hp)&Ec&_)&Hrep&->). cbn [fsck_buckets].
  destruct (Hb b ltac:(by left)) as [Hc Hf]. unfold mbind, M_bind.
  rewrite (on_hh_Ok _ (Some (u32 (0 + Z.of_nat (length (ids (chain b)))))) w); [|by apply (fsck_walk_spec fuel _ None _ 0); [rewrite length_fmap|..]].
  rewrite Ec, Hc, length_fmap, Z.add_0_l, Z.eqb_refl.
  assert (u32 (u32 c + u32 (Z.of_nat (length (chain b)))) = u32 (c + Z.of_nat (length (chain b)))) as -> by (unfold u32; by rewrite <-Zplus_mod).
  rewrite IH; [|done|intros b' Hb'; apply Hb; by right]. do 3 f_equal.
  change (mjoin (chain <$> b :: bs)) with (chain b ++ mjoin (chain <$> bs)). rewrite length_app. lia.
Qed.

Lemma fsck_spec fuel lh head w : table_rep w lh head -> wf head -> (nitems head < fuel)%nat -> HASH_FSCK fuel lh w = Ok true w.
Proof.
  destruct lh as [[p lt]|], head as [t|]; try done. intros (((_&Hs&Hp)&_)&_&Hbk&_&Hnum&_) (_&Hnd&Hn&_&Hb) Hf. cbn [HASH_ITER] in *.
  destruct (buckets_wf_join _ _ _ Hb) as [Hj1 Hj2]. unfold HASH_FSCK, mbind, M_bind.
  assert (length (mjoin (chain <$> buckets t)) = length (items t)) as Hl.
  { apply Permutation_length, NoDup_Permutation; [done|by eapply NoDup_fmap_1|done]. }
  rewrite (fsck_buckets_spec fuel (buckets t) _ 0); [|done|].
  - rewrite Hl, Hnum, Hn, Z.add_0_l, Z.eqb_refl. cbn [negb].
    rewrite (on_app_Ok _ (Some (u32 (0 + Z.of_nat (length (ids (items t)))))) w); [|by apply (fsck_walk_spec fuel _ None _ 0); [rewrite length_fmap|..]].
    by rewrite length_fmap, Z.add_0_l, Z.eqb_refl.
  - intros b [i Hi]%list_elem_of_lookup. pose proof Hb as (_&_&Hbs). destruct (Hbs _ _ Hi) as (Hnc&Hc&Hin). split; [done|].
    apply Nat.le_lt_trans with (length (items t)); [|done]. apply submseteq_length, NoDup_submseteq; [done|]. intros x Hx. by apply Hin in Hx as [? _].
Qed.

Lemma link_step_spec fuel lh head op w : table_rep w lh head -> wf head ->
  (forall id, op_id op = Some id -> (id ∉ ids (HASH_ITER head)) /\ is_Some (app w !! id) /\ is_Some (hhs w !! id)) ->
  (S (nitems head) < fuel)%nat -> Z.of_nat (nitems head) + 1 < 4294967296 ->
  wp (fun _ => full head) (link_step HASH_FCN fuel lh op) (fun lh' w' =>
    table_rep w' lh' (ut_step HASH_FCN head op) /\ frame (ids (HASH_ITER head) ++ omap op_id [op]) w w') w.
Proof.
  intros Hrep Hwf Hid Hf Hmax. assert (frame (ids (HASH_ITER head) ++ omap op_id [op]) w w) as Hrefl by done.
  destruct op as [key id|key]; cbn [link_step ut_step]; apply wp_bind; unfold wp at 1;
    rewrite (find_elt_spec fuel lh head) by (done || lia); destruct (HASH_FIND HASH_FCN head key) as [x|] eqn:E; cbn [fmap option_fmap option_map].
  - by apply wp_ret.
  - destruct (Hid id eq_refl) as (H1&H2&H3). by apply add_keyptr_spec.
  - apply (wp_undef_mono _ safe); [|done]. apply HASH_FIND_Some in E as [Hin _]; [|done]. cbn. rewrite app_nil_r. by apply delete_spec.
  - by apply wp_ret.
Qed.
End laws.

(** The tables of the list model behind each of the calls. *)
Definition reaches_full (HASH_FCN : list ascii -> Z) (head : ut_head) (ops : list ut_op) : Prop :=
  exists pre, pre `prefix_of` ops /\ full (foldl (ut_step HASH_FCN) head pre).

Lemma link_run_spec HASH_FCN fuel ops : forall lh head w, table_rep w lh head -> ut_wf HASH_FCN head ->
  NoDup (ut_alist head).*1 -> NoDup (omap op_id ops) ->
  (forall id, id ∈ omap op_id ops -> (id ∉ ids (HASH_ITER head)) /\ is_Some (app w !! id) /\ is_Some (hhs w !! id)) ->
  (length (HASH_ITER head) + length ops < fuel)%nat -> Z.of_nat (length (HASH_ITER head) + length ops) < 4294967296 ->
  wp (fun _ => reaches_full HASH_FCN head ops) (link_run HASH_FCN fuel ops lh) (fun '(lh', ok) w' => ok = true /\
    table_rep w' lh' (foldl (ut_step HASH_FCN) head ops) /\ frame (ids (HASH_ITER head) ++ omap op_id ops) w w') w.
Proof.
  induction ops as [|op ops IH]; intros lh head w Hrep Hwf Hnd Hids Hfresh Hf Hmax; cbn [link_run foldl].
  { by apply wp_ret. }
  cbn [length] in *. change (omap op_id (op :: ops)) with (omap op_id ([op] ++ ops)) in *. rewrite omap_app in *.
  apply NoDup_app in Hids as (Hids1&Hdis&Hids). apply wp_bind. eapply wp_mono.
  { apply (wp_undef_mono _ (fun _ => full head)); [apply (link_step_spec HASH_FCN fuel lh head op)|]; try done; try lia.
    - intros id E. apply Hfresh. cbn. rewrite E. by left.
    - intros _ Hfull. exists []. split; [apply prefix_nil|done]. }
  intros lh1 w1 [Hrep1 Hfr1]. destruct (ut_step_refines HASH_FCN head op Hwf Hnd) as [Hwf1 Hal1].
  { intros id E. rewrite ut_alist_ids. apply Hfresh. cbn. rewrite E. by left. }
  set (head1 := ut_step HASH_FCN head op) in *.
  assert (forall id, id ∈ ids (HASH_ITER head1) -> id ∈ ids (HASH_ITER head) ++ omap op_id [op]) as Hsub.
  { intros id. rewrite <-!ut_alist_ids, Hal1, elem_of_app. intros [H|H]%alist_step_ids; [by left|right]. cbn. rewrite H. by left. }
  assert (length (HASH_ITER head1) <= S (length (HASH_ITER head)))%nat as Hlen.
  { rewrite <-!(length_fmap ut_entry). fold (ut_alist head1) (ut_alist head). rewrite Hal1.
    destruct op; cbn [alist_step]; [case_decide; [|rewrite length_app; cbn]; lia|]. rewrite length_filter. lia. }
  apply wp_bind. unfold wp at 1. rewrite (fsck_spec HASH_FCN fuel lh1 head1) by (done || lia).
  eapply wp_mono.
  { apply (wp_undef_mono _ (fun _ => reaches_full HASH_FCN head1 ops)); [apply (IH lh1 head1 w1)|]; try done; try lia.
    - rewrite Hal1. by apply alist_step_keys.
    - intros id Hin. destruct (Hfresh id) as (H1&H2&H3); [rewrite elem_of_app; by right|].
      assert (id ∉ ids (HASH_ITER head) ++ omap op_id [op]) as Hno.
      { rewrite elem_of_app. intros [H|H]; [done|]. by apply (Hdis id H). }
      split; [by intros H%Hsub|]. destruct Hfr1 as [F1 F2]. by rewrite F1, F2.
    - intros _ (pre&Hp&Hfull). exists (op :: pre). split; [by apply prefix_cons|done]. }
  intros [lh' ok] w' (H1&H2&[H3 H4]). split; [done|]. split; [done|]. destruct Hfr1 as [F1 F2].
  assert (forall a, a ∉ ids (HASH_ITER head) ++ omap op_id [op] ++ omap op_id ops ->
    (a ∉ ids (HASH_ITER head1) ++ omap op_id ops) /\ (a ∉ ids (HASH_ITER head) ++ omap op_id [op])) as Hout.
  { intros a. rewrite !not_elem_of_app. intros (G1&G2&G3). split_and!; try done. intros [H|H]%Hsub%elem_of_app; done. }
  split; intros a [G1 G2]%Hout; [rewrite H3, F1|rewrite H4, F2]; done.
Qed.

(** ** Properties *)

(** C30: Whatever is looked up, added and deleted (fewer than 2^32 calls, elements that
    are allocated), the table on its links implements the table of lists of
    Uthash, through every expansion: the insertion order and each
    bucket are linked both ways and hold the same elements, the counters
    agree, and no other element is touched.  Behind every call [HASH_FSCK] finds all back pointers and
    counts right.  The only undefined behaviour is that of an expansion beyond
    2^31 buckets. *)
Theorem fsck_passes (HASH_FCN : list ascii -> Z) (ops : list ut_op) (fuel : nat) (w : memory)
    (Hfresh : NoDup (omap op_id ops))
    (Halloc : forall id, id ∈ omap op_id ops -> is_Some (app w !! id) /\ is_Some (hhs w !! id))
    (Hfuel : (length ops < fuel)%nat) (Hmax : Z.of_nat (length ops) < 4294967296) :
  wp (fun _ => reaches_full HASH_FCN None ops) (link_run HASH_FCN fuel ops None) (fun '(head, ok) w' => ok = true /\
    table_rep w' head (foldl (ut_step HASH_FCN) None ops) /\ frame (omap op_id ops) w w') w.
Proof.
  apply (link_run_spec HASH_FCN fuel ops None None w); try done; [constructor|].
  intros id Hin. split; [apply not_elem_of_nil|by apply Halloc].
Qed.

(** Twelve elements in one bucket: the tenth makes the table expand. *)
Lemma fsck_passes_witness :
  let ops := (fun n => OpAdd (repeat "a"%char n) (Pos.of_succ_nat n)) <$> seq 0 12 in
  let h : heap := list_to_map ((fun n => (Pos.of_succ_nat n, Node None None)) <$> seq 0 12) in
  wp (fun _ => reaches_full (fun _ => 5) None ops) (link_run (fun _ => 5) 20 ops None) (fun '(head, ok) w' => ok = true /\
    table_rep w' head (foldl (ut_step (fun _ => 5)) None ops)) (Memory h h ∅).
Proof.
  intros ops h. eapply wp_mono; [apply (fsck_passes (fun _ => 5) ops 20 (Memory h h ∅))|].
  - apply (bool_decide_unpack _). vm_compute. exact I.
  - apply Forall_forall. apply (bool_decide_unpack _). vm_compute. exact I.
  - vm_compute. lia.
  - vm_compute. reflexivity.
  - intros [head ok] w' (H1&H2&_). exact (conj H1 H2).
Defined.
