(* ===== verification/UthashSelect.v ===== *)
(** The rest of src/uthash/uthash.h: [HASH_SELECT], which puts elements of one table in
    another one too, [HASH_REPLACE], the bloom filter of [HASH_BLOOM], and
    [HASH_OVERHEAD]. *)

From S2P Require Import Prelude CLib Outcome Utlist ListRep UtlistSort UtlistProps Uthash UthashLinks.

#[local] Open Scope Z_scope.

(** ** [HASH_SELECT] *)

(** The destination: its head, [tbl->tail] and its table, whose insertion order is in
    the links of the heap and not in [items]. *)
Definition dst_table : Type := positive * ptr * UT_hash_table.

Definition count_item (t : UT_hash_table) : UT_hash_table :=
  {| items := items t; buckets := buckets t; log2_num_buckets := log2_num_buckets t; num_items := u32 (num_items t + 1);
     ineff_expands := ineff_expands t; noexpand := noexpand t |}.

(** One element; the heap holds the handles [hh_dst], of which [_last_elt] is the last
    that was selected. *)
Definition select_one (dst : option dst_table) (_last_elt : ptr) (_src_hh : UT_hash_handle)
    : M heap (option dst_table * ptr) :=
  let _elt := Some (hh_id _src_hh) in
  _ ← set_prev _elt _last_elt;
  _ ← set_next _elt None;
  _ ← (if negb (null _last_elt) then set_next _last_elt _elt else mret ());
  let '(head, tail, t) := default (hh_id _src_hh, _elt, HASH_MAKE_TABLE) dst in
  let t := HASH_ADD_TO_BKT t (HASH_TO_BKT (hh_hashv _src_hh) (num_buckets t)) _src_hh in
  mret (Some (head, tail, count_item t), _elt).

Fixpoint select_loop (l : list UT_hash_handle) (dst : option dst_table) (_last_elt : ptr) : M heap (option dst_table) :=
  match l with
  | [] => mret dst
  | _src_hh :: l => '(dst, _last_elt) ← select_one dst _last_elt _src_hh; select_loop l dst _last_elt
  end.

(** The elements of [src] in the order of its buckets. *)
Definition bucket_order (src : ut_head) : list UT_hash_handle :=
  match src with None => [] | Some t => mjoin (chain <$> buckets t) end.

Definition HASH_SELECT (cond : UT_hash_handle -> bool) (src : ut_head) (dst : option dst_table) : M heap (option dst_table) :=
  select_loop (filter (fun x => cond x = true) (bucket_order src)) dst None.

(** ** [HASH_REPLACE] *)

Definition HASH_REPLACE (HASH_FCN : list ascii -> Z) (head : ut_head) (add : positive) (key : list ascii)
    : ut_head * option UT_hash_handle :=
  let replaced := HASH_FIND HASH_FCN head key in
  let head := match replaced with Some h => HASH_DEL head h | None => head end in
  (HASH_ADD HASH_FCN head add key, replaced).

(** ** The bloom filter *)

(** [bloom_nbits] and the bytes of [bloom_bv]. *)
Record bloom := Bloom { bloom_nbits : Z; bloom_bv : list Z }.

Definition HASH_BLOOM_BITLEN (nbits : Z) : Z := Z.shiftl 1 nbits.
Definition HASH_BLOOM_BYTELEN (nbits : Z) : Z :=
  HASH_BLOOM_BITLEN nbits / 8 + (if HASH_BLOOM_BITLEN nbits mod 8 =? 0 then 0 else 1).

Definition HASH_BLOOM_MAKE (nbits : Z) : bloom := Bloom nbits (replicate (Z.to_nat (HASH_BLOOM_BYTELEN nbits)) 0).

(** [bv[idx/8] |= 1U << (idx%8)]: the byte is cut to its width; [None] is an access
    outside the array. *)
Definition HASH_BLOOM_BITSET (bv : list Z) (idx : Z) : option (list Z) :=
  b ← bv !! Z.to_nat (idx / 8); Some (<[Z.to_nat (idx / 8) := Z.lor b (Z.shiftl 1 (idx mod 8)) mod 256]> bv).
Definition HASH_BLOOM_BITTEST (bv : list Z) (idx : Z) : option bool :=
  b ← bv !! Z.to_nat (idx / 8); Some (negb (Z.land b (Z.shiftl 1 (idx mod 8)) =? 0)).

(** [hashv & (uint32_t)((1ULL << bloom_nbits) - 1)]. *)
Definition bloom_idx (f : bloom) (hashv : Z) : Z := Z.land hashv (u32 (Z.shiftl 1 (bloom_nbits f) - 1)).

Definition HASH_BLOOM_ADD (f : bloom) (hashv : Z) : option bloom :=
  bv ← HASH_BLOOM_BITSET (bloom_bv f) (bloom_idx f hashv); Some (Bloom (bloom_nbits f) bv).
Definition HASH_BLOOM_TEST (f : bloom) (hashv : Z) : option bool := HASH_BLOOM_BITTEST (bloom_bv f) (bloom_idx f hashv).

(** [HASH_FIND] of a table with a filter. *)
Definition HASH_FIND_BLOOM (HASH_FCN : list ascii -> Z) (f : bloom) (head : ut_head) (key : list ascii)
    : option (option UT_hash_handle) :=
  match head with
  | None => Some None
  | Some _ => hit ← HASH_BLOOM_TEST f (HASH_FCN key); Some (if hit : bool then HASH_FIND HASH_FCN head key else None)
  end.

(** ** [HASH_OVERHEAD] *)

(** On machines with pointers of eight bytes; a filter makes the table longer. *)
Definition sizeof_UT_hash_handle : Z := 56.
Definition sizeof_UT_hash_bucket : Z := 16.
Definition sizeof_UT_hash_table (filter : option bloom) : Z := match filter with None => 64 | Some _ => 80 end.
Definition HASH_OVERHEAD (t : UT_hash_table) (filter : option bloom) : Z :=
  num_items t * sizeof_UT_hash_handle + num_buckets t * sizeof_UT_hash_bucket + sizeof_UT_hash_table filter +
  match filter with None => 0 | Some f => HASH_BLOOM_BYTELEN (bloom_nbits f) end.

(** ** Selecting *)

(** What has been selected so far into a table that was empty. *)
Definition selected (h : heap) (dst : option dst_table) (_last_elt : ptr) (sel : list UT_hash_handle) : Prop :=
  _last_elt = last (hh_id <$> sel) /\
  match dst with
  | None => sel = []
  | Some (head, tail, t) =>
      chained h (Some head) (hh_id <$> sel) /\ tail = Some head /\ num_items t = u32 (Z.of_nat (length sel)) /\
      buckets_wf (buckets t) (log2_num_buckets t) sel
  end.

Lemma select_one_spec h dst _last_elt sel x : selected h dst _last_elt sel -> new_node h (hh_id <$> sel) (hh_id x) ->
  wp safe (select_one dst _last_elt x) (fun '(dst', last') h' => selected h' dst' last' (sel ++ [x]) /\
    only ((hh_id <$> sel) ++ [hh_id x]) h h') h.
Proof.
  intros [-> Hdst] [Ha [na Hna]]. assert (is_Some (nx h (hh_id x))) by (unfold nx; rewrite Hna; by eexists).
  assert (x ∉ sel) as Hx by (intros Hin; apply Ha, list_elem_of_fmap; by exists x).
  set (L := hh_id <$> sel) in *. set (d := default (hh_id x, Some (hh_id x), HASH_MAKE_TABLE) dst).
  assert (chained h (first_or L None) L /\ Some d.1.1 = first_or L (Some (hh_id x)) /\ d.1.2 = Some d.1.1 /\
    num_items d.2 = u32 (Z.of_nat (length sel)) /\ buckets_wf (buckets d.2) (log2_num_buckets d.2) sel) as (Hc&Eh&Et&En&Hb).
  { destruct dst as [[[head tail] t]|]; cbn [d default fst snd].
    - destruct Hdst as (Hc&Ht&Hn&Hb). pose proof (seg_first _ _ _ _ (proj1 (proj2 Hc))) as Ep. rewrite <-Ep. destruct L; [done|].
      split_and!; done.
    - subst sel. split; [by split; [constructor|]|]. split; [done|]. split; [done|]. split; [done|]. by apply (buckets_wf_empty 5). }
  destruct (HASH_ADD_TO_BKT_buckets d.2 sel x Hb Hx) as [Hb' Hn'].
  assert (forall h', chained h' (Some d.1.1) (L ++ [hh_id x]) -> only (L ++ [hh_id x]) h h' ->
    wp safe (let '(head, tail, t) := d in
      let t := HASH_ADD_TO_BKT t (HASH_TO_BKT (hh_hashv x) (num_buckets t)) x in
      mret (Some (head, tail, count_item t), Some (hh_id x)))
    (fun '(dst', last') h' => selected h' dst' last' (sel ++ [x]) /\ only (L ++ [hh_id x]) h h') h') as Hend.
  { intros h' Hc' Ho. destruct d as [[head tail] t]. cbn [fst snd] in *. apply wp_ret. split; [|done].
    unfold selected. rewrite fmap_app. cbn [fmap list_fmap]. rewrite last_snoc. split; [done|]. split; [done|]. split; [done|].
    split; [|exact Hb']. cbn [count_item num_items]. rewrite Hn', (u32_succ _ _ En), length_app. f_equal. cbn. lia. }
  rewrite Eh in Hend. pose proof (chained_snoc h) as Hsn. unfold select_one. fold d. do 2 node_step.
  destruct (last L) as [z|] eqn:Ez; nulls.
  - destruct (chained_last _ _ _ _ Hc Ez) as [Hnz Hz]. assert (z <> hh_id x) by (by intros ->). node_step.
    apply Hend; [|only_tac]. eapply Hsn; [exact Hc|done|..]; rewrite Ez; intros b; fields; repeat case_decide; congruence.
  - node_step. apply Hend; [|only_tac]. eapply Hsn; [exact Hc|done|..]; rewrite Ez; intros b; fields; repeat case_decide; congruence.
Qed.

Lemma select_loop_spec l : forall dst last sel h, selected h dst last sel -> NoDup (hh_id <$> (sel ++ l)) ->
  (forall x, x ∈ l -> is_Some (h !! hh_id x)) ->
  wp safe (select_loop l dst last) (fun dst' h' => (exists last', selected h' dst' last' (sel ++ l)) /\
    only (hh_id <$> (sel ++ l)) h h') h.
Proof.
  induction l as [|x l IH]; intros dst last0 sel h Hsel Hnd Hal; cbn [select_loop].
  - rewrite app_nil_r. apply wp_ret. split; [by exists last0|done].
  - assert (new_node h (hh_id <$> sel) (hh_id x)) as Hnew.
    { split; [|apply Hal; by left]. rewrite fmap_app in Hnd. apply NoDup_app in Hnd as (_&Hd&_). intros Hin. apply (Hd _ Hin). by left. }
    apply wp_bind. eapply wp_mono; [by apply select_one_spec|]. intros [dst' last'] h1 [Hsel1 Ho1].
    rewrite cons_middle, app_assoc in Hnd |- *. eapply wp_mono; [apply (IH _ _ _ _ Hsel1 Hnd)|].
    + intros y Hy. rewrite fmap_app in Hnd. apply NoDup_app in Hnd as (_&Hd&_).
      rewrite Ho1; [apply Hal; by right|]. intros Hin. eapply (Hd (hh_id y)).
      * rewrite fmap_app. exact Hin.
      * apply list_elem_of_fmap. by exists y.
    + intros dst2 h2 [H1 H2]. split; [exact H1|]. eapply only_trans; [exact Ho1|exact H2|].
      intros b. rewrite !fmap_app, !elem_of_app. cbn. tauto.
Qed.

(** The elements that are selected, in the order of the buckets they are read from. *)
Definition selection (cond : UT_hash_handle -> bool) (src : ut_head) : list UT_hash_handle :=
  filter (fun x => cond x = true) (bucket_order src).

Lemma bucket_order_perm HASH_FCN src : ut_wf HASH_FCN src -> bucket_order src ≡ₚ HASH_ITER src.
Proof.
  destruct src as [t|]; [|done]. intros (_&Hnd&_&_&Hb). destruct (buckets_wf_join _ _ _ Hb) as [H1 H2].
  apply NoDup_Permutation; [done|by eapply NoDup_fmap_1|done].
Qed.

(** Selecting from a well-formed table into an empty one always ends.  The new table is
    well formed and holds exactly the elements that satisfy the condition, each once, in
    the order of the buckets of the first table and not in its insertion order: their
    handles are linked in that order from the head, and every key is found.  But
    the tail of the new table stays where [HASH_MAKE_TABLE] has put it, at the {e first} element. *)
Theorem hash_select_selects (HASH_FCN : list ascii -> Z) (cond : UT_hash_handle -> bool) (src : ut_head) (h : heap) :
  ut_wf HASH_FCN src -> (forall x, x ∈ HASH_ITER src -> is_Some (h !! hh_id x)) ->
  wp safe (HASH_SELECT cond src None) (fun dst h' =>
    let sel := selection cond src in
    sel ≡ₚ filter (fun x => cond x = true) (HASH_ITER src) /\
    (forall a, a ∉ hh_id <$> sel -> h' !! a = h !! a) /\
    match sel with
    | [] => dst = None
    | x :: _ => exists t, dst = Some (hh_id x, Some (hh_id x), t) /\
        chained h' (Some (hh_id x)) (hh_id <$> sel) /\ ut_wf HASH_FCN (Some (with_items t sel))
    end) h.
Proof.
  intros Hwf Hal. pose proof (bucket_order_perm _ _ Hwf) as Hperm. unfold HASH_SELECT. fold (selection cond src).
  assert (selection cond src ≡ₚ filter (fun x => cond x = true) (HASH_ITER src)) as Hsel by (unfold selection; by rewrite Hperm).
  assert (forall x, x ∈ selection cond src -> x ∈ HASH_ITER src) as Hin by (intros x; rewrite Hsel, list_elem_of_filter; tauto).
  assert (NoDup (hh_id <$> selection cond src)) as Hnd.
  { destruct src as [t|]; [|constructor]. destruct Hwf as (_&Hnd&_). rewrite Hsel.
    eapply sublist_NoDup; [exact Hnd|]. apply fmap_sublist, sublist_filter. }
  eapply wp_mono; [apply (select_loop_spec (selection cond src) None None [] h); [by split|done|by auto]|].
  intros dst h' [[last' [_ Hdst]] Ho]. cbn [app] in *. cbv zeta. split; [done|]. split; [exact Ho|].
  destruct dst as [[[head tail] t]|]; [|by rewrite Hdst]. destruct Hdst as (Hc&->&Hn&Hb).
  pose proof (seg_first _ _ _ _ (proj1 (proj2 Hc))) as Ep. destruct (selection cond src) as [|x l] eqn:El; [done|].
  injection Ep as ->. exists t. split; [done|]. split; [done|]. rewrite <-El in *. destruct src as [s|]; [|discriminate El].
  destruct Hwf as (_&_&_&Hh&_). assert (selection cond (Some s) <> []) as Hne by by rewrite El.
  split; [exact Hne|]. split; [exact Hnd|]. split; [exact Hn|]. split; [|exact Hb].
  apply Forall_forall. intros y Hy. apply (proj1 (Forall_forall _ _) Hh). by apply Hin.
Qed.

(** So the next [HASH_ADD] to the new table puts the new element behind the first one:
    the others are no longer reached from the head, whatever was selected. *)
Theorem select_then_add_loses h head x l a :
  chained h (Some head) (head :: x :: l) -> new_node h (head :: x :: l) a ->
  wp safe (app_add (Some head) (Some head) (Some a)) (fun '(p', tail') h' => chained h' p' [head; a] /\ tail' = Some a) h.
Proof.
  intros Hc [Ha [na Hna]]. assert (is_Some (nx h a)) by (unfold nx; rewrite Hna; by eexists).
  assert (is_Some (nx h head)) by (eapply seg_alloc; [apply Hc|by left]). assert (head <> a) by (intros ->; apply Ha; by left).
  apply chained_cons in Hc as (_&_&_&Hp&_). unfold app_add. nulls. do 4 node_step. split; [|done].
  apply chained_cons. cbn [first_or]. split; [apply NoDup_cons; split; [by intros ->%list_elem_of_singleton|apply NoDup_singleton]|].
  split; [done|]. split; [field|]. split; [field|]. split; [apply seg_cons; split; [done|]; split; [field|done]|].
  apply prevs_cons. split; [field|done].
Qed.

Lemma select_then_add_loses_witness :
  let h : heap := list_to_map [(1%positive, Node None (Some 2%positive)); (2%positive, Node (Some 1%positive) None); (3%positive, Node None None)] in
  wp safe (app_add (Some 1%positive) (Some 1%positive) (Some 3%positive)) (fun '(p', tail') h' => chained h' p' [1; 3]%positive /\ tail' = Some 3%positive) h.
Proof.
  intros h. apply (select_then_add_loses h 1 2 []).
  - split; [apply (bool_decide_unpack _); vm_compute; exact I|]. split.
    + split; [done|]. eexists. split; [reflexivity|]. split; [done|]. by eexists.
    + split; [by eexists|]. split; [by eexists|done].
  - split; [apply (bool_decide_unpack _); vm_compute; exact I|by eexists].
Defined.

Lemma hash_select_selects_witness :
  let src := HASH_ADD HASH_JEN (HASH_ADD HASH_JEN None 1 (lit "Host")) 2 (lit "Accept") in
  let h : heap := list_to_map [(1%positive, Node None None); (2%positive, Node None None)] in
  wp safe (HASH_SELECT (fun _ => true) src None) (fun dst h' => selection (fun _ => true) src ≡ₚ HASH_ITER src) h.
Proof.
  intros src h. eapply wp_mono; [apply (hash_select_selects HASH_JEN (fun _ => true) src h)|].
  - apply (HASH_ADD_spec HASH_JEN (HASH_ADD HASH_JEN None 1 (lit "Host")) 2 (lit "Accept")).
    + apply (HASH_ADD_spec HASH_JEN None 1 (lit "Host")); [exact I|apply (bool_decide_unpack _); vm_compute; exact I].
    + apply (bool_decide_unpack _). vm_compute. exact I.
  - apply Forall_forall. apply (bool_decide_unpack _). vm_compute. exact I.
  - intros dst h' (H&_). exact H.
Defined.

(** ** Replacing *)

(** [HASH_REPLACE] gives back the element of its key, if there is one, and leaves the
    association list without it and with the new element at the end. *)
Theorem hash_replace_replaces (HASH_FCN : list ascii -> Z) head add key :
  ut_wf HASH_FCN head -> NoDup (ut_alist head).*1 -> add ∉ (ut_alist head).*2 ->
  let '(head', replaced) := HASH_REPLACE HASH_FCN head add key in
  ut_wf HASH_FCN head' /\ hh_id <$> replaced = alist_find (ut_alist head) key /\
  ut_alist head' = filter (fun kv => kv.1 <> key) (ut_alist head) ++ [(key, add)].
Proof.
  intros Hwf Hnd Hadd. unfold HASH_REPLACE. pose proof (HASH_FIND_alist HASH_FCN head key Hwf Hnd) as Hf.
  destruct (ut_step_refines HASH_FCN head (OpDel key) Hwf Hnd) as [Hwf' Hal]; [done|]. cbn [ut_step alist_step] in *.
  set (head1 := match HASH_FIND HASH_FCN head key with Some h => HASH_DEL head h | None => head end) in *.
  destruct (HASH_ADD_spec HASH_FCN head1 add key Hwf') as [H1 H2].
  { rewrite <-ut_alist_ids, Hal. intros (kv&->&Hin)%list_elem_of_fmap. apply list_elem_of_filter in Hin as [_ Hin].
    apply Hadd, list_elem_of_fmap. by exists kv. }
  split; [done|]. split; [done|]. unfold ut_alist at 1. rewrite H2, fmap_app, <-Hal. done.
Qed.

Lemma hash_replace_replaces_witness :
  let head := HASH_ADD HASH_JEN None 1 (lit "Host") in
  let '(head', replaced) := HASH_REPLACE HASH_JEN head 2 (lit "Host") in
  ut_wf HASH_JEN head' /\ hh_id <$> replaced = Some 1%positive /\ ut_alist head' = [(lit "Host", 2%positive)].
Proof.
  intros head. assert (ut_wf HASH_JEN head) as Hwf.
  { apply (HASH_ADD_spec HASH_JEN None 1 (lit "Host")); [exact I|apply (bool_decide_unpack _); vm_compute; exact I]. }
  exact (hash_replace_replaces HASH_JEN head 2 (lit "Host") Hwf
    (bool_decide_eq_true_1 _ (eq_refl : bool_decide (NoDup (ut_alist head).*1) = true))
    (bool_decide_eq_true_1 _ (eq_refl : bool_decide ((2%positive) ∉ (ut_alist head).*2) = true))).
Defined.

(** ** The bloom filter *)

(** A bit of the filter. *)
Definition bit_of (bv : list Z) (i : Z) : bool :=
  match bv !! Z.to_nat (i / 8) with Some b => Z.testbit b (i mod 8) | None => false end.

Lemma land_pow2 b k : 0 <= k -> negb (Z.land b (Z.shiftl 1 k) =? 0) = Z.testbit b k.
Proof.
  intros Hk. rewrite Z.shiftl_1_l. destruct (Z.testbit b k) eqn:E.
  - apply negb_true_iff, Z.eqb_neq. intros H. apply (f_equal (fun z => Z.testbit z k)) in H.
    rewrite Z.land_spec, E, Z.pow2_bits_true, Z.bits_0 in H by done. done.
  - apply negb_false_iff, Z.eqb_eq, Z.bits_inj'. intros n Hn. rewrite Z.land_spec, Z.bits_0.
    destruct (decide (n = k)) as [->|]; [by rewrite E|]. by rewrite Z.pow2_bits_false, andb_false_r.
Qed.

Lemma bittest_bit bv i : 0 <= i / 8 < Z.of_nat (length bv) -> HASH_BLOOM_BITTEST bv i = Some (bit_of bv i).
Proof.
  intros Hi. unfold HASH_BLOOM_BITTEST, bit_of. destruct (lookup_lt_is_Some_2 bv (Z.to_nat (i / 8))) as [b Hb]; [lia|].
  rewrite Hb. cbn. rewrite land_pow2; [done|]. pose proof (Z.mod_pos_bound i 8). lia.
Qed.

Lemma bitset_bit bv i : 0 <= i -> i / 8 < Z.of_nat (length bv) -> exists bv', HASH_BLOOM_BITSET bv i = Some bv' /\
  length bv' = length bv /\ forall j, 0 <= j -> bit_of bv' j = bit_of bv j || (j =? i).
Proof.
  intros Hi Hlt. unfold HASH_BLOOM_BITSET. pose proof (Z.div_pos i 8 Hi ltac:(lia)) as Hq.
  destruct (lookup_lt_is_Some_2 bv (Z.to_nat (i / 8))) as [b Hb]; [lia|]. rewrite Hb. eexists. split; [reflexivity|].
  split; [apply length_insert|]. intros j Hj. unfold bit_of. pose proof (Z.div_pos j 8 Hj ltac:(lia)) as Hqj.
  pose proof (Z.mod_pos_bound i 8 ltac:(lia)) as Hmi. pose proof (Z.mod_pos_bound j 8 ltac:(lia)) as Hmj.
  pose proof (Z.div_mod i 8 ltac:(lia)) as Ei. pose proof (Z.div_mod j 8 ltac:(lia)) as Ej.
  destruct (decide (j / 8 = i / 8)) as [Eq|Hne].
  - rewrite Eq, list_lookup_insert_eq by lia. rewrite Hb. change 256 with (2 ^ 8). rewrite Z.mod_pow2_bits_low by lia.
    rewrite Z.lor_spec, Z.shiftl_1_l. f_equal. destruct (Z.eqb_spec j i) as [->|Hji]; [apply Z.pow2_bits_true; lia|].
    apply Z.pow2_bits_false. lia.
  - rewrite list_lookup_insert_ne by lia. assert ((j =? i) = false) as -> by (apply Z.eqb_neq; congruence). by rewrite orb_false_r.
Qed.

(** A filter whose array is as long as it was made. *)
Definition bloom_wf (n : Z) (f : bloom) : Prop :=
  0 <= n <= 32 /\ bloom_nbits f = n /\ length (bloom_bv f) = Z.to_nat (HASH_BLOOM_BYTELEN n).

Lemma bloom_idx_mod n f hashv : bloom_wf n f -> bloom_idx f hashv = hashv mod 2 ^ n.
Proof.
  intros (Hn&En&_). unfold bloom_idx, u32. rewrite En, Z.shiftl_1_l.
  assert (0 < 2 ^ n <= 2 ^ 32) as Hp by (split; [apply Z.pow_pos_nonneg; lia|apply Z.pow_le_mono_r; lia]).
  rewrite Z.mod_small by lia. rewrite Z.sub_1_r, <-Z.ones_equiv, Z.land_ones by lia. done.
Qed.

Lemma bloom_idx_range n f hashv : bloom_wf n f -> 0 <= bloom_idx f hashv /\ bloom_idx f hashv / 8 < Z.of_nat (length (bloom_bv f)).
Proof.
  intros Hf. rewrite (bloom_idx_mod n) by done. destruct Hf as (Hn&_&Hl). rewrite Hl.
  assert (0 < 2 ^ n) as Hp by (apply Z.pow_pos_nonneg; lia). pose proof (Z.mod_pos_bound hashv (2 ^ n) Hp) as Hm. split; [lia|].
  unfold HASH_BLOOM_BYTELEN, HASH_BLOOM_BITLEN. rewrite Z.shiftl_1_l.
  pose proof (Z.div_mod (2 ^ n) 8 ltac:(lia)) as E. pose proof (Z.mod_pos_bound (2 ^ n) 8 ltac:(lia)) as H8.
  apply Z.div_lt_upper_bound; [lia|]. destruct (Z.eqb_spec (2 ^ n mod 8) 0) as [E0|E0]; lia.
Qed.

Lemma bloom_add_spec n f hashv : bloom_wf n f -> exists f', HASH_BLOOM_ADD f hashv = Some f' /\ bloom_wf n f' /\
  forall j, 0 <= j -> bit_of (bloom_bv f') j = bit_of (bloom_bv f) j || (j =? hashv mod 2 ^ n).
Proof.
  intros Hf. destruct (bloom_idx_range n f hashv Hf) as [H1 H2]. destruct (bitset_bit _ _ H1 H2) as (bv&E&Hl&Hb).
  exists (Bloom (bloom_nbits f) bv). unfold HASH_BLOOM_ADD. rewrite E. split; [done|]. rewrite <-(bloom_idx_mod n f) by done.
  split; [|exact Hb]. destruct Hf as (Hn&En&El). split; [done|]. split; [done|]. cbn. congruence.
Qed.

(** The filter behind the additions of [hs]. *)
Definition bloom_of (n : Z) (hs : list Z) : option bloom :=
  foldl (fun f hashv => f ≫= fun f => HASH_BLOOM_ADD f hashv) (Some (HASH_BLOOM_MAKE n)) hs.

Lemma bloom_of_spec n hs : 0 <= n <= 32 -> exists f, bloom_of n hs = Some f /\ bloom_wf n f /\
  forall j, 0 <= j -> bit_of (bloom_bv f) j = existsb (fun h => j =? h mod 2 ^ n) hs.
Proof.
  intros Hn. induction hs as [|h hs IH] using rev_ind.
  - eexists. split; [reflexivity|]. split; [split; [done|]; split; [done|]; apply length_replicate|].
    intros j Hj. unfold bit_of. cbn. destruct (replicate _ _ !! _) as [b|] eqn:E; [|done].
    apply lookup_replicate in E as [-> _]. apply Z.testbit_0_l.
  - destruct IH as (f&E&Hf&Hb). destruct (bloom_add_spec n f h Hf) as (f'&E'&Hf'&Hb'). exists f'. unfold bloom_of in *.
    rewrite foldl_app, E. cbn. split; [exact E'|]. split; [done|]. intros j Hj. rewrite Hb', Hb by done.
    rewrite existsb_app. cbn. by rewrite orb_false_r.
Qed.

(** A bloom filter of 2^[n] bits ([n] at most 32) never leaves its array.  What was added
    tests true, and whatever tests true has its low [n] bits in common with something
    that was added; so, if the hash values of all elements of a table were added,
    [HASH_FIND] with the filter finds what it finds without. *)
Theorem bloom_exact (HASH_FCN : list ascii -> Z) (n : Z) (hs : list Z) (head : ut_head) (key : list ascii) :
  0 <= n <= 32 -> ut_wf HASH_FCN head -> (forall x, x ∈ HASH_ITER head -> hh_hashv x ∈ hs) ->
  exists f, bloom_of n hs = Some f /\
    (forall hashv, HASH_BLOOM_TEST f hashv = Some (existsb (fun h => hashv mod 2 ^ n =? h mod 2 ^ n) hs)) /\
    HASH_FIND_BLOOM HASH_FCN f head key = Some (HASH_FIND HASH_FCN head key).
Proof.
  intros Hn Hwf Hall. destruct (bloom_of_spec n hs Hn) as (f&E&Hf&Hb). exists f. split; [done|].
  assert (forall hashv, HASH_BLOOM_TEST f hashv = Some (existsb (fun h => hashv mod 2 ^ n =? h mod 2 ^ n) hs)) as Htest.
  { intros hashv. destruct (bloom_idx_range n f hashv Hf) as [H1 H2]. unfold HASH_BLOOM_TEST.
    rewrite bittest_bit by (split; [by apply Z.div_pos|done]). rewrite Hb by done. by rewrite (bloom_idx_mod n) by done. }
  split; [exact Htest|]. destruct head as [t|]; [|done]. unfold HASH_FIND_BLOOM. rewrite Htest. cbn [mbind option_bind].
  destruct (existsb _ hs) eqn:Eb; [done|]. f_equal. symmetry.
  destruct (HASH_FIND HASH_FCN (Some t) key) as [x|] eqn:Ef; [|done]. exfalso.
  apply HASH_FIND_Some in Ef as [Hin Hk]; [|done]. pose proof (Hall x Hin) as Hx. destruct Hwf as (_&_&_&Hh&_).
  assert (existsb (fun h => HASH_FCN key mod 2 ^ n =? h mod 2 ^ n) hs = true) as H; [|by rewrite H in Eb].
  apply existsb_exists. exists (hh_hashv x). split; [by apply list_elem_of_In|].
  rewrite (proj1 (Forall_forall _ _) Hh x Hin), Hk. apply Z.eqb_refl.
Qed.

Lemma bloom_exact_witness :
  let head := HASH_ADD HASH_JEN None 1 (lit "Host") in
  exists f, bloom_of 3 [HASH_JEN (lit "Host")] = Some f /\
    HASH_FIND_BLOOM HASH_JEN f head (lit "Host") = Some (HASH_FIND HASH_JEN head (lit "Host")).
Proof.
  intros head. destruct (bloom_exact HASH_JEN 3 [HASH_JEN (lit "Host")] head (lit "Host")) as (f&H1&_&H2).
  - lia.
  - apply (HASH_ADD_spec HASH_JEN None 1 (lit "Host")); [exact I|apply (bool_decide_unpack _); vm_compute; exact I].
  - apply Forall_forall. apply (bool_decide_unpack _). vm_compute. exact I.
  - exists f. split; [exact H1|exact H2].
Defined.

(** [HASH_SELECT] adds nothing to the filter of the new table, so that with
    [HASH_BLOOM] none of what was selected is ever found. *)
Theorem bloom_misses_selected (HASH_FCN : list ascii -> Z) (n : Z) (t : UT_hash_table) (key : list ascii) :
  0 <= n <= 32 -> HASH_FIND_BLOOM HASH_FCN (HASH_BLOOM_MAKE n) (Some t) key = Some None.
Proof.
  intros Hn. destruct (bloom_of_spec n [] Hn) as (f&[= <-]&Hf&Hb). unfold HASH_FIND_BLOOM, HASH_BLOOM_TEST.
  destruct (bloom_idx_range n _ (HASH_FCN key) Hf) as [H1 H2].
  rewrite bittest_bit by (split; [by apply Z.div_pos|done]). by rewrite Hb.
Qed.
