(* ===== verification/Utarray.v ===== *)
(** src/uthash/utarray.h: growing arrays.

    [E] is the type of the elements, [zero] the one whose bytes are all 0.  A slot
    is [None] until something is stored.  What the destructor was called on is kept in a
    log.  [memmove] and [memcpy] outside the array, and a null pointer given to a
    constructor or destructor, are undefined. *)

From S2P Require Import Prelude CLib Outcome.

#[local] Open Scope Z_scope.

Section utarray.
Context {E : Type} (zero : E).

(** [init] gives the element it makes, [copy] the element it makes of another. *)
Record UT_icd := Icd { icd_init : option E; icd_copy : option (E -> E); icd_dtor : bool }.

Record UT_array := UTArray { ua_i : Z; ua_n : Z; ua_icd : UT_icd; ua_d : list (option E); ua_log : list E }.

Definition with_i (a : UT_array) i := UTArray i (ua_n a) (ua_icd a) (ua_d a) (ua_log a).
Definition with_slots (a : UT_array) d := UTArray (ua_i a) (ua_n a) (ua_icd a) d (ua_log a).

#[local] Abbreviation MA := (M UT_array).

(** ** Slots *)

(** Storing the elements [s] from slot [i] on. *)
Definition put (d : list (option E)) (i : Z) (s : list (option E)) : option (list (option E)) :=
  if decide (0 <= i /\ i + Z.of_nat (length s) <= Z.of_nat (length d))
  then Some (take (Z.to_nat i) d ++ s ++ drop (Z.to_nat i + length s) d) else None.

Definition store_at (i : Z) (s : list (option E)) : MA () :=
  a ← get id; d ← demand (put (ua_d a) i s); modify (fun a => with_slots a d).

(** [memmove] of [n] elements. *)
Definition move (dst src n : Z) : MA () :=
  a ← get id;
  let s := take (Z.to_nat n) (drop (Z.to_nat src) (ua_d a)) in
  _ ← demand (if decide (0 <= n /\ Z.of_nat (length s) = n) then Some () else None);
  store_at dst s.

(** [(j) < (a)->i ? ... : NULL]. *)
Definition utarray_eltptr (a : UT_array) (j : Z) : option Z := if j <? ua_i a then Some j else None.

(** The destructor is called on the element at [p]. *)
Definition destroy (p : option Z) : MA () :=
  a ← get id;
  j ← demand p;
  e ← demand (if 0 <=? j then mjoin (ua_d a !! Z.to_nat j) else None);
  modify (fun a => UTArray (ua_i a) (ua_n a) (ua_icd a) (ua_d a) (ua_log a ++ [e])).

(** [for (_ut_i = from; ...; _ut_i++)], [n] times. *)
Fixpoint destroy_loop (n : nat) (from : Z) : MA () :=
  match n with
  | O => mret ()
  | S n => a ← get id; _ ← destroy (utarray_eltptr a from); destroy_loop n (from + 1)
  end.

Definition destroy_range (from n : Z) : MA () :=
  a ← get id; if icd_dtor (ua_icd a) then destroy_loop (Z.to_nat n) from else mret ().

(** ** Operations *)

Definition utarray_init (icd : UT_icd) : UT_array := UTArray 0 0 icd [] [].

(** [while (i + by > n) n = n ? 2 * n : 8], in [unsigned]. *)
Fixpoint grow (fuel : nat) (need n : Z) : MA Z :=
  match fuel with
  | O => no_fuel
  | S fuel => if n <? need then grow fuel need (if n =? 0 then 8 else u32 (2 * n)) else mret n
  end.

Definition utarray_reserve (fuel : nat) (by_ : Z) : MA () :=
  a ← get id;
  let need := u32 (ua_i a + by_) in
  if ua_n a <? need then
    n ← grow fuel need (ua_n a);
    modify (fun a => UTArray (ua_i a) n (ua_icd a) (take (Z.to_nat n) (ua_d a) ++ replicate (Z.to_nat n - length (ua_d a)) None) (ua_log a))
  else mret ().

Definition copied (a : UT_array) (p : E) : E := match icd_copy (ua_icd a) with Some copy => copy p | None => p end.

Definition utarray_push_back (fuel : nat) (p : E) : MA () :=
  _ ← utarray_reserve fuel 1;
  a ← get id;
  _ ← store_at (ua_i a) [Some (copied a p)];
  modify (fun a => with_i a (u32 (ua_i a + 1))).

Definition utarray_pop_back : MA () :=
  a ← get id;
  _ ← modify (fun a => with_i a (u32 (ua_i a - 1)));
  if icd_dtor (ua_icd a) then destroy (Some (u32 (ua_i a - 1))) else mret ().

Definition utarray_extend_back (fuel : nat) : MA () :=
  _ ← utarray_reserve fuel 1;
  a ← get id;
  _ ← store_at (ua_i a) [Some (default zero (icd_init (ua_icd a)))];
  modify (fun a => with_i a (u32 (ua_i a + 1))).

(** The initialiser is called on [utarray_eltptr(dst, _ut_i)]. *)
Definition init_range (from n : Z) : MA () :=
  a ← get id;
  match icd_init (ua_icd a) with
  | Some e =>
      if n =? 0 then mret () else
      j ← demand (utarray_eltptr a from); store_at j (replicate (Z.to_nat n) (Some e))
  | None => store_at from (replicate (Z.to_nat n) (Some zero))
  end.

Definition utarray_resize (fuel : nat) (num : Z) : MA () :=
  a ← get id;
  _ ← (if num <? ua_i a then destroy_range num (ua_i a - num)
       else if ua_i a <? num then
         _ ← utarray_reserve fuel (num - ua_i a);
         init_range (ua_i a) (num - ua_i a)
       else mret ());
  modify (fun a => with_i a num).

(** [utarray_inserta] of the elements [w] of another array. *)
Definition utarray_inserta (fuel : nat) (w : list E) (j : Z) : MA () :=
  let len := Z.of_nat (length w) in
  if len =? 0 then mret () else
  a ← get id;
  _ ← (if ua_i a <? j then utarray_resize fuel j else mret ());
  _ ← utarray_reserve fuel len;
  a ← get id;
  _ ← (if j <? ua_i a then move (j + len) j (ua_i a - j) else mret ());
  _ ← store_at j ((fun p => Some (copied a p)) <$> w);
  modify (fun a => with_i a (u32 (ua_i a + len))).

Definition utarray_insert (fuel : nat) (p : E) (j : Z) : MA () :=
  a ← get id;
  _ ← (if ua_i a <? j then utarray_resize fuel j else mret ());
  _ ← utarray_reserve fuel 1;
  a ← get id;
  _ ← (if j <? ua_i a then move (j + 1) j (ua_i a - j) else mret ());
  _ ← store_at j [Some (copied a p)];
  modify (fun a => with_i a (u32 (ua_i a + 1))).

Definition utarray_concat (fuel : nat) (w : list E) : MA () := a ← get id; utarray_inserta fuel w (ua_i a).

Definition utarray_erase (pos len : Z) : MA () :=
  _ ← destroy_range pos len;
  a ← get id;
  _ ← (if pos + len <? ua_i a then move pos (pos + len) (ua_i a - (pos + len)) else mret ());
  modify (fun a => with_i a (u32 (ua_i a - len))).

Definition utarray_clear : MA () :=
  a ← get id;
  if 0 <? ua_i a then _ ← destroy_range 0 (ua_i a); modify (fun a => with_i a 0) else mret ().

Definition utarray_done : MA () :=
  a ← get id;
  _ ← (if negb (ua_n a =? 0) then
         _ ← destroy_range 0 (ua_i a); modify (fun a => with_slots a [])
       else mret ());
  modify (fun a => UTArray (ua_i a) 0 (ua_icd a) (ua_d a) (ua_log a)).

(** Walking: an element pointer is its index, [None] is [NULL]. *)
Definition utarray_front (a : UT_array) : option Z := if ua_i a =? 0 then None else Some 0.
Definition utarray_back (a : UT_array) : option Z := if ua_i a =? 0 then None else Some (ua_i a - 1).
Definition utarray_next (a : UT_array) (e : option Z) : option Z :=
  match e with
  | None => utarray_front a
  | Some j => if j + 1 <? ua_i a then Some (j + 1) else None
  end.
Definition utarray_prev (a : UT_array) (e : option Z) : option Z :=
  match e with
  | None => utarray_back a
  | Some j => if 0 <? j then Some (j - 1) else None
  end.
End utarray.
