(* ===== verification/UtarrayProps.v ===== *)
(** The operations of utarray.h implement those on sequences. *)

From S2P Require Import Prelude CLib Outcome Utarray.

#[local] Open Scope Z_scope.

Section props.
Context {E : Type} (zero : E).
#[local] Abbreviation arr := (@UT_array E).

(** The elements [l], in an array whose size is 0 or a power of two from 8 to 2^31. *)
Definition arr_rep (a : arr) (l : list E) : Prop :=
  ua_i a = Z.of_nat (length l) /\ ua_n a = Z.of_nat (length (ua_d a)) /\
  (exists r, ua_d a = (Some <$> l) ++ r) /\
  (ua_n a = 0 \/ exists k, 3 <= k <= 31 /\ ua_n a = 2 ^ k).

(** [a'] differs from [a] in the slots, the number of the elements and the log only. *)
Definition same_icd (a a' : arr) : Prop := ua_icd a' = ua_icd a.

Lemma put_mid (A X B s : list (option E)) i : i = Z.of_nat (length A) -> length X = length s ->
  put (A ++ X ++ B) i s = Some (A ++ s ++ B).
Proof.
  intros -> Hl. unfold put. rewrite decide_True by (rewrite !length_app; lia). rewrite Nat2Z.id, take_app_length.
  do 3 f_equal. rewrite drop_app_ge by lia. rewrite drop_app_ge by lia.
  replace (length A + length s - length A - length X)%nat with 0%nat by lia. done.
Qed.

Lemma wp_store_at (A X B s : list (option E)) i (a : arr) (Q : () -> arr -> Prop) :
  ua_d a = A ++ X ++ B -> i = Z.of_nat (length A) -> length X = length s ->
  Q () (with_slots a (A ++ s ++ B)) -> wp safe (store_at i s) Q a.
Proof.
  intros Hd Hi Hl HQ. unfold store_at. apply wp_bind, wp_get, wp_bind.
  eapply wp_demand; [cbn; rewrite Hd; by apply put_mid|]. by apply wp_modify.
Qed.

Lemma wp_move (A s X B C D : list (option E)) dst src n (a : arr) (Q : () -> arr -> Prop) :
  ua_d a = A ++ s ++ D -> src = Z.of_nat (length A) -> n = Z.of_nat (length s) ->
  ua_d a = C ++ X ++ B -> dst = Z.of_nat (length C) -> length X = length s ->
  Q () (with_slots a (C ++ s ++ B)) -> wp safe (move dst src n) Q a.
Proof.
  intros Hd -> -> Hd2 -> Hl HQ. unfold move. apply wp_bind, wp_get. cbv zeta. rewrite !Nat2Z.id.
  change (id a) with a. rewrite Hd, drop_app_length, take_app_length.
  apply wp_bind, (wp_demand _ _ ()); [by rewrite decide_True by lia|]. by eapply wp_store_at.
Qed.

Lemma grow_spec fuel : forall k need n (a : arr), 3 <= k <= 31 -> n = 2 ^ k -> need <= 2 ^ 31 -> (Z.to_nat (32 - k) <= fuel)%nat ->
  wp safe (grow fuel need n) (fun n' a' => a' = a /\ need <= n' /\ n <= n' /\ exists k', 3 <= k' <= 31 /\ n' = 2 ^ k') a.
Proof.
  induction fuel as [|fuel IH]; intros k need n a Hk -> Hneed Hf; [lia|]. cbn [grow].
  destruct (Z.ltb_spec (2 ^ k) need) as [Hlt|Hge].
  - assert (k < 31) as Hk31.
    { destruct (Z.eq_dec k 31) as [->|]; lia. }
    assert (0 < 2 ^ k) by (apply Z.pow_pos_nonneg; lia). rewrite (proj2 (Z.eqb_neq _ _)) by lia.
    assert (u32 (2 * 2 ^ k) = 2 ^ (k + 1)) as ->.
    { rewrite Z.pow_add_r, Z.mul_comm by lia. change (2 ^ 1) with 2. apply Z.mod_small.
      assert (2 ^ k <= 2 ^ 30) as Hle by (apply Z.pow_le_mono_r; lia). change (2 ^ 30) with 1073741824 in Hle. lia. }
    eapply wp_mono; [apply (IH (k + 1)); [lia|done|done|lia]|]. intros n' a' (->&H1&H2&H3). split; [done|]. split; [done|].
    split; [|done]. rewrite Z.pow_add_r in H2 by lia. lia.
  - apply wp_ret. split; [done|]. split; [done|]. split; [lia|]. by exists k.
Qed.

Definition ARRAY_FUEL : nat := 32.

Lemma reserve_spec fuel by_ l (a : arr) : (ARRAY_FUEL <= fuel)%nat -> arr_rep a l -> 0 <= by_ -> Z.of_nat (length l) + by_ <= 2 ^ 31 ->
  wp safe (utarray_reserve fuel by_) (fun _ a' => arr_rep a' l /\ Z.of_nat (length l) + by_ <= Z.of_nat (length (ua_d a')) /\
    same_icd a a' /\ ua_log a' = ua_log a) a.
Proof.
  intros Hf Hrep Hby Hmax. pose proof Hrep as (Hi&Hn&[r Hd]&Hpow). unfold utarray_reserve. apply wp_bind, wp_get.
  change (id a) with a. cbv zeta. rewrite Hi.
  assert (u32 (Z.of_nat (length l) + by_) = Z.of_nat (length l) + by_) as ->
    by (apply Z.mod_small; change (2 ^ 31) with 2147483648 in Hmax; lia).
  destruct (Z.ltb_spec (ua_n a) (Z.of_nat (length l) + by_)) as [Hlt|Hge].
  - apply wp_bind. assert (wp safe (grow fuel (Z.of_nat (length l) + by_) (ua_n a)) (fun n' a' => a' = a /\
      Z.of_nat (length l) + by_ <= n' /\ ua_n a <= n' /\ exists k', 3 <= k' <= 31 /\ n' = 2 ^ k') a) as H.
    { destruct Hpow as [H0|(k&Hk&Hnk)].
      - destruct fuel as [|fuel]; [unfold ARRAY_FUEL in Hf; lia|]. cbn [grow]. rewrite H0 in Hlt |- *. rewrite (proj2 (Z.ltb_lt _ _)) by lia.
        eapply wp_mono; [apply (grow_spec fuel 3); [lia|done|done|unfold ARRAY_FUEL in Hf; lia]|]. intros n' a' (H1&H2&H3&H4).
        split; [done|]. split; [done|]. split; [lia|done].
      - apply (grow_spec fuel k); [done|done|done|unfold ARRAY_FUEL in Hf; lia]. }
    eapply wp_mono; [exact H|]. intros n' a' (->&H1&H2&H3). apply wp_modify.
    assert (length (take (Z.to_nat n') (ua_d a) ++ replicate (Z.to_nat n' - length (ua_d a)) None) = Z.to_nat n') as Hl.
    { rewrite length_app, length_take, length_replicate. lia. }
    split; [|split; [|split; done]].
    + split; [done|]. split; [cbn [ua_n ua_d]; rewrite Hl; lia|]. split; [|by right].
      cbn [ua_d]. rewrite take_ge by lia. rewrite Hd, <-app_assoc. by eexists.
    + cbn [ua_d]. rewrite Hl. lia.
  - apply wp_ret. split; [done|]. split; [lia|done].
Qed.

(** ** Destruction *)

Definition log_more (a : arr) (es : list E) : arr := UTArray (ua_i a) (ua_n a) (ua_icd a) (ua_d a) (ua_log a ++ es).

Lemma log_more_nil a : log_more a [] = a.
Proof. destruct a. unfold log_more. cbn. by rewrite app_nil_r. Qed.
Lemma log_more_rep a l es : arr_rep a l -> arr_rep (log_more a es) l.
Proof. done. Qed.

Lemma destroy_loop_spec n : forall from l (a : arr), arr_rep a l -> (from + n <= length l)%nat ->
  wp safe (destroy_loop n (Z.of_nat from)) (fun _ a' => a' = log_more a (take n (drop from l))) a.
Proof.
  induction n as [|n IH]; intros from l a Hrep Hl; cbn [destroy_loop].
  - apply wp_ret. by rewrite take_0, log_more_nil.
  - pose proof Hrep as (Hi&_&[r Hd]&_). apply wp_bind, wp_get, wp_bind.
    destruct (lookup_lt_is_Some_2 l from) as [e He]; [lia|].
    unfold destroy. apply wp_bind, wp_get, wp_bind. change (id a) with a.
    eapply wp_demand; [unfold utarray_eltptr; by rewrite (proj2 (Z.ltb_lt _ _)) by lia|].
    apply wp_bind. eapply (wp_demand _ _ e).
    { rewrite (proj2 (Z.leb_le _ _)) by lia. rewrite Nat2Z.id, Hd, lookup_app_l by (rewrite length_fmap; lia).
      by rewrite list_lookup_fmap, He. }
    apply wp_modify. replace (Z.of_nat from + 1) with (Z.of_nat (S from)) by lia.
    eapply wp_mono; [apply (IH (S from) l (log_more a [e])); [done|lia]|]. intros [] a' ->.
    unfold log_more. cbn [ua_i ua_n ua_icd ua_d ua_log]. rewrite <-app_assoc. cbn [app].
    by rewrite (drop_S l e from) by done.
Qed.

(** The elements [es] are destroyed when there is a destructor. *)
Definition destroyed (a : arr) (es : list E) : arr := if icd_dtor (ua_icd a) then log_more a es else a.

Lemma destroyed_rep a l es : arr_rep a l -> arr_rep (destroyed a es) l.
Proof. unfold destroyed. by destruct (icd_dtor (ua_icd a)). Qed.

Lemma destroy_range_spec from n l (a : arr) : arr_rep a l -> (from + n <= length l)%nat ->
  wp safe (destroy_range (Z.of_nat from) (Z.of_nat n)) (fun _ a' => a' = destroyed a (take n (drop from l))) a.
Proof.
  intros Hrep Hl. unfold destroy_range, destroyed. apply wp_bind, wp_get. change (id a) with a. rewrite Nat2Z.id.
  destruct (icd_dtor (ua_icd a)); [by apply destroy_loop_spec|by apply wp_ret].
Qed.

(** ** Every operation *)

(** [a'] holds [l'], and of [a] exactly the elements [es] were destroyed. *)
Definition after (a : arr) (l' es : list E) (a' : arr) : Prop :=
  arr_rep a' l' /\ same_icd a a' /\ ua_log a' = ua_log a ++ (if icd_dtor (ua_icd a) then es else []).

Lemma rep_slots (a : arr) l D l' r i : arr_rep a l -> length D = length (ua_d a) -> D = (Some <$> l') ++ r ->
  i = Z.of_nat (length l') -> arr_rep (with_i (with_slots a D) i) l'.
Proof.
  intros (_&Hn&_&Hpow) Hl HD Hi. split; [done|]. split; [cbn; rewrite Hl; exact Hn|]. split; [by exists r|done].
Qed.

Lemma rep_shorter (a : arr) l l' i : arr_rep a l -> l' `prefix_of` l -> i = Z.of_nat (length l') -> arr_rep (with_i a i) l'.
Proof.
  intros (_&Hn&[r Hd]&Hpow) [k ->] Hi. split; [done|]. split; [done|]. split; [|done]. cbn. rewrite Hd, fmap_app, <-app_assoc.
  by eexists.
Qed.

Lemma u32_small z : 0 <= z <= 2 ^ 31 -> u32 z = z.
Proof. intros H. apply Z.mod_small. change (2 ^ 31) with 2147483648 in H. lia. Qed.

(** Slots behind the elements. *)
Lemma room (r : list (option E)) n : (n <= length r)%nat -> exists X B, r = X ++ B /\ length X = n.
Proof. intros H. exists (take n r), (drop n r). by rewrite take_drop, length_take, Nat.min_l. Qed.

(** [s] is stored behind the elements [l], and counted. *)
Lemma store_end l es (a a0 : arr) : arr_rep a l -> Z.of_nat (length l) + Z.of_nat (length es) <= Z.of_nat (length (ua_d a)) ->
  Z.of_nat (length l) + Z.of_nat (length es) <= 2 ^ 31 -> same_icd a0 a -> ua_log a = ua_log a0 ->
  wp safe (_ ← store_at (ua_i a) (Some <$> es); modify (fun a => with_i a (u32 (ua_i a + Z.of_nat (length es)))))
    (fun _ a' => after a0 (l ++ es) [] a') a.
Proof.
  intros Hrep Hroom Hmax Hicd Hlog. pose proof Hrep as (Hi&Hn&[r Hd]&_).
  destruct (room r (length es)) as (X&B&->&HX).
  { rewrite Hd, length_app, length_fmap in Hroom. lia. }
  apply wp_bind. eapply (wp_store_at (Some <$> l) X B); [exact Hd|by rewrite length_fmap|by rewrite length_fmap|].
  apply wp_modify. split; [|split; [done|cbn; rewrite Hlog; by destruct (icd_dtor _); rewrite app_nil_r]].
  eapply (rep_slots a l _ (l ++ es) B); [done| | |].
  - autorewrite with len. rewrite Hd. autorewrite with len. lia.
  - by rewrite fmap_app, app_assoc.
  - cbn. rewrite u32_small, Hi, length_app by lia. lia.
Qed.

Lemma push_back_spec fuel p l (a : arr) : (ARRAY_FUEL <= fuel)%nat -> arr_rep a l -> Z.of_nat (length l) < 2 ^ 31 ->
  wp safe (utarray_push_back fuel p) (fun _ a' => after a (l ++ [copied a p]) [] a') a.
Proof.
  intros Hf Hrep Hmax. eapply wp_seq; [eapply (reserve_spec fuel 1); [done|exact Hrep|lia|lia]|].
  intros [] a1 (H1&H2&H3&H4). apply wp_bind, wp_get. change (id a1) with a1.
  assert (copied a1 p = copied a p) as -> by (unfold copied; by rewrite H3).
  apply (store_end l [copied a p] a1 a H1); cbn; [lia|lia|done|done].
Qed.

Lemma extend_back_spec fuel l (a : arr) : (ARRAY_FUEL <= fuel)%nat -> arr_rep a l -> Z.of_nat (length l) < 2 ^ 31 ->
  wp safe (utarray_extend_back zero fuel) (fun _ a' => after a (l ++ [default zero (icd_init (ua_icd a))]) [] a') a.
Proof.
  intros Hf Hrep Hmax. eapply wp_seq; [eapply (reserve_spec fuel 1); [done|exact Hrep|lia|lia]|].
  intros [] a1 (H1&H2&H3&H4). apply wp_bind, wp_get. change (id a1) with a1. rewrite H3.
  apply (store_end l [_] a1 a H1); cbn; [lia|lia|done|done].
Qed.

Lemma pop_back_spec l e (a : arr) : arr_rep a (l ++ [e]) -> Z.of_nat (length (l ++ [e])) <= 2 ^ 31 ->
  wp safe utarray_pop_back (fun _ a' => after a l [e] a') a.
Proof.
  intros Hrep Hmax. pose proof Hrep as (Hi&_&[r Hd]&_). rewrite length_app in Hi, Hmax. cbn [length] in *.
  unfold utarray_pop_back. apply wp_bind, wp_get, wp_bind, wp_modify. change (id a) with a.
  rewrite Hi, u32_small by lia. replace (Z.of_nat (length l + 1) - 1) with (Z.of_nat (length l)) by lia.
  assert (arr_rep (with_i a (Z.of_nat (length l))) l) as Hrep' by (eapply rep_shorter; [done|by eexists|done]).
  destruct (icd_dtor (ua_icd a)) eqn:Ed.
  - unfold destroy. apply wp_bind, wp_get, wp_bind, (wp_demand _ _ (Z.of_nat (length l))); [done|]. apply wp_bind.
    eapply (wp_demand _ _ e).
    { rewrite (proj2 (Z.leb_le _ _)) by lia. rewrite Nat2Z.id. change (ua_d (id ?x)) with (ua_d a).
      cbn. rewrite Hd, fmap_app, <-app_assoc. change ((Some <$> [e]) ++ r) with (Some e :: r).
      rewrite list_lookup_middle; [done|by rewrite length_fmap]. }
    apply wp_modify. split; [done|]. split; [done|]. cbn. by rewrite Ed.
  - apply wp_ret. split; [done|]. split; [done|]. by rewrite Ed, app_nil_r.
Qed.

(** What [utarray_resize] makes of [l]. *)
Definition resized (l : list E) (num : nat) : list E := take num l ++ replicate (num - length l) zero.

Lemma resize_spec fuel num l (a : arr) : (ARRAY_FUEL <= fuel)%nat -> arr_rep a l -> Z.of_nat num <= 2 ^ 31 ->
  ((length l < num)%nat -> icd_init (ua_icd a) = None) ->
  wp safe (utarray_resize zero fuel (Z.of_nat num)) (fun _ a' => after a (resized l num) (drop num l) a') a.
Proof.
  intros Hf Hrep Hmax Hinit. pose proof Hrep as (Hi&_&[r Hd]&_). unfold utarray_resize, resized.
  apply wp_bind, wp_get, wp_bind. change (id a) with a. rewrite Hi.
  destruct (Z.ltb_spec (Z.of_nat num) (Z.of_nat (length l))) as [Hlt|Hge].
  - replace (Z.of_nat (length l) - Z.of_nat num) with (Z.of_nat (length l - num)) by lia.
    eapply wp_mono; [eapply (destroy_range_spec num); [exact Hrep|lia]|]. intros [] a1 ->. apply wp_modify.
    replace (num - length l)%nat with 0%nat by lia. cbn [replicate]. rewrite app_nil_r.
    rewrite (take_ge (drop num l)) by (rewrite length_drop; lia). split; [|split].
    + eapply rep_shorter; [by apply destroyed_rep|by exists (drop num l); rewrite take_drop|rewrite length_take; lia].
    + unfold same_icd, destroyed. by destruct (icd_dtor (ua_icd a)).
    + unfold destroyed. destruct (icd_dtor (ua_icd a)) eqn:Ed; cbn; [done|by rewrite app_nil_r].
  - rewrite (take_ge l), (drop_ge l) by lia. destruct (Z.ltb_spec (Z.of_nat (length l)) (Z.of_nat num)) as [Hlt|Heq].
    + eapply wp_seq; [eapply (reserve_spec fuel _ l a); [done|exact Hrep|lia|lia]|].
      intros [] a1 (H1&H2&H3&H4). pose proof H1 as (Hi1&_&[r1 Hd1]&_). unfold init_range. apply wp_bind, wp_get. change (id a1) with a1.
      rewrite H3, Hinit by lia. replace (Z.to_nat (Z.of_nat num - Z.of_nat (length l))) with (num - length l)%nat by lia.
      destruct (room r1 (num - length l)) as (X&B&->&HX).
      { rewrite Hd1, length_app, length_fmap in H2. lia. }
      eapply (wp_store_at (Some <$> l) X B); [exact Hd1|by rewrite length_fmap|by rewrite length_replicate|].
      apply wp_modify. split; [|split; [done|cbn; rewrite H4; by destruct (icd_dtor _); rewrite app_nil_r]].
      eapply (rep_slots a1 l _ _ B); [done| | |].
      * rewrite Hd1. autorewrite with len. lia.
      * by rewrite fmap_app, fmap_replicate, app_assoc.
      * rewrite length_app, length_replicate. lia.
    + apply wp_ret, wp_modify. assert (num = length l) as -> by lia. rewrite Nat.sub_diag. cbn [replicate]. rewrite app_nil_r.
      split; [by eapply rep_shorter|]. split; [done|]. by destruct (icd_dtor _); rewrite app_nil_r.
Qed.

(** What comes in place of slot [j], with the elements from there on moved up. *)
Lemma insert_core j es f l (a a0 : arr) : arr_rep a l -> (j <= length l)%nat -> f a = Some <$> es ->
  Z.of_nat (length l) + Z.of_nat (length es) <= Z.of_nat (length (ua_d a)) ->
  Z.of_nat (length l) + Z.of_nat (length es) <= 2 ^ 31 -> same_icd a0 a -> ua_log a = ua_log a0 ->
  wp safe (a ← get id;
           _ ← (if Z.of_nat j <? ua_i a then move (Z.of_nat j + Z.of_nat (length es)) (Z.of_nat j) (ua_i a - Z.of_nat j) else mret ());
           _ ← store_at (Z.of_nat j) (f a);
           modify (fun a => with_i a (u32 (ua_i a + Z.of_nat (length es)))))
    (fun _ a' => after a0 (take j l ++ es ++ drop j l) [] a') a.
Proof.
  intros Hrep Hj Hfe Hroom Hmax Hicd Hlog. pose proof Hrep as (Hi&Hn&[r Hd]&_).
  apply wp_bind, wp_get. change (id a) with a. rewrite Hfe.
  set (A := Some <$> take j l). set (D := Some <$> drop j l).
  assert (length A = j) as HA by (unfold A; rewrite length_fmap, length_take; lia).
  assert (length D = length l - j)%nat as HD by (unfold D; rewrite length_fmap, length_drop; lia).
  assert (ua_d a = A ++ D ++ r) as Hd1 by (unfold A, D; by rewrite Hd, app_assoc, <-fmap_app, take_drop).
  assert (exists X B, length X = length es /\ length (A ++ X ++ D ++ B) = length (ua_d a) /\
    wp safe (if Z.of_nat j <? ua_i a then move (Z.of_nat j + Z.of_nat (length es)) (Z.of_nat j) (ua_i a - Z.of_nat j) else mret ())
      (fun _ a' => a' = with_slots a (A ++ X ++ D ++ B)) a) as (X&B&HX&Hlen&Hmove).
  { rewrite Hd1 in Hroom. rewrite !length_app in Hroom.
    destruct (room (D ++ r) (length es)) as (X&Y&EX&HX); [rewrite length_app; lia|].
    destruct (room Y (length D)) as (Z&B&EY&HZ); [apply (f_equal length) in EX; rewrite !length_app in EX; lia|].
    exists X, B. split; [done|]. split; [rewrite Hd1, EX, EY, !length_app; lia|].
    destruct (Z.ltb_spec (Z.of_nat j) (ua_i a)) as [Hlt|Hge].
    - eapply (wp_move A D Z B (A ++ X) r); [exact Hd1|lia|lia|by rewrite Hd1, EX, EY, <-app_assoc|rewrite length_app; lia|done|].
      by rewrite <-app_assoc.
    - apply wp_ret. assert (D = []) as ED by (apply nil_length_inv; lia). rewrite ED in EX, HZ |- *. destruct Z; [|done].
      cbn [app] in *. destruct a as [ai an aicd ad alog]. unfold with_slots. cbn [ua_i ua_n ua_icd ua_d ua_log] in *. subst Y.
      by rewrite Hd1, ED, EX. }
  eapply wp_seq; [exact Hmove|]. intros [] a1 ->. apply wp_bind.
  eapply (wp_store_at A X (D ++ B)); [done|lia|by rewrite length_fmap|]. apply wp_modify.
  split; [|split; [done|cbn; rewrite Hlog; by destruct (icd_dtor _); rewrite app_nil_r]].
  eapply (rep_slots a l _ _ B); [done| | |].
  - rewrite <-Hlen. rewrite !length_app, length_fmap. lia.
  - rewrite !fmap_app. unfold A, D. by rewrite <-!app_assoc.
  - cbn. rewrite u32_small, Hi, !length_app, length_take, length_drop by lia. lia.
Qed.

(** [l], made long enough for slot [j] to be one of it or the one behind. *)
Definition padded (l : list E) (j : nat) : list E := l ++ replicate (j - length l) zero.

Lemma padded_length l j : (length (padded l j) = Nat.max (length l) j)%nat.
Proof. unfold padded. rewrite length_app, length_replicate. lia. Qed.

Definition inserted (l es : list E) (j : nat) : list E := take j (padded l j) ++ es ++ drop j (padded l j).

Lemma pad_spec fuel j l (a : arr) : (ARRAY_FUEL <= fuel)%nat -> arr_rep a l -> Z.of_nat j <= 2 ^ 31 ->
  ((length l < j)%nat -> icd_init (ua_icd a) = None) ->
  wp safe (if ua_i a <? Z.of_nat j then utarray_resize zero fuel (Z.of_nat j) else mret ())
    (fun _ a' => arr_rep a' (padded l j) /\ same_icd a a' /\ ua_log a' = ua_log a) a.
Proof.
  intros Hf Hrep Hmax Hinit. pose proof Hrep as (Hi&_). rewrite Hi. unfold padded.
  destruct (Z.ltb_spec (Z.of_nat (length l)) (Z.of_nat j)) as [Hlt|Hge].
  - eapply wp_mono; [by apply (resize_spec fuel j l)|]. intros [] a1 (H1&H2&H3). unfold resized in H1. rewrite take_ge in H1 by lia.
    split; [done|]. split; [done|]. rewrite drop_ge in H3 by lia. rewrite H3. by destruct (icd_dtor _); rewrite app_nil_r.
  - apply wp_ret. replace (j - length l)%nat with 0%nat by lia. cbn [replicate]. by rewrite app_nil_r.
Qed.

Lemma insert_spec fuel p j l (a : arr) : (ARRAY_FUEL <= fuel)%nat -> arr_rep a l ->
  Z.of_nat (Nat.max (length l) j) + 1 <= 2 ^ 31 -> ((length l < j)%nat -> icd_init (ua_icd a) = None) ->
  wp safe (utarray_insert zero fuel p (Z.of_nat j)) (fun _ a' => after a (inserted l [copied a p] j) [] a') a.
Proof.
  intros Hf Hrep Hmax Hinit. unfold utarray_insert. apply wp_bind, wp_get. change (id a) with a.
  eapply wp_seq; [apply (pad_spec fuel j l); [done|done|lia|done]|]. intros [] a1 (H1&H2&H3).
  eapply wp_seq; [eapply (reserve_spec fuel 1 (padded l j)); [done|exact H1|lia|rewrite padded_length; lia]|].
  intros [] a2 (H4&H5&H6&H7).
  eapply (insert_core j [copied a p] (fun a => [Some (copied a p)]) (padded l j) a2 a H4).
  - rewrite padded_length. lia.
  - cbn. unfold copied. unfold same_icd in *. by rewrite H6, H2.
  - cbn. lia.
  - rewrite padded_length. cbn. lia.
  - unfold same_icd in *. congruence.
  - congruence.
Qed.

Lemma inserta_spec fuel w j l (a : arr) : (ARRAY_FUEL <= fuel)%nat -> arr_rep a l ->
  Z.of_nat (Nat.max (length l) j) + Z.of_nat (length w) <= 2 ^ 31 -> ((length l < j)%nat -> icd_init (ua_icd a) = None) ->
  wp safe (utarray_inserta zero fuel w (Z.of_nat j))
    (fun _ a' => after a (if decide (w = []) then l else inserted l (copied a <$> w) j) [] a') a.
Proof.
  intros Hf Hrep Hmax Hinit. unfold utarray_inserta. cbv zeta. destruct w as [|p w].
  { apply wp_ret. rewrite decide_True by done. split; [done|]. split; [done|]. by destruct (icd_dtor _); rewrite app_nil_r. }
  rewrite decide_False by done. set (w' := p :: w) in *. assert (0 < length w')%nat by (cbn; lia).
  rewrite (proj2 (Z.eqb_neq _ _)) by lia. apply wp_bind, wp_get. change (id a) with a.
  eapply wp_seq; [apply (pad_spec fuel j l); [done|done|lia|done]|]. intros [] a1 (H1&H2&H3).
  eapply wp_seq; [eapply (reserve_spec fuel _ (padded l j)); [done|exact H1|lia|rewrite padded_length; lia]|].
  intros [] a2 (H4&H5&H6&H7). assert (length (copied a <$> w') = length w') as Hl by apply length_fmap.
  rewrite <-Hl. eapply (insert_core j (copied a <$> w') (fun a => (fun p => Some (copied a p)) <$> w') (padded l j) a2 a H4).
  - rewrite padded_length. lia.
  - rewrite <-list_fmap_compose. apply list_fmap_ext. intros i x _. cbn. unfold copied. unfold same_icd in *. by rewrite H6, H2.
  - lia.
  - rewrite padded_length. lia.
  - unfold same_icd in *. congruence.
  - congruence.
Qed.

Lemma erase_spec pos len l (a : arr) : arr_rep a l -> (pos + len <= length l)%nat -> Z.of_nat (length l) <= 2 ^ 31 ->
  wp safe (utarray_erase (Z.of_nat pos) (Z.of_nat len))
    (fun _ a' => after a (take pos l ++ drop (pos + len) l) (take len (drop pos l)) a') a.
Proof.
  intros Hrep Hl Hmax. unfold utarray_erase. eapply wp_seq; [by eapply (destroy_range_spec pos len)|].
  intros [] a1 Ea. assert (arr_rep a1 l) as Hrep1 by (rewrite Ea; by apply destroyed_rep).
  pose proof Hrep1 as (Hi&Hn&[r Hd]&_). apply wp_bind, wp_get. change (id a1) with a1. rewrite Hi.
  set (A := Some <$> take pos l). set (X := Some <$> take len (drop pos l)). set (D := Some <$> drop (pos + len) l).
  assert (length A = pos) as HA by (unfold A; rewrite length_fmap, length_take; lia).
  assert (length X = len) as HX by (unfold X; rewrite length_fmap, length_take, length_drop; lia).
  assert (length D = length l - (pos + len))%nat as HD by (unfold D; rewrite length_fmap, length_drop; lia).
  assert (ua_d a1 = A ++ X ++ D ++ r) as Hd1.
  { unfold A, X, D. rewrite Hd, <-drop_drop. rewrite (app_assoc (Some <$> take len _)), <-fmap_app, take_drop, app_assoc, <-fmap_app, take_drop. done. }
  assert (exists B, length (A ++ D ++ B) = length (ua_d a1) /\
    wp safe (if Z.of_nat pos + Z.of_nat len <? Z.of_nat (length l)
             then move (Z.of_nat pos) (Z.of_nat pos + Z.of_nat len) (Z.of_nat (length l) - (Z.of_nat pos + Z.of_nat len)) else mret ())
      (fun _ a' => a' = with_slots a1 (A ++ D ++ B)) a1) as (B&HB&Hmove).
  { destruct (room (X ++ D ++ r) (length D)) as (Y&B&EY&HY); [rewrite !length_app; lia|]. exists B.
    split; [rewrite Hd1, EY, !length_app; lia|].
    destruct (Z.ltb_spec (Z.of_nat pos + Z.of_nat len) (Z.of_nat (length l))) as [Hlt|Hge].
    - eapply (wp_move (A ++ X) D Y B A r); [by rewrite Hd1, <-app_assoc|rewrite length_app; lia|lia|by rewrite Hd1, EY|lia|done|done].
    - apply wp_ret. assert (D = []) as ED by (apply nil_length_inv; lia). rewrite ED in EY, HY |- *. destruct Y; [|done].
      cbn [app] in *. destruct a1 as [ai an aicd ad alog]. unfold with_slots. cbn [ua_i ua_n ua_icd ua_d ua_log] in *.
      rewrite ED in Hd1. cbn [app] in Hd1. by rewrite Hd1, EY. }
  eapply wp_seq; [exact Hmove|]. intros [] a2 ->. apply wp_modify.
  assert (same_icd a a1 /\ ua_log a1 = ua_log a ++ (if icd_dtor (ua_icd a) then take len (drop pos l) else [])) as [H1 H2].
  { rewrite Ea. unfold same_icd, destroyed. destruct (icd_dtor (ua_icd a)); cbn; [done|by rewrite app_nil_r]. }
  split; [|by split]. eapply (rep_slots a1 l _ _ B); [done|done|by rewrite fmap_app, <-app_assoc|].
  cbn. rewrite Hi, u32_small, length_app, length_take, length_drop by lia. lia.
Qed.

Lemma clear_spec l (a : arr) : arr_rep a l -> wp safe utarray_clear (fun _ a' => after a [] l a') a.
Proof.
  intros Hrep. pose proof Hrep as (Hi&_). unfold utarray_clear. apply wp_bind, wp_get. change (id a) with a. rewrite Hi.
  destruct (Z.ltb_spec 0 (Z.of_nat (length l))) as [Hlt|Hge].
  - eapply wp_seq; [apply (destroy_range_spec 0 (length l) l); [done|lia]|]. intros [] a1 ->. apply wp_modify.
    rewrite drop_0, take_ge by lia. split; [eapply rep_shorter; [by apply destroyed_rep|apply prefix_nil|done]|].
    unfold same_icd, destroyed. destruct (icd_dtor (ua_icd a)); cbn; [done|by rewrite app_nil_r].
  - apply wp_ret. destruct l; [|cbn in Hge; lia]. split; [done|]. split; [done|]. by destruct (icd_dtor _); rewrite app_nil_r.
Qed.

(** ** Sequences of operations *)

Inductive arr_op :=
| PushBack (p : E) | PopBack | ExtendBack | Resize (num : nat)
| Insert (p : E) (j : nat) | InsertA (w : list E) (j : nat) | ConcatA (w : list E) | Erase (pos len : nat) | Clear.

Definition run_arr_op (fuel : nat) (op : arr_op) : M arr () :=
  match op with
  | PushBack p => utarray_push_back fuel p
  | PopBack => utarray_pop_back
  | ExtendBack => utarray_extend_back zero fuel
  | Resize num => utarray_resize zero fuel (Z.of_nat num)
  | Insert p j => utarray_insert zero fuel p (Z.of_nat j)
  | InsertA w j => utarray_inserta zero fuel w (Z.of_nat j)
  | ConcatA w => utarray_concat zero fuel w
  | Erase pos len => utarray_erase (Z.of_nat pos) (Z.of_nat len)
  | Clear => utarray_clear
  end.

Section spec.
Context (icd : @UT_icd E).
Let copy (p : E) : E := match icd_copy icd with Some copy => copy p | None => p end.

(** The elements afterwards, and those that are destroyed. *)
Definition abs_arr_op (l : list E) (op : arr_op) : list E * list E :=
  match op with
  | PushBack p => (l ++ [copy p], [])
  | PopBack => (take (length l - 1) l, drop (length l - 1) l)
  | ExtendBack => (l ++ [default zero (icd_init icd)], [])
  | Resize num => (resized l num, drop num l)
  | Insert p j => (inserted l [copy p] j, [])
  | InsertA w j => (if decide (w = []) then l else inserted l (copy <$> w) j, [])
  | ConcatA w => (l ++ (copy <$> w), [])
  | Erase pos len => (take pos l ++ drop (pos + len) l, take len (drop pos l))
  | Clear => ([], l)
  end.

(** The sizes fit, the elements exist, and no gap is to be filled by an initialiser. *)
Definition can_arr_op (l : list E) (op : arr_op) : Prop :=
  match op with
  | PushBack _ | ExtendBack => Z.of_nat (length l) < 2 ^ 31
  | PopBack => l <> []
  | Resize num => Z.of_nat num <= 2 ^ 31 /\ ((length l < num)%nat -> icd_init icd = None)
  | Insert _ j => Z.of_nat (Nat.max (length l) j) + 1 <= 2 ^ 31 /\ ((length l < j)%nat -> icd_init icd = None)
  | InsertA w j => Z.of_nat (Nat.max (length l) j) + Z.of_nat (length w) <= 2 ^ 31 /\ ((length l < j)%nat -> icd_init icd = None)
  | ConcatA w => Z.of_nat (length l) + Z.of_nat (length w) <= 2 ^ 31
  | Erase pos len => (pos + len <= length l)%nat
  | Clear => True
  end.

Lemma arr_op_spec fuel op l (a : arr) : (ARRAY_FUEL <= fuel)%nat -> ua_icd a = icd -> arr_rep a l ->
  Z.of_nat (length l) <= 2 ^ 31 -> can_arr_op l op ->
  wp safe (run_arr_op fuel op) (fun _ a' => after a (abs_arr_op l op).1 (abs_arr_op l op).2 a') a.
Proof using Type.
  intros Hf Hicd Hrep Hl Hcan.
  assert (forall p, copied a p = copy p) as Hc by (intros p; unfold copied, copy; by rewrite Hicd).
  destruct op as [p| | |num|p j|w j|w|pos len|]; cbn [run_arr_op abs_arr_op can_arr_op fst snd] in *.
  - rewrite <-Hc. by apply push_back_spec.
  - destruct l as [|e l _] using rev_ind; [done|]. rewrite length_app, Nat.add_sub.
    rewrite take_app_length, drop_app_length. by apply pop_back_spec.
  - rewrite <-Hicd. by apply extend_back_spec.
  - rewrite <-Hicd in Hcan. destruct Hcan. by apply resize_spec.
  - rewrite <-Hicd in Hcan. destruct Hcan. rewrite <-Hc. by apply insert_spec.
  - rewrite <-Hicd in Hcan. assert (copied a <$> w = copy <$> w) as <- by (apply list_fmap_ext; auto). destruct Hcan. by apply inserta_spec.
  - unfold utarray_concat. apply wp_bind, wp_get. change (id a) with a. pose proof Hrep as (Hi&_). rewrite Hi.
    assert (copied a <$> w = copy <$> w) as <- by (apply list_fmap_ext; auto).
    eapply wp_mono; [apply (inserta_spec fuel w (length l)); [done|done|lia|lia]|]. intros [] a'.
    unfold inserted, padded. rewrite Nat.sub_diag. cbn [replicate]. rewrite app_nil_r, take_ge, drop_ge, app_nil_r by lia.
    case_decide as Hw; [|done]. rewrite Hw. cbn. by rewrite app_nil_r.
  - by apply erase_spec.
  - by apply clear_spec.
Qed.

Definition run_arr (fuel : nat) (ops : list arr_op) : M arr () :=
  foldr (fun op m => _ ← run_arr_op fuel op; m) (mret ()) ops.

Fixpoint abs_arr (l gone : list E) (ops : list arr_op) : list E * list E :=
  match ops with
  | [] => (l, gone)
  | op :: ops => let r := abs_arr_op l op in abs_arr r.1 (gone ++ r.2) ops
  end.

Fixpoint can_arr (l : list E) (ops : list arr_op) : Prop :=
  match ops with
  | [] => True
  | op :: ops => can_arr_op l op /\ Z.of_nat (length (abs_arr_op l op).1) <= 2 ^ 31 /\ can_arr (abs_arr_op l op).1 ops
  end.

Lemma run_arr_spec fuel ops : forall l gone (a : arr), (ARRAY_FUEL <= fuel)%nat -> ua_icd a = icd -> arr_rep a l ->
  Z.of_nat (length l) <= 2 ^ 31 -> can_arr l ops -> ua_log a = (if icd_dtor icd then gone else []) ->
  wp safe (run_arr fuel ops) (fun _ a' => arr_rep a' (abs_arr l gone ops).1 /\
    ua_log a' = if icd_dtor icd then (abs_arr l gone ops).2 else []) a.
Proof using Type.
  induction ops as [|op ops IH]; intros l gone a Hf Hicd Hrep Hl Hcan Hlog; cbn [run_arr foldr abs_arr].
  - by apply wp_ret.
  - destruct Hcan as (H1&H2&H3). eapply wp_seq; [by apply (arr_op_spec fuel op l)|]. intros [] a1 (Hr&Hi&Hlog1).
    apply IH; [done|by rewrite Hi|done|done|done|]. rewrite Hlog1, Hlog, Hicd. by destruct (icd_dtor icd).
Qed.
End spec.

(** C24: A dynamic array implements a sequence: whatever is pushed, popped,
    inserted (behind the end too), erased, resized, joined or cleared, from
    [utarray_init] on, the array holds the elements it should, and with a destructor exactly
    those that are gone were destroyed, in their order.  Sizes stay up to 2^31,
    where doubling still fits [unsigned]. *)
Theorem utarray_refines (icd : UT_icd) (fuel : nat) (ops : list arr_op) :
  (ARRAY_FUEL <= fuel)%nat -> can_arr icd [] ops ->
  exists a', run_arr fuel ops (utarray_init icd) = Ok () a' /\ arr_rep a' (abs_arr icd [] [] ops).1 /\
    ua_log a' = if icd_dtor icd then (abs_arr icd [] [] ops).2 else [].
Proof.
  intros Hf Hcan. destruct (wp_Ok (run_arr fuel ops) _ (utarray_init icd)
    (run_arr_spec icd fuel ops [] [] (utarray_init icd) Hf eq_refl ltac:(split; [done|]; split; [done|]; split; [by exists []|by left])
       ltac:(done) Hcan ltac:(by destruct (icd_dtor icd)))) as ([]&a'&E1&H). by exists a'.
Qed.

(** With an initialiser an array cannot be resized to more elements: the pointer
    it is called with is that of a slot behind the last element, which
    [utarray_eltptr] gives as [NULL]. *)
Theorem utarray_resize_null fuel num l e (a : arr) : (ARRAY_FUEL <= fuel)%nat -> arr_rep a l ->
  icd_init (ua_icd a) = Some e -> (length l < num)%nat -> Z.of_nat num <= 2 ^ 31 ->
  exists a', utarray_resize zero fuel (Z.of_nat num) a = Undef a'.
Proof.
  intros Hf Hrep He Hlt Hmax. pose proof Hrep as (Hi&_). unfold utarray_resize.
  destruct (wp_Ok _ _ _ (reserve_spec fuel (Z.of_nat num - Z.of_nat (length l)) l a Hf Hrep ltac:(lia) ltac:(lia))) as ([]&a1&E1&H1&_&H3&_).
  pose proof H1 as (Hi1&_). exists a1. unfold mbind, M_bind, get, id. cbv beta iota. rewrite Hi.
  rewrite (proj2 (Z.ltb_ge _ _)), (proj2 (Z.ltb_lt _ _)) by lia. rewrite E1. unfold init_range, mbind, M_bind, get, id. cbv beta iota.
  rewrite H3, He. rewrite (proj2 (Z.eqb_neq _ _)) by lia. unfold utarray_eltptr. rewrite Hi1.
  rewrite (proj2 (Z.ltb_ge _ _)) by lia. done.
Qed.
End props.

Lemma utarray_refines_witness :
  exists a', run_arr 0 32 [PushBack 5; PushBack 6; Insert 7 1; Erase 0 1; Resize 4] (utarray_init (Icd None None true)) = Ok () a' /\
    arr_rep a' [7; 6; 0; 0] /\ ua_log a' = [5].
Proof.
  destruct (utarray_refines 0 (Icd None None true) 32 [PushBack 5; PushBack 6; Insert 7 1; Erase 0 1; Resize 4]) as (a'&H1&H2&H3).
  - unfold ARRAY_FUEL. lia.
  - cbn. repeat split; intros; first [done|lia].
  - exists a'. split; [exact H1|]. split; [exact H2|exact H3].
Defined.
