(* ===== verification/UtarrayMore.v ===== *)
(** The rest of src/uthash/utarray.h: making and freeing an array, sorting and
    searching it, element pointers, and the functions of arrays of strings.
    [qsort] and [bsearch] are parameters. *)

From stdpp Require Import sorting.
From S2P Require Import Prelude CLib Outcome Utarray UtarrayProps.

#[local] Open Scope Z_scope.

(** ** The array variable *)

(** What a variable of type [UT_array *] points to. *)
Inductive array_var (A : Type) := Null | Live (a : A) | Freed (a : A).
Arguments Null {A}.
Arguments Live {A} a.
Arguments Freed {A} a.

Section var.
Context {E : Type}.
#[local] Abbreviation arr := (@UT_array E).

(** [memory] tells whether [malloc] finds any; its result is not checked. *)
Definition utarray_new (memory : bool) (icd : UT_icd) : M (array_var arr) () :=
  if memory then modify (fun _ => Live (utarray_init icd)) else undef.

(** An operation on the array that is pointed to. *)
Definition on_array {A} (m : M arr A) : M (array_var arr) A := fun v =>
  match v with
  | Live a => match m a with Ok x a' => Ok x (Live a') | Undef a' => Undef (Live a') | NoFuel => NoFuel end
  | _ => Undef v
  end.

Definition utarray_free : M (array_var arr) () :=
  _ ← on_array utarray_done; modify (fun v => match v with Live a => Freed a | _ => v end).

Definition utarray_renew (memory : bool) (u : UT_icd) : M (array_var arr) () :=
  v ← get id; match v with Null => utarray_new memory u | _ => on_array utarray_clear end.

(** ** Sorting and searching *)

(** The elements, which have all been stored. *)
Definition elements (a : arr) : option (list E) := mapM id (take (Z.to_nat (ua_i a)) (ua_d a)).

Definition utarray_sort (qsort : (E -> E -> Z) -> list E -> list E) (cmp : E -> E -> Z) : M arr () :=
  a ← get id; l ← demand (elements a); store_at 0 (Some <$> qsort cmp l).

(** The index of the element, [None] for [NULL]. *)
Definition utarray_find (bsearch : E -> (E -> E -> Z) -> list E -> option Z) (v : E) (cmp : E -> E -> Z) : M arr (option Z) :=
  a ← get id; l ← demand (elements a); mret (bsearch v cmp l).
End var.

(** ** Element pointers *)

Definition utarray_len {E} (a : @UT_array E) : Z := ua_i a.

(** The offset of a pointer from [d]; [sz] is the size of an element. *)
Definition _utarray_eltptr (sz j : Z) : Z := sz * j.
(** The index is a [size_t], and so is the -1 of a pointer in front of the array. *)
Definition utarray_eltidx (sz e : Z) : Z := if 0 <=? e then e / sz else 2 ^ 64 - 1.

(** ** Arrays of strings *)

(** An element is a pointer to a string of the heap; [memory] is that of [strdup]. *)
Abbreviation strings := (gmap positive (list ascii)).

Definition utarray_str_cpy (memory : bool) (src : option positive) : M strings (option positive) :=
  match src with
  | None => mret None
  | Some p =>
      h ← get id; s ← demand (h !! p);
      if memory then let p' := fresh (dom h) in _ ← modify (<[p' := s]>); mret (Some p') else mret None
  end.

Definition utarray_str_dtor (eltc : option positive) : M strings () :=
  match eltc with
  | None => mret ()
  | Some p => h ← get id; _ ← demand (h !! p); modify (delete p)
  end.

(** Elements without functions of their own. *)
Definition ut_int_icd : @UT_icd Z := Icd None None false.
Definition ut_ptr_icd : @UT_icd (option positive) := Icd None None false.

(** Copying the elements of an array of strings one after the other, and destroying them. *)
Fixpoint copy_strings (l : list (option positive)) : M strings (list (option positive)) :=
  match l with
  | [] => mret []
  | p :: l => p' ← utarray_str_cpy true p; l' ← copy_strings l; mret (p' :: l')
  end.
Fixpoint destroy_strings (l : list (option positive)) : M strings () :=
  match l with [] => mret () | p :: l => _ ← utarray_str_dtor p; destroy_strings l end.

(** ** Properties *)

(** What the manual says of [qsort] and [bsearch]. *)
Class SortLaws {E : Type} (cmp : E -> E -> Z) (qsort : (E -> E -> Z) -> list E -> list E)
    (bsearch : E -> (E -> E -> Z) -> list E -> option Z) := {
  qsort_perm l : qsort cmp l ≡ₚ l;
  qsort_sorted l : Sorted (fun a b => cmp a b <= 0) (qsort cmp l);
  bsearch_law v l : Sorted (fun a b => cmp a b <= 0) l ->
    match bsearch v cmp l with
    | Some j => 0 <= j /\ exists e, l !! Z.to_nat j = Some e /\ cmp v e = 0
    | None => forall e, e ∈ l -> cmp v e <> 0
    end
}.

Lemma elements_rep {E} (a : @UT_array E) l : arr_rep a l -> elements a = Some l.
Proof.
  intros (Hi&_&(r&Hd)&_). unfold elements. rewrite Hi, Hd, Nat2Z.id.
  rewrite take_app_length' by (by rewrite length_fmap). induction l as [|e l IH]; [done|].
  assert (mapM id (Some <$> l) = Some l) as E1 by (clear; induction l as [|e l IH]; [done|]; cbn in *; by rewrite IH).
  cbn in *. by rewrite E1.
Qed.

Lemma put_same {E} (a : @UT_array E) l l' : arr_rep a l -> length l' = length l ->
  exists r, ua_d a = (Some <$> l) ++ r /\ put (ua_d a) 0 (Some <$> l') = Some ((Some <$> l') ++ r).
Proof.
  intros (_&_&(r&Hd)&_) Hl. exists r. split; [done|]. unfold put. rewrite decide_True.
  - rewrite length_fmap, Hl, Hd. cbn [Z.to_nat take Nat.add app]. by rewrite drop_app_length' by (by rewrite length_fmap).
  - rewrite Hd, length_app, !length_fmap. lia.
Qed.

(** [utarray_sort] leaves the same elements in ascending order in an array that is as
    well formed as before; [utarray_find] then finds an element that compares equal
    to the value, at its index, if there is one, and null otherwise. *)
Theorem utarray_sort_find {E} (cmp : E -> E -> Z) qsort bsearch (v : E) (a : @UT_array E) l
    (Hlaws : SortLaws cmp qsort bsearch) : arr_rep a l ->
  exists a' l', utarray_sort qsort cmp a = Ok () a' /\ arr_rep a' l' /\ l' ≡ₚ l /\ Sorted (fun a b => cmp a b <= 0) l' /\
    exists r, utarray_find bsearch v cmp a' = Ok r a' /\
      match r with
      | Some j => 0 <= j /\ exists e, l' !! Z.to_nat j = Some e /\ cmp v e = 0
      | None => forall e, e ∈ l -> cmp v e <> 0
      end.
Proof.
  intros Hrep. set (l' := qsort cmp l). assert (l' ≡ₚ l) as Hp by apply qsort_perm.
  pose proof (Permutation_length Hp) as Hlen. destruct (put_same a l l' Hrep Hlen) as (r&Hd&Hput).
  set (a' := with_slots a ((Some <$> l') ++ r)). exists a', l'.
  assert (arr_rep a' l') as Hrep'.
  { destruct Hrep as (H1&H2&_&H4). split; [cbn; lia|]. split; [|split; [by exists r|done]].
    cbn. rewrite H2, Hd, !length_app, !length_fmap. lia. }
  split; [|split; [done|split; [done|split; [apply qsort_sorted|]]]].
  - unfold utarray_sort, store_at, mbind, M_bind, get, demand, modify. cbn -[put elements]. rewrite (elements_rep a l) by done.
    cbn -[put elements]. fold l'. by rewrite Hput.
  - exists (bsearch v cmp l'). split.
    + unfold utarray_find, mbind, M_bind, get, demand, mret, M_ret. cbn [id]. by rewrite (elements_rep a' l').
    + pose proof (bsearch_law (qsort := qsort) v l' (qsort_sorted (bsearch := bsearch) l)) as Hb.
      destruct (bsearch v cmp l'); [done|]. intros e He. apply Hb. by rewrite Hp.
Qed.

(** Integers, sorted by merging and searched one by one. *)
#[export] Instance int_sort_laws : SortLaws (fun a b => a - b) (fun _ => merge_sort Z.le)
  (fun v _ l => (fun ix => Z.of_nat ix.1) <$> list_find (fun e => v = e) l).
Proof.
  split.
  - intros l. apply merge_sort_Permutation.
  - intros l. pose proof (Sorted_merge_sort Z.le l) as H. induction H as [|a s _ IH Ha]; [constructor|].
    constructor; [done|]. destruct Ha; constructor. lia.
  - intros v l _. destruct (list_find _ l) as [[j e]|] eqn:E; cbn.
    + apply list_find_Some in E as (E&->&_). split; [lia|]. exists e. rewrite Nat2Z.id. split; [done|lia].
    + apply list_find_None in E. intros e He. pose proof (proj1 (Forall_forall _ _) E e He). cbn in *. lia.
Qed.

Lemma utarray_sort_find_witness : exists a' l',
  utarray_sort (fun _ => merge_sort Z.le) (fun a b => a - b) (UTArray 3 8 (Icd None None false) ((Some <$> [5; 1; 3]) ++ replicate 5 None) []) = Ok () a' /\
  arr_rep a' l' /\ l' ≡ₚ [5; 1; 3].
Proof.
  destruct (utarray_sort_find (fun a b => a - b) _ _ 3 (UTArray 3 8 (Icd None None false) ((Some <$> [5; 1; 3]) ++ replicate 5 None) []) [5; 1; 3]
    int_sort_laws) as (a'&l'&H1&H2&H3&_).
  - split; [done|]. split; [done|]. split; [by eexists|]. right. exists 3. split; [lia|done].
  - exists a', l'. exact (conj H1 (conj H2 H3)).
Defined.

(** The life of an array: [utarray_new] makes an empty one, [utarray_free] calls the
    destructor on what it holds and then frees it; [utarray_renew] makes one where there
    is none and empties one where there is, without giving it back. *)
Theorem utarray_new_free {E} (icd : @UT_icd E) memory (a : UT_array) l : arr_rep a l ->
  utarray_new true icd Null = Ok () (Live (utarray_init icd)) /\ arr_rep (utarray_init icd) [] /\
  (exists a', utarray_free (Live a) = Ok () (Freed a') /\ ua_d a' = [] /\ ua_n a' = 0 /\
     ua_log a' = ua_log a ++ (if icd_dtor (ua_icd a) then l else [])) /\
  utarray_renew true icd Null = Ok () (Live (utarray_init icd)) /\
  (exists a', utarray_renew memory icd (Live a) = Ok () (Live a') /\ after a [] l a').
Proof.
  intros Hrep. split; [done|]. split.
  { split; [done|]. split; [done|]. split; [by exists []|by left]. }
  split; [|split; [done|]].
  - pose proof Hrep as (Hi&Hn&(r&Hd)&_). assert (wp safe utarray_done (fun _ a' => ua_d a' = [] /\ ua_n a' = 0 /\
      ua_log a' = ua_log a ++ (if icd_dtor (ua_icd a) then l else [])) a) as H.
    { unfold utarray_done. apply wp_bind, wp_get. change (id a) with a. destruct (Z.eqb_spec (ua_n a) 0) as [E0|E0]; cbn [negb].
      - apply wp_bind, wp_ret, wp_modify. assert (ua_d a = []) as Ed by (apply nil_length_inv; lia). cbn. split; [done|]. split; [done|].
        rewrite Ed in Hd. symmetry in Hd. apply app_eq_nil in Hd as [Hl _]. apply fmap_nil_inv in Hl as ->. destruct (icd_dtor _); by rewrite app_nil_r.
      - apply wp_bind, wp_bind. rewrite Hi. eapply wp_mono; [apply (destroy_range_spec 0 (length l) l); [done|lia]|].
        intros [] a1 ->. apply wp_modify, wp_modify. rewrite drop_0, take_ge by lia. cbn. split; [done|]. split; [done|].
        unfold destroyed. destruct (icd_dtor (ua_icd a)); cbn; [done|by rewrite app_nil_r]. }
    destruct (wp_Ok _ _ _ H) as ([]&a'&E1&Ha'). exists a'. split; [|done].
    unfold utarray_free, on_array, mbind, M_bind, modify. by rewrite E1.
  - destruct (wp_Ok _ _ _ (clear_spec l a Hrep)) as ([]&a'&E1&Ha'). exists a'. split; [|done].
    unfold utarray_renew, on_array, mbind, M_bind, get. cbn [id]. by rewrite E1.
Qed.

(** A pointer into an element has the index of the element, and one in front of the
    array the greatest [size_t]. *)
Theorem utarray_eltidx_eltptr sz j r : 0 <= j -> 0 <= r < sz ->
  utarray_eltidx sz (_utarray_eltptr sz j + r) = j /\ utarray_eltidx sz (-1 - r) = 2 ^ 64 - 1.
Proof.
  intros Hj Hr. unfold utarray_eltidx, _utarray_eltptr. rewrite (proj2 (Z.leb_le 0 (sz * j + r))) by nia.
  rewrite (proj2 (Z.leb_gt 0 (-1 - r))) by lia. split; [|done]. symmetry. apply (Z.div_unique_pos _ _ _ r); lia.
Qed.

(** ** Strings *)

Lemma str_cpy_spec p (h : strings) (Q : option positive -> strings -> Prop) :
  (forall q, p = Some q -> is_Some (h !! q)) ->
  (p = None -> Q None h) ->
  (forall q s p', p = Some q -> h !! q = Some s -> h !! p' = None -> Q (Some p') (<[p' := s]> h)) ->
  wp safe (utarray_str_cpy true p) Q h.
Proof.
  intros Hp H1 H2. destruct p as [q|]; [|by apply wp_ret, H1]. destruct (Hp q eq_refl) as [s Hs].
  unfold utarray_str_cpy. apply wp_bind, wp_get, wp_bind, (wp_demand _ _ s); [exact Hs|]. apply wp_bind, wp_modify, wp_ret.
  apply (H2 q); [done..|]. apply not_elem_of_dom, is_fresh.
Qed.

(** [p'] is a copy among the strings [d] of the string [p] of [h]. *)
Definition copy_of (h d : strings) (p p' : option positive) : Prop :=
  match p, p' with
  | Some q, Some q' => exists s, h !! q = Some s /\ d !! q' = Some s
  | None, None => True
  | _, _ => False
  end.

(** The copies are new strings [d], and destroying them frees just these. *)
Lemma copy_strings_spec (h0 : strings) l : forall h : strings, h0 ⊆ h -> (forall p, Some p ∈ l -> is_Some (h0 !! p)) ->
  wp safe (copy_strings l) (fun l' h' => exists d, d ##ₘ h /\ h' = d ∪ h /\ Forall2 (copy_of h0 d) l l' /\
    forall m, d ##ₘ m -> destroy_strings l' (d ∪ m) = Ok () m) h.
Proof.
  induction l as [|p l IH]; intros h Hsub Hl; cbn [copy_strings].
  - apply wp_ret. exists ∅. split; [apply map_disjoint_empty_l|]. split; [by rewrite (left_id_L ∅ (∪))|]. split; [constructor|].
    intros m _. by rewrite (left_id_L ∅ (∪)).
  - assert (forall p, Some p ∈ l -> is_Some (h0 !! p)) as Hl' by (intros q Hq; apply Hl; by right).
    apply wp_bind, str_cpy_spec.
    + intros q ->. destruct (Hl q) as [s Hs]; [by left|]. exists s. by eapply lookup_weaken.
    + intros ->. apply wp_bind. eapply wp_mono; [by apply IH|].
      intros l' h' (d&H1&H2&H3&H4). apply wp_ret. exists d. split_and!; [done|done|by constructor|exact H4].
    + intros q s p' -> Hs Hp'. assert (h0 !! q = Some s) as Hs0.
      { destruct (Hl q) as [s0 Hs0]; [by left|]. rewrite (lookup_weaken _ _ _ _ Hs0 Hsub) in Hs. congruence. }
      apply wp_bind. eapply wp_mono; [apply IH; [|done]|].
      { transitivity h; [done|]. by apply insert_subseteq. }
      intros l' h' (d&H1&->&H3&H4). apply map_disjoint_insert_r in H1 as [Hd H1].
      apply wp_ret. exists (<[p' := s]> d). split; [by apply map_disjoint_insert_l_2|].
      split; [by rewrite <-insert_union_l, insert_union_r|]. split.
      * constructor; [exists s; by rewrite lookup_insert_eq|]. eapply Forall2_impl; [exact H3|].
        intros [x|] [y|]; cbn; [|done..]. intros (s'&Hx&Hy). exists s'. split; [done|]. rewrite lookup_insert_ne; [done|]. congruence.
      * intros m [Hm Hdm]%map_disjoint_insert_l. cbn [destroy_strings utarray_str_dtor]. unfold mbind, M_bind, get, demand, modify.
        cbn -[union insert lookup delete].
        rewrite <-insert_union_l, lookup_insert_eq. cbn -[union insert lookup delete]. rewrite delete_insert_id; [by apply H4|].
        by rewrite lookup_union, Hd, Hm.
Qed.

(** Copying an array of strings gives new strings with the same contents, null for null;
    destroying the copies gives back exactly what was allocated for them. *)
Theorem copied_strings_freed (h : strings) l : (forall p, Some p ∈ l -> is_Some (h !! p)) ->
  exists l' d, copy_strings l h = Ok l' (d ∪ h) /\ d ##ₘ h /\ Forall2 (copy_of h d) l l' /\ destroy_strings l' (d ∪ h) = Ok () h.
Proof.
  intros Hl. destruct (wp_Ok _ _ _ (copy_strings_spec h l h (reflexivity h) Hl)) as (l'&h'&E&d&H1&->&H2&H3).
  exists l', d. split_and!; [done|done|done|by apply H3].
Qed.

Lemma copied_strings_freed_witness : exists l' d,
  copy_strings [Some 1%positive; None] {[1%positive := lit "Host"]} = Ok l' (d ∪ {[1%positive := lit "Host"]}) /\
  destroy_strings l' (d ∪ {[1%positive := lit "Host"]}) = Ok () {[1%positive := lit "Host"]}.
Proof.
  destruct (copied_strings_freed {[1%positive := lit "Host"]} [Some 1%positive; None]) as (l'&d&H1&_&_&H2).
  - intros p [[= ->]|[[= ]|[]%elem_of_nil]%elem_of_cons]%elem_of_cons. by eexists.
  - exists l', d. split; [exact H1|exact H2].
Defined.
