(* ===== verification/Accept.v ===== *)
(** [conn_accept_handler] of src/core/conn.c: accepting clients and starting the
    two coroutines of each.  The state is that of ConnLoop.v: the contexts of
    async.c next to the other modules. *)

From S2P Require Import Prelude CLib Outcome ConnIf Table Event Async NetPull World Conn ConnLoop Server.

#[local] Open Scope Z_scope.

(** A computation of the other modules leaves the contexts alone. *)
Definition on_world {Pc K A} (m : M (world K) A) : M (async_state Pc * world K) A := fun w =>
  match m w.2 with
  | Ok a w' => Ok a (w.1, w')
  | Undef w' => Undef (w.1, w')
  | NoFuel => NoFuel
  end.

(** The coroutines of the program: their code as in Async.v, and the contexts that
    [makecontext] makes for the handlers with their arguments. *)
Class Coroutines (Pc W : Type) := {
  code : Pc -> Z -> M W (option (conn_notice * Pc));
  req_entry : conn_req_handler -> positive -> Pc;
  rsp_entry : conn_rsp_handler -> option positive -> Pc
}.

Section accept.
Context {Pc K : Type} `{!Kernel K, !Coroutines Pc (async_state Pc * world K)}.
Abbreviation state := (async_state Pc * world K)%type.

(** [mem_alloc_auto], [async_init], [makecontext] and the first [async_resume]. *)
Definition start_coroutine (entry : Pc) : M state positive :=
  s ← get as_get;
  let x := fresh (dom (cxts s)) in
  _ ← async_init x entry;
  _ ← async_make x entry;
  _ ← async_resume code x 0;
  mret x.

(** From "Construct connection" on; a number is returned, [None] goes on with
    the next client. *)
Definition serve_client (fd : Z) (ep : conn_endpoint) : M state (option Z) :=
  i ← on_world (mem_alloc_auto (with_stat (conn_init conn_blank fd (Some ep)) CONN_USED));
  _ ← on_world (net_pull_add fd (Some conn_err_handler_fn) (ptr i));
  h ← get (fun w : state => conn_req (w_serve w.2));
  h ← demand h;
  _ ← on_world (sv_update (fun s => with_data_p s None));
  x ← start_coroutine (req_entry h i);
  ret ← conn_async_final x;
  if negb (ret =? 0) then _ ← on_world (mem_decref i conn_done); mret (Some 0) else
  h ← get (fun w : state => conn_rsp (w_serve w.2));
  h ← demand h;
  p ← get (fun w : state => data_p (w_serve w.2));
  y ← start_coroutine (rsp_entry h p);
  _ ← on_world (mem_decref i conn_done);
  _ ← conn_async_final y;
  mret None.

(** The [while (1)]. *)
Fixpoint accept_loop (fuel : nat) (sfd : Z) : M state Z :=
  match fuel with
  | O => no_fuel
  | S fuel =>
      '(fd, errno, ep) ← on_world (sys (lift (k_accept sfd)));
      if fd <? 0 then mret (if errno =? EAGAIN then 0 else -1) else
      nb ← on_world (net_setnonblocking fd);
      if negb (nb =? 0) then _ ← on_world (modify (sys_close fd)); mret (-1) else
      if negb (known_family (family ep)) then _ ← on_world (modify (sys_close fd)); mret (-1) else
      r ← serve_client fd ep;
      match r with
      | Some ret => mret ret
      | None => accept_loop fuel sfd
      end
  end.

(** The datum is the address of an element of [sfds], as its index. *)
Definition conn_accept_handler (fuel : nat) (events data : Z) : M state Z :=
  l ← get (fun w : state => sfds (w_serve w.2));
  sfd ← demand (l !! Z.to_nat data);
  if proxy_epoll_err events then _ ← on_world (net_pull_del sfd); mret (-1) else
  _ ← on_world (net_pull_set_handler sfd EPOLLIN (Some conn_accept_handler_fn) data);
  accept_loop fuel sfd.
End accept.
