(* ===== verification/Coroutine.v ===== *)
(** The machine contexts of the coroutines.  [net_req_handler] and
    [net_rsp_handler] are run from one [async_yield] to the next: a context is
    the function with its argument and, for each time it was entered, the state
    it found and the value [async_yield] returned there.  To enter it once more,
    the function is run from its start; at its earlier yields it is given what
    it was given then, so that it comes to the point where it stopped, with the
    same local variables; there it goes on in the present state, until it
    yields again or ends.  The states of the earlier pieces are those they really
    ran in, so that a piece has its effect on the present state exactly once. *)

From S2P Require Import Prelude CLib Outcome ConnIf ConnIO Table Event Async NetPull Uthash NetData World Conn ConnLink ConnLoop.
From S2P Require Import Server NetUtils NetHandle Accept.

#[local] Open Scope Z_scope.

(** ** A kernel with a script *)

(** The kernel of a piece, the states in which the further yields return, and the
    yield that was reached behind the last of them. *)
Record rkernel (K : Type) := RKernel {
  rk : K;
  script : list (world K * Z);
  stop : option conn_notice
}.
Arguments RKernel {K}. Arguments rk {K}. Arguments script {K}. Arguments stop {K}.

Definition on_rk {K A} (f : K -> A * K) (s : rkernel K) : A * rkernel K :=
  let '(a, k) := f (rk s) in (a, RKernel k (script s) (stop s)).

#[export] Instance replay_kernel {K} `{!Kernel K} : Kernel (rkernel K) := {
  k_recv f n := on_rk (k_recv f n);
  k_send f s := on_rk (k_send f s);
  k_socket a := on_rk (k_socket a);
  k_fcntl_getfl f := on_rk (k_fcntl_getfl f);
  k_fcntl_setfl f o := on_rk (k_fcntl_setfl f o);
  k_connect f ep := on_rk (k_connect f ep);
  k_close f s := RKernel (k_close f (rk s)) (script s) (stop s);
  k_epoll_create := on_rk k_epoll_create;
  k_epoll_ctl_add f := on_rk (k_epoll_ctl_add f);
  k_epoll_ctl_del f := on_rk (k_epoll_ctl_del f);
  k_epoll_wait := on_rk k_epoll_wait;
  k_getaddrinfo_a h e := on_rk (k_getaddrinfo_a h e);
  k_ar_result e s := k_ar_result e (rk s);
  k_accept f := on_rk (k_accept f);
  k_setsockopt f := on_rk (k_setsockopt f);
  k_bind f ep := on_rk (k_bind f ep);
  k_listen f := on_rk (k_listen f);
  k_getaddrinfo h := on_rk (k_getaddrinfo h);
  k_signalfd := on_rk k_signalfd;
  k_read_siginfo f := on_rk (k_read_siginfo f)
}.

Section replay.
Context {K : Type}.
Implicit Types (w : world K) (v : world (rkernel K)).

Definition with_k {K K'} (k : K') (w : world K) : world K' :=
  World (w_pull w) (w_event w) (w_conn w) (w_handle w) (w_main w) (w_serve w) k.
Definition into (l : list (world K * Z)) w : world (rkernel K) := with_k (RKernel (w_k w) l None) w.
Definition back v : world K := with_k (rk (w_k v)) v.

(** [async_yield]: what it was given earlier, or the end of the piece. *)
#[export] Instance replay : Suspend (rkernel K) := fun n v =>
  match script (w_k v) with
  | (w, ret) :: l => Ok ret (into l w)
  | [] => Undef (with_k (RKernel (rk (w_k v)) [] (Some n)) v)
  end.

Context `{!Kernel K}.

(** ** The contexts *)

Inductive entry_point :=
| ReqEntry (client : positive)
| RspEntry (data : option positive).

Record thread := Thread { entry : entry_point; entered_in : list (world K * Z) }.

(** The functions, with fuel for all of their life. *)
Definition run_entry (fuel : nat) (e : entry_point) : M (world (rkernel K)) Z :=
  match e with
  | ReqEntry client => net_req_handler fuel client
  | RspEntry data => x ← demand data; net_rsp_handler fuel x
  end.

(** The state in which the function starts: the first one it was entered in. *)
Definition replay_from (h : list (world K * Z)) w (ret : Z) : world (rkernel K) :=
  match h with
  | [] => into [] w
  | (w0, _) :: l => into (l ++ [(w, ret)]) w0
  end.

(** From entering a context to the next yield. *)
Definition run_piece (fuel : nat) (t : thread) (ret : Z) w : outcome (world K) (option conn_notice) :=
  match run_entry fuel (entry t) (replay_from (entered_in t) w ret) with
  | Ok _ v => Ok None (back v)
  | Undef v => match stop (w_k v) with Some n => Ok (Some n) (back v) | None => Undef (back v) end
  | NoFuel => NoFuel
  end.

#[export] Instance thread_code (fuel : nat) : Coroutines thread (async_state thread * world K) := {
  code t ret := fun s =>
    match run_piece fuel t ret s.2 with
    | Ok None w => Ok None (s.1, w)
    | Ok (Some n) w => Ok (Some (n, Thread (entry t) (entered_in t ++ [(s.2, ret)]))) (s.1, w)
    | Undef w => Undef (s.1, w)
    | NoFuel => NoFuel
    end;
  req_entry h i := match h with net_req_handler_fn => Thread (ReqEntry i) [] end;
  rsp_entry h p := match h with net_rsp_handler_fn => Thread (RspEntry p) [] end
}.
End replay.
Arguments thread : clear implicits.
