(* ===== verification/AcceptProps.v ===== *)
(** What becomes of an accepted client: [serve_client] always starts both
    coroutines, and [conn_accept_handler] stops only where accepting stops. *)

From S2P Require Import Prelude CLib Outcome ConnIf Table Event EventProps Async NetPull World Conn ConnLink ConnLoop.
From S2P Require Import Sim DemoKernel Server NetUtils NetHandle NetHandleProps Accept Coroutine.

#[local] Open Scope Z_scope.

Section accept.
Context {K : Type} `{!Kernel K}.
Implicit Types (w : world K).

(** ** The first pieces of the two coroutines *)

Lemma first_piece fuel e w n (Q : world K -> Prop) :
  wp (fun v => stop (w_k v) = Some n /\ Q (back v)) (run_entry fuel e) (fun _ _ => False) (into [] w) ->
  exists w', run_piece fuel (Thread e []) 0 w = Ok (Some n) w' /\ Q w'.
Proof.
  unfold wp, run_piece, replay_from. cbn [entry entered_in]. destruct (run_entry fuel e (into [] w)) as [a v|v|]; [done| |done].
  intros [-> HQ]. by exists (back v).
Qed.

(** A world that differs from [w] in its events, connections, contexts and [data_p]. *)
Definition with_client w (ev : event_state event_handler) cn hc (d : option positive) : world K :=
  World (w_pull w) ev (with_objs (w_conn w) cn) (with_hcxts (w_handle w) hc) (w_main w) (with_data_p (w_serve w) d) (w_k w).

Lemma req_first_piece fuel i n c q w :
  objs (w_conn w) !! i = Some (n, c) -> queue_rep (w_event w) q ->
  let rq := id_max (w_event w) in let rs := u32 (rq + 1) in let h := fresh (dom (hcxts (w_handle w))) in
  exists w', run_piece fuel (Thread (ReqEntry i) []) 0 w = Ok (Some (CONN_WAIT_FOR_EVENT rq)) w' /\
    exists s, w' = with_client w s (<[i := (n + 1, c)]> (objs (w_conn w)))
      (<[h := HandleCxt i [] [] rq rs true false false false]> (hcxts (w_handle w))) (Some h) /\
    queue_rep s (q ++ [(rq, 1)]) /\ handlers s = handlers (w_event w).
Proof.
  intros Hi Hq rq rs h. apply first_piece. cbn [run_entry]. unfold net_req_handler, mem_incref, load_obj, save_obj, cn_update.
  wp_step. wp_step. eapply wp_bind, wp_demand; [exact Hi|]. wp_step.
  unfold handle_cxt_init, event_get_id, update, save_h, h_update, sv_update. repeat wp_step.
  apply wp_bind. eapply load_h_wp; [apply lookup_insert_eq|]. apply wp_bind.
  eapply wp_mono; [apply (event_post_spec _ _ _ q); exact Hq|]. intros _ v (_&s&->&Hs&Hh&_).
  apply wp_bind. unfold wait_req. apply wp_bind. eapply load_h_wp; [apply lookup_insert_eq|].
  apply wp_bind. eapply set_h_wp; [apply lookup_insert_eq|]. apply wp_bind.
  unfold wp, async_yield, world_env, suspend, replay. cbn. split; [done|].
  exists s. split; [|done]. unfold back, with_client. cbn. by rewrite insert_insert_eq.
Qed.

Lemma rsp_first_piece fuel h hc n c q w :
  hcxts (w_handle w) !! h = Some hc -> objs (w_conn w) !! client hc = Some (n, c) -> queue_rep (w_event w) q ->
  exists w', run_piece fuel (Thread (RspEntry (Some h)) []) 0 w = Ok (Some (CONN_WAIT_FOR_EVENT (ev_notice_rsp hc))) w' /\
    exists s, w' = with_client w s (<[client hc := (n + 1, c)]> (objs (w_conn w)))
      (<[h := with_rsp_blocked hc true]> (hcxts (w_handle w))) (data_p (w_serve w)) /\
    queue_rep s (q ++ [(ev_notice_rsp hc, 1)]) /\ handlers s = handlers (w_event w).
Proof.
  intros Hh Hi Hq. apply first_piece. cbn [run_entry demand]. wp_step. unfold net_rsp_handler.
  apply wp_bind. eapply load_h_wp; [exact Hh|]. cbv zeta. unfold mem_incref, load_obj, save_obj, cn_update. repeat wp_step.
  eapply wp_demand; [exact Hi|]. wp_step. apply wp_bind.
  eapply wp_mono; [apply (event_post_spec _ _ _ q); exact Hq|]. intros _ v (_&s&->&Hs&He&_).
  apply wp_bind. unfold wait_rsp. apply wp_bind. eapply load_h_wp; [exact Hh|].
  apply wp_bind. eapply set_h_wp; [exact Hh|]. apply wp_bind.
  unfold wp, async_yield, world_env, suspend, replay. cbn. split; [done|].
  exists s. split; [|done]. unfold back, with_client. cbn. by destruct w as [? ? ? [] ? [] ?].
Qed.

(** ** Starting a coroutine *)

Abbreviation state := (async_state (thread K) * world K)%type.

(** The contexts when the new coroutine [x] has been entered once, in [w]. *)
Definition started (x : positive) (t : thread K) w (n : conn_notice) (s : async_state (thread K)) : async_state (thread K) :=
  AsyncState (<[x := AsyncCxt (Thread (entry t) (entered_in t ++ [(w, 0)])) ASYNC_PAUSE (Some n)]> (cxts s)) None 0.

Lemma start_eq fuel (t : thread K) s w n w' :
  run_piece fuel t 0 w = Ok (Some n) w' ->
  start_coroutine (Coroutines0 := thread_code fuel) t (s, w) =
    Ok (fresh (dom (cxts s))) (started (fresh (dom (cxts s))) t w n s, w').
Proof.
  intros Hp. set (x := fresh (dom (cxts s))).
  assert (forall m : gmap positive (async_cxt (thread K)), forall c, (<[x := c]> m) !! x = Some c) as Hx by (intros; apply lookup_insert_eq).
  unfold start_coroutine, async_init, async_make, async_resume, swap_to, async_yield_out, save_cxt, load_cxt, as_update.
  unfold mbind, M_bind, get, modify, demand. cbn -[insert lookup fresh run_piece]. fold x.
  repeat (rewrite Hx; cbn -[insert lookup fresh run_piece]). rewrite (bool_decide_eq_true_2 (ASYNC_PAUSE = ASYNC_PAUSE)) by done. cbn -[insert lookup fresh run_piece]. rewrite Hp. cbn -[insert lookup fresh run_piece].
  repeat (rewrite Hx; cbn -[insert lookup fresh run_piece]). rewrite (bool_decide_eq_false_2 (ASYNC_PAUSE = ASYNC_RUNNING)) by done. unfold started. by rewrite !insert_insert_eq.
Qed.

Lemma final_eq x (t : thread K) eid s w : cxts s !! x = Some (AsyncCxt t ASYNC_PAUSE (Some (CONN_WAIT_FOR_EVENT eid))) ->
  exists ev, conn_async_final x (s, w) = Ok 0 (s, put_event ev w) /\
    tbl_find eid (handlers ev) = Some (conn_event_handler_fn, cxt_ptr x) /\
    (forall k, k <> eid -> tbl_find k (handlers ev) = tbl_find k (handlers (w_event w))) /\
    (forall q, queue_rep (w_event w) q -> queue_rep ev q) /\ id_max ev = id_max (w_event w).
Proof.
  intros Hx. destruct (wp_Ok _ _ _ (event_set_handler_spec safe eid conn_event_handler_fn (cxt_ptr x) (s, w)))
    as (r&w1&E&->&ev&->&H). exists ev. split; [|exact H].
  unfold conn_async_final, load_cxt, mbind, M_bind, get, demand. cbn -[lookup event_set_handler]. rewrite Hx.
  unfold mret, M_ret. cbn -[event_set_handler].
  rewrite (bool_decide_eq_true_2 (ASYNC_PAUSE = ASYNC_PAUSE)) by done. cbn -[event_set_handler]. by rewrite E.
Qed.

(** The entry of [fd], if the kernel accepts it. *)
Lemma add_eq fd e d w : exists r p k, net_pull_add fd e d w = Ok r (put_pull p (put_k k w)) /\
  k = (k_epoll_ctl_add fd (w_k w)).2 /\
  if (k_epoll_ctl_add fd (w_k w)).1 <? 0 then p = w_pull w
  else is_Some (tbl_find fd (p_handlers p)) /\ fd_cnt p = fd_cnt (w_pull w) + 1.
Proof.
  unfold net_pull_add, sys, mbind, M_bind. cbn. unfold lift. destruct (k_epoll_ctl_add fd (w_k w)) as [r k]. cbn.
  destruct (r <? 0).
  - exists (-1), (w_pull w), k. by destruct w.
  - unfold get, pl_update, modify. cbn. destruct (tbl_find fd (p_handlers (w_pull w))) as [h|] eqn:E; cbn.
    + exists 0, (PullState (p_handlers (w_pull w)) (epollfd (w_pull w)) (fd_cnt (w_pull w) + 1)), k.
      split; [by destruct w|]. split; [done|]. cbn. by rewrite E.
    + eexists 0, _, k. split; [by destruct w|]. split; [done|]. cbn -[tbl_find tbl_add]. split; [|done].
      match goal with |- context [?t ++ [(fd, ?h)]] => change (t ++ [(fd, h)]) with (tbl_add fd h t) end.
      rewrite tbl_find_add by by apply tbl_find_None. rewrite decide_True by done. by eexists.
Qed.

(** ** One client *)

Lemma bind_ok {W A B} (m : M W A) (f : A -> M W B) (w : W) a (w' : W) r : m w = Ok a w' -> f a w' = r -> (m ≫= f) w = r.
Proof. unfold mbind, M_bind. by intros ->. Qed.
Lemma on_world_ok {A} (m : M (world K) A) (s : async_state (thread K)) w a w' :
  m w = Ok a w' -> on_world m (s, w) = Ok a (s, w').
Proof. unfold on_world. cbn [fst snd]. by intros ->. Qed.

Lemma decref_keeps i n c w : objs (w_conn w) !! i = Some (n, c) -> n <> 1 ->
  mem_decref i conn_done w = Ok 1 (put_conns (with_objs (w_conn w) (<[i := (n - 1, c)]> (objs (w_conn w)))) w).
Proof.
  intros Hi Hn. unfold mem_decref, load_obj, mbind, M_bind, get, demand, save_obj, cn_update, modify, mret, M_ret. rewrite Hi.
  cbn. by destruct (Z.eqb_spec (n - 1) 0); [lia|].
Qed.

Lemma u32_succ_ne z : u32 (z + 1) <> z.
Proof. unfold u32. change (2 ^ 32) with 4294967296. Z.to_euclidean_division_equations. lia. Qed.

(** The connection of a client, the two coroutines [x] and [y] with their context
    [h], and the events that will resume them. *)
Record client_started (fd : Z) (ep : conn_endpoint) (q : list posted) (i x y h : positive) (w w' : state) : Prop := {
  cs_fresh : objs (w_conn w.2) !! i = None /\ hcxts (w_handle w.2) !! h = None /\
    cxts w.1 !! x = None /\ cxts w.1 !! y = None /\ x <> y;
  cs_conn : objs (w_conn w'.2) =
    <[i := (2, with_stat (conn_init conn_blank fd (Some ep)) CONN_USED)]> (objs (w_conn w.2));
  cs_context : hcxts (w_handle w'.2) =
    <[h := HandleCxt i [] [] (id_max (w_event w.2)) (u32 (id_max (w_event w.2) + 1)) true true false false]> (hcxts (w_handle w.2));
  cs_cxts : exists tx ty, cxts w'.1 =
    <[y := AsyncCxt ty ASYNC_PAUSE (Some (CONN_WAIT_FOR_EVENT (u32 (id_max (w_event w.2) + 1))))]>
    (<[x := AsyncCxt tx ASYNC_PAUSE (Some (CONN_WAIT_FOR_EVENT (id_max (w_event w.2))))]> (cxts w.1));
  cs_call : call_cxt w'.1 = None;
  cs_events : queue_rep (w_event w'.2) (q ++ [(id_max (w_event w.2), 1); (u32 (id_max (w_event w.2) + 1), 1)]);
  cs_req : tbl_find (id_max (w_event w.2)) (handlers (w_event w'.2)) = Some (conn_event_handler_fn, cxt_ptr x);
  cs_rsp : tbl_find (u32 (id_max (w_event w.2) + 1)) (handlers (w_event w'.2)) = Some (conn_event_handler_fn, cxt_ptr y);
  cs_pull : if (k_epoll_ctl_add fd (w_k w.2)).1 <? 0 then w_pull w'.2 = w_pull w.2
    else is_Some (tbl_find fd (p_handlers (w_pull w'.2))) /\ fd_cnt (w_pull w'.2) = fd_cnt (w_pull w.2) + 1;
  cs_serve : w_serve w'.2 = with_data_p (w_serve w.2) (Some h);
  cs_kernel : w_k w'.2 = (k_epoll_ctl_add fd (w_k w.2)).2
}.

Lemma serve_client_ok fuel fd ep q (w : state) :
  conn_req (w_serve w.2) = Some net_req_handler_fn -> conn_rsp (w_serve w.2) = Some net_rsp_handler_fn ->
  queue_rep (w_event w.2) q ->
  exists i x y h (w' : state), serve_client (Coroutines0 := thread_code fuel) fd ep w = Ok None w' /\ client_started fd ep q i x y h w w'.
Proof.
  destruct w as [s w]. cbn [fst snd]. intros Hreq Hrsp Hq.
  set (i := fresh (dom (objs (w_conn w)))). set (c := with_stat (conn_init conn_blank fd (Some ep)) CONN_USED).
  set (rq := id_max (w_event w)). set (rs := u32 (rq + 1)). set (h := fresh (dom (hcxts (w_handle w)))).
  set (x := fresh (dom (cxts s))).
  set (w1 := put_conns (with_objs (w_conn w) (<[i := (1, c)]> (objs (w_conn w)))) w).
  destruct (add_eq fd (Some conn_err_handler_fn) (ptr i) w1) as (r&p&k&Eadd&Ek&Hp).
  set (w2 := put_pull p (put_k k w1)) in *.
  set (w3 := put_serve (with_data_p (w_serve w2) None) w2).
  destruct (req_first_piece fuel i 1 c q w3) as (w4&Hpiece&ev4&Ew4&Hq4&Hh4); [apply lookup_insert_eq|exact Hq|].
  pose proof (start_eq fuel (Thread (ReqEntry i) []) s w3 _ w4 Hpiece) as Hstart. fold x in Hstart.
  set (s4 := started x _ w3 _ s) in Hstart.
  destruct (final_eq x (Thread (ReqEntry i) ([] ++ [(w3, 0)])) rq s4 w4) as (ev5&Efinal&Hrq&Hother5&Hq5&_); [apply lookup_insert_eq|].
  set (w5 := put_event ev5 w4) in *.
  set (hc := HandleCxt i [] [] rq rs true false false false).
  destruct (rsp_first_piece fuel h hc 2 c (q ++ [(rq, 1)]) w5) as (w6&Hpiece6&ev6&Ew6&Hq6&Hh6).
  { subst w5. rewrite Ew4. apply lookup_insert_eq. }
  { subst w5. rewrite Ew4. apply lookup_insert_eq. }
  { apply Hq5. by rewrite Ew4. }
  set (y := fresh (dom (cxts s4))).
  pose proof (start_eq fuel (Thread (RspEntry (Some h)) []) s4 w5 _ w6 Hpiece6) as Hstart6. fold y in Hstart6.
  set (s6 := started y _ w5 _ s4) in Hstart6.
  set (w7 := put_conns (with_objs (w_conn w6) (<[i := (2, c)]> (objs (w_conn w6)))) w6).
  destruct (final_eq y (Thread (RspEntry (Some h)) ([] ++ [(w5, 0)])) rs s6 w7) as (ev8&Efinal8&Hrs&Hother8&Hq8&_); [apply lookup_insert_eq|].
  exists i, x, y, h, (s6, put_event ev8 w7). split.
  - unfold serve_client. eapply bind_ok; [apply (on_world_ok _ s w i w1); reflexivity|].
    eapply bind_ok; [apply on_world_ok; exact Eadd|].
    eapply bind_ok; [reflexivity|]. fold w2. cbn [snd w_serve w2]. eapply bind_ok; [unfold demand; cbn; rewrite Hreq; reflexivity|].
    eapply bind_ok; [apply (on_world_ok _ s w2 () w3); reflexivity|].
    eapply bind_ok; [exact Hstart|]. eapply bind_ok; [exact Efinal|]. cbn [negb Z.eqb].
    eapply bind_ok; [reflexivity|]. eapply bind_ok.
    { unfold demand. cbn. rewrite Ew4. cbn. rewrite Hrsp. reflexivity. }
    eapply bind_ok; [reflexivity|]. cbn [snd]. fold w5.
    assert (data_p (w_serve w5) = Some h) as -> by (subst w5; by rewrite Ew4).
    eapply bind_ok; [exact Hstart6|]. eapply bind_ok.
    { apply (on_world_ok _ s6 w6 1 w7), (decref_keeps i 3 c); [|done]. rewrite Ew6. apply lookup_insert_eq. }
    eapply bind_ok; [exact Efinal8|]. reflexivity.
  - assert (x <> y) as Hxy.
    { intros E. apply (is_fresh (dom (cxts s4))). fold y. rewrite <-E. apply elem_of_dom. eexists. apply lookup_insert_eq. }
    assert (y ∉ dom (cxts s)) as Hy.
    { intros Hy. apply (is_fresh (dom (cxts s4))). fold y. unfold s4, started. cbn. set_solver. }
    assert (rs <> rq) as Hne by apply u32_succ_ne.
    split.
    + split_and!; try (apply not_elem_of_dom, is_fresh); [by apply not_elem_of_dom|done].
    + cbn. rewrite Ew6. unfold w5. rewrite Ew4. cbn. by rewrite !insert_insert_eq.
    + cbn. rewrite Ew6. unfold w5. rewrite Ew4. cbn. by rewrite !insert_insert_eq.
    + cbn. eexists _, _. reflexivity.
    + done.
    + cbn. apply Hq8. cbn. rewrite Ew6. cbn. by rewrite <-app_assoc in Hq6.
    + cbn. fold rq. rewrite Hother8 by done. cbn. rewrite Ew6. cbn. by rewrite Hh6.
    + exact Hrs.
    + cbn. rewrite Ew6. unfold w5. rewrite Ew4. cbn. cbn in Hp. destruct (_ <? 0); [by rewrite Hp|done].
    + cbn. rewrite Ew6. unfold w5. rewrite Ew4. done.
    + cbn. rewrite Ew6. unfold w5. rewrite Ew4. exact Ek.
Qed.

(** ** The backlog *)

(** [net_setnonblocking] on the kernel. *)
Definition set_nonblock (fd : Z) (k : K) : bool * K :=
  let '(opts, k) := k_fcntl_getfl fd k in
  if opts <? 0 then (false, k) else
  let '(r, k) := k_fcntl_setfl fd (Z.lor opts O_NONBLOCK) k in (negb (r <? 0), k).

Lemma nonblock_eq fd w : net_setnonblocking fd w =
  Ok (if (set_nonblock fd (w_k w)).1 then 0 else -1) (put_k (set_nonblock fd (w_k w)).2 w).
Proof.
  unfold net_setnonblocking, set_nonblock, sys, lift, mbind, M_bind, mret, M_ret.
  destruct (k_fcntl_getfl fd (w_k w)) as [o k1]. cbn -[Z.lor O_NONBLOCK]. destruct (o <? 0); [done|].
  destruct (k_fcntl_setfl fd (Z.lor o O_NONBLOCK) k1) as [r k2] eqn:E. cbn. rewrite E. by destruct (r <? 0).
Qed.

(** The clients that [accept] delivers one after the other, between the other
    calls the handler makes, and the value of the handler when no further one is
    taken: [accept] fails, or the new descriptor or its family is no good. *)
Inductive backlog (sfd : Z) : K -> list (Z * conn_endpoint) -> Z -> Prop :=
| backlog_end k fd errno ep k' : k_accept sfd k = ((fd, errno, ep), k') -> fd < 0 ->
    backlog sfd k [] (if errno =? EAGAIN then 0 else -1)
| backlog_refused k fd errno ep k1 : k_accept sfd k = ((fd, errno, ep), k1) -> 0 <= fd ->
    (set_nonblock fd k1).1 && known_family (family ep) = false -> backlog sfd k [] (-1)
| backlog_client k fd errno ep k1 l r : k_accept sfd k = ((fd, errno, ep), k1) -> 0 <= fd ->
    (set_nonblock fd k1).1 && known_family (family ep) = true ->
    backlog sfd (k_epoll_ctl_add fd (set_nonblock fd k1).2).2 l r -> backlog sfd k ((fd, ep) :: l) r.

(** A client with its coroutines, each of which will be resumed by an event of [q]. *)
Definition client_served (w : state) (q : list posted) (cl : Z * conn_endpoint) : Prop :=
  exists i x y h rq rs tx ty,
    objs (w_conn w.2) !! i = Some (2, with_stat (conn_init conn_blank cl.1 (Some cl.2)) CONN_USED) /\
    hcxts (w_handle w.2) !! h = Some (HandleCxt i [] [] rq rs true true false false) /\
    cxts w.1 !! x = Some (AsyncCxt tx ASYNC_PAUSE (Some (CONN_WAIT_FOR_EVENT rq))) /\
    cxts w.1 !! y = Some (AsyncCxt ty ASYNC_PAUSE (Some (CONN_WAIT_FOR_EVENT rs))) /\
    (rq, 1) ∈ q /\ (rs, 1) ∈ q.

(** [w'] has grown from [w] by the clients [l] and nothing else. *)
Record clients_served (l : list (Z * conn_endpoint)) (q : list posted) (w w' : state) : Prop := {
  sv_each : Forall (client_served w' q) l;
  sv_objs : objs (w_conn w.2) ⊆ objs (w_conn w'.2) /\
    size (objs (w_conn w'.2)) = (size (objs (w_conn w.2)) + length l)%nat;
  sv_hcxts : hcxts (w_handle w.2) ⊆ hcxts (w_handle w'.2) /\
    size (hcxts (w_handle w'.2)) = (size (hcxts (w_handle w.2)) + length l)%nat;
  sv_cxts : cxts w.1 ⊆ cxts w'.1 /\ size (cxts w'.1) = (size (cxts w.1) + 2 * length l)%nat;
  sv_events : length q = (2 * length l)%nat
}.

Lemma clients_served_nil (w w' : state) : w_conn w'.2 = w_conn w.2 -> w_handle w'.2 = w_handle w.2 -> w'.1 = w.1 ->
  clients_served [] [] w w'.
Proof. intros E1 E2 E3. split; rewrite ?E1, ?E2, ?E3; cbn; [constructor|split; [done|lia]..|done]. Qed.

Lemma client_served_mono (w w' : state) q q' cl : objs (w_conn w.2) ⊆ objs (w_conn w'.2) ->
  hcxts (w_handle w.2) ⊆ hcxts (w_handle w'.2) -> cxts w.1 ⊆ cxts w'.1 -> q ⊆ q' ->
  client_served w q cl -> client_served w' q' cl.
Proof.
  intros H1 H2 H3 H4 (i&x&y&h&rq&rs&tx&ty&Hi&Hh&Hx&Hy&Hrq&Hrs). exists i, x, y, h, rq, rs, tx, ty.
  split_and!; [by eapply lookup_weaken..|by apply H4|by apply H4].
Qed.

(** One more client in front. *)
Lemma clients_served_cons fd ep l q0 q i x y h (w0 w w1 w' : state) :
  w_conn w.2 = w_conn w0.2 -> w_handle w.2 = w_handle w0.2 -> w.1 = w0.1 ->
  client_started fd ep q0 i x y h w w1 -> clients_served l q w1 w' ->
  clients_served ((fd, ep) :: l)
    ((id_max (w_event w.2), 1) :: (u32 (id_max (w_event w.2) + 1), 1) :: q) w0 w'.
Proof.
  intros E1 E2 E3 [(Hi&Hh&Hx&Hy&Hxy) Hconn Hcxt (tx&ty&Hc) _ _ _ _ _ _ _] [Heach [Ho1 Ho2] [Hh1 Hh2] [Hc1 Hc2] Hev].
  assert (objs (w_conn w.2) ⊆ objs (w_conn w1.2)) as So by (rewrite Hconn; by apply insert_subseteq).
  assert (hcxts (w_handle w.2) ⊆ hcxts (w_handle w1.2)) as Sh by (rewrite Hcxt; by apply insert_subseteq).
  assert (cxts w.1 !! y = None) as Hy' by done.
  assert (cxts w.1 ⊆ cxts w1.1) as Sc.
  { rewrite Hc. transitivity (<[x := AsyncCxt tx ASYNC_PAUSE (Some (CONN_WAIT_FOR_EVENT (id_max (w_event w.2))))]> (cxts w.1));
      apply insert_subseteq; [done|by rewrite lookup_insert_ne]. }
  split; rewrite <-?E1, <-?E2, <-?E3.
  - constructor.
    + exists i, x, y, h, (id_max (w_event w.2)), (u32 (id_max (w_event w.2) + 1)), tx, ty.
      split_and!; [| | | |by left|by right; left].
      * eapply lookup_weaken; [|exact Ho1]. rewrite Hconn. apply lookup_insert_eq.
      * eapply lookup_weaken; [|exact Hh1]. rewrite Hcxt. apply lookup_insert_eq.
      * eapply lookup_weaken; [|exact Hc1]. rewrite Hc, lookup_insert_ne by done. apply lookup_insert_eq.
      * eapply lookup_weaken; [|exact Hc1]. rewrite Hc. apply lookup_insert_eq.
    + eapply Forall_impl; [exact Heach|]. intros cl. apply client_served_mono; [done..|]. intros e He. by do 2 right.
  - split; [by etransitivity|]. rewrite Ho2, Hconn, map_size_insert_None by done. cbn. lia.
  - split; [by etransitivity|]. rewrite Hh2, Hcxt, map_size_insert_None by done. cbn. lia.
  - split; [by etransitivity|]. rewrite Hc2, Hc, !map_size_insert_None; [cbn; lia|done|by rewrite lookup_insert_ne].
  - cbn. lia.
Qed.

Lemma accepted sfd w r k : k_accept sfd (w_k w) = (r, k) -> sys (lift (k_accept sfd)) w = Ok r (put_k k w).
Proof. intros E. unfold sys, lift. by rewrite E. Qed.

(** [conn_accept_handler] on a descriptor without an error: it serves all clients that
    [accept] delivers. *)
Lemma accept_loop_serves fuel sfd l r k : backlog sfd k l r -> forall n q (w : state), k = w_k w.2 ->
  conn_req (w_serve w.2) = Some net_req_handler_fn -> conn_rsp (w_serve w.2) = Some net_rsp_handler_fn ->
  queue_rep (w_event w.2) q -> (length l < n)%nat ->
  exists q' (w' : state), accept_loop (Coroutines0 := thread_code fuel) n sfd w = Ok r w' /\
    queue_rep (w_event w'.2) (q ++ q') /\ clients_served l q' w w'.
Proof.
  induction 1 as [k fd errno ep k' Ha Hfd|k fd errno ep k1 Ha Hfd Hbad|k fd errno ep k1 l r Ha Hfd Hok _ IH];
    intros n q [s w] -> Hreq Hrsp Hq Hn; (destruct n as [|n]; [lia|]); cbn [accept_loop snd] in *.
  - exists [], (s, put_k k' w). split; [|split; [by rewrite app_nil_r|by apply clients_served_nil]].
    eapply bind_ok; [by apply on_world_ok, accepted|]. cbv beta iota. by rewrite (proj2 (Z.ltb_lt _ _)) by done.
  - set (b := (set_nonblock fd k1).1) in *. set (k2 := (set_nonblock fd k1).2).
    assert (forall k', let w' := (s, put_k k' w) in queue_rep (w_event w'.2) (q ++ []) /\ clients_served [] [] (s, w) w') as Hw'
      by (intros k' w'; split; [by rewrite app_nil_r|by apply clients_served_nil]).
    exists [], (s, put_k (k_close fd k2) w). split; [|apply Hw'].
    eapply bind_ok; [by apply on_world_ok, accepted|]. cbv beta iota. rewrite (proj2 (Z.ltb_ge _ _)) by done.
    eapply bind_ok; [apply on_world_ok, nonblock_eq|]. cbn -[set_nonblock known_family]. fold b k2.
    destruct b; cbn in Hbad; [rewrite Hbad|]; reflexivity.
  - apply andb_true_iff in Hok as [Hnb Hfam]. set (k2 := (set_nonblock fd k1).2) in *.
    destruct (serve_client_ok fuel fd ep q (s, put_k k2 w)) as (i&x&y&h&w1&Hserve&Hst); [done..|].
    destruct (IH n (q ++ [(id_max (w_event w), 1); (u32 (id_max (w_event w) + 1), 1)]) w1) as (q'&w'&Hloop&Hq'&Hl).
    + by rewrite (cs_kernel _ _ _ _ _ _ _ _ _ Hst).
    + by rewrite (cs_serve _ _ _ _ _ _ _ _ _ Hst).
    + by rewrite (cs_serve _ _ _ _ _ _ _ _ _ Hst).
    + exact (cs_events _ _ _ _ _ _ _ _ _ Hst).
    + cbn in Hn. lia.
    + eexists _, w'. split; [|split; [rewrite <-app_assoc in Hq'; exact Hq'|exact (clients_served_cons fd ep l q q' i x y h (s, w) (s, put_k k2 w) w1 w' eq_refl eq_refl eq_refl Hst Hl)]].
      eapply bind_ok; [by apply on_world_ok, accepted|]. cbv beta iota. rewrite (proj2 (Z.ltb_ge _ _)) by done.
      eapply bind_ok; [apply on_world_ok, nonblock_eq|]. cbn -[set_nonblock known_family serve_client accept_loop]. fold k2.
      rewrite Hnb, Hfam. cbn [negb Z.eqb]. eapply bind_ok; [exact Hserve|exact Hloop].
Qed.

Lemma set_handler_eq fd flag h d w : exists r p, net_pull_set_handler fd flag h d w = Ok r (put_pull p w).
Proof.
  unfold net_pull_set_handler, mbind, M_bind, get. cbn. destruct (tbl_find fd (p_handlers (w_pull w))) as [e|].
  - by eexists 0, _.
  - exists (-1), (w_pull w). by destruct w.
Qed.

(** C16: [conn_accept_handler] serves every client that is waiting, until [accept]
    has no more, fails, or delivers one whose descriptor or family is no good; it
    returns 0 in the first case and -1 in the others.  Each client gets its connection, with one reference for each of two
    coroutines, their shared context, and the two coroutines, suspended for events that
    are queued already; no other connection, context or coroutine is there than before, and the
    handler keeps no reference.  In particular the
    request coroutine never ends the first time it runs, so that the
    test of [ret] behind it never stops the handler. *)
Theorem accept_serves_backlog fuel n sfd l r q (ev data : Z) (w : state)
    (Hsfd : sfds (w_serve w.2) !! Z.to_nat data = Some sfd) (Hev : proxy_epoll_err ev = false)
    (Hreq : conn_req (w_serve w.2) = Some net_req_handler_fn) (Hrsp : conn_rsp (w_serve w.2) = Some net_rsp_handler_fn)
    (Hq : queue_rep (w_event w.2) q) (Hl : backlog sfd (w_k w.2) l r) (Hn : (length l < n)%nat) :
  exists q' (w' : state), conn_accept_handler (Coroutines0 := thread_code fuel) n ev data w = Ok r w' /\
    queue_rep (w_event w'.2) (q ++ q') /\ clients_served l q' w w'.
Proof.
  destruct w as [s w]. cbn [snd] in *.
  destruct (set_handler_eq sfd EPOLLIN (Some conn_accept_handler_fn) data w) as (rs&p&Eset).
  destruct (accept_loop_serves fuel sfd l r _ Hl n q (s, put_pull p w)) as (q'&w'&Hloop&Hq'&[H1 H2 H3 H4 H5]); [done..|].
  exists q', w'. split; [|split; [done|by split]].
  unfold conn_accept_handler. eapply bind_ok; [reflexivity|]. eapply bind_ok; [cbn [snd]; rewrite Hsfd; reflexivity|].
  rewrite Hev. eapply bind_ok; [by apply on_world_ok|exact Hloop].
Qed.
End accept.

(** Three clients wait, the second of a family that is neither of the two. *)
Definition accept_demo : async_state (thread dkernel) * world dkernel :=
  (AsyncState ∅ None 0,
   put_serve (ServeState [5] 1 (Some net_req_handler_fn) (Some net_rsp_handler_fn) 4 None)
     (put_k (DKernel (Sim ∅ ∅ ∅ ∅ false 0) [3; 4; 5] [5; 4] []
               [Endpoint AF_INET 80 [10; 0; 0; 7]; Endpoint 1 0 []; Endpoint AF_INET 81 [10; 0; 0; 8]] [] []) dworld)).

(** The first is served; the third is left to wait, although its descriptor is watched for edges only. *)
Lemma accept_serves_backlog_witness :
  exists q' w', conn_accept_handler (Coroutines0 := thread_code 5) 2 EPOLLIN 0 accept_demo = Ok (-1) w' /\
    queue_rep (w_event w'.2) q' /\ clients_served [(6, Endpoint AF_INET 80 [10; 0; 0; 7])] q' accept_demo w'.
Proof.
  destruct (accept_serves_backlog 5 2 5 [(6, Endpoint AF_INET 80 [10; 0; 0; 7])] (-1) [] EPOLLIN 0 accept_demo)
    as (q'&w'&H1&H2&H3).
  - reflexivity.
  - reflexivity.
  - reflexivity.
  - reflexivity.
  - apply queue_rep_empty.
  - eapply (backlog_client 5 _ 6 0); [reflexivity|discriminate|reflexivity|].
    eapply (backlog_refused 5 _ 7 0); [reflexivity|discriminate|reflexivity].
  - auto.
  - exists q', w'. exact (conj H1 (conj H2 H3)).
Defined.

Example third_client_waits :
  match conn_accept_handler (Coroutines0 := thread_code 5) 2 EPOLLIN 0 accept_demo with
  | Ok r w' => r = -1 /\ dk_backlog (w_k w'.2) = [Endpoint AF_INET 81 [10; 0; 0; 8]]
  | _ => False
  end.
Proof. vm_compute. by split. Qed.
