(* ===== verification/Main.v ===== *)
(** src/core/main.c: the functions behind the handlers, the main loop, and the
    whole run of the program. *)

From S2P Require Import Prelude CLib Outcome ConnIf Table Event Async NetPull World Conn ConnLink ConnLoop.
From S2P Require Import Server NetUtils NetHandle Arg Log Accept.

#[local] Open Scope Z_scope.

Section main.
Context {Pc K : Type} `{!Kernel K, !Coroutines Pc (async_state Pc * world K)}.
Abbreviation state := (async_state Pc * world K)%type.

(** A system call of the registry, in the state with the contexts. *)
#[export] Instance loop_kernel : PullKernel state := {
  epoll_create w := let '(r, k) := epoll_create w.2 in (r, (w.1, k));
  epoll_ctl_add fd w := let '(r, k) := epoll_ctl_add fd w.2 in (r, (w.1, k));
  epoll_ctl_del fd w := let '(r, k) := epoll_ctl_del fd w.2 in (r, (w.1, k));
  epoll_wait w := let '(r, k) := epoll_wait w.2 in (r, (w.1, k));
  sys_close fd w := (w.1, sys_close fd w.2)
}.

(** A datum that is the address of a heap object. *)
Definition as_ptr (d : Z) : option positive := match d with Zpos p => Some p | _ => None end.

(** [h(ev, d)] for a handler of a descriptor. *)
Definition call_pull (fuel : nat) (h : net_pull_handler) (events d : Z) : M state Z :=
  match h with
  | conn_err_handler_fn => i ← demand (as_ptr d); on_world (conn_err_handler events i)
  | conn_epoll_handler_fn => x ← demand (as_ptr d); conn_epoll_handler code events x
  | conn_accept_handler_fn => conn_accept_handler fuel events d
  | conn_notice_free_connection_closed_fn =>
      i ← demand (as_ptr d); on_world (conn_notice_free_connection_closed events i)
  | dns_notify_handler_fn => on_world (dns_notify_handler fuel)
  end.

(** [h->handler(eid, h->data, head->data)]. *)
Definition call_event (h : event_handler) (eid : event_id) (d0 d1 : Z) : M state Z :=
  match h with
  | conn_event_handler_fn => x ← demand (as_ptr d0); conn_event_handler code eid x d1
  end.

(** The [while (1)] of [proxy_main]. *)
Fixpoint main_loop (fuel : nat) : M state Z :=
  match fuel with
  | O => no_fuel
  | S fuel' =>
      ret ← event_work call_event fuel;
      if negb (ret =? 0) then mret ret else
      ret ← net_pull_work (call_pull fuel);
      if negb (ret =? 0) then mret ret else main_loop fuel'
  end.

(** Up to [exit(exit_val)]; the other modules' done functions only free and
    close files. *)
Definition proxy_done (fuel : nat) (exit_val : Z) : M state Z :=
  _ ← on_world (modify (put_main EXITING));
  _ ← net_pull_done (call_pull fuel);
  _ ← on_world (conn_module_done fuel);
  _ ← event_module_done call_event fuel;
  mret exit_val.

(** From [net_pull_init] to the start of the main loop; a number other than 0
    is [goto proxy_main_exit].  The patterns of [net_data_module_init] are
    constants, and [event_module_init] is empty. *)
Definition modules_init (arg : proxy_arg_t) : M state Z :=
  ret ← net_pull_init;
  if negb (ret =? 0) then mret ret else
  _ ← on_world net_utils_init;
  ret ← on_world (conn_module_init (arg_addr arg) (arg_port arg));
  if negb (ret =? 0) then mret ret else
  _ ← on_world (_ ← net_handle_module_init; net_http_module_init);
  mret 0.

(** The exit status; the lines of the log are left out, the file is opened before the
    options are parsed. *)
Definition proxy_main (fopen : list ascii -> bool) (fuel : nat) (argv : list (list ascii)) : M state Z :=
  _ ← on_world (modify (put_main RUNING));
  let '(ret, arg) := proxy_parse_arg fopen argv (proxy_log_init fopen arg0) in
  if negb (ret =? 0) then mret 0 else
  ret ← modules_init arg;
  ret ← (if negb (ret =? 0) then mret ret else main_loop fuel);
  proxy_done fuel ret.

(** [main] of src/proxy.c. *)
Definition main := proxy_main.

(** ** Signals *)

Definition SIGHUP : Z := 1.
Definition SIGINT : Z := 2.
Definition SIGSEGV : Z := 11.
Definition SIGPIPE : Z := 13.
Definition SIGTERM : Z := 15.

Inductive disposition := SIG_DFL | SIG_IGN | sig_handler_fn.

(** The calls of [signal], in their order. *)
Definition install_signal_handlers (d : gmap Z disposition) : gmap Z disposition :=
  foldl (fun d sa => <[sa.1 := sa.2]> d) d
    [(SIGTERM, sig_handler_fn); (SIGINT, sig_handler_fn); (SIGPIPE, SIG_IGN);
     (SIGTERM, sig_handler_fn); (SIGSEGV, sig_handler_fn); (SIGHUP, sig_handler_fn)].

Definition sig_handler (fuel : nat) (sig : Z) : M state Z := proxy_done fuel (-1).

(** What becomes of a signal that arrives between two steps of the main loop: the
    exit status, if it ends the process; the default action is the kernel's. *)
Inductive delivery := Ignored | Exits (status : Z) | Default.
Definition deliver (fuel : nat) (d : gmap Z disposition) (sig : Z) : M state delivery :=
  match d !! sig with
  | Some SIG_IGN => mret Ignored
  | Some sig_handler_fn => status ← sig_handler fuel sig; mret (Exits status)
  | Some SIG_DFL | None => mret Default
  end.
End main.
