(* ===== verification/AlwaysRun.v ===== *)
(** Invariants of whole runs: what the modules keep (AlwaysWorld.v) and every
    coroutine keeps between two of its yields, the main loop keeps. *)

From S2P Require Import Prelude CLib Outcome ConnIf Table Event Async NetPull World Conn ConnLink ConnLoop.
From S2P Require Import Server NetUtils NetData NetHandle AlwaysIO AlwaysWorld Arg Accept Main.

#[local] Open Scope Z_scope.

Section steps.
Context {Pc K : Type} `{!Kernel K, !Coroutines Pc (async_state Pc * world K)}.
Abbreviation state := (async_state Pc * world K)%type.

(** One half of a round of the main loop: [event_work] or [net_pull_work]. *)
Definition main_step (w w' : state) : Prop := exists fuel ret,
  event_work call_event fuel w = Ok ret w' \/ net_pull_work (call_pull fuel) w = Ok ret w'.

(** [w'] is reached when the program is started in [w] with the options [arg]. *)
Definition reached (arg : proxy_arg_t) (w w' : state) : Prop := exists w1,
  modules_init arg w = Ok 0 w1 /\ rtc main_step w1 w'.

Lemma main_loop_reaches fuel : forall ret w w', main_loop fuel w = Ok ret w' -> rtc main_step w w'.
Proof.
  induction fuel as [|fuel IH]; intros ret w w'; [done|]. cbn [main_loop]. unfold mbind, M_bind.
  destruct (event_work call_event (S fuel) w) as [r1 w1| |] eqn:E1; [|done..].
  assert (main_step w w1) as H1 by (exists (S fuel), r1; by left).
  destruct (negb (r1 =? 0)); [intros [= _ <-]; by apply rtc_once|].
  destruct (net_pull_work (call_pull (S fuel)) w1) as [r2 w2| |] eqn:E2; [|done..].
  assert (main_step w1 w2) as H2 by (exists (S fuel), r2; by right).
  destruct (negb (r2 =? 0)); [intros [= _ <-]; by eapply rtc_l, rtc_once|].
  intros H. eapply rtc_l, rtc_l, IH; eauto.
Qed.
End steps.

Section run.
Context {Pc K : Type} `{!Kernel K, !Coroutines Pc (async_state Pc * world K)}.
Context `{!Suspend K} (Q : world K -> Prop) `{!KeepsWorld Q} (good : Pc -> Prop).
#[local] Set Default Proof Using "All".

(** The machine contexts of the coroutines are good. *)
Definition threads_good (s : async_state Pc) : Prop := forall x c, cxts s !! x = Some c -> good (uc c).
#[local] Abbreviation Q' := (fun w : async_state Pc * world K => Q w.2 /\ threads_good w.1).

(** A good context runs on to a good one, or ends, with [Q'] kept. *)
Context (Hcode : forall pc v w, good pc -> Q' w -> match code pc v w with
  | Ok r w' => Q' w' /\ forall n pc', r = Some (n, pc') -> good pc'
  | Undef w' => Q' w'
  | NoFuel => True
  end).
Context (Hreq : forall h i, good (req_entry h i)) (Hrsp : forall h p, good (rsp_entry h p)).

Lemma always_on_world {A} (m : M (world K) A) : always Q m -> always Q' (on_world m).
Proof using Type.
  intros Hm [s w] [Hw Hs]. specialize (Hm w Hw). unfold on_world. cbn. by destruct (m w).
Qed.
#[local] Hint Resolve always_on_world : always.

Lemma always_loop_update f : always Q' (update f).
Proof. intros w [Hw Hs]. split; [by apply kw_event|done]. Qed.
#[local] Hint Resolve always_loop_update : always.

Lemma loop_set_handler fd flag h d w : net_pull_set_handler fd flag h d w =
  on_world (Pc := Pc) (net_pull_set_handler (W := world K) fd flag h d) w.
Proof using Type.
  destruct w as [s w]. unfold net_pull_set_handler, on_world, mbind, M_bind, get. cbn.
  by destruct (tbl_find fd (p_handlers (w_pull w))).
Qed.
Lemma always_loop_set_handler fd flag h d : always Q' (net_pull_set_handler fd flag h d).
Proof. intros w. rewrite loop_set_handler. apply always_on_world, kw_set. Qed.
#[local] Hint Resolve always_loop_set_handler : always.

(** ** Coroutines *)

Lemma always_load_cxt {B} x (f : async_cxt Pc -> M (async_state Pc * world K) B) :
  (forall c, good (uc c) -> always Q' (f c)) -> always Q' (load_cxt x ≫= f).
Proof using Type.
  intros Hf w Hw. unfold load_cxt, mbind, M_bind, get, demand.
  destruct (cxts (as_get w) !! x) as [c|] eqn:E; [|done]. unfold mret, M_ret. apply Hf; [|done].
  by apply (proj2 Hw x).
Qed.

(** Changes of the variables of async.c. *)
Lemma always_as_update f : (forall s, threads_good s -> threads_good (f s)) -> always Q' (as_update f).
Proof using Type. intros Hf w [Hw Hs]. split; [done|by apply Hf]. Qed.

Lemma good_insert x c s : good (uc c) -> threads_good s ->
  threads_good (AsyncState (<[x := c]> (cxts s)) (call_cxt s) (yield_ret s)).
Proof using Type. intros Hc Hs y d. cbn. intros [[_ <-]|[_ Hy]]%lookup_insert_Some; [done|by eapply Hs]. Qed.

Lemma always_save_cxt x c : good (uc c) -> always Q' (save_cxt x c).
Proof using Type. intros Hc. apply always_as_update. intros s. by apply good_insert. Qed.

Lemma always_swap pc : good pc -> always Q' (swap_to code pc).
Proof.
  intros Hpc. unfold swap_to. apply always_bind; [auto with always|]. intros v w Hw.
  unfold mbind, M_bind. specialize (Hcode pc v w Hpc Hw). destruct (code pc v w) as [r w'|w'|]; [|done..].
  destruct Hcode as [Hw' Hr]. destruct r as [[n pc']|]; [|done]. specialize (Hr n pc' eq_refl).
  revert w' Hw'. change (always Q' (async_yield_out n pc')). unfold async_yield_out.
  do 2 (apply always_bind; [auto with always|intros ?]).
  apply always_load_cxt. intros c Hc. by apply always_save_cxt.
Qed.

Lemma always_resume x v : always Q' (async_resume code x v).
Proof.
  unfold async_resume. apply always_load_cxt. intros c Hc. destruct (negb _); [auto with always|].
  apply always_bind; [|intros ?].
  { apply always_as_update. intros s Hs y d. cbn. intros [[_ <-]|[_ Hy]]%lookup_insert_Some; [done|by eapply Hs]. }
  apply always_bind; [by apply always_swap|intros ?]. apply always_load_cxt. intros d Hd.
  apply always_bind; [|intros ?; by apply always_as_update].
  destruct (bool_decide _); [by apply always_save_cxt|auto with always].
Qed.

Lemma always_done x : always Q' (async_done x).
Proof using Type.
  apply always_load_cxt. intros c Hc. apply always_as_update. intros s Hs y d. cbn.
  intros [_ Hy]%lookup_delete_Some. by eapply Hs.
Qed.
#[local] Hint Resolve always_resume always_done : always.

Lemma always_final x : always Q' (conn_async_final x).
Proof. unfold conn_async_final, event_set_handler. apply always_load_cxt. intros c Hc. always_tac. Qed.
#[local] Hint Resolve always_final : always.

Lemma always_start pc : good pc -> always Q' (start_coroutine pc).
Proof.
  intros Hpc. unfold start_coroutine, async_init, async_make.
  apply always_bind; [auto with always|intros s]. cbv zeta.
  apply always_bind; [by apply always_save_cxt|intros ?]. apply always_bind; [|intros ?; always_tac].
  apply always_load_cxt. intros c Hc. by apply always_save_cxt.
Qed.

(** ** The handlers *)

#[local] Hint Extern 1 (always _ (start_coroutine _)) => apply always_start; auto : always.

Lemma always_serve fd ep : always Q' (serve_client fd ep).
Proof. unfold serve_client. always_tac. Qed.
#[local] Hint Resolve always_serve : always.
Lemma always_accept_loop fuel sfd : always Q' (accept_loop fuel sfd).
Proof. induction fuel; cbn [accept_loop]; always_tac. Qed.
#[local] Hint Resolve always_accept_loop : always.
Lemma always_accept fuel ev d : always Q' (conn_accept_handler fuel ev d).
Proof. unfold conn_accept_handler. always_tac. Qed.
#[local] Hint Resolve always_accept : always.

Lemma always_call_pull fuel h ev d : always Q' (call_pull fuel h ev d).
Proof. unfold call_pull, conn_epoll_handler. always_tac. Qed.
Lemma always_call_event h eid d0 d1 : always Q' (call_event h eid d0 d1).
Proof. unfold call_event, conn_event_handler. always_tac. Qed.
#[local] Hint Resolve always_call_pull always_call_event : always.

Lemma always_event_work fuel : always Q' (event_work call_event fuel).
Proof.
  unfold event_work. apply always_bind; [|intros; always_tac].
  induction fuel; cbn [work_loop]; unfold dispatch, load_event; always_tac.
Qed.

(** ** The registry *)

(** What [net_pull_init] and [net_pull_work] themselves do to the registry is kept. *)
Class KeepsPull : Prop := {
  kp_create e k w : k_epoll_create (w_k w) = (e, k) -> Q w ->
    Q (put_pull (PullState (p_handlers (w_pull w)) e (fd_cnt (w_pull w))) (put_k k w));
  kp_wait evs k w : k_epoll_wait (w_k w) = (evs, k) -> Q w -> Q (put_k k w);
  kp_clear fd e w : tbl_find fd (p_handlers (w_pull w)) = Some e -> Q w ->
    Q (put_pull (with_table (w_pull w) (tbl_set fd (cleared e) (p_handlers (w_pull w)))) w)
}.
Context (HKP : KeepsPull).

Lemma always_pull_init : always Q' net_pull_init.
Proof.
  intros [s w] [Hw Hs]. unfold net_pull_init, sys, mbind, M_bind. cbn. unfold lift.
  destruct (k_epoll_create (w_k w)) as [e k] eqn:E. cbn. split; [by apply kp_create|done].
Qed.
#[local] Hint Resolve always_pull_init : always.

Lemma always_call_opt fuel h ev d : always Q' (call_opt (call_pull fuel) h ev d).
Proof. unfold call_opt. always_tac. Qed.
#[local] Hint Resolve always_call_opt : always.

Lemma always_serve_event fuel ev : always Q' (serve_event (call_pull fuel) ev).
Proof.
  destruct ev as [events fd]. intros [s w] [Hw Hs]. unfold serve_event, mbind at 1, M_bind at 1, get. cbn.
  destruct (tbl_find fd _) as [e|] eqn:E; [|done]. unfold mbind at 1, M_bind at 1, pl_update, modify. cbn.
  assert (Q' (s, put_pull (with_table (w_pull w) (tbl_set fd (cleared e) (p_handlers (w_pull w)))) w)) as Hq.
  { split; [by apply kp_clear|done]. }
  revert Hq. generalize (s, put_pull (with_table (w_pull w) (tbl_set fd (cleared e) (p_handlers (w_pull w)))) w).
  match goal with |- forall w, _ -> match ?m w with _ => _ end => change (always Q' m) end.
  always_tac.
Qed.
#[local] Hint Resolve always_serve_event : always.

Lemma always_pull_work fuel : always Q' (net_pull_work (call_pull fuel)).
Proof.
  assert (forall l, always Q' (serve_events (call_pull fuel) l)) as Hl.
  { intros l. induction l; cbn [serve_events]; always_tac. }
  unfold net_pull_work. apply always_bind; [auto with always|]. intros s.
  destruct (_ <? 0); [auto with always|]. destruct (_ =? 0); [auto with always|].
  apply always_bind; [|intros []; always_tac]. intros [a w] [Hw Hs]. unfold sys. cbn. unfold lift.
  destruct (k_epoll_wait (w_k w)) as [evs k] eqn:E. cbn. split; [by eapply kp_wait|done].
Qed.

(** ** Runs *)

Lemma always_main_step w w' : Q' w -> rtc main_step w w' -> Q' w'.
Proof.
  intros Hw. induction 1 as [|w1 w2 w3 (fuel&ret&H) _ IH]; [done|]. apply IH.
  destruct H as [H|H]; [pose proof (always_event_work fuel w1 Hw) as Hk|pose proof (always_pull_work fuel w1 Hw) as Hk];
    by rewrite H in Hk.
Qed.

Lemma always_reached arg w w' : Q' w -> reached arg w w' -> Q' w'.
Proof.
  intros Hw (w1&Hinit&Hsteps). assert (always Q' (modules_init arg)) as Hk by (unfold modules_init; always_tac).
  specialize (Hk w Hw). rewrite Hinit in Hk. by eapply always_main_step.
Qed.
End run.
