(* ===== verification/Waiting.v ===== *)
(** Between two steps of the main loop no coroutine runs: every context is
    paused, with a notice of what it waits for.  This is broken while a coroutine is
    entered, so it is shown of the computations that return. *)

From S2P Require Import Prelude CLib Outcome ConnIf Table Event Async NetPull World Conn ConnLink ConnLoop.
From S2P Require Import Server NetUtils NetHandle Arg Accept Main AlwaysRun.

#[local] Open Scope Z_scope.

(** If the computation returns, then with a result and a state in [Q]. *)
Definition partial {W A} (m : M W A) (Q : A -> W -> Prop) (w : W) : Prop :=
  match m w with Ok a w' => Q a w' | _ => True end.

Section partial.
Context {W : Type}.

Lemma partial_bind {A B} (m : M W A) (f : A -> M W B) Q w :
  partial m (fun a => partial (f a) Q) w -> partial (m ≫= f) Q w.
Proof. unfold partial, mbind, M_bind. by destruct (m w). Qed.

Lemma partial_mono {A} (m : M W A) (Q Q' : A -> W -> Prop) w :
  partial m Q w -> (forall a w', Q a w' -> Q' a w') -> partial m Q' w.
Proof. unfold partial. destruct (m w); auto. Qed.

Lemma partial_demand {A} (o : option A) Q (w : W) : (forall a, o = Some a -> Q a w) -> partial (demand o) Q w.
Proof. unfold partial. destruct o; cbn; auto. Qed.

Lemma partial_get {A} (f : W -> A) Q w : Q (f w) w -> partial (get f) Q w.
Proof. done. Qed.
Lemma partial_modify f (Q : () -> W -> Prop) w : Q () (f w) -> partial (modify f) Q w.
Proof. done. Qed.
Lemma partial_ret {A} (a : A) (Q : A -> W -> Prop) w : Q a w -> partial (mret a) Q w.
Proof. done. Qed.

(** [P] is kept by the computations that return. *)
Definition kept (P : W -> Prop) {A} (m : M W A) : Prop := forall w, P w -> partial m (fun _ => P) w.

Lemma kept_bind P {A B} (m : M W A) (f : A -> M W B) : kept P m -> (forall a, kept P (f a)) -> kept P (m ≫= f).
Proof. intros Hm Hf w Hw. apply partial_bind. eapply partial_mono; [by apply Hm|]. intros a w'. apply Hf. Qed.

Lemma kept_ret P {A} (a : A) : kept P (mret a).
Proof. by intros w Hw. Qed.
Lemma kept_get P {A} (f : W -> A) : kept P (get f).
Proof. by intros w Hw. Qed.
Lemma kept_demand P {A} (o : option A) : kept P (demand o).
Proof. intros w Hw. by apply partial_demand. Qed.
Lemma kept_no_fuel P {A} : kept P (@no_fuel W A).
Proof. by intros w Hw. Qed.
End partial.

Create HintDb kept.
#[export] Hint Resolve kept_ret kept_get kept_demand kept_no_fuel : kept.
Ltac kept_tac := repeat lazymatch goal with
  | |- kept _ (_ ≫= _) => apply kept_bind; [|intros ?]
  | |- kept _ (match ?x with _ => _ end) => destruct x
  | |- kept _ (let _ := _ in _) => cbv zeta
  | |- kept _ _ => solve [eauto with kept]
  end.

Section waiting.
Context {Pc K : Type} `{!Kernel K, !Coroutines Pc (async_state Pc * world K)}.
Abbreviation state := (async_state Pc * world K)%type.
Implicit Types (s : async_state Pc) (w : state) (x : positive) (c : async_cxt Pc).

Definition cxt_waits c : Prop := a_stat c = ASYNC_PAUSE /\ is_Some (yielded c).

(** No coroutine runs, and all contexts but perhaps [x] wait. *)
Definition waiting_but (X : gset positive) s : Prop :=
  call_cxt s = None /\ forall x c, cxts s !! x = Some c -> x ∉ X -> cxt_waits c.
#[local] Abbreviation waiting := (fun w => waiting_but ∅ w.1).

(** The code of a coroutine does not touch the variables of async.c itself. *)
Context (Hcode : forall pc v w, partial (code pc v) (fun _ w' => w'.1 = w.1) w).
#[local] Set Default Proof Using "All".

(** What leaves these variables alone. *)
Lemma frame_kept {A} (m : M state A) X :
  (forall w, partial m (fun _ w' => w'.1 = w.1) w) -> kept (fun w => waiting_but X w.1) m.
Proof using Type. intros Hm w Hw. eapply partial_mono; [apply Hm|]. by intros a w' ->. Qed.

Lemma on_world_frame {A} (m : M (world K) A) w : partial (on_world m) (fun _ w' => w'.1 = w.1) w.
Proof using Type. unfold partial, on_world. by destruct (m w.2). Qed.
Lemma on_world_kept {A} (m : M (world K) A) X : kept (fun w => waiting_but X w.1) (on_world m).
Proof using Type. apply frame_kept, on_world_frame. Qed.
Lemma update_kept f X : kept (fun w => waiting_but X w.1) (update f).
Proof using Type. by apply frame_kept. Qed.
Lemma pl_update_kept f X : kept (fun w => waiting_but X w.1) (pl_update f).
Proof using Type. by apply frame_kept. Qed.
Lemma set_handler_kept fd flag h d X : kept (fun w => waiting_but X w.1) (net_pull_set_handler fd flag h d).
Proof using Type.
  apply frame_kept. intros w. unfold partial. rewrite loop_set_handler.
  pose proof (on_world_frame (net_pull_set_handler fd flag h d) w) as H. exact H.
Qed.
#[local] Hint Resolve on_world_kept update_kept pl_update_kept set_handler_kept : kept.

Lemma load_cxt_partial x Q w : (forall c, cxts w.1 !! x = Some c -> Q c w) -> partial (load_cxt x) Q w.
Proof using Type. intros HQ. unfold load_cxt. apply partial_bind, partial_get, partial_demand. exact HQ. Qed.

(** Entering the context [x]; then it has finished, or waits. *)
Lemma resume_partial x v w : waiting_but {[x]} w.1 -> (exists c, cxts w.1 !! x = Some c /\ a_stat c = ASYNC_PAUSE) ->
  partial (async_resume code x v) (fun _ w' => waiting_but {[x]} w'.1 /\
    exists c, cxts w'.1 !! x = Some c /\ (a_stat c = ASYNC_FINISH \/ cxt_waits c)) w.
Proof.
  intros [_ Hw] (c&Hc&Hp). unfold async_resume. apply partial_bind, load_cxt_partial. rewrite Hc. intros ? [= <-].
  rewrite bool_decide_true by done. cbn [negb]. apply partial_bind, partial_modify.
  set (w1 := as_put _ w). assert (forall y d, cxts w1.1 !! y = Some d -> y <> x -> cxt_waits d) as Hw1.
  { intros y d Hy Hne. cbn in Hy. rewrite lookup_insert_ne in Hy by done. eapply Hw; [exact Hy|set_solver]. }
  assert (cxts w1.1 !! x = Some (AsyncCxt (uc c) ASYNC_RUNNING None)) as Hx1 by apply lookup_insert_eq.
  assert (call_cxt w1.1 = Some x) as Hcall by done. clearbody w1. unfold swap_to.
  apply partial_bind, partial_bind, partial_get, partial_bind. eapply partial_mono; [apply Hcode|].
  intros r w2 E. rewrite <-E in Hw1, Hx1, Hcall. destruct r as [[n pc]|].
  - unfold async_yield_out. apply partial_bind, partial_get, partial_bind, partial_demand. cbn. rewrite Hcall. intros ? [= <-].
    apply partial_bind, load_cxt_partial. intros _ _. apply partial_modify, partial_bind, load_cxt_partial.
    cbn. rewrite lookup_insert_eq. intros ? [= <-]. cbn. apply partial_bind, partial_ret, partial_modify. split.
    + split; [done|]. intros y d Hy Hne. cbn in Hy. rewrite lookup_insert_ne in Hy by set_solver. eapply Hw1; [exact Hy|set_solver].
    + eexists. cbn. rewrite lookup_insert_eq. split; [done|]. right. split; [done|by eexists].
  - apply partial_ret, partial_bind, load_cxt_partial. rewrite Hx1. intros ? [= <-]. cbn.
    apply partial_bind, partial_modify, partial_modify. split.
    + split; [done|]. intros y d Hy Hne. cbn in Hy. rewrite lookup_insert_ne in Hy by set_solver. eapply Hw1; [exact Hy|set_solver].
    + eexists. cbn. rewrite lookup_insert_eq. split; [done|]. by left.
Qed.

Lemma final_partial x w : waiting_but {[x]} w.1 ->
  (exists c, cxts w.1 !! x = Some c /\ (a_stat c = ASYNC_FINISH \/ cxt_waits c)) ->
  partial (conn_async_final x) (fun _ w' => waiting w') w.
Proof.
  intros [Hn Hw] (c&Hc&Hs). unfold conn_async_final. apply partial_bind, load_cxt_partial. rewrite Hc. intros ? [= <-].
  destruct Hs as [Hf|[Hp [n Hy]]].
  - rewrite Hf, bool_decide_false by done. cbn [negb]. apply partial_bind, partial_bind, load_cxt_partial. intros _ _.
    apply partial_modify, partial_ret. split; [done|]. intros y d. cbn. intros [? Hd]%lookup_delete_Some _. eapply Hw; [exact Hd|set_solver].
  - rewrite Hp, bool_decide_true by done. cbn [negb]. rewrite Hy.
    assert (waiting w) as Hall.
    { split; [done|]. intros y d Hd _. destruct (decide (y = x)) as [->|]; [|eapply Hw; [exact Hd|set_solver]].
      rewrite Hc in Hd. injection Hd as <-. split; [done|by eexists]. }
    destruct n as [fd flag|eid]; revert w Hall Hn Hw Hc; intros w Hall _ _ _; revert w Hall;
      match goal with |- forall w, _ -> partial ?m _ w => change (kept waiting m) end;
      unfold event_set_handler; kept_tac.
Qed.

Lemma resumed_kept x v : kept waiting (_ ← async_resume code x v; _ ← conn_async_final x; mret 0).
Proof.
  intros w [Hn Hw]. apply partial_bind. destruct (cxts w.1 !! x) as [c|] eqn:Hc.
  - eapply partial_mono; [apply resume_partial|].
    + split; [done|]. intros y d Hd _. eapply Hw; [exact Hd|set_solver].
    + exists c. split; [done|]. eapply Hw; [exact Hc|set_solver].
    + intros _ w1 [H1 H2]. apply partial_bind. eapply partial_mono; [by apply final_partial|]. done.
  - unfold async_resume, load_cxt, partial, mbind, M_bind, get. cbn. by rewrite Hc.
Qed.

(** A new context is made and entered. *)
Lemma start_partial entry w : waiting w ->
  partial (start_coroutine entry) (fun x w' => waiting_but {[x]} w'.1 /\
    exists c, cxts w'.1 !! x = Some c /\ (a_stat c = ASYNC_FINISH \/ cxt_waits c)) w.
Proof.
  intros [Hn Hw]. unfold start_coroutine. apply partial_bind. unfold partial, get. cbv zeta.
  set (x := fresh _). apply partial_bind. unfold async_init, save_cxt, partial, as_update, modify.
  apply partial_bind. unfold async_make, load_cxt, partial, mbind, M_bind, get. cbn. rewrite lookup_insert_eq. cbn.
  set (w1 := (AsyncState _ _ _, _)). change (partial (_ ← async_resume code x 0; mret x) (fun x w' => waiting_but {[x]} w'.1 /\
    exists c, cxts w'.1 !! x = Some c /\ (a_stat c = ASYNC_FINISH \/ cxt_waits c)) w1).
  apply partial_bind. eapply partial_mono; [apply resume_partial|].
  - split; [done|]. intros y d Hy Hne. cbn in Hy. rewrite !lookup_insert_ne in Hy by set_solver. eapply Hw; [exact Hy|set_solver].
  - eexists. cbn. rewrite lookup_insert_eq. by split.
  - intros [] w2 H2. exact H2.
Qed.

Lemma serve_kept fd ep : kept waiting (serve_client fd ep).
Proof.
  unfold serve_client. do 5 (apply kept_bind; [kept_tac|intros ?]). intros w Hw. apply partial_bind.
  eapply partial_mono; [by apply start_partial|]. intros x w1 [H1 H2]. apply partial_bind.
  eapply partial_mono; [by apply final_partial|]. intros ret.
  match goal with |- forall w, _ -> partial ?m _ w => change (kept waiting m) end.
  destruct (negb _); [kept_tac|]. do 3 (apply kept_bind; [kept_tac|intros ?]). intros w2 Hw2. apply partial_bind.
  eapply partial_mono; [by apply start_partial|]. intros y w3 [H3 (c&Hc&Hs)]. apply partial_bind.
  eapply partial_mono.
  { apply on_world_frame. }
  intros r4 w4 E. apply partial_bind. eapply partial_mono; [apply final_partial|done]; rewrite E; eauto.
Qed.
#[local] Hint Resolve resumed_kept serve_kept : kept.

Lemma accept_kept fuel ev d : kept waiting (conn_accept_handler fuel ev d).
Proof.
  assert (forall sfd, kept waiting (accept_loop fuel sfd)) as H.
  { intros sfd. induction fuel; cbn [accept_loop]; kept_tac. }
  unfold conn_accept_handler. kept_tac.
Qed.
#[local] Hint Resolve accept_kept : kept.

Lemma call_pull_kept fuel h ev d : kept waiting (call_pull fuel h ev d).
Proof. unfold call_pull. kept_tac. Qed.
Lemma call_event_kept h eid d0 d1 : kept waiting (call_event h eid d0 d1).
Proof. unfold call_event. kept_tac. Qed.
#[local] Hint Resolve call_pull_kept call_event_kept : kept.

Lemma sys_kept {A} (f : world K -> A * world K) :
  kept waiting (sys (fun w : state => let '(r, k) := f w.2 in (r, (w.1, k)))).
Proof using Type. apply frame_kept. intros w. unfold partial, sys. by destruct (f w.2). Qed.

Lemma event_work_kept fuel : kept waiting (event_work call_event fuel).
Proof.
  unfold event_work. apply kept_bind; [|intros; kept_tac].
  induction fuel; cbn [work_loop]; unfold dispatch, load_event; kept_tac.
Qed.

Lemma pull_work_kept fuel : kept waiting (net_pull_work (call_pull fuel)).
Proof.
  assert (forall ev, kept waiting (serve_event (call_pull fuel) ev)) as He.
  { intros [ev fd]. unfold serve_event, call_opt. kept_tac. }
  assert (forall l, kept waiting (serve_events (call_pull fuel) l)) as Hl.
  { intros l. induction l; cbn [serve_events]; kept_tac. }
  unfold net_pull_work. apply kept_bind; [apply kept_get|]. intros s. kept_tac. apply sys_kept.
Qed.

Lemma init_kept arg : kept waiting (modules_init arg).
Proof. unfold modules_init, net_pull_init. kept_tac. apply sys_kept. Qed.

(** Every reached state. *)
Lemma reached_waiting arg w w' : cxts w.1 = ∅ -> call_cxt w.1 = None -> reached arg w w' -> waiting w'.
Proof.
  intros Hc Hn (w1&Hi&Hr). assert (waiting w1) as Hw.
  { pose proof (init_kept arg w) as H. unfold partial in H. rewrite Hi in H. apply H. split; [done|].
    intros x c. by rewrite Hc. }
  clear Hi. induction Hr as [|w2 w3 w4 (fuel&ret&[H|H]) _ IH]; [done|..]; apply IH.
  - pose proof (event_work_kept fuel w2 Hw) as Hk. unfold partial in Hk. by rewrite H in Hk.
  - pose proof (pull_work_kept fuel w2 Hw) as Hk. unfold partial in Hk. by rewrite H in Hk.
Qed.
End waiting.
