(* ===== verification/ReplayFacts.v ===== *)
(** What the modules keep, a coroutine keeps from one yield to the next: an
    invariant of AlwaysWorld.v holds of the state in which the piece ends, if it
    holds of the present state and of those in which the earlier pieces ran. *)

From S2P Require Import Prelude CLib Outcome ConnIf ConnIO Table Event Async NetPull Uthash NetData World Conn ConnLink ConnLoop.
From S2P Require Import Server NetUtils NetHandle AlwaysIO AlwaysWorld Arg Accept Coroutine Main AlwaysRun.

#[local] Open Scope Z_scope.

Section simulates.
Context {K : Type} `{!Kernel K}.

Lemma back_into l (w : world K) : back (into l w) = w.
Proof. by destruct w. Qed.

(** [m] does what [m'] does, and leaves the script alone. *)
Definition simulates {A} (m : M (world (rkernel K)) A) (m' : M (world K) A) : Prop := forall v,
  match m v with
  | Ok a v' => m' (back v) = Ok a (back v') /\ script (w_k v') = script (w_k v)
  | Undef v' => m' (back v) = Undef (back v') /\ script (w_k v') = script (w_k v)
  | NoFuel => True
  end.

Lemma simulates_bind {A B} (m : M _ A) m' (f : A -> M _ B) f' :
  simulates m m' -> (forall a, simulates (f a) (f' a)) -> simulates (m ≫= f) (m' ≫= f').
Proof.
  intros Hm Hf v. specialize (Hm v). unfold mbind, M_bind. destruct (m v) as [a v1|v1|]; [|destruct Hm as [-> H]; done|done].
  destruct Hm as [-> E]. specialize (Hf a v1). destruct (f a v1) as [b v2|v2|]; [..|done];
    destruct Hf as [H1 H2]; split; congruence.
Qed.

Lemma simulates_ret {A} (a : A) : simulates (mret a) (mret a).
Proof. done. Qed.

Lemma simulates_get {A} (g : world (rkernel K) -> A) g' : (forall v, g v = g' (back v)) -> simulates (get g) (get g').
Proof. intros E v. split; [|done]. unfold get. by rewrite E. Qed.

Lemma simulates_modify g g' :
  (forall v, back (g v) = g' (back v) /\ script (w_k (g v)) = script (w_k v)) -> simulates (modify g) (modify g').
Proof. intros E v. destruct (E v) as [E1 E2]. split; [|done]. unfold modify. by rewrite E1. Qed.

Lemma simulates_sys {A} (f : K -> A * K) : simulates (sys (lift (on_rk f))) (sys (lift f)).
Proof. intros v. unfold sys, lift, on_rk. cbn. by destruct (f (rk (w_k v))). Qed.

Ltac simulates_tac := repeat lazymatch goal with
  | |- simulates (_ ≫= _) _ => apply simulates_bind; [|intros ?]
  | |- simulates (match ?o with _ => _ end) _ => destruct o
  | |- simulates (let _ := _ in _) _ => cbv zeta
  | |- simulates (mret _) _ => apply simulates_ret
  | |- simulates (sys _) _ => apply simulates_sys
  | |- simulates (get _) _ => by apply simulates_get
  | |- simulates (pl_update _) _ => by apply simulates_modify
  end.

Lemma simulates_add fd err derr : simulates (net_pull_add fd err derr) (net_pull_add fd err derr).
Proof. unfold net_pull_add. simulates_tac. Qed.
Lemma simulates_set fd flag h d : simulates (net_pull_set_handler fd flag h d) (net_pull_set_handler fd flag h d).
Proof. unfold net_pull_set_handler. simulates_tac. Qed.
Lemma simulates_del fd : simulates (net_pull_del fd) (net_pull_del fd).
Proof. unfold net_pull_del. simulates_tac. Qed.

Lemma io_step_rk (s s' : rkernel K) : io_step s s' -> io_step (rk s) (rk s') /\ script s' = script s.
Proof.
  assert (forall A (f : K -> A * K), io_step (rk s) (f (rk s)).2 ->
    io_step (rk s) (rk (on_rk f s).2) /\ script (on_rk f s).2 = script s) as H.
  { intros A f. unfold on_rk. by destruct (f (rk s)). }
  destruct 1; apply H; constructor.
Qed.
End simulates.

Section keeps.
Context {K : Type} `{!Kernel K, !Suspend K} (Q : world K -> Prop) `{!KeepsWorld Q}.

Definition scripted (v : world (rkernel K)) : Prop := Q (back v) /\ Forall (fun wr => Q wr.1) (script (w_k v)).

Lemma scripted_simulates {A} (m : M (world (rkernel K)) A) m' :
  simulates m m' -> always Q m' -> always scripted m.
Proof.
  intros Hs Hm v [Hv Hl]. specialize (Hs v). specialize (Hm _ Hv).
  destruct (m v) as [a v'|v'|]; [..|done]; destruct Hs as [E1 E2]; rewrite E1 in Hm; (split; [done|]); by rewrite E2.
Qed.

#[export] Instance scripted_keeps : KeepsWorld scripted.
Proof using KeepsWorld0.
  split.
  - intros s v [Hv Hl]. split; [by apply (kw_event s (back v))|done].
  - intros s v [Hv Hl]. split; [by apply (kw_conns s (back v))|done].
  - intros s v [Hv Hl]. split; [by apply (kw_serve s (back v))|done].
  - intros s v [Hv Hl]. split; [by apply (kw_main s (back v))|done].
  - intros s v Hf [Hv Hl]. split; [by apply (kw_handle s (back v))|done].
  - intros k v [Hio E]%io_step_rk [Hv Hl]. split; [by apply (kw_io (rk k) (back v))|]. cbn. by rewrite E.
  - intros fd v [Hv Hl]. split; [by apply (kw_close fd (back v))|done].
  - intros *. eapply scripted_simulates; [apply simulates_add|apply kw_add].
  - intros *. eapply scripted_simulates; [apply simulates_set|apply kw_set].
  - intros *. eapply scripted_simulates; [apply simulates_del|apply kw_del].
  - intros n v [Hv Hl]. unfold suspend, replay. destruct (script (w_k v)) as [|[w ret] l] eqn:E.
    + split; [exact Hv|constructor].
    + apply Forall_cons in Hl as [Hw Hl]. split; [by rewrite back_into|exact Hl].
Qed.

(** The states a context was entered in. *)
Definition kept_thread (t : thread K) : Prop := Forall (fun wr => Q wr.1) (entered_in t).

Lemma replay_from_kept h w ret : Forall (fun wr => Q wr.1) h -> Q w -> scripted (replay_from h w ret).
Proof using Type.
  intros Hh Hw. destruct h as [|[w0 r0] l]; cbn [replay_from].
  - split; [by rewrite back_into|constructor].
  - apply Forall_cons in Hh as [H0 Hl]. split; [by rewrite back_into|]. apply Forall_app. split; [done|].
    by apply Forall_singleton.
Qed.

Lemma run_entry_kept fuel e : always scripted (run_entry fuel e).
Proof using KeepsWorld0.
  destruct e as [i|[x|]]; cbn [run_entry].
  - apply always_net_req_handler, _.
  - apply always_bind; [auto with always|]. intros y. apply always_net_rsp_handler, _.
  - apply always_bind; [auto with always|]. intros y. apply always_net_rsp_handler, _.
Qed.

Lemma run_piece_kept fuel t ret w : kept_thread t -> Q w ->
  match run_piece fuel t ret w with Ok _ w' | Undef w' => Q w' | NoFuel => True end.
Proof using KeepsWorld0.
  intros Ht Hw. pose proof (run_entry_kept fuel (entry t) _ (replay_from_kept _ w ret Ht Hw)) as H.
  unfold run_piece. destruct (run_entry fuel (entry t) _) as [a v|v|]; [apply H| |done].
  destruct (stop (w_k v)); apply H.
Qed.

(** The pieces of the coroutines satisfy what AlwaysRun.v asks of them. *)
Lemma thread_code_kept fuel (t : thread K) ret (s : async_state (thread K) * world K) :
  kept_thread t -> Q s.2 /\ threads_good kept_thread s.1 ->
  match code (Coroutines := thread_code fuel) t ret s with
  | Ok r s' => (Q s'.2 /\ threads_good kept_thread s'.1) /\ forall n t', r = Some (n, t') -> kept_thread t'
  | Undef s' => Q s'.2 /\ threads_good kept_thread s'.1
  | NoFuel => True
  end.
Proof using KeepsWorld0.
  intros Ht [Hw Hs]. pose proof (run_piece_kept fuel t ret s.2 Ht Hw) as H. cbn [code thread_code].
  destruct (run_piece fuel t ret s.2) as [[n|] w'|w'|]; [| |done..].
  - split; [done|]. intros n' t' [= _ <-]. apply Forall_app. split; [exact Ht|]. by apply Forall_singleton.
  - by split.
Qed.
(** What every module keeps holds in every state the program reaches, with the
    code of its coroutines in place. *)
Lemma replayed_kept {HKP : KeepsPull Q} fuel arg (w w' : async_state (thread K) * world K) :
  Q w.2 -> cxts w.1 = ∅ -> reached (Coroutines0 := thread_code fuel) arg w w' -> Q w'.2.
Proof using KeepsWorld0.
  intros Hw Hc Hr. eapply (always_reached (Coroutines0 := thread_code fuel) Q kept_thread); [..|exact Hr].
  - intros t v s Ht Hs. by apply thread_code_kept.
  - intros [] i. constructor.
  - intros [] i. constructor.
  - exact HKP.
  - split; [done|]. intros x c. by rewrite Hc.
Qed.
End keeps.
