(* ===== verification/ServerProps.v ===== *)
(** Properties of starting and stopping the servers (Server.v), and of opening
    connections. *)

From S2P Require Import Prelude CLib Outcome ConnIf Sim Table Event NetPull World Conn ConnLink ConnPool.
From S2P Require Import DemoKernel ConnProps Server.

#[local] Open Scope Z_scope.

(** ** Listening *)



Section listening.
Context {K : Type} `{!Kernel K}.
Implicit Types (w : world K).







End listening.


(** ** Stopping *)

(** An object that has lost a reference. *)
Definition released {V} (o : option (Z * V)) : option (Z * V) :=
  match o with
  | Some (rc, c) => if rc =? 1 then None else Some (rc - 1, c)
  | None => None
  end.

Section stopping.
Context {K : Type} `{!Kernel K}.
Implicit Types (w : world K).

(** What releasing the elements [A] with the connections [I] does. *)
Definition dropped (A I : list positive) (s s' : conn_state) : Prop :=
  (forall a, ents s' !! a = if decide (a ∈ A) then None else ents s !! a) /\
  forall i, objs s' !! i = if decide (i ∈ I) then released (objs s !! i) else objs s !! i.

Lemma dropped_nil s s' : ents s' = ents s -> objs s' = objs s -> dropped [] [] s s'.
Proof. intros E1 E2. by split; intros; rewrite ?E1, ?E2. Qed.

Lemma dropped_app A1 A2 I1 I2 s1 s2 s3 :
  (forall i, i ∈ I1 -> i ∉ I2) ->
  dropped A1 I1 s1 s2 -> dropped A2 I2 s2 s3 -> dropped (A1 ++ A2) (I1 ++ I2) s1 s3.
Proof.
  intros Hdis [He1 Ho1] [He2 Ho2]. split.
  - intros a. rewrite He2, He1. repeat case_decide; rewrite elem_of_app in *; tauto.
  - intros i. specialize (Hdis i). rewrite Ho2, Ho1. repeat case_decide; rewrite elem_of_app in *; tauto.
Qed.

Lemma release_list_spec fuel : forall l p prev w, (length l <= fuel)%nat ->
  dll (ents (w_conn w)) prev p (prod_map id Some <$> l) -> NoDup l.*1 -> NoDup l.*2 ->
  (forall i, i ∈ l.*2 -> is_Some (objs (w_conn w) !! i)) ->
  wp safe (release_list fuel p) (fun _ w' => dropped l.*1 l.*2 (w_conn w) (w_conn w')) w.
Proof.
  induction fuel as [|fuel IH]; intros [|[a i] l] p prev w Hfuel Hdll Hnd1 Hnd2 Ho; cbn in Hfuel; [|lia| |].
  1-2: cbn in Hdll; subst p; cbn [release_list]; apply wp_ret; by apply dropped_nil.
  destruct Hdll as [-> (nx&Ha&Hl)]. cbn in *. apply NoDup_cons in Hnd1 as [Hna Hnd1], Hnd2 as [Hni Hnd2].
  destruct (Ho i ltac:(by left)) as [[rc c] Hi].
  apply wp_bind. eapply load_ent_spec; [exact Ha|]. cbn [e_conn e_next]. apply wp_bind, (wp_demand _ _ i); [done|].
  eapply wp_seq; [by apply mem_decref_spec|]. intros _ w1 [E1 _].
  apply wp_bind. eapply free_ent_spec; [rewrite E1; exact Ha|].
  set (w2 := put_ents _ w1).
  assert (dropped [a] [i] (w_conn w) (w_conn w2)) as Hd1.
  { unfold w2. rewrite E1. split; intros x; cbn; rewrite ?E1; cbn.
    - case_decide as E; rewrite list_elem_of_singleton in E; [subst; by rewrite lookup_delete_eq|by rewrite lookup_delete_ne].
    - case_decide as E; rewrite list_elem_of_singleton in E.
      + subst. rewrite Hi. cbn. destruct (rc =? 1); by rewrite ?lookup_delete_eq, ?lookup_insert_eq.
      + destruct (rc =? 1); by rewrite ?lookup_delete_ne, ?lookup_insert_ne. }
  clearbody w2. pose proof Hd1 as [He1 Ho1]. eapply wp_mono; [eapply (IH l nx (Some a) w2)|]; [lia| |done..| |].
  - eapply dll_ext; [exact Hl|]. intros b Hb. rewrite He1, decide_False; [done|].
    rewrite list_elem_of_singleton. intros ->. apply Hna. by rewrite <-list_fmap_compose in Hb.
  - intros j Hj. rewrite Ho1, decide_False; [apply Ho; by right|]. rewrite list_elem_of_singleton. by intros ->.
  - intros ? w3 Hd2. apply (dropped_app [a] _ [i] _ _ _ _ ltac:(by intros ? ->%list_elem_of_singleton) Hd1 Hd2).
Qed.

(** The entries of the pool with their lists, and what they consist of. *)
Abbreviation entries := (list (conn_endpoint * (positive * list (positive * positive)))).
Definition nodes_in (ts : entries) : list positive := ts ≫= fun x => x.2.2.*1 ++ [x.2.1].
Definition conns_in (ts : entries) : list positive := ts ≫= fun x => x.2.2.*2.

Definition entries_ok (s : conn_state) (ts : entries) : Prop :=
  NoDup ts.*1 /\ (forall ep h l, (ep, (h, l)) ∈ ts -> list_rep s ep h l) /\
  forall ep1 h1 l1 ep2 h2 l2, (ep1, (h1, l1)) ∈ ts -> (ep2, (h2, l2)) ∈ ts -> ep1 <> ep2 ->
    forall a, a ∈ h1 :: l1.*1 -> a ∉ h2 :: l2.*1.

(** A connection is in the list of its own endpoint only, and there once. *)
Lemma list_rep_conns s ep h l : list_rep s ep h l -> NoDup l.*2.
Proof.
  intros (Hnd&_&Hp). apply NoDup_cons in Hnd as [_ Hnd]. apply NoDup_fmap_2_strong; [|by eapply NoDup_fmap_1].
  intros [a i] [b j] Ha Hb E. cbn in E. subst j. destruct (Hp _ _ Ha) as (?&?&H1&H2&_), (Hp _ _ Hb) as (?&?&H3&H4&_).
  congruence.
Qed.

Lemma dropped_list_rep A I s s' ep h l :
  dropped A I s s' -> list_rep s ep h l -> (forall a, a ∈ h :: l.*1 -> a ∉ A) -> (forall i, i ∈ l.*2 -> i ∉ I) ->
  list_rep s' ep h l.
Proof.
  intros [He Ho] Hl HA HI. eapply list_rep_frame; [exact Hl| |].
  - intros a Ha. rewrite He, decide_False; [done|by apply HA].
  - intros a i Hin (rc&c&Hi&H). exists rc, c. rewrite Ho, decide_False; [done|].
    apply HI, list_elem_of_fmap. by exists (a, i).
Qed.

(** The body of the [HASH_ITER], and what comes behind it. *)
Lemma release_head_spec fuel ep h l (m : M (world K) ()) Q w : list_rep (w_conn w) ep h l -> (length l <= fuel)%nat ->
  (forall w', dropped (l.*1 ++ [h]) l.*2 (w_conn w) (w_conn w') -> wp safe m Q w') ->
  wp safe ('(_, e) ← load_ent (Some h);
           _ ← release_list fuel (e_next e);
           _ ← cn_update (fun s => ConnState (objs s) (tbl_del ep (free_pool s)) (ents s));
           _ ← free_ent (Some h);
           m) Q w.
Proof.
  intros Hl Hfuel HQ. pose proof Hl as (Hnd&[_ (nx&Hh&Hdll)]&Hp).
  apply NoDup_cons in Hnd as [Hhn Hnd]. apply wp_bind. eapply load_ent_spec; [exact Hh|]. cbn [e_next].
  eapply wp_seq.
  { eapply release_list_spec; [exact Hfuel|exact Hdll|done|by eapply list_rep_conns|].
    intros i ([a j]&->&Hin)%list_elem_of_fmap. destruct (Hp _ _ Hin) as (rc&c&Hj&_). cbn. rewrite Hj. by eexists. }
  intros ? w1 [He Ho]. apply wp_bind, wp_modify, wp_bind. eapply free_ent_spec.
  { cbn. rewrite He, decide_False; [exact Hh|done]. }
  apply HQ. split; cbn; [|done]. intros b. destruct (decide (b = h)) as [->|Hne].
  - rewrite lookup_delete_eq, decide_True; [done|]. apply elem_of_app. right. by apply list_elem_of_singleton.
  - rewrite lookup_delete_ne by done. rewrite He. apply decide_ext.
    rewrite elem_of_app, list_elem_of_singleton. tauto.
Qed.

Lemma release_pool_spec fuel ts : forall w, entries_ok (w_conn w) ts ->
  (forall ep h l, (ep, (h, l)) ∈ ts -> (length l <= fuel)%nat) ->
  wp safe (release_pool fuel ((fun x => (x.1, x.2.1)) <$> ts))
    (fun _ w' => dropped (nodes_in ts) (conns_in ts) (w_conn w) (w_conn w')) w.
Proof.
  induction ts as [|[ep [h l]] ts IH]; intros w (Hnd&Hl&Hdis) Hfuel; [by apply wp_ret, dropped_nil|].
  cbn [fmap list_fmap fst snd release_pool]. cbn in Hnd. apply NoDup_cons in Hnd as [Hep Hnd].
  assert (list_rep (w_conn w) ep h l) as Hl0 by (apply Hl; by left).
  assert (forall ep' h' l', (ep', (h', l')) ∈ ts -> ep <> ep') as Hne.
  { intros ep' h' l' Hin ->. apply Hep, list_elem_of_fmap. by exists (ep', (h', l')). }
  assert (forall ep' h' l', (ep', (h', l')) ∈ ts -> forall i, i ∈ l.*2 -> i ∉ l'.*2) as Hconns.
  { intros ep' h' l' Hin i ([a ?]&->&Ha)%list_elem_of_fmap ([b ?]&E&Hb)%list_elem_of_fmap. cbn in E.
    destruct (Hl ep' h' l' ltac:(by right)) as (_&_&Hp'). subst.
    destruct (proj2 (proj2 Hl0) _ _ Ha) as (?&?&H1&_&E1), (Hp' _ _ Hb) as (?&?&H2&_&E2).
    apply (Hne _ _ _ Hin). congruence. }
  apply release_head_spec with l; [done|apply (Hfuel ep h l); by left|]. intros w1 Hd1.
  eapply wp_mono; [eapply IH|].
  - split_and!; [done| |].
    + intros ep' h' l' Hin. eapply dropped_list_rep; [exact Hd1|apply Hl; by right| |].
      * intros a Ha Hin'. eapply (Hdis ep h l ep' h' l'); [by left|by right|by eapply Hne| |exact Ha].
        apply elem_of_app in Hin' as [?| ->%list_elem_of_singleton]; [by right|by left].
      * intros i Hi Hi'. by eapply Hconns.
    + intros * H1 H2. apply (Hdis ep1 h1 l1 ep2 h2 l2); by right.
  - intros ep' h' l' Hin. eapply Hfuel. by right.
  - intros ? w2 Hd2. refine (dropped_app _ _ _ _ _ _ _ _ Hd1 Hd2).
    intros i Hi Hi2. apply list_elem_of_bind in Hi2 as ((ep'&h'&l')&Hi2&Hin). by eapply Hconns.
Qed.

Lemma close_servers_spec l : forall w,
  wp (fun _ => Forall (fun fd => 0 <= fd) l) (close_servers l) (fun _ w' =>
    Exists (fun fd => fd < 0) l /\ w_conn w' = w_conn w) w.
Proof.
  induction l as [|fd l IH]; intros w; cbn [close_servers]; [by constructor|].
  destruct (Z.ltb_spec fd 0); [apply wp_ret; split; [by left|done]|]. apply wp_bind, wp_modify.
  eapply wp_undef_mono; [eapply wp_mono; [apply IH|]|].
  - intros ? w1 [H1 H2]. split; [by right|done].
  - intros ? H1. by constructor.
Qed.

(** The entries of a pool that is represented by [T]. *)
Lemma pool_entries s T : pool_rep s T -> NoDup (free_pool s).*1 ->
  exists ts, free_pool s = ((fun x => (x.1, x.2.1)) <$> ts) /\ entries_ok s ts /\
    forall ep hl, (ep, hl) ∈ ts <-> T !! ep = Some hl.
Proof.
  intros (Hf&Hl&Hd) Hnd.
  set (entry := fun kv : conn_endpoint * positive => (kv.1, (kv.2, match T !! kv.1 with Some hl => hl.2 | None => [] end))).
  assert (forall ep hl, (ep, hl) ∈ entry <$> free_pool s <-> T !! ep = Some hl) as Hin.
  { intros ep [h l]. rewrite list_elem_of_fmap. split.
    - intros ([ep' h']&E&Hk). injection E as -> -> ->. apply tbl_find_elem in Hk; [|done]. rewrite Hf in Hk.
      cbn. destruct (T !! ep') as [[h2 l2]|]; [|done]. by injection Hk as ->.
    - intros HT. exists (ep, h). split; [unfold entry; cbn; by rewrite HT|].
      apply tbl_find_elem; [done|]. by rewrite Hf, HT. }
  exists (entry <$> free_pool s). split; [|split; [split_and!|exact Hin]].
  - rewrite <-list_fmap_compose. rewrite <-(list_fmap_id (free_pool s)) at 1. apply list_fmap_ext. by intros ? [].
  - rewrite <-list_fmap_compose. erewrite list_fmap_ext; [exact Hnd|]. by intros ? [].
  - intros * H. by apply Hl, Hin.
  - intros * H1 H2 Hne a Ha. eapply (Hd ep1 ep2); [by apply Hin..|done|done].
Qed.
End stopping.

(** [conn_module_done] releases the pool of idle connections: every element
    and every head of the lists is freed, [free_pool] is empty, each connection
    of the pool loses the reference of the pool and is destroyed if that was the
    last, and the others are left alone.  It reads behind [sfds], however, when
    all 32 places are taken. *)
Theorem module_done_releases {K} `{!Kernel K} (fuel : nat) (T : pool_lists) (w : world K)
    (Hrep : pool_rep (w_conn w) T) (Hkeys : NoDup (free_pool (w_conn w)).*1)
    (Hfuel : forall ep h l, T !! ep = Some (h, l) -> (length l <= fuel)%nat) :
  match conn_module_done fuel w with
  | Ok _ w' => Exists (fun fd => fd < 0) (sfds (w_serve w)) /\ free_pool (w_conn w') = [] /\
      (forall ep h l, T !! ep = Some (h, l) -> forall a, a ∈ h :: l.*1 -> ents (w_conn w') !! a = None) /\
      (forall a, (forall ep h l, T !! ep = Some (h, l) -> a ∉ h :: l.*1) ->
         ents (w_conn w') !! a = ents (w_conn w) !! a) /\
      (forall i, listed T i -> objs (w_conn w') !! i = released (objs (w_conn w) !! i)) /\
      (forall i, ~ listed T i -> objs (w_conn w') !! i = objs (w_conn w) !! i)
  | Undef _ => Forall (fun fd => 0 <= fd) (sfds (w_serve w))
  | NoFuel => False
  end.
Proof.
  destruct (pool_entries _ _ Hrep Hkeys) as (ts&Et&Hok&Hts).
  match goal with |- match ?m w with Ok ret w1 => @?Q ret w1 | Undef w2 => @?U w2 | _ => _ end =>
    change (wp U m Q w) end.
  unfold conn_module_done. wp_step. eapply wp_seq; [apply close_servers_spec|]. intros ? w1 [Hneg Ec].
  wp_step. rewrite Ec, Et. eapply wp_seq.
  { eapply (wp_undef_mono _ safe); [|by intros ? []]. apply release_pool_spec; [by rewrite Ec|].
    intros * Hin. by eapply Hfuel, Hts. }
  intros ? w2 [He Ho]. rewrite Ec in He, Ho. apply wp_modify. split_and!; [done|done| | | |].
  - intros ep h l HT x Hx. cbn. rewrite He, decide_True; [done|]. apply list_elem_of_bind.
    exists (ep, (h, l)). split; [|by apply Hts]. apply elem_of_app. rewrite list_elem_of_singleton.
    apply elem_of_cons in Hx. tauto.
  - intros x Hx. cbn. rewrite He, decide_False; [done|]. intros Hin.
    apply list_elem_of_bind in Hin as ((ep&h&l)&Hin&HT). apply Hts, Hx in HT. apply HT.
    apply elem_of_app in Hin. rewrite list_elem_of_singleton in Hin. apply elem_of_cons. cbn in Hin. tauto.
  - intros i (ep&h&l&x&HT&Hx). cbn. rewrite Ho, decide_True; [done|]. apply list_elem_of_bind.
    exists (ep, (h, l)). split; [|by apply Hts]. apply list_elem_of_fmap. by exists (x, i).
  - intros i Hn. cbn. rewrite Ho, decide_False; [done|]. intros Hin.
    apply list_elem_of_bind in Hin as ((ep&h&l)&Hin&HT). apply Hn. apply Hts in HT.
    apply list_elem_of_fmap in Hin as ([x j]&->&Hx). by exists ep, h, l, x.
Qed.

(** One idle connection, which nothing else refers to. *)
Definition idle_lists : pool_lists := {[pool_ep := (2%positive, [(1%positive, 1%positive)])]}.
Definition idle_world : world dkernel :=
  put_conns (ConnState {[1%positive := (1, with_apool (pool_conn 5) (Some 1%positive))]} [(pool_ep, 2%positive)]
    (<[2%positive := PoolEnt None None (Some 1%positive)]>
      {[1%positive := PoolEnt (Some 1%positive) (Some 2%positive) None]})) dworld.

Lemma idle_rep : pool_rep (w_conn idle_world) idle_lists.
Proof.
  assert (forall ep h l, idle_lists !! ep = Some (h, l) -> ep = pool_ep /\ h = 2%positive /\ l = [(1%positive, 1%positive)]) as Hinv.
  { unfold idle_lists. intros ep h l [<- [= <- <-]]%lookup_singleton_Some. done. }
  split_and!.
  - intros ep. cbn [free_pool w_conn put_conns idle_world tbl_find]. unfold idle_lists.
    case_decide as E; [subst; by rewrite lookup_singleton_eq|by rewrite lookup_singleton_ne].
  - intros ep h l (->&->&->)%Hinv. split_and!.
    + compute_done.
    + cbn [nodes_of dll fmap list_fmap prod_map id fst snd ents w_conn put_conns idle_world].
      split; [done|]. exists (Some 1%positive). split; [apply lookup_insert_eq|]. split; [done|]. exists None.
      split; [by rewrite lookup_insert_ne, lookup_singleton_eq|done].
    + intros a i Hin%list_elem_of_singleton. injection Hin as -> ->. eexists 1, _. split; [apply lookup_singleton_eq|done].
  - intros ep1 ep2 h1 l1 h2 l2 H1 H2 Hne. apply Hinv in H1 as [-> _], H2 as [-> _]. done.
Qed.

Lemma module_done_releases_witness : exists w',
  conn_module_done 1 idle_world = Ok () w' /\ free_pool (w_conn w') = [] /\ objs (w_conn w') !! 1%positive = None.
Proof.
  pose proof (module_done_releases 1 idle_lists idle_world idle_rep) as H.
  destruct (conn_module_done 1 idle_world) as [[] w'|w'|] eqn:E.
  - destruct H as (_&Hf&_&_&Ho&_).
    + apply NoDup_singleton.
    + unfold idle_lists. intros ep h l [<- [= <- <-]]%lookup_singleton_Some. cbn. lia.
    + exists w'. split_and!; [done..|]. rewrite Ho; [reflexivity|].
      exists pool_ep, 2%positive, [(1%positive, 1%positive)], 1%positive.
      split; [apply lookup_singleton_eq|by left].
  - vm_compute in E. discriminate E.
  - vm_compute in E. discriminate E.
Defined.

(** ** Opening a connection *)

(** The open descriptors: [socket] opens one, and [close] alone closes any. *)
Class KernelOpen (K : Type) `{!Kernel K} := {
  k_opened : K -> gset Z;
  k_socket_opens a k : 0 <= (k_socket a k).1 -> (k_socket a k).1 ∈ k_opened (k_socket a k).2;
  k_io_opened k k' : io_step k k' -> k_opened k ⊆ k_opened k';
  k_add_opened f k : k_opened k ⊆ k_opened (k_epoll_ctl_add f k).2;
  k_del_opened f k : k_opened k ⊆ k_opened (k_epoll_ctl_del f k).2
}.

Section opening.
Context {K : Type} `{!Kernel K, !KernelOpen K} (f : Z).
Implicit Types (w : world K).

(** [f] stays open, and the connections are as they were. *)
Definition open_still w w' : Prop := w_conn w' = w_conn w /\ f ∈ k_opened (w_k w').

Lemma open_sys U {A} (g : K -> A * K) w Q :
  f ∈ k_opened (w_k w) -> (forall k, k_opened k ⊆ k_opened (g k).2) ->
  (forall k, f ∈ k_opened k -> Q (g (w_k w)).1 (put_k k w)) -> wp U (sys (lift g)) Q w.
Proof using Type.
  intros Hf Hg HQ. unfold wp, sys, lift. specialize (Hg (w_k w)). destruct (g (w_k w)) as [a k].
  apply HQ. by apply Hg.
Qed.

Lemma open_add U err d w :
  f ∈ k_opened (w_k w) -> wp U (net_pull_add f err d) (fun _ w' => open_still w w') w.
Proof using Type.
  intros Hf. unfold net_pull_add. apply wp_bind, open_sys; [done|apply k_add_opened|]. intros k Hk.
  destruct (_ <? 0); [by apply wp_ret|]. wp_step.
  destruct (tbl_find _ _); [apply wp_bind, wp_ret|apply wp_bind, wp_modify]; by apply wp_bind, wp_modify, wp_ret.
Qed.

Lemma open_del U w : f ∈ k_opened (w_k w) -> wp U (net_pull_del f) (fun _ w' => open_still w w') w.
Proof using Type.
  intros Hf. unfold net_pull_del. wp_step. destruct (tbl_find _ _); [|by apply wp_ret].
  apply wp_bind, open_sys; [done|apply k_del_opened|]. intros k Hk.
  destruct (_ <? 0); [by apply wp_ret|]. by apply wp_bind, wp_modify, wp_ret.
Qed.
End opening.

(** When an asynchronous connect fails, [conn_get_by_endpoint] forgets the
    new socket without closing it: it gives null, every connection object is as
    it was before the call, so that none refers to the socket, and its
    descriptor is still open. *)
Theorem connect_failure_leaks {K} `{!Kernel K, !KernelOpen K} (yield : conn_notice -> M (world K) Z)
    (ep : conn_endpoint) (fd : Z) (w : world K)
    (Hpool : tbl_find ep (free_pool (w_conn w)) = None)
    (Hfd : fd = (k_socket (family ep) (w_k w)).1) (Hpos : 0 <= fd)
    (Hfl : forall k, 0 <= (k_fcntl_getfl fd k).1 /\ forall o, 0 <= (k_fcntl_setfl fd o k).1)
    (Hconnect : forall k, (k_connect fd ep k).1 = (-1, EINPROGRESS))
    (Hyield : forall w1, wp safe (yield (CONN_IO_WILL_BLOCK fd EPOLLIN)) (fun y w2 => y = -1 /\
       w_conn w2 = w_conn w1 /\ k_opened (w_k w1) ⊆ k_opened (w_k w2)) w1) :
  exists w', conn_get_by_endpoint yield ep w = Ok None w' /\
    objs (w_conn w') = objs (w_conn w) /\ fd ∈ k_opened (w_k w').
Proof.
  destruct (wp_Ok (conn_get_by_endpoint yield ep) (fun r w' => r = None /\
    objs (w_conn w') = objs (w_conn w) /\ fd ∈ k_opened (w_k w')) w) as (?&w'&Hrun&->&H); [|by exists w'].
  unfold conn_get_by_endpoint. apply wp_bind. unfold conn_addrpool_try_get_and_del. wp_step. rewrite Hpool.
  apply wp_ret. assert (fd ∈ k_opened (k_socket (family ep) (w_k w)).2) as Hopen.
  { rewrite Hfd. apply k_socket_opens. by rewrite <-Hfd. }
  apply wp_bind. unfold wp at 1, sys, lift. destruct (k_socket (family ep) (w_k w)) as [fd0 k0]. cbn in Hfd, Hopen.
  subst fd0. if_false. assert (forall z, 0 <= z -> (z <? 0) = false) as Hz by (intros; by apply Z.ltb_ge).
  apply wp_bind. unfold net_setnonblocking.
  apply wp_bind, (open_sys fd); [done|intros; apply k_io_opened; constructor|]. intros k1 H1.
  rewrite Hz by apply Hfl. apply wp_bind, (open_sys fd); [done|intros; apply k_io_opened; constructor|]. intros k2 H2.
  rewrite Hz by apply Hfl. apply wp_ret. cbn [Z.ltb Z.compare].
  apply wp_bind, (open_sys fd); [done|intros; apply k_io_opened; constructor|]. intros k3 H3.
  rewrite Hconnect. cbn [fst snd Z.ltb Z.compare andb]. rewrite Z.eqb_refl. cbn [negb].
  apply wp_bind. unfold mem_alloc_auto. wp_step. apply wp_bind, wp_modify, wp_ret.
  set (i := fresh _). eapply wp_seq; [by apply (open_add fd)|]. intros ? w4 [E4 H4].
  eapply wp_seq; [apply Hyield|]. intros ? w5 (->&E5&H5). cbn [Z.eqb Pos.eqb].
  eapply wp_seq; [by apply (open_del fd), H5|]. intros ? w6 [E6 H6].
  apply wp_bind. unfold mem_decref, load_obj. apply wp_bind. wp_step. eapply wp_demand.
  { rewrite E6, E5, E4. cbn. by rewrite lookup_insert_eq. }
  apply wp_bind, wp_modify. cbn [fst Z.sub Z.opp Z.add Z.pos_sub Z.eqb]. apply wp_bind, wp_ret, wp_bind. wp_step.
  eapply wp_demand; [cbn; by rewrite lookup_insert_eq|]. apply wp_bind, wp_modify, wp_ret, wp_ret.
  split_and!; [done| |exact H6]. cbn. rewrite E6, E5, E4. cbn. rewrite !delete_insert_eq.
  apply delete_id. unfold i. apply not_elem_of_dom, is_fresh.
Qed.

#[export] Instance demo_open : KernelOpen dkernel.
Proof.
  refine {| k_opened := fun k => list_to_set (dk_open k) |}.
  - intros a k _. cbn. set_solver.
  - intros k k' []; cbn; repeat case_match; simplify_eq/=; set_solver.
  - intros f k. cbn. by case_decide.
  - intros f k. cbn. by case_decide.
Defined.

Lemma connect_failure_leaks_witness :
  exists w', conn_get_by_endpoint (fun _ => mret (-1)) other_ep dworld = Ok None w' /\
    objs (w_conn w') = ∅ /\ 5 ∈ k_opened (w_k w').
Proof.
  apply (connect_failure_leaks (fun _ => mret (-1)) other_ep 5 dworld).
  - reflexivity.
  - reflexivity.
  - lia.
  - intros k. split; intros; cbn; lia.
  - reflexivity.
  - intros w1. apply wp_ret. by split_and!.
Defined.
