(* ===== verification/RunProps.v ===== *)
(** Whole runs of the program: what holds in every state the main loop reaches
    when the coroutines are the code of net_handle.c and net_http.c. *)

From S2P Require Import Prelude CLib Outcome ConnIf Sim Table Event Async NetPull NetPullProps Registry World Conn.
From S2P Require Import ConnLink DemoKernel ConnLoop Server NetUtils NetData NetHandle AlwaysIO AlwaysWorld Arg Accept.
From S2P Require Import Coroutine Main AlwaysRun ReplayFacts Waiting.

#[local] Open Scope Z_scope.

(** ** The registry *)

Section registry.
Context {K : Type} `{!Kernel K, !KernelPull K}.

#[export] Instance registry_keeps `{!Suspend K} :
  (forall n, always registry_ok (suspend n)) -> KeepsWorld (K := K) registry_ok.
Proof.
  intros Hs. split.
  1-5: by intros.
  - intros k w Hk. apply registry_ok_same; [done|]. cbn. by rewrite (k_io_interest _ _ Hk).
  - intros fd w Hw. exact (close_registry fd w Hw).
  - apply add_registry.
  - apply set_handler_registry.
  - apply del_registry.
  - done.
Qed.

#[export] Instance registry_pull : KeepsPull (K := K) registry_ok.
Proof using KernelPull0.
  split.
  - intros e k w E (Ht&Hc&Hs). pose proof (k_create_interest (w_k w)) as Hi. rewrite E in Hi.
    split_and!; [done..|]. intros fd. cbn in *. rewrite Hi. apply Hs.
  - intros evs k w E Hw. pose proof (wait_law w) as L. cbn in L. unfold lift in L. rewrite E in L. destruct L as [Hp Hi].
    eapply registry_ok_same; [exact Hp| |exact Hw]. cbn in *. by rewrite Hi.
  - intros fd e w He Hw. refine (registry_ok_set (W := world K) w fd (cleared e) Hw _).
    destruct (proj2 (proj1 Hw) _ _ He) as (?&?&?&?). split_and!; [done|by intros []..|done].
Qed.
End registry.

(** ** A run of the whole program *)

Definition demo_request : list ascii := lit "GET http://a/x HTTP/1.1" ++ CRLF ++ lit "Host: a" ++ CRLF ++ CRLF.
Definition demo_response (version : list ascii) : list ascii :=
  version ++ lit " 200 OK" ++ CRLF ++ lit "Content-Length: 5" ++ CRLF ++ CRLF ++ lit "hello".

(** A client in the backlog of the listening socket 5; epoll reports it, then
    the end of the lookup on the descriptor 4, and twice that the connection to the server can
    be used.  The client sends its requests and no more. *)
Definition demo_start (requests : list ascii) (response : list (list ascii)) (events : list (list (Z * Z))) :
    async_state (thread dkernel) * world dkernel :=
  (AsyncState ∅ None 0,
   put_pull pull_state0
     (put_k (DKernel (Sim {[6 := [requests; []; []]; 7 := response]} ∅ ∅ ∅ false 200) [3; 4] [] []
               [Endpoint AF_INET 80 [10; 0; 0; 7]]
               ([[(EPOLLIN, 5)]; [(EPOLLIN, 4)]; [(EPOLLOUT, 7)]] ++ events) []) dworld)).
Definition demo_arg : proxy_arg_t := ProxyArg 8080 (lit "0.0.0.0") 3 None.

#[export] Instance demo_threads : Coroutines (thread dkernel) (async_state (thread dkernel) * world dkernel) :=
  thread_code 50.

(** The state after a computation that returns. *)
Definition after {W A} (m : M W A) (w : W) : W :=
  match m w with Ok _ w' | Undef w' => w' | NoFuel => w end.

Lemma after_ok {W A} (m : M W A) (w : W) a :
  match m w with Ok r _ => Some r | _ => None end = Some a -> m w = Ok a (after m w).
Proof. unfold after. destruct (m w); by intros [= ->]. Qed.

(** The state after [n] rounds of the main loop. *)
Fixpoint demo_rounds (n : nat) (w : async_state (thread dkernel) * world dkernel) :=
  match n with
  | O => w
  | S n => demo_rounds n (after (net_pull_work (call_pull 20)) (after (event_work call_event 20) w))
  end.

Definition returns0 {W} (m : M W Z) (w : W) : bool :=
  match m w with Ok ret _ => bool_decide (ret = 0) | _ => false end.
Fixpoint rounds_return (n : nat) (w : async_state (thread dkernel) * world dkernel) : bool :=
  match n with
  | O => true
  | S n =>
      returns0 (event_work call_event 20) w &&
      let w := after (event_work call_event 20) w in
      returns0 (net_pull_work (call_pull 20)) w && rounds_return n (after (net_pull_work (call_pull 20)) w)
  end.

Lemma returns0_ok {W} (m : M W Z) w : returns0 m w = true -> m w = Ok 0 (after m w).
Proof. unfold returns0, after. destruct (m w); [|done..]. by intros ->%bool_decide_eq_true. Qed.

Lemma demo_rounds_reached arg w0 w n :
  modules_init arg w0 = Ok 0 w -> rounds_return n w = true -> reached arg w0 (demo_rounds n w).
Proof.
  intros Hi Hn. exists w. split; [done|]. clear Hi. revert w Hn.
  induction n as [|n IH]; intros w; cbn [rounds_return demo_rounds]; [by constructor|]. intros [H1 [H2 H3]%andb_true_iff]%andb_true_iff.

  apply returns0_ok in H1, H2. eapply rtc_l; [by exists 20%nat, 0; left|].
  eapply rtc_l; [by exists 20%nat, 0; right|]. by apply IH.
Qed.

(** A response of HTTP/1.1: the end of the run, after five rounds. *)
Definition demo_start11 := demo_start demo_request [demo_response (lit "HTTP/1.1"); []] [[(EPOLLIN, 7)]; []].
Definition demo_init11 := after (modules_init demo_arg) demo_start11.
Definition demo_end11 := demo_rounds 5 demo_init11.

Lemma demo_reached11 : reached demo_arg demo_start11 demo_end11.
Proof.
  apply (demo_rounds_reached demo_arg demo_start11 demo_init11 5);
    [apply (after_ok (modules_init demo_arg) demo_start11 0)|]; vm_compute; reflexivity.
Qed.

(** What was sent on a descriptor. *)
Definition sent_on (fd : Z) {Pc} (w : async_state Pc * world dkernel) : list ascii := sim_sent (dk_io (w_k w.2)) fd.

Definition what_waits {Pc} (w : async_state Pc * world dkernel) : list (positive * option conn_notice) :=
  prod_map id yielded <$> map_to_list (cxts w.1).

(** The proxy has passed the request on to the server and the response to the client,
    and its two coroutines wait for the next request. *)
Example proxied :
  sent_on 7 demo_end11 = lit "GET /x HTTP/1.1" ++ CRLF ++ lit "Host: a" ++ CRLF ++ CRLF /\
  sent_on 6 demo_end11 = demo_response (lit "HTTP/1.1") /\
  what_waits demo_end11 = [(2%positive, Some (CONN_WAIT_FOR_EVENT 1)); (1%positive, Some (CONN_IO_WILL_BLOCK 6 EPOLLIN))].
Proof. vm_compute. by split_and!. Qed.

(** The same run goes on: the client closes its connection. *)
Definition demo_start_eof := demo_start demo_request [demo_response (lit "HTTP/1.1"); []]
  [[(EPOLLIN, 7)]; []; [(EPOLLIN, 6)]; [(EPOLLIN, 6)]; []].
Definition demo_init_eof := after (modules_init demo_arg) demo_start_eof.
Definition demo_end_eof := demo_rounds 8 demo_init_eof.

Lemma demo_reached_eof : reached demo_arg demo_start_eof demo_end_eof.
Proof.
  apply (demo_rounds_reached demo_arg demo_start_eof demo_init_eof 8);
    [apply (after_ok (modules_init demo_arg) demo_start_eof 0)|]; vm_compute; reflexivity.
Qed.

(** On this script a whole session is served, from [proxy_main]'s initialisation to the end of the
    client's connection: its request reaches the server, without the host, and
    the response reaches it unchanged; when it closes the connection both coroutines end,
    and with them everything that was allocated for it is freed (their contexts and stacks, the
    shared context, requests, connections, pool entries, events), and the registry
    has the descriptors it had at first. *)
Example session_completes :
  reached demo_arg demo_start_eof demo_end_eof /\
  sent_on 7 demo_end_eof = lit "GET /x HTTP/1.1" ++ CRLF ++ lit "Host: a" ++ CRLF ++ CRLF /\
  sent_on 6 demo_end_eof = demo_response (lit "HTTP/1.1") /\
  cxts demo_end_eof.1 = ∅ /\
  hcxts (w_handle demo_end_eof.2) = ∅ /\ reqs (w_handle demo_end_eof.2) = ∅ /\
  objs (w_conn demo_end_eof.2) = ∅ /\ World.ents (w_conn demo_end_eof.2) = ∅ /\
  handlers (w_event demo_end_eof.2) = [] /\ nodes (w_event demo_end_eof.2) = ∅ /\
  (p_handlers (w_pull demo_end_eof.2)).*1 = (p_handlers (w_pull demo_init_eof.2)).*1 /\
  fd_cnt (w_pull demo_end_eof.2) = fd_cnt (w_pull demo_init_eof.2).
Proof. split; [exact demo_reached_eof|]. vm_compute. by split_and!. Qed.

(** C12: from an empty registry on, in every state the main loop reaches, the
    descriptors of the registry are distinct, each entry has its descriptor and
    a datum for every handler that is set, [fd_cnt] is at least their number, and the
    kernel watches no descriptor that has no entry, so that no event it reports
    is lost in [net_pull_work]. *)
Theorem registry_throughout {K} `{!Kernel K, !KernelPull K} (fuel : nat)
    (arg : proxy_arg_t) (w w' : async_state (thread K) * world K)
    (Hempty : p_handlers (w_pull w.2) = [] /\ fd_cnt (w_pull w.2) = 0 /\ k_interest (w_k w.2) = ∅)
    (Hcxts : cxts w.1 = ∅) (Hrun : reached (Coroutines0 := thread_code fuel) arg w w') :
  table_wf (p_handlers (w_pull w'.2)) /\
  Z.of_nat (length (p_handlers (w_pull w'.2))) <= fd_cnt (w_pull w'.2) /\
  forall fd, fd ∈ k_interest (w_k w'.2) -> is_Some (tbl_find fd (p_handlers (w_pull w'.2))).
Proof.
  set (S := (fun _ => no_fuel) : Suspend K). destruct Hempty as (Ht&Hc&Hi).
  assert (KeepsWorld (K := K) registry_ok) as HK by (apply registry_keeps; auto with always).
  assert (registry_ok w'.2) as (Hwf&Hcnt&Hsub).
  { eapply replayed_kept; [exact HK|exact _| |exact Hcxts|exact Hrun]. split_and!; cbn; rewrite ?Ht, ?Hc, ?Hi;
      [split; [constructor|done]|done|set_solver]. }
  split_and!; [done..|]. intros fd Hfd. by apply tbl_find_keys, Hsub.
Qed.

Lemma registry_throughout_witness :
  reached demo_arg demo_start11 demo_end11 /\
  (p_handlers (w_pull demo_end11.2)).*1 = [4; 5; 6; 7] /\ dk_epoll (w_k demo_end11.2) = [7; 6; 5; 4] /\
  forall fd, fd ∈ k_interest (w_k demo_end11.2) -> is_Some (tbl_find fd (p_handlers (w_pull demo_end11.2))).
Proof.
  split; [exact demo_reached11|]. split; [vm_compute; reflexivity|]. split; [vm_compute; reflexivity|].
  eapply (registry_throughout 50 demo_arg demo_start11 demo_end11).
  - split_and!; reflexivity.
  - reflexivity.
  - exact demo_reached11.
Defined.

(** ** The state machine of the contexts *)

Lemma thread_code_frame {K} `{!Kernel K} fuel (t : thread K) v (w : async_state (thread K) * world K) :
  partial (code (Coroutines := thread_code fuel) t v) (fun _ w' => w'.1 = w.1) w.
Proof. unfold partial. cbn [code thread_code]. by destruct (run_piece fuel t v w.2) as [[n|] ?|?|]. Qed.

(** C13: from a state without coroutines on, in every state the main loop reaches
    no coroutine is running and every context that is allocated has been
    suspended by [async_yield] with a notice of what it waits for: a context
    whose function has returned is freed at once. *)
Theorem contexts_wait {K} `{!Kernel K} (fuel : nat) (arg : proxy_arg_t) (w w' : async_state (thread K) * world K)
    (Hcxts : cxts w.1 = ∅) (Hcall : call_cxt w.1 = None)
    (Hrun : reached (Coroutines0 := thread_code fuel) arg w w') :
  call_cxt w'.1 = None /\
  forall x c, cxts w'.1 !! x = Some c -> a_stat c = ASYNC_PAUSE /\ is_Some (yielded c).
Proof.
  destruct (reached_waiting (Coroutines0 := thread_code fuel) (thread_code_frame fuel) arg w w') as [H1 H2]; [done..|].
  split; [done|]. intros x c Hx. eapply H2; [exact Hx|set_solver].
Qed.

Lemma contexts_wait_witness :
  reached demo_arg demo_start11 demo_end11 /\
  what_waits demo_end11 = [(2%positive, Some (CONN_WAIT_FOR_EVENT 1)); (1%positive, Some (CONN_IO_WILL_BLOCK 6 EPOLLIN))] /\
  call_cxt demo_end11.1 = None /\
  forall x c, cxts demo_end11.1 !! x = Some c -> a_stat c = ASYNC_PAUSE /\ is_Some (yielded c).
Proof.
  split; [exact demo_reached11|]. split; [vm_compute; reflexivity|].
  refine (contexts_wait 50 demo_arg demo_start11 demo_end11 _ _ _); [reflexivity..|exact demo_reached11].
Defined.

(** ** The flag that is never set *)

Definition no_exit_flag {K} (w : world K) : Prop :=
  forall x c, hcxts (w_handle w) !! x = Some c -> rsp_will_exited c = false.

Section flag.
Context {K : Type} `{!Kernel K, !Suspend K}.

#[export] Instance flag_keeps : (forall n, always (no_exit_flag (K := K)) (suspend n)) -> KeepsWorld (K := K) no_exit_flag.
Proof.
  intros Hs. apply handle_keeps_world; [|done|].
  - intros w w' E. unfold no_exit_flag. by rewrite E.
  - intros s w Hk Hw x c' Hc. destruct (Hk x c' Hc) as [|(c&Hx&->)]; [done|by eapply Hw].
Qed.

(** [req_done] without the test of [rsp_will_exited]. *)
Definition req_done_waits x (client : positive) (ret : Z) : M (world K) Z :=
  _ ← set_h x (fun c => with_req_will_exit c true);
  c ← load_h x;
  _ ← event_post (ev_notice_rsp c) 0;
  _ ← wait_req x;
  c ← load_h x;
  _ ← close_pool x (hc_pool c);
  c ← load_h x;
  _ ← drop_list (hc_list c);
  _ ← event_free_id (ev_notice_req c);
  _ ← mem_decref client conn_done;
  _ ← h_update (fun s => with_hcxts s (delete x (hcxts s)));
  mret ret.

Lemma req_done_always_waits x client ret w :
  no_exit_flag w -> req_done x client ret w = req_done_waits x client ret w.
Proof.
  intros Hw. unfold req_done, req_done_waits, set_h, load_h. unfold mbind, M_bind, get, demand.
  destruct (hcxts (w_handle w) !! x) as [c|] eqn:Ec; [|done]. unfold save_h, h_update, modify, mret, M_ret. cbn.
  rewrite lookup_insert_eq. cbn. rewrite (Hw _ _ Ec).
  match goal with |- context [event_post ?e 0 ?w] => destruct (event_post e 0 w) as [? w3| |] end; [|done..].
  by destruct (wait_req x w3).
Qed.

#[export] Instance flag_pull : KeepsPull (K := K) no_exit_flag.
Proof. by split. Qed.
End flag.

(** C25: [rsp_will_exited] is never set: in every state the main loop reaches
    it is 0 in every context.  Therefore the request coroutine on its way out
    always waits once more for its event, even when the response coroutine has ended and nobody
    is left to post it. *)
Theorem exit_flag_never_set {K} `{!Kernel K} (fuel : nat)
    (arg : proxy_arg_t) (w w' : async_state (thread K) * world K)
    (Hempty : hcxts (w_handle w.2) = ∅) (Hcxts : cxts w.1 = ∅)
    (Hrun : reached (Coroutines0 := thread_code fuel) arg w w') :
  no_exit_flag w'.2 /\
  forall `{!Suspend K} x client ret v, no_exit_flag v -> req_done x client ret v = req_done_waits x client ret v.
Proof.
  split; [|intros; by apply req_done_always_waits]. set (S := (fun _ => no_fuel) : Suspend K).
  assert (KeepsWorld (K := K) no_exit_flag) as HK by (apply flag_keeps; auto with always).
  eapply replayed_kept; [exact HK|exact _| |exact Hcxts|exact Hrun]. intros x c. by rewrite Hempty.
Qed.

Lemma exit_flag_never_set_witness :
  reached demo_arg demo_start11 demo_end11 /\ size (hcxts (w_handle demo_end11.2)) = 1%nat /\ no_exit_flag demo_end11.2.
Proof.
  split; [exact demo_reached11|]. split; [vm_compute; reflexivity|].
  destruct (exit_flag_never_set 50 demo_arg demo_start11 demo_end11) as [H _]; [reflexivity..|exact demo_reached11|exact H].
Defined.

(** ** A coroutine that is lost *)

(** A response of HTTP/1.0, after which the server closes the connection. *)
Definition demo_start10 := demo_start demo_request [demo_response (lit "HTTP/1.0")] [[(EPOLLIN, 7)]; []].
Definition demo_init10 := after (modules_init demo_arg) demo_start10.
Definition demo_end10 := demo_rounds 5 demo_init10.

Lemma demo_reached10 : reached demo_arg demo_start10 demo_end10.
Proof.
  apply (demo_rounds_reached demo_arg demo_start10 demo_init10 5);
    [apply (after_ok (modules_init demo_arg) demo_start10 0)|]; vm_compute; reflexivity.
Qed.

(** The coroutine [x] waits for a descriptor that has no entry in the registry:
    no entry and no queued event has its address, so that nobody will resume it. *)
Definition stranded {Pc K} (x : positive) (fd : Z) (w : async_state Pc * world K) : Prop :=
  (exists c flag, cxts w.1 !! x = Some c /\ a_stat c = ASYNC_PAUSE /\ yielded c = Some (CONN_IO_WILL_BLOCK fd flag)) /\
  tbl_find fd (p_handlers (w_pull w.2)) = None /\
  Forall (fun e => d_read e.2 <> Some (cxt_ptr x) /\ d_write e.2 <> Some (cxt_ptr x)) (p_handlers (w_pull w.2)) /\
  ev_head (w_event w.2) = None.

(** On this script: after the response of HTTP/1.0 the proxy closes the connection to the
    client from the response coroutine.  This removes the handler the request
    coroutine has set to wait for the next request: it is never resumed, and its
    stack, its context and the connection are never freed; the descriptor, whose
    number may be in use again by then, has been closed twice. *)
Example http10_strands_request :
  reached demo_arg demo_start10 demo_end10 /\
  sent_on 6 demo_end10 = demo_response (lit "HTTP/1.0") /\
  stranded 1 6 demo_end10 /\
  size (objs (w_conn demo_end10.2)) = 1%nat /\ length (filter (fun fd => fd = 6) (dk_closed (w_k demo_end10.2))) = 2%nat.
Proof.
  split; [exact demo_reached10|].
  split; [vm_compute; reflexivity|]. split; [|split; vm_compute; reflexivity].
  split; [|split; [vm_compute; reflexivity|split; [vm_compute; by repeat constructor|vm_compute; reflexivity]]].
  eexists _, _. split; [vm_compute; reflexivity|]. by split.
Qed.

(** ** Two coroutines that wait for each other *)

(** Two requests at once, for two servers; the connection to the second one fails, then
    the first one answers, and at last the connection to the client breaks. *)
Definition demo_start2 := demo_start
  (demo_request ++ lit "GET http://a:81/y HTTP/1.1" ++ CRLF ++ lit "Host: a" ++ CRLF ++ CRLF)
  [[]; []; demo_response (lit "HTTP/1.1"); []]
  [[(EPOLLERR, 8)]; []; [(EPOLLIN, 7)]; [(EPOLLERR, 6)]; []].
Definition demo_init2 := after (modules_init demo_arg) demo_start2.
Definition demo_end2 := demo_rounds 8 demo_init2.

Lemma demo_reached2 : reached demo_arg demo_start2 demo_end2.
Proof.
  apply (demo_rounds_reached demo_arg demo_start2 demo_init2 8);
    [apply (after_ok (modules_init demo_arg) demo_start2 0)|]; vm_compute; reflexivity.
Qed.

(** The coroutine [x] waits for an event, and no queued event and no descriptor will resume it. *)
Definition waits_for_event {Pc K} (x : positive) (eid : event_id) (w : async_state Pc * world K) : Prop :=
  (exists c, cxts w.1 !! x = Some c /\ a_stat c = ASYNC_PAUSE /\ yielded c = Some (CONN_WAIT_FOR_EVENT eid)) /\
  Forall (fun e => d_read e.2 <> Some (cxt_ptr x) /\ d_write e.2 <> Some (cxt_ptr x)) (p_handlers (w_pull w.2)) /\
  ev_head (w_event w.2) = None.

(** On this script: a request whose server cannot be reached, sent behind one that is still
    being answered, goes wrong in two ways.  The 502 for it is sent before the
    response to the first request.  And [net_req_handler], on its way out, posts its notice although
    the response coroutine waits for its server and not for that event: the notice only makes
    it try its read again.  When the response has been passed on it waits for a notice that does not
    come, and the request coroutine waits for it; no event is queued, no
    descriptor refers to either, and the end of the client's connection, though seen,
    resumes neither. *)
Example exit_notice_lost :
  reached demo_arg demo_start2 demo_end2 /\
  sent_on 6 demo_end2 = lit "HTTP/1.1 502 Bad Gateway" ++ CRLF ++ lit "Server: http-proxy" ++ CRLF ++ CRLF ++
    demo_response (lit "HTTP/1.1") /\
  (exists c, hcxts (w_handle demo_end2.2) !! 1%positive = Some c /\ hc_list c = [] /\ req_will_exit c = true /\
     (stat ∘ snd) <$> objs (w_conn demo_end2.2) !! client c = Some CONN_CLOSED /\
     waits_for_event 1 (ev_notice_req c) demo_end2 /\ waits_for_event 2 (ev_notice_rsp c) demo_end2).
Proof.
  split; [exact demo_reached2|]. split; [vm_compute; reflexivity|].
  eexists. split; [vm_compute; reflexivity|]. split; [reflexivity|]. split; [reflexivity|]. split; [vm_compute; reflexivity|].
  split; (split; [eexists; split; [vm_compute; reflexivity|by split]|split; [vm_compute; by repeat constructor|vm_compute; reflexivity]]).
Qed.

(** A malformed start line behind a request that is still being answered. *)
Definition demo_start3 := demo_start (demo_request ++ lit "nonsense" ++ CRLF ++ CRLF)
  [[]; demo_response (lit "HTTP/1.1")] [[(EPOLLIN, 7)]; []].
Definition demo_init3 := after (modules_init demo_arg) demo_start3.

(** [net_bad_request] answers it at once and closes the connection: the response to the
    first request, which the server has been sent, is never passed on. *)
Example bad_request_discards :
  modules_init demo_arg demo_start3 = Ok 0 demo_init3 /\ rounds_return 5 demo_init3 = true /\
  let w := demo_rounds 5 demo_init3 in
  sent_on 7 w = lit "GET /x HTTP/1.1" ++ CRLF ++ lit "Host: a" ++ CRLF ++ CRLF /\
  sent_on 6 w = lit "HTTP/1.1 400 Bad Request" ++ CRLF ++ lit "Server: http-proxy" ++ CRLF ++ CRLF /\ cxts w.1 = ∅.
Proof.
  split; [apply (after_ok (modules_init demo_arg) demo_start3 0); vm_compute; reflexivity|]. vm_compute. by split_and!.
Qed.
